(* ===== verification/_CoqProject ===== *)
-Q . S2P
Prelude.v
Machine.v
Proc.v
CText.v
CFloat.v
Sense.v
ProcessInit.v
Posix.v
Interfaces.v
Resources.v
SenseUtils.v
Acquiring.v
Processing.v
Registry.v
Replies.v
Throughput.v
TelemetryMain.v
UserHandler.v
ClientSensors.v
DevInterface.v
EndToEnd.v
Listener.v
Startup.v
Logging.v
Gateway.v
ClientMain.v
ClientRace.v
DevSession.v
