(* ===== verification/Prelude.v ===== *)
(** * Industrial data acquisition gateway: verification library

    The program is a chain of four daemons on an embedded device and two
    programs on the host.  A sensor client (src/sensor-sims/client-sensors.c)
    sends packets over TCP to acquiringd (src/src/acquiring_d.c), which cuts the
    byte stream into packets and puts each in a POSIX message queue;
    processingd (src/src/processing_d.c) checks a packet and makes a [Sensor_t]
    frame of it, which goes to the queues of loggingd (src/src/logging_d.c, one
    text file per sensor) and telemetryd (src/src/telemetry_d.c, a registry
    of at most 128 sensors with a watchdog thread and one thread per user);
    dev-interface (src/tester/dev-interface.c) asks telemetryd and shows the
    answers.  The daemons share src/src/sense_utils.c and
    src/src/process_init.c.

    ** Files

    Foundations, with no counterpart of their own in the sources:
    - [Prelude] notations, tactics, hint databases, lists of bytes;
    - [Machine] fixed-width integers, little-endian bytes;
    - [Proc] threads as state-passing programs, loops with a measure, and the
      weakest-precondition rules used by all proofs;
    - [CText] C strings, [snprintf], [strtoul], [strtoll], [sscanf], [strtok],
      [fgets]; [CFloat] the doubles the sources compute with, as exact dyadic
      numbers rounded to nearest even, with the printing of "%f" and "%.2f";
    - [Posix] the system calls of a thread: a script of events for [recv] and
      [mq_receive], one for [send] and [write], signals between and inside
      calls, and bounded message queues ordered by priority;
    - [Interfaces] what components promise each other, as classes: [Writer] for
      the four functions that put a text on a descriptor, [FrameReceiver] for
      the two that take a frame from a queue; the callers' proofs use the
      classes, each component proves its instance;
    - [Resources] descriptors, memory, threads and handlers of a process, for
      the [main]s; the class [Kernel] is what they rely on.

    The program:
    - [Sense] src/include/sense.h: types, constants, the 80 bytes of a frame;
    - [ProcessInit] the signal handler and [exitRQ];
    - [SenseUtils] src/src/sense_utils.c: names, scaled readings, registry
      entries, log records, [write_all];
    - [Acquiring] [socketConnectionHandler], [socket_recv], [forwardPacket];
    - [Processing] [main], [receivePacket], [generateFrame], [forwardFrame];
    - [Registry] the critical sections of telemetryd's [main] and watchdog as
      a transition system ([step], [steps]) over frames, growth and sweeps;
    - [TelemetryMain] the loop of telemetryd's [main], over that system;
    - [Replies] the [giveSensor*] functions, [Throughput] the rounding of the
      rate one of them prints; [UserHandler] [userHandler];
    - [Listener] both accept loops; [Startup] the four [main]s up to their
      loops, with [daemon_init], [signals_init], [ipc_init], [socket_init],
      [sensorWatchdog_init] and [userInterface_init];
    - [Logging] loggingd;
    - [ClientSensors] the data file, packets and sending loops of the simulator,
      [ClientMain] its connections, thread functions and [main], [ClientRace]
      the variable of [strtok] its threads share;
    - [DevInterface] requests, responses and latencies of the user's program,
      [DevSession] its connections and its two threads with their mutex, as a
      transition system;
    - [EndToEnd] the programs together, one after the other; [Gateway] the four
      daemons at once, as a transition system over their shared queues in
      which a step is one queue operation.

    A C function is a Rocq function of the same name.  A function that waits,
    fails or is interrupted is a [proc] on the state of its thread, a record
    that holds the environment's future answers and what the thread has done;
    the loop of a function is [iterate] of its body (suffix [_body]), whose
    arguments are the loop's local variables.  Pure functions return values;
    -1 stays the value -1 where the source returns it.

    ** Theorems

    - Streams: however [recv] divides the bytes, acquiringd forwards exactly
      the packets of the stream ([Acquiring.handler_forwards_stream]),
      telemetryd answers exactly the requests ([UserHandler.userHandler_answers])
      and the interface shows exactly the lines
      ([DevInterface.receive_until_end_lines]); in a failing environment the
      same up to where it failed ([handler_forwards_sublist],
      [userHandler_prefix]).
    - Daemons: processingd loses, repeats and reorders nothing while there is
      room ([Processing.processing_main]); loggingd's files
      ([Logging.logging_main], [log_file_contents]); telemetryd refines the
      transition system of its registry and keeps running
      ([TelemetryMain.telemetry_refines], [telemetry_keeps_running]), and in
      that system every reachable state is safe and shows the last data of
      each sensor ([Registry.registry_safe], [registry_history],
      [watch_threshold]).
    - Functions, every branch: [generateFrame_spec], [forwardFrame_spec],
      [writeFrameData_record], [list_replies], [socket_recv_contract],
      [average_latency].
    - Resources: [Startup.daemons_start] and [Listener.accept_loops] say what is
      open, allocated and running on every path.
    - The throughput shown to a user is within 0.501 units of the last decimal
      of the exact rate ([Throughput.throughput_accurate]).
    - All daemons at once ([Gateway]): in every interleaving nothing is invented,
      repeated or reordered, nothing is lost unless a queue was full, and no
      daemon waits for ever on another ([gateway_conserves],
      [gateway_at_rest], [gateway_progress]).
    - The simulator: [ClientMain.simulator_main] and [client_threads_release]
      say what every path leaves; [ClientRace.parse_line_alone] that a line is
      parsed as the other files have it while no other thread calls [strtok],
      and that two normal clients can mix their lines.
    - The user's program: in every interleaving its threads have the effect of
      whole turns one after the other ([DevSession.session_serial]) and
      exclude each other without deadlock ([session_exclusive]).
    - Programs together ([EndToEnd]): a line of the data file becomes the frame
      of its reading, the frame an entry of the registry, the entry a line on
      the user's screen; and the latency logged is the difference of the
      sender's and the receiver's clocks.

    ** Fuel

    No theorem has fuel as an argument.  [iterate] runs a loop on fuel
    computed from a measure of its state: the number of events and bytes still
    in the scripts ([rx_size], the length of the [send] script plus the bytes
    left to write, the length of the [accept] script).  Each turn of a loop
    uses up an event or a byte or leaves the loop, and [wp_iterate] turns that
    into the absence of [NoFuel]; so every [wp] theorem also states that the
    code finishes or waits for its environment.  Where a function is
    called for ever ([normal_client], [latency_client]) the number of turns
    is an argument and the theorems hold for all numbers.  [try_addresses],
    [create_clients] and [join_clients] recurse on the number of addresses and
    of threads.  The specification
    functions that recurse on a shrinking text ([packets], [answers],
    [file_lines], [digits]) use its length as fuel; lemmas named [_enough],
    [_unfold] or [_spec] show that it never runs out.

    ** Choices

    - Pointers are values, so the guards against NULL are not modelled; a
      buffer is a list of bytes of its size, and memory read before it is
      written is an argument (the buffers of the handlers, the fresh slots of
      the registry).
    - An accepted connection, a user's request and the watchdog's sweep see the
      registry at arbitrary moments: [Registry.steps] interleaves them, and a
      [service] gives a connection the registry of each of its requests.
    - The critical sections of telemetryd are atomic, as [registry_mutex] makes
      them.  In [DevSession] a step is one call (lock, connect, a send loop,
      one [recv] with the lines it completes, close, unlock), and what
      [print_average_latency] reads is what has been flushed to the file.
    - [ClientSensors] parses a line in one go; this is what a thread computes
      when no other one calls [strtok] ([ClientRace]).
    - The time zone of [localtime_r] is an offset [tz]; the calendar is
      computed.  Doubles have no bound on the exponent; the values that occur
      stay far within the range.
    - The descriptor the kernel gives to a new file is [pick] of the class
      [Kernel], of which only POSIX's promise, that it was free, is used; the
      instance [example_kernel] takes the lowest free descriptor.
    - [pthread_join] returns when the environment says that the thread has
      ended and waits otherwise; joining a handle that was never written ends
      the simulator's [main] in [Undefined].
    - [errno] is the value the failed call left.
    - [syslog], [fprintf(stderr, ...)] and the simulator's progress messages are
      not modelled, nor are [usleep] and [sleep].

    ** Not modelled

    The arguments of the set-up calls (addresses, ports once checked, queue
    attributes, permissions); the waiting times; the build files, start
    scripts and documents.  System calls that fail are in the components'
    files, not in [Gateway]; a daemon that has ended is one that takes no more
    steps there. *)
From Stdlib Require Export ZArith Lia.
From stdpp Require Export base strings numbers.
From stdpp Require Export list.
#[global] Set Default Goal Selector "!".

(** ** Scope and hint databases of the development *)

Declare Scope gateway_scope.
Delimit Scope gateway_scope with gw.

(** [gw] collects the side conditions that come back everywhere (ranges of
    casts, lengths of encodings); [gw_len] is the rewriting database of
    lengths. *)
Create HintDb gw discriminated.
Create Rewrite HintDb gw_len.

(** ** Tactics *)

(** Linear arithmetic with division and remainder unfolded to equations. *)
Ltac zdiv := Z.div_mod_to_equations; lia.

(** Case analysis on one boolean comparison of the goal. *)
Ltac case_cmp :=
  match goal with
  | |- context [Z.eqb ?a ?b] => destruct (Z.eqb_spec a b)
  | |- context [Z.ltb ?a ?b] => destruct (Z.ltb_spec a b)
  | |- context [Z.leb ?a ?b] => destruct (Z.leb_spec a b)
  | |- context [Nat.eqb ?a ?b] => destruct (Nat.eqb_spec a b)
  | |- context [Nat.ltb ?a ?b] => destruct (Nat.ltb_spec a b)
  | |- context [Nat.leb ?a ?b] => destruct (Nat.leb_spec a b)
  end.

(** The same on one comparison of a hypothesis. *)
Ltac case_cmp_in H :=
  match type of H with
  | context [Z.eqb ?a ?b] => destruct (Z.eqb_spec a b)
  | context [Z.ltb ?a ?b] => destruct (Z.ltb_spec a b)
  | context [Z.leb ?a ?b] => destruct (Z.leb_spec a b)
  | context [Nat.eqb ?a ?b] => destruct (Nat.eqb_spec a b)
  | context [Nat.ltb ?a ?b] => destruct (Nat.ltb_spec a b)
  | context [Nat.leb ?a ?b] => destruct (Nat.leb_spec a b)
  end.

(** Lengths: rewrite with [gw_len] and finish by [lia]. *)
Ltac len := repeat (progress (autorewrite with gw_len in *; simpl length in *)); lia.

(** ** Bytes *)

(** A byte is an integer of [0, 256); buffers, packets, messages and C
    strings are lists of bytes. *)
Definition is_byte (b : Z) : Prop := (0 <= b < 256)%Z.

Abbreviation bytes_ok := (Forall is_byte).

#[export] Instance is_byte_dec b : Decision (is_byte b).
Proof. unfold is_byte. apply _. Defined.

(** The characters of a string literal of the source, as bytes. *)
Definition str (s : string) : list Z :=
  map (fun c => Z.of_N (Ascii.N_of_ascii c)) (String.list_ascii_of_string s).

Lemma str_bytes s : bytes_ok (str s).
Proof.
  unfold str. induction (String.list_ascii_of_string s) as [|c l IH]; simpl; constructor; [|done].
  unfold is_byte. pose proof (Ascii.N_ascii_bounded c). lia.
Qed.
#[export] Hint Resolve str_bytes : gw.

(** ** Overwriting a range of a buffer *)

(** [splice buf off new] is [buf] with the bytes from [off] on replaced by
    [new], as [memcpy(buf + off, new, |new|)] leaves it. *)
Definition splice {A} (buf : list A) (off : nat) (new : list A) : list A :=
  take off buf ++ new ++ drop (off + length new) buf.

Section splice.
Context {A : Type}.
Implicit Types buf new : list A.

Lemma length_splice buf off new :
  off + length new <= length buf -> length (splice buf off new) = length buf.
Proof. intros. unfold splice. rewrite !length_app, length_take, length_drop. lia. Qed.

Lemma take_splice buf off new :
  off + length new <= length buf ->
  take (off + length new) (splice buf off new) = take off buf ++ new.
Proof.
  intros. unfold splice. rewrite app_assoc.
  rewrite take_app_le by (rewrite length_app, length_take; lia).
  apply take_ge. rewrite length_app, length_take. lia.
Qed.

Lemma splice_0 buf new : length new = length buf -> splice buf 0 new = new.
Proof.
  intros E. unfold splice. simpl. rewrite drop_ge by lia. apply app_nil_r.
Qed.

Lemma splice_app_eq (a b c new : list A) :
  length new = length b -> splice (a ++ b ++ c) (length a) new = a ++ new ++ c.
Proof.
  intros E. unfold splice. rewrite take_app_length. do 2 f_equal.
  rewrite E, <- drop_drop, drop_app_length, drop_app_length. done.
Qed.
End splice.

(** ** Lists *)

Section lists.
Context {A : Type}.
Implicit Types l : list A.

Lemma take_app_exact l1 l2 n : n = length l1 -> take n (l1 ++ l2) = l1.
Proof. intros ->. apply take_app_length. Qed.

Lemma drop_app_exact l1 l2 n : n = length l1 -> drop n (l1 ++ l2) = l2.
Proof. intros ->. apply drop_app_length. Qed.

(** The last [n] elements. *)
Definition lastn (n : nat) l : list A := drop (length l - n) l.

Lemma lastn_all n l : length l <= n -> lastn n l = l.
Proof. intros. unfold lastn. replace (length l - n) with 0 by lia. done. Qed.

Lemma length_lastn n l : length (lastn n l) = Nat.min n (length l).
Proof. unfold lastn. rewrite length_drop. lia. Qed.

Lemma lastn_snoc n l x : lastn (S n) (l ++ [x]) = lastn n l ++ [x].
Proof.
  unfold lastn. rewrite length_app. simpl.
  replace (length l + 1 - S n) with (length l - n) by lia.
  apply drop_app_le. lia.
Qed.
End lists.

#[export] Hint Rewrite @length_app @length_take @length_drop @length_replicate
  @length_insert @length_map : gw_len.
