(* ===== verification/Machine.v ===== *)
(** Machine integers of the LP64 little-endian target (ARM64): casts to the
    fixed-width types of <stdint.h>, and the byte representation that
    [memcpy] and the shift-and-or expressions of the sources read and write. *)
From S2P Require Import Prelude.
Local Open Scope Z_scope.

(** ** Casts *)

(** Conversion to an unsigned type of [w] bits. *)
Definition uint (w z : Z) : Z := z mod 2 ^ w.

(** Conversion to a signed type of [w] bits (two's complement, as GCC and
    Clang define the out-of-range case). *)
Definition sint (w z : Z) : Z := (z + 2 ^ (w - 1)) mod 2 ^ w - 2 ^ (w - 1).

Abbreviation u8 := (uint 8).
Abbreviation u16 := (uint 16).
Abbreviation u32 := (uint 32).
Abbreviation u64 := (uint 64).
Abbreviation i32 := (sint 32).
Abbreviation i64 := (sint 64).

Definition UINT8_MAX : Z := 255.
Definition UINT16_MAX : Z := 65535.
Definition INT64_MIN : Z := - 2 ^ 63.
Definition INT64_MAX : Z := 2 ^ 63 - 1.
Definition ULONG_MAX : Z := 2 ^ 64 - 1.

Lemma uint_range w z : 0 <= w -> 0 <= uint w z < 2 ^ w.
Proof. intros. apply Z.mod_pos_bound. lia. Qed.

Lemma uint_id w z : 0 <= z < 2 ^ w -> uint w z = z.
Proof. apply Z.mod_small. Qed.

Lemma sint_range w z : 0 < w -> - 2 ^ (w - 1) <= sint w z < 2 ^ (w - 1).
Proof.
  intros Hw. unfold sint.
  assert (E : 2 ^ w = 2 * 2 ^ (w - 1)) by (rewrite <- Z.pow_succ_r by lia; f_equal; lia).
  pose proof (Z.mod_pos_bound (z + 2 ^ (w - 1)) (2 ^ w)). lia.
Qed.

Lemma sint_id w z : 0 < w -> - 2 ^ (w - 1) <= z < 2 ^ (w - 1) -> sint w z = z.
Proof.
  intros Hw Hz. unfold sint.
  assert (E : 2 ^ w = 2 * 2 ^ (w - 1)) by (rewrite <- Z.pow_succ_r by lia; f_equal; lia).
  rewrite Z.mod_small; lia.
Qed.

(** Casting to the signed type only sees the residue. *)
Lemma sint_mod w z : 0 < w -> sint w (z mod 2 ^ w) = sint w z.
Proof. intros. unfold sint. by rewrite Z.add_mod_idemp_l by lia. Qed.

(** And back: the unsigned view of a signed cast is the residue again. *)
Lemma sint_mod_out w z : 0 < w -> sint w z mod 2 ^ w = z mod 2 ^ w.
Proof.
  intros. unfold sint.
  rewrite Zminus_mod_idemp_l. f_equal. lia.
Qed.

#[export] Hint Resolve uint_range sint_range : gw.

(** ** Little-endian representation *)

Fixpoint le_val (bs : list Z) : Z :=
  match bs with
  | [] => 0
  | b :: bs => b + 256 * le_val bs
  end.

Fixpoint le_bytes (n : nat) (z : Z) : list Z :=
  match n with
  | O => []
  | S n => z mod 256 :: le_bytes n (z / 256)
  end.

Lemma length_le_bytes n z : length (le_bytes n z) = n.
Proof. revert z. induction n; intros; simpl; auto. Qed.
#[export] Hint Rewrite length_le_bytes : gw_len.

Lemma le_bytes_ok n z : bytes_ok (le_bytes n z).
Proof.
  revert z. induction n; intros z; simpl; constructor; [|done].
  apply Z.mod_pos_bound. lia.
Qed.
#[export] Hint Resolve le_bytes_ok : gw.

Lemma pow2_S8 n : 2 ^ (8 * Z.of_nat (S n)) = 256 * 2 ^ (8 * Z.of_nat n).
Proof.
  replace (8 * Z.of_nat (S n)) with (8 + 8 * Z.of_nat n) by lia.
  rewrite Z.pow_add_r by lia. done.
Qed.

Lemma le_val_bytes n z : le_val (le_bytes n z) = z mod 2 ^ (8 * Z.of_nat n).
Proof.
  revert z. induction n as [|n IH]; intros z.
  - simpl. by rewrite Z.mod_1_r.
  - cbn [le_bytes le_val]. rewrite IH, pow2_S8, Z.rem_mul_r by lia. lia.
Qed.

Lemma le_val_bound bs : bytes_ok bs -> 0 <= le_val bs < 2 ^ (8 * Z.of_nat (length bs)).
Proof.
  induction 1 as [|b bs Hb Hbs IH]; [simpl; lia|].
  cbn [length le_val]. rewrite pow2_S8. unfold is_byte in Hb. lia.
Qed.

Lemma le_bytes_val bs n : bytes_ok bs -> length bs = n -> le_bytes n (le_val bs) = bs.
Proof.
  intros H <-. induction H as [|b bs Hb Hbs IH]; [done|].
  cbn [length le_bytes le_val]. unfold is_byte in Hb.
  replace ((b + 256 * le_val bs) / 256) with (le_val bs) by zdiv.
  replace ((b + 256 * le_val bs) mod 256) with b by zdiv.
  by rewrite IH.
Qed.

Lemma le_val_app bs1 bs2 :
  le_val (bs1 ++ bs2) = le_val bs1 + 2 ^ (8 * Z.of_nat (length bs1)) * le_val bs2.
Proof.
  induction bs1 as [|b bs1 IH]; [simpl; lia|].
  cbn [length le_val app]. rewrite IH, pow2_S8. lia.
Qed.

Lemma le_bytes_app n m z :
  le_bytes (n + m) z = le_bytes n z ++ le_bytes m (z / 2 ^ (8 * Z.of_nat n)).
Proof.
  revert z. induction n as [|n IH]; intros z.
  - simpl. by rewrite Z.div_1_r.
  - cbn [Nat.add le_bytes app]. rewrite IH, pow2_S8, Z.div_div by lia. done.
Qed.

(** The bytes of an integer only depend on its residue. *)
Lemma le_bytes_mod n z : le_bytes n (z mod 2 ^ (8 * Z.of_nat n)) = le_bytes n z.
Proof.
  rewrite <- le_val_bytes. apply le_bytes_val; [auto with gw|apply length_le_bytes].
Qed.

(** A signed integer read back from its bytes. *)
Lemma sint_le_bytes n z :
  (0 < n)%nat -> let w := 8 * Z.of_nat n in
  - 2 ^ (w - 1) <= z < 2 ^ (w - 1) -> sint w (le_val (le_bytes n z)) = z.
Proof.
  intros Hn w Hz. rewrite le_val_bytes. subst w.
  rewrite sint_mod by lia. apply sint_id; [lia|done].
Qed.

(** ** The shift-and-or expressions of the sources *)

Lemma lor_shift a b k : 0 <= k -> 0 <= a < 2 ^ k -> Z.lor a (Z.shiftl b k) = a + 2 ^ k * b.
Proof.
  intros Hk Ha. rewrite Z.shiftl_mul_pow2 by lia.
  pose proof (Z.add_lor_land a (b * 2 ^ k)) as E.
  enough (Z.land a (b * 2 ^ k) = 0) by lia. apply Z.bits_inj_0. intros n. rewrite Z.land_spec.
  destruct (Z.ltb_spec n k).
  - rewrite (Z.mul_pow2_bits_low b k n) by lia. apply andb_false_r.
  - destruct (Z.eq_dec a 0) as [->|]; [by rewrite Z.bits_0|].
    rewrite Z.bits_above_log2; [done|lia|].
    apply Z.lt_le_trans with k; [apply Z.log2_lt_pow2|]; lia.
Qed.

(** [(uint16_t)b0 | ((uint16_t)b1 << 8)] *)
Definition or16 (b0 b1 : Z) : Z := u16 (Z.lor b0 (Z.shiftl b1 8)).

(** [(uint32_t)b0 | (uint32_t)b1 << 8 | (uint32_t)b2 << 16 | (uint32_t)b3 << 24] *)
Definition or32 (b0 b1 b2 b3 : Z) : Z :=
  u32 (Z.lor (Z.lor (Z.lor b0 (u32 (Z.shiftl b1 8))) (u32 (Z.shiftl b2 16))) (u32 (Z.shiftl b3 24))).

Lemma or16_le b0 b1 : is_byte b0 -> is_byte b1 -> or16 b0 b1 = le_val [b0; b1].
Proof.
  unfold is_byte, or16. intros. rewrite lor_shift by lia.
  rewrite uint_id by lia. simpl. lia.
Qed.

Lemma or32_le b0 b1 b2 b3 :
  is_byte b0 -> is_byte b1 -> is_byte b2 -> is_byte b3 ->
  or32 b0 b1 b2 b3 = le_val [b0; b1; b2; b3].
Proof.
  unfold is_byte, or32. intros.
  rewrite !(uint_id 32 (Z.shiftl _ _)) by (rewrite Z.shiftl_mul_pow2; lia).
  rewrite (lor_shift b0 b1 8) by lia.
  rewrite (lor_shift _ b2 16) by lia.
  rewrite (lor_shift _ b3 24) by lia.
  rewrite uint_id by lia. simpl. lia.
Qed.

(** [(uint8_t)(x & 0xFF)] and [(uint8_t)((x >> 8) & 0xFF)] *)
Definition lo8 (x : Z) : Z := u8 (Z.land x 255).
Definition hi8 (x : Z) : Z := u8 (Z.land (Z.shiftr x 8) 255).

Lemma lo8_hi8_le x : [lo8 x; hi8 x] = le_bytes 2 x.
Proof.
  unfold lo8, hi8, uint. change 255 with (Z.ones 8).
  rewrite !Z.land_ones, Z.shiftr_div_pow2 by lia.
  cbn [le_bytes]. change (2 ^ 8) with 256. by rewrite !Z.mod_mod by lia.
Qed.
