(* ===== verification/Proc.v ===== *)
(** Threads of the daemons as state-passing programs.

    A thread runs on the state of its environment (the calls it makes to the
    operating system read and change it).  It either finishes, or waits: it is
    blocked in a system call for which the environment has no further event.
    Loops run on fuel computed from a measure of the state; the third
    outcome, [NoFuel], is shown impossible by the rules below. *)
From S2P Require Import Prelude.

Inductive outcome (St A : Type) : Type :=
| Done (a : A) (s : St)
| Waits (s : St)
| NoFuel.
Arguments Done {St A} a s.
Arguments Waits {St A} s.
Arguments NoFuel {St A}.

Definition proc (St A : Type) : Type := St -> outcome St A.

Definition ret {St A} (a : A) : proc St A := fun s => Done a s.

Definition bind {St A B} (c : proc St A) (k : A -> proc St B) : proc St B :=
  fun s => match c s with Done a s' => k a s' | Waits s' => Waits s' | NoFuel => NoFuel end.

Definition gets {St A} (f : St -> A) : proc St A := fun s => Done (f s) s.
Definition modify {St} (f : St -> St) : proc St unit := fun s => Done tt (f s).

Declare Scope proc_scope.
Delimit Scope proc_scope with proc.
Notation "'let!' x := c 'in' k" := (bind c (fun x => k))
  (at level 10, x pattern, c at level 100, k at level 200) : proc_scope.
Notation "c ;! k" := (bind c (fun _ => k)) (at level 100, right associativity) : proc_scope.
Open Scope proc_scope.

(** A computation on a component of the state. *)
Definition lift {St T A} (get : T -> St) (put : St -> T -> T) (c : proc St A) : proc T A :=
  fun t => match c (get t) with
           | Done a s => Done a (put s t) | Waits s => Waits (put s t) | NoFuel => NoFuel
           end.

(** ** Loops *)

(** The body of a loop, from the values [l] of its local variables, goes on
    with new values ([inl]) or leaves the loop with a result ([inr]). *)
Fixpoint loop {St L R} (fuel : nat) (body : L -> proc St (L + R)) (l : L) : proc St R :=
  match fuel with
  | O => fun _ => NoFuel
  | S fuel => let! r := body l in
              match r with inl l' => loop fuel body l' | inr a => ret a end
  end.

(** The loop with the fuel its measure asks for. *)
Definition iterate {St L R} (m : L -> St -> nat) (body : L -> proc St (L + R)) (l : L) : proc St R :=
  fun s => loop (1 + m l s) body l s.

(** ** Weakest preconditions *)

(** [wp c s Q W]: from [s], [c] finishes in [Q] or waits in [W]; it never runs
    out of fuel. *)
Definition wp {St A} (c : proc St A) (s : St) (Q : A -> St -> Prop) (W : St -> Prop) : Prop :=
  match c s with Done a s' => Q a s' | Waits s' => W s' | NoFuel => False end.

Section wp.
Context {St : Type}.

Lemma wp_ret {A} (a : A) s (Q : A -> St -> Prop) W : Q a s -> wp (ret a) s Q W.
Proof. done. Qed.

Lemma wp_bind {A B} (c : proc St A) (k : A -> proc St B) s Q W :
  wp c s (fun a s' => wp (k a) s' Q W) W -> wp (bind c k) s Q W.
Proof. unfold wp, bind. by destruct (c s). Qed.

Lemma wp_gets {A} (f : St -> A) s (Q : A -> St -> Prop) W : Q (f s) s -> wp (gets f) s Q W.
Proof. done. Qed.

Lemma wp_modify (f : St -> St) s (Q : unit -> St -> Prop) W : Q tt (f s) -> wp (modify f) s Q W.
Proof. done. Qed.

Lemma wp_mono {A} (c : proc St A) s (Q Q' : A -> St -> Prop) (W W' : St -> Prop) :
  wp c s Q W -> (forall a s', Q a s' -> Q' a s') -> (forall s', W s' -> W' s') -> wp c s Q' W'.
Proof. unfold wp. destruct (c s); auto. Qed.

Lemma wp_lift {T A} get put (c : proc St A) (t : T) Q W :
  wp c (get t) (fun a s => Q a (put s t)) (fun s => W (put s t)) -> wp (lift get put c) t Q W.
Proof. unfold wp, lift. by destruct (c (get t)). Qed.

(** Loop rule: an invariant and a measure that decreases whenever the body
    goes on. *)
Lemma wp_iterate {L R} (m : L -> St -> nat) (body : L -> proc St (L + R)) (I : L -> St -> Prop) l s Q W :
  I l s ->
  (forall l s, I l s ->
    wp (body l) s (fun r s' => match r with inl l' => I l' s' /\ m l' s' < m l s | inr a => Q a s' end) W) ->
  wp (iterate m body l) s Q W.
Proof.
  intros H0 Hb.
  enough (Hf : forall fuel l s, I l s -> m l s < fuel -> wp (loop fuel body l) s Q W) by (apply Hf; [done|lia]).
  clear l s H0. induction fuel as [|fuel IH]; intros l s H0 Hf; [lia|].
  cbn [loop]. apply wp_bind. eapply wp_mono; [by apply Hb| |done].
  intros [l'|a] s' Hr; [|done]. destruct Hr. apply IH; [done|lia].
Qed.
End wp.

(** Symbolic execution: applies the rules of the basic commands. *)
Ltac wp_step :=
  lazymatch goal with
  | |- wp (bind _ _) _ _ _ => apply wp_bind
  | |- wp (ret _) _ _ _ => apply wp_ret
  | |- wp (gets _) _ _ _ => apply wp_gets
  | |- wp (modify _) _ _ _ => apply wp_modify
  | |- wp (if ?b then _ else _) _ _ _ => destruct b eqn:?
  end; cbv beta.
Ltac wp_steps := repeat wp_step.
