(* ===== verification/CText.v ===== *)
(** C strings and the text functions of the C library that the sources
    call: [snprintf] with %d, %lld, %hx and %s, [strtoul], [strtoll],
    [sscanf] with %ld, [strtok], [strcmp] and [strncmp].  A C string is the
    list of its bytes without the terminating NUL. *)
From S2P Require Import Prelude Machine.
Local Open Scope Z_scope.

(** ** Characters *)

Definition NUL : Z := 0.
Definition LF : Z := 10.

(** [isspace] in the C locale. *)
Definition isspace (c : Z) : bool := (c =? 32) || ((9 <=? c) && (c <=? 13)).

(** The character of a digit (lower case, as %x and %d print it). *)
Definition digit_char (d : Z) : Z := if d <? 10 then 48 + d else 87 + d.

(** The digit a character stands for in bases up to 16. *)
Definition char_digit (c : Z) : option Z :=
  if (48 <=? c) && (c <=? 57) then Some (c - 48)
  else if (97 <=? c) && (c <=? 102) then Some (c - 87)
  else if (65 <=? c) && (c <=? 70) then Some (c - 55)
  else None.

Definition is_digit (base c : Z) : bool :=
  match char_digit c with Some d => d <? base | None => false end.

(** The C string a buffer holds. *)
Fixpoint cstr (buf : list Z) : list Z :=
  match buf with
  | [] => []
  | c :: buf => if c =? NUL then [] else c :: cstr buf
  end.

(** ** Printing integers *)

Fixpoint digits_aux (base : Z) (fuel : nat) (n : Z) (acc : list Z) : list Z :=
  match fuel with
  | O => acc
  | S fuel =>
      if n / base =? 0 then n mod base :: acc
      else digits_aux base fuel (n / base) (n mod base :: acc)
  end.

(** The digits of [n >= 0], most significant first; a number has at most as
    many digits as it has bits. *)
Definition digits (base n : Z) : list Z := digits_aux base (S (Z.to_nat (Z.log2 n))) n [].

Definition fmt_uint (base n : Z) : list Z := map digit_char (digits base n).

(** %d, %ld, %lld *)
Definition fmt_d (z : Z) : list Z :=
  if z <? 0 then str "-" ++ fmt_uint 10 (- z) else fmt_uint 10 z.

(** %hx ([PRIx16]) *)
Definition fmt_x (n : Z) : list Z := fmt_uint 16 n.

(** [snprintf(buf, size, ...)] of a text: what the buffer holds afterwards as
    a C string, and the value returned. *)
Definition snprintf (size : nat) (text : list Z) : list Z * Z :=
  (take (size - 1) text, Z.of_nat (length text)).

(** ** Parsing integers *)

(** The longest prefix of digits, with the rest. *)
Fixpoint span_digits (base : Z) (s : list Z) : list Z * list Z :=
  match s with
  | [] => ([], [])
  | c :: s' =>
      match char_digit c with
      | Some d => if d <? base then let '(ds, r) := span_digits base s' in (d :: ds, r)
                  else ([], s)
      | None => ([], s)
      end
  end.

Definition digits_val (base : Z) (ds : list Z) : Z :=
  fold_left (fun acc d => acc * base + d) ds 0.

Fixpoint skip_space (s : list Z) : list Z :=
  match s with
  | [] => []
  | c :: s' => if isspace c then skip_space s' else s
  end.

(** Optional sign: [true] when negative. *)
Definition scan_sign (s : list Z) : bool * list Z :=
  match s with
  | c :: s' => if c =? 45 then (true, s') else if c =? 43 then (false, s') else (false, s)
  | [] => (false, [])
  end.

(** In base 16 an optional 0x or 0X, only taken when a digit follows. *)
Definition skip_prefix (base : Z) (s : list Z) : list Z :=
  match s with
  | z :: x :: c :: s' =>
      if (base =? 16) && (z =? 48) && ((x =? 120) || (x =? 88)) && is_digit 16 c
      then c :: s' else s
  | _ => s
  end.

(** Common part of the [strto*] functions: sign, magnitude and the rest of
    the string from [*endptr]; [None] when there is no number (then
    [*endptr] is the start of the string). *)
Definition scan_number (base : Z) (s : list Z) : option (bool * Z * list Z) :=
  let '(neg, s1) := scan_sign (skip_space s) in
  let '(ds, r) := span_digits base (skip_prefix base s1) in
  match ds with
  | [] => None
  | _ => Some (neg, digits_val base ds, r)
  end.

(** What the callers look at: the value, the string from [*endptr] on and
    [errno != 0]. *)
Record strto := { sto_value : Z; sto_end : list Z; sto_errno : bool }.

(** [strtoul(s, &endptr, base)] *)
Definition strtoul (base : Z) (s : list Z) : strto :=
  match scan_number base s with
  | None => {| sto_value := 0; sto_end := s; sto_errno := false |}
  | Some (neg, v, r) =>
      if v <=? ULONG_MAX then {| sto_value := if neg then u64 (- v) else v; sto_end := r; sto_errno := false |}
      else {| sto_value := ULONG_MAX; sto_end := r; sto_errno := true |}
  end.

(** [strtoll(s, &endptr, base)] *)
Definition strtoll (base : Z) (s : list Z) : strto :=
  match scan_number base s with
  | None => {| sto_value := 0; sto_end := s; sto_errno := false |}
  | Some (neg, v, r) =>
      let z := if neg then - v else v in
      if z <? INT64_MIN then {| sto_value := INT64_MIN; sto_end := r; sto_errno := true |}
      else if INT64_MAX <? z then {| sto_value := INT64_MAX; sto_end := r; sto_errno := true |}
      else {| sto_value := z; sto_end := r; sto_errno := false |}
  end.

(** The %ld conversion of [sscanf] (glibc converts as [strtol] does). *)
Definition scan_ld (s : list Z) : option (Z * list Z) :=
  match scan_number 10 s with
  | None => None
  | Some _ => let r := strtoll 10 s in Some (sto_value r, sto_end r)
  end.

(** A literal of a [sscanf] format. *)
Fixpoint scan_lit (lit s : list Z) : option (list Z) :=
  match lit, s with
  | [], _ => Some s
  | c :: lit, c' :: s => if c =? c' then scan_lit lit s else None
  | _ :: _, [] => None
  end.

(** ** Comparing and splitting strings *)

Definition strcmp_eq (a b : list Z) : bool := bool_decide (a = b).

(** [strncmp(s, lit, n) == 0] for a literal of [n] characters. *)
Definition strncmp_eq (s lit : list Z) : bool := bool_decide (take (length lit) s = lit).

Definition is_delim (delims : list Z) (c : Z) : bool := bool_decide (c ∈ delims).

Fixpoint skip_delims (delims s : list Z) : list Z :=
  match s with
  | [] => []
  | c :: s' => if is_delim delims c then skip_delims delims s' else s
  end.

(** The token up to the next delimiter and what [strtok] keeps for the next
    call (the delimiter is overwritten by NUL). *)
Fixpoint span_token (delims s : list Z) : list Z * list Z :=
  match s with
  | [] => ([], [])
  | c :: s' => if is_delim delims c then ([], s')
               else let '(t, r) := span_token delims s' in (c :: t, r)
  end.

(** One call of [strtok]: the token ([None] for a NULL result) and the saved
    position. *)
Definition strtok (delims s : list Z) : option (list Z) * list Z :=
  match skip_delims delims s with
  | [] => (None, [])
  | s' => let '(t, r) := span_token delims s' in (Some t, r)
  end.

(** ** Reading lines *)

(** At most [n] bytes of a file, up to and including the first line feed, and
    the bytes left. *)
Fixpoint take_line (n : nat) (file : list Z) : list Z * list Z :=
  match n, file with
  | S n, c :: file =>
      if c =? LF then ([c], file) else let '(l, r) := take_line n file in (c :: l, r)
  | _, _ => ([], file)
  end.

(** [fgets(buf, size, file)]: the bytes stored before the NUL; [None] at the end
    of the file. *)
Definition fgets (size : nat) (file : list Z) : option (list Z * list Z) :=
  match file with [] => None | _ => Some (take_line (size - 1) file) end.

(** The results of [fgets] until the end of the file. *)
Fixpoint file_lines_fuel (fuel size : nat) (file : list Z) : list (list Z) :=
  match fuel with
  | O => []
  | S fuel => match fgets size file with
              | None => []
              | Some (l, r) => l :: file_lines_fuel fuel size r
              end
  end.

(** Each call takes at least one byte. *)
Definition file_lines (size : nat) (file : list Z) : list (list Z) := file_lines_fuel (length file) size file.

(** ** Facts *)

Lemma char_digit_char d : 0 <= d < 16 -> char_digit (digit_char d) = Some d.
Proof.
  intros. unfold digit_char, char_digit.
  repeat case_cmp; simpl; try lia; f_equal; lia.
Qed.

Lemma digit_char_not_space d : 0 <= d < 16 -> isspace (digit_char d) = false.
Proof. intros. unfold digit_char, isspace. repeat case_cmp; simpl; try lia; done. Qed.

Lemma digit_char_byte d : 0 <= d < 16 -> is_byte (digit_char d).
Proof. intros. unfold digit_char, is_byte. case_cmp; lia. Qed.

(** [digits_aux] with enough fuel: value and shape of the result. *)
Lemma digits_aux_spec base fuel n acc :
  2 <= base -> 0 <= n < 2 ^ Z.of_nat fuel ->
  exists ds, digits_aux base fuel n acc = ds ++ acc /\ ((0 < fuel)%nat -> ds <> []) /\
    digits_val base ds = n /\ Forall (fun d => 0 <= d < base) ds.
Proof.
  intros Hb. revert n acc. induction fuel as [|fuel IH]; intros n acc Hn.
  - exists []. simpl in Hn. split; [done|]. split; [lia|]. split; [cbn; lia|constructor].
  - cbn [digits_aux]. pose proof (Z.mod_pos_bound n base). case_cmp.
    + exists [n mod base]. split; [done|]. split; [done|]. split; [cbn; zdiv|repeat constructor; lia].
    + destruct (IH (n / base) (n mod base :: acc)) as (ds & -> & _ & Hv & Hd).
      { split; [apply Z.div_pos; lia|]. apply Z.div_lt_upper_bound; [lia|].
        rewrite Nat2Z.inj_succ, Z.pow_succ_r in Hn by lia. nia. }
      exists (ds ++ [n mod base]). split; [by rewrite <- app_assoc|].
      split; [by intros _ [_ ?]%app_eq_nil|]. split.
      * unfold digits_val in *. rewrite fold_left_app. simpl. rewrite Hv. zdiv.
      * apply Forall_app; split; [done|]. repeat constructor; lia.
Qed.

Lemma digits_spec base n :
  2 <= base -> 0 <= n ->
  digits base n <> [] /\ digits_val base (digits base n) = n /\
  Forall (fun d => 0 <= d < base) (digits base n).
Proof.
  intros Hb Hn. unfold digits.
  destruct (digits_aux_spec base (S (Z.to_nat (Z.log2 n))) n []) as (ds & -> & H1 & H2 & H3);
    [done|split; [done|]|].
  - rewrite Nat2Z.inj_succ, Z2Nat.id by apply Z.log2_nonneg.
    destruct (Z.eq_dec n 0) as [->|]; [done|]. apply Z.log2_spec. lia.
  - rewrite app_nil_r. auto with lia.
Qed.

(** A string that does not continue a number in the given base. *)
Definition stops (base : Z) (r : list Z) : Prop :=
  match r with [] => True | c :: _ => is_digit base c = false end.

Lemma span_digits_chars base ds r :
  2 <= base <= 16 -> Forall (fun d => 0 <= d < base) ds -> stops base r ->
  span_digits base (map digit_char ds ++ r) = (ds, r).
Proof.
  intros Hb Hds Hr. induction Hds as [|d ds Hd _ IH]; simpl.
  - destruct r as [|c r]; [done|]. simpl in *. unfold is_digit in Hr.
    destruct (char_digit c); [by rewrite Hr|done].
  - rewrite char_digit_char by lia. destruct (Z.ltb_spec d base); [|lia]. by rewrite IH.
Qed.

Lemma span_fmt_uint base n r :
  2 <= base <= 16 -> 0 <= n -> stops base r ->
  exists ds, ds <> [] /\ digits_val base ds = n /\ span_digits base (fmt_uint base n ++ r) = (ds, r).
Proof.
  intros Hb Hn Hr. destruct (digits_spec base n) as (H1 & H2 & H3); [lia|done|].
  exists (digits base n). repeat split; [done..|]. by apply span_digits_chars.
Qed.

(** A printed number starts with a digit character. *)
Lemma fmt_uint_head base n :
  2 <= base <= 16 -> 0 <= n -> exists d s, 0 <= d < base /\ fmt_uint base n = digit_char d :: s.
Proof.
  intros Hb Hn. unfold fmt_uint. destruct (digits_spec base n) as (H1 & _ & H3); [lia|done|].
  destruct H3 as [|d ds Hd _]; [done|]. exists d, (map digit_char ds). done.
Qed.

Lemma scan_sign_digit d s : 0 <= d < 16 -> scan_sign (digit_char d :: s) = (false, digit_char d :: s).
Proof. intros. unfold scan_sign, digit_char. repeat case_cmp; done || lia. Qed.

(** No 0x prefix is seen in a printed number followed by [r] when [r] does not
    start with an x. *)
Definition no_x (r : list Z) : Prop :=
  match r with [] => True | c :: _ => c <> 120 /\ c <> 88 end.

Lemma skip_prefix_fmt base n r :
  2 <= base <= 16 -> 0 <= n -> no_x r ->
  skip_prefix base (fmt_uint base n ++ r) = fmt_uint base n ++ r.
Proof.
  intros Hb Hn Hr. unfold fmt_uint. destruct (digits_spec base n) as (H1 & _ & H3); [lia|done|].
  destruct H3 as [|d ds Hd Hds]; [done|]. simpl.
  destruct (map digit_char ds ++ r) as [|x [|c s]] eqn:E; [done..|].
  replace ((x =? 120) || (x =? 88)) with false; [by rewrite andb_false_r|].
  symmetry. apply orb_false_iff. rewrite !Z.eqb_neq.
  destruct Hds as [|d' ds Hd' _]; simpl in E; [subst; done|].
  injection E as <- _. unfold digit_char. case_cmp; lia.
Qed.

Lemma scan_number_fmt_uint base n r :
  2 <= base <= 16 -> 0 <= n -> stops base r -> no_x r ->
  scan_number base (fmt_uint base n ++ r) = Some (false, n, r).
Proof.
  intros Hb Hn Hr Hx. unfold scan_number.
  destruct (fmt_uint_head base n) as (d & s & Hd & E); [done..|].
  assert (Es : skip_space (fmt_uint base n ++ r) = fmt_uint base n ++ r).
  { rewrite E. simpl. by rewrite digit_char_not_space by lia. }
  rewrite Es, E. simpl app. rewrite scan_sign_digit by lia.
  rewrite app_comm_cons, <- E, skip_prefix_fmt by done.
  destruct (span_fmt_uint base n r) as (ds & Hne & <- & ->); [done..|].
  by destruct ds.
Qed.

Lemma scan_number_minus base n r :
  2 <= base <= 16 -> 0 <= n -> stops base r -> no_x r ->
  scan_number base (str "-" ++ fmt_uint base n ++ r) = Some (true, n, r).
Proof.
  intros Hb Hn Hr Hx. unfold scan_number. simpl.
  rewrite skip_prefix_fmt by done.
  destruct (span_fmt_uint base n r) as (ds & Hne & <- & ->); [done..|].
  by destruct ds.
Qed.

Lemma scan_number_fmt_d z r :
  stops 10 r -> no_x r -> scan_number 10 (fmt_d z ++ r) = Some (z <? 0, Z.abs z, r).
Proof.
  intros Hr Hx. unfold fmt_d. case_cmp.
  - rewrite <- app_assoc, scan_number_minus by (done || lia). do 3 f_equal. lia.
  - rewrite scan_number_fmt_uint by (done || lia). do 3 f_equal. lia.
Qed.

(** %lld printed and %ld read back. *)
Lemma scan_ld_fmt_d z r :
  INT64_MIN <= z <= INT64_MAX -> stops 10 r -> no_x r -> scan_ld (fmt_d z ++ r) = Some (z, r).
Proof.
  intros Hz Hr Hx. unfold scan_ld, strtoll. rewrite scan_number_fmt_d by done.
  replace (if z <? 0 then - Z.abs z else Z.abs z) with z by (case_cmp; lia).
  do 2 (case_cmp; [lia|]). done.
Qed.

Lemma strtoll_fmt_d z r :
  INT64_MIN <= z <= INT64_MAX -> stops 10 r -> no_x r ->
  strtoll 10 (fmt_d z ++ r) = {| sto_value := z; sto_end := r; sto_errno := false |}.
Proof.
  intros Hz Hr Hx. unfold strtoll. rewrite scan_number_fmt_d by done.
  replace (if z <? 0 then - Z.abs z else Z.abs z) with z by (case_cmp; lia).
  do 2 (case_cmp; [lia|]). done.
Qed.

(** A hexadecimal number printed and read back. *)
Lemma strtoul_fmt_x n r :
  0 <= n <= ULONG_MAX -> stops 16 r -> no_x r ->
  strtoul 16 (fmt_x n ++ r) = {| sto_value := n; sto_end := r; sto_errno := false |}.
Proof.
  intros Hn Hr Hx. unfold strtoul, fmt_x. rewrite scan_number_fmt_uint by (done || lia).
  case_cmp; [done|lia].
Qed.

Lemma strtoul_fmt_u n r :
  0 <= n <= ULONG_MAX -> stops 10 r -> no_x r ->
  strtoul 10 (fmt_uint 10 n ++ r) = {| sto_value := n; sto_end := r; sto_errno := false |}.
Proof.
  intros Hn Hr Hx. unfold strtoul. rewrite scan_number_fmt_uint by (done || lia).
  case_cmp; [done|lia].
Qed.

Lemma skip_space_idem s : skip_space (skip_space s) = skip_space s.
Proof. induction s as [|c s IH]; [done|]. simpl. destruct (isspace c) eqn:E; [done|]. simpl. by rewrite E. Qed.

(** White space before a %ld conversion does not matter. *)
Lemma scan_ld_skip s : scan_ld (skip_space s) = scan_ld s.
Proof. unfold scan_ld, strtoll, scan_number. rewrite skip_space_idem. by repeat case_match. Qed.

Lemma scan_ld_space s : scan_ld (32 :: s) = scan_ld s.
Proof. rewrite <- scan_ld_skip. cbn [skip_space]. change (isspace 32) with true. cbv iota. apply scan_ld_skip. Qed.

Lemma scan_lit_app lit r : scan_lit lit (lit ++ r) = Some r.
Proof. induction lit as [|c lit IH]; [done|]. simpl. by rewrite Z.eqb_refl. Qed.

Lemma fmt_uint_bytes base n : 2 <= base <= 16 -> 0 <= n -> bytes_ok (fmt_uint base n).
Proof.
  intros Hb Hn. unfold fmt_uint. destruct (digits_spec base n) as (_ & _ & H); [lia|done|].
  induction H; simpl; constructor; [apply digit_char_byte; lia|done].
Qed.

(** Digit characters are neither NUL nor a line feed. *)
Lemma fmt_uint_printable base n :
  2 <= base <= 16 -> 0 <= n -> Forall (fun c => 45 <= c <= 102) (fmt_uint base n).
Proof.
  intros Hb Hn. unfold fmt_uint. destruct (digits_spec base n) as (_ & _ & H); [lia|done|].
  induction H; simpl; constructor; [|done]. unfold digit_char. case_cmp; lia.
Qed.

Lemma fmt_d_printable z : Forall (fun c => 45 <= c <= 102) (fmt_d z).
Proof.
  unfold fmt_d. case_cmp.
  - apply Forall_app; split; [repeat constructor; simpl; lia|]. apply fmt_uint_printable; lia.
  - apply fmt_uint_printable; lia.
Qed.

(** *** Lengths of printed numbers *)

Lemma length_digits_aux base fuel n acc k :
  2 <= base -> 0 <= n < base ^ Z.of_nat k -> (0 < k)%nat ->
  (length (digits_aux base fuel n acc) <= k + length acc)%nat.
Proof.
  intros Hb. revert fuel n acc. induction k as [|k IH]; intros fuel n acc Hn Hk; [lia|].
  destruct fuel as [|fuel]; cbn [digits_aux]; [simpl; lia|].
  case_cmp; [simpl; lia|]. rewrite Nat2Z.inj_succ, Z.pow_succ_r in Hn by lia.
  assert (0 <= n / base) by (apply Z.div_pos; lia).
  assert (n / base < base ^ Z.of_nat k) by (apply Z.div_lt_upper_bound; lia).
  destruct k as [|k]; [simpl in *; lia|].
  etransitivity; [apply IH; lia|]. simpl. lia.
Qed.

Lemma length_fmt_uint base n k :
  2 <= base -> 0 <= n < base ^ Z.of_nat k -> (0 < k)%nat -> (length (fmt_uint base n) <= k)%nat.
Proof.
  intros. unfold fmt_uint, digits. rewrite length_map.
  etransitivity; [by apply (length_digits_aux _ _ _ _ k)|]. simpl. lia.
Qed.

Lemma length_fmt_d z k :
  Z.abs z < 10 ^ Z.of_nat k -> (0 < k)%nat -> (length (fmt_d z) <= S k)%nat.
Proof.
  intros. unfold fmt_d. case_cmp.
  - rewrite length_app. simpl. apply le_n_S, length_fmt_uint; lia.
  - apply le_S, length_fmt_uint; lia.
Qed.

(** [snprintf] that does not truncate. *)
Lemma snprintf_fits size text :
  (length text < size)%nat -> snprintf size text = (text, Z.of_nat (length text)).
Proof. intros. unfold snprintf. by rewrite take_ge by lia. Qed.

(** *** Tokens *)

Definition no_delim (delims s : list Z) : Prop := Forall (fun c => is_delim delims c = false) s.

Lemma span_token_end delims t d r :
  no_delim delims t -> is_delim delims d = true -> span_token delims (t ++ d :: r) = (t, r).
Proof.
  induction 1 as [|c t Hc _ IH]; intros Hd; simpl; [by rewrite Hd|]. by rewrite Hc, IH.
Qed.

(** A token that starts the string and is followed by a delimiter. *)
Lemma strtok_token delims t d r :
  t <> [] -> no_delim delims t -> is_delim delims d = true -> strtok delims (t ++ d :: r) = (Some t, r).
Proof.
  intros Hne Ht Hd. unfold strtok. destruct Ht as [|c t Hc Ht]; [done|]. cbn [app skip_delims]. rewrite Hc.
  change (c :: t ++ d :: r) with ((c :: t) ++ d :: r). rewrite span_token_end; [done| |done]. by constructor.
Qed.

Lemma strtok_skip delims d s : is_delim delims d = true -> strtok delims (d :: s) = strtok delims s.
Proof. intros Hd. unfold strtok. cbn [skip_delims]. by rewrite Hd. Qed.

(** *** Lines *)

Lemma take_line_app n file l r : take_line n file = (l, r) -> l ++ r = file.
Proof.
  revert file l r. induction n as [|n IH]; intros [|c file] l r E; cbn [take_line] in E; try by simplify_eq.
  destruct (c =? LF); [by simplify_eq|]. destruct (take_line n file) as [l' r'] eqn:E'. simplify_eq.
  simpl. by rewrite (IH _ _ _ E').
Qed.

Lemma take_line_length n file l r :
  (0 < n)%nat -> file <> [] -> take_line n file = (l, r) -> (0 < length l <= n)%nat.
Proof.
  revert file l r. induction n as [|n IH]; intros [|c file] l r Hn Hf E; cbn [take_line] in E; try done || lia.
  destruct (c =? LF); [simplify_eq; simpl; lia|]. destruct (take_line n file) as [l' r'] eqn:E'. simplify_eq.
  simpl. destruct n as [|n]; [cbn in E'; simplify_eq; simpl; lia|].
  destruct file as [|c' file]; [cbn in E'; simplify_eq; simpl; lia|].
  apply IH in E'; [lia|lia|done].
Qed.

Lemma take_line_LF n l r :
  Forall (fun c => c <> LF) l -> (length l < n)%nat -> take_line n (l ++ LF :: r) = (l ++ [LF], r).
Proof.
  intros Hl. revert n. induction Hl as [|c l Hc _ IH]; intros [|n] Hn; simpl in *; try lia; [done|].
  destruct (Z.eqb_spec c LF); [done|]. by rewrite IH by lia.
Qed.

Lemma file_lines_fuel_enough f1 f2 size file :
  (2 <= size)%nat -> (length file <= f1)%nat -> (length file <= f2)%nat ->
  file_lines_fuel f1 size file = file_lines_fuel f2 size file.
Proof.
  intros Hs. revert f2 file. induction f1 as [|f1 IH]; intros [|f2] file H1 H2; try done.
  1,2: destruct file; [done|simpl in *; lia].
  cbn [file_lines_fuel]. destruct (fgets size file) as [[l r]|] eqn:E; [|done]. f_equal.
  unfold fgets in E. destruct file as [|c file]; [done|]. injection E as E.
  assert (Hl := take_line_length (size - 1) (c :: file) l r ltac:(lia) ltac:(done) E).
  apply take_line_app, (f_equal length) in E. rewrite length_app in E. simpl in *. apply IH; lia.
Qed.

(** Lines that fit the buffer are read one by one. *)
Lemma file_lines_LF size l r :
  Forall (fun c => c <> LF) l -> (length l + 2 <= size)%nat ->
  file_lines size (l ++ LF :: r) = (l ++ [LF]) :: file_lines size r.
Proof.
  intros Hl Hs. unfold file_lines at 1. rewrite length_app. simpl length.
  replace (length l + S (length r))%nat with (S (length l + length r)) by lia. cbn [file_lines_fuel].
  assert (E : fgets size (l ++ LF :: r) = Some (l ++ [LF], r)).
  { unfold fgets. rewrite take_line_LF by (done || lia). by destruct (l ++ LF :: r) eqn:E; [destruct l|]. }
  rewrite E. f_equal. apply file_lines_fuel_enough; lia.
Qed.

(** Nothing of the file is lost. *)
Lemma concat_file_lines size file : (2 <= size)%nat -> concat (file_lines size file) = file.
Proof.
  intros Hs. unfold file_lines. remember (length file) as n eqn:E.
  assert (Hn : (length file <= n)%nat) by lia. clear E. revert file Hn.
  induction n as [|n IH]; intros file Hn; cbn [file_lines_fuel].
  - by destruct file; [|simpl in Hn; lia].
  - destruct file as [|c file]; [done|]. unfold fgets.
    destruct (take_line (size - 1) (c :: file)) as [l r] eqn:E.
    assert (Hl := take_line_length (size - 1) (c :: file) l r ltac:(lia) ltac:(done) E). apply take_line_app in E. simpl concat.
    rewrite IH; [done|]. apply (f_equal length) in E. rewrite length_app in E. lia.
Qed.

(** *** The C string in a buffer *)

Lemma cstr_app s r : Forall (fun c => c <> NUL) s -> cstr (s ++ NUL :: r) = s.
Proof.
  induction 1 as [|c s Hc _ IH]; [done|]. simpl. destruct (Z.eqb_spec c NUL); [done|]. by rewrite IH.
Qed.

Lemma cstr_id s : Forall (fun c => c <> NUL) s -> cstr s = s.
Proof.
  induction 1 as [|c s Hc _ IH]; [done|]. simpl. destruct (Z.eqb_spec c NUL); [done|]. by rewrite IH.
Qed.

Lemma cstr_nonzero b : Forall (fun c => c <> NUL) (cstr b).
Proof. induction b as [|c b IH]; simpl; [constructor|]. destruct (Z.eqb_spec c NUL); by constructor. Qed.

Lemma length_cstr b : (length (cstr b) <= length b)%nat.
Proof. induction b as [|c b IH]; simpl; [lia|]. destruct (c =? NUL); simpl; lia. Qed.

Example fmt_d_ex : fmt_d (-2048) = str "-2048" /\ fmt_x 65000 = str "fde8".
Proof. split; vm_compute; reflexivity. Qed.

Example strtoul_ex :
  strtoul 16 (str "0XfDe8 rest") = {| sto_value := 65000; sto_end := str " rest"; sto_errno := false |} /\
  sto_value (strtoul 16 (str "zz")) = 0 /\ sto_errno (strtoul 10 (str "99999999999999999999")) = true.
Proof. repeat split; vm_compute; reflexivity. Qed.

Example strtok_ex :
  strtok (str " ,") (str "  ab, c") = (Some (str "ab"), str " c").
Proof. vm_compute. reflexivity. Qed.
