(* ===== verification/CFloat.v ===== *)
(** The [double] arithmetic of the sources: IEEE 754 binary64 with rounding
    to nearest, ties to even, and the %f conversions of [printf].

    A finite double is a dyadic rational [m * 2^e].  The exponent is not
    bounded: every quantity the sources compute (scaled readings, elapsed
    seconds, bits per second) is zero or between 2^-60 and 2^90 in absolute
    value, inside the range of normal numbers.  The sign of zero, which no
    code of the sources can observe, is not represented. *)
From Stdlib Require Import SpecFloat.
From S2P Require Import Prelude Machine CText.
Local Open Scope Z_scope.

Inductive double :=
| DFin (m e : Z)
| DInf (neg : bool)
| DNan.

(** Quotient rounded to the nearest integer, ties to even. *)
Definition rne (a b : Z) : Z :=
  let q := a / b in let r := a mod b in
  if 2 * r <? b then q
  else if b <? 2 * r then q + 1
  else if Z.even q then q else q + 1.

(** The exponent [k] that brings [n/d * 2^k] into [2^52, 2^53). *)
Definition scale53 (n d : Z) : Z :=
  let k := 52 - (Z.log2 n - Z.log2 d) in
  if n * 2 ^ Z.max k 0 <? 2 ^ 52 * d * 2 ^ Z.max (- k) 0 then k + 1 else k.

(** The positive rational [n/d] rounded to 53 significant bits. *)
Definition round_pos (n d : Z) : double :=
  let k := scale53 n d in
  DFin (rne (n * 2 ^ Z.max k 0) (d * 2 ^ Z.max (- k) 0)) (- k).

(** The rational [n/d], [0 < d], rounded to a double. *)
Definition dround (n d : Z) : double :=
  if n =? 0 then DFin 0 0
  else if 0 <? n then round_pos n d
  else match round_pos (- n) d with DFin m e => DFin (- m) e | x => x end.

(** [(double)z] *)
Definition d_of_Z (z : Z) : double := dround z 1.

Definition num (m e : Z) : Z := m * 2 ^ Z.max e 0.
Definition den (e : Z) : Z := 2 ^ Z.max (- e) 0.

(** [a / b] *)
Definition ddiv (a b : double) : double :=
  match a, b with
  | DNan, _ | _, DNan | DInf _, DInf _ => DNan
  | DInf s, DFin m _ => DInf (xorb s (m <? 0))
  | DFin _ _, DInf _ => DFin 0 0
  | DFin m1 e1, DFin m2 e2 =>
      if m2 =? 0 then if m1 =? 0 then DNan else DInf (m1 <? 0)
      else let n := num m1 e1 * den e2 * Z.sgn m2 in
           let d := den e1 * num (Z.abs m2) e2 in dround n d
  end.

(** [a + b] *)
Definition dadd (a b : double) : double :=
  match a, b with
  | DNan, _ | _, DNan => DNan
  | DInf s, DInf s' => if Bool.eqb s s' then DInf s else DNan
  | DInf s, _ | _, DInf s => DInf s
  | DFin m1 e1, DFin m2 e2 =>
      dround (num m1 e1 * den e2 + num m2 e2 * den e1) (den e1 * den e2)
  end.

(** [a * b] *)
Definition dmul (a b : double) : double :=
  match a, b with
  | DNan, _ | _, DNan => DNan
  | DInf s, DInf s' => DInf (xorb s s')
  | DInf s, DFin m _ | DFin m _, DInf s => if m =? 0 then DNan else DInf (xorb s (m <? 0))
  | DFin m1 e1, DFin m2 e2 => dround (num m1 e1 * num m2 e2) (den e1 * den e2)
  end.

(** [a >= b] *)
Definition dge (a b : double) : bool :=
  match a, b with
  | DNan, _ | _, DNan => false
  | DInf s, DInf s' => implb s s'
  | DInf s, DFin _ _ => negb s
  | DFin _ _, DInf s => s
  | DFin m1 e1, DFin m2 e2 => num m2 e2 * den e1 <=? num m1 e1 * den e2
  end.

(** The last [k] decimal digits of [n]. *)
Fixpoint fmt_pad (k : nat) (n : Z) : list Z :=
  match k with
  | O => []
  | S k => fmt_pad k (n / 10) ++ [digit_char (n mod 10)]
  end.

(** A decimal fraction [sgn * n / 10^k] with all its [k] decimals. *)
Definition fmt_dec (k : nat) (neg : bool) (n : Z) : list Z :=
  (if neg then str "-" else []) ++
  fmt_uint 10 (n / 10 ^ Z.of_nat k) ++ str "." ++ fmt_pad k (n mod 10 ^ Z.of_nat k).

(** %.[k]f: the exact value rounded to [k] decimals, ties to even. *)
Definition fmt_f (k : nat) (x : double) : list Z :=
  match x with
  | DFin m e =>
      fmt_dec k (m <? 0) (rne (num (Z.abs m) e * 10 ^ Z.of_nat k) (den e))
  | DInf neg => (if neg then str "-" else []) ++ str "inf"
  | DNan => str "nan"
  end.

(** ** Rounding error *)

Lemma rne_error a b : 0 < b -> Z.abs (2 * (rne a b * b - a)) <= b.
Proof.
  intros Hb. unfold rne. pose proof (Z.div_mod a b). pose proof (Z.mod_pos_bound a b Hb).
  repeat case_cmp; [nia..|]. destruct (Z.even _); nia.
Qed.

Lemma rne_unique a b i : 0 < b -> Z.abs (2 * (i * b - a)) < b -> rne a b = i.
Proof.
  intros Hb Hi. pose proof (rne_error a b Hb).
  assert (- (2 * b) < 2 * ((rne a b - i) * b) < 2 * b) by lia. nia.
Qed.

Lemma rne_exact i b : 0 < b -> rne (i * b) b = i.
Proof. intros. apply rne_unique; lia. Qed.

Lemma log2_bounds n : 0 < n -> 2 ^ Z.log2 n <= n < 2 * 2 ^ Z.log2 n.
Proof. intros. rewrite <- Z.pow_succ_r by apply Z.log2_nonneg. by apply Z.log2_spec. Qed.

(** For rationals below 2^52 (the only ones the sources print or compare) the
    scaling exponent is not negative and the significand has 53 bits. *)
Lemma scale53_spec n d :
  0 < n -> 0 < d -> Z.log2 n - Z.log2 d <= 52 ->
  0 <= scale53 n d /\ 52 - (Z.log2 n - Z.log2 d) <= scale53 n d /\
  2 ^ 52 * d <= n * 2 ^ scale53 n d < 2 ^ 53 * d.
Proof.
  intros Hn Hd Hk. unfold scale53. set (k := 52 - (Z.log2 n - Z.log2 d)).
  pose proof (log2_bounds n Hn) as Bn. pose proof (log2_bounds d Hd) as Bd.
  pose proof (Z.log2_nonneg n). pose proof (Z.log2_nonneg d).
  assert (E : 2 ^ Z.log2 n * 2 ^ k = 2 ^ 52 * 2 ^ Z.log2 d).
  { rewrite <- !Z.pow_add_r by lia. f_equal. lia. }
  assert (0 < 2 ^ k) by lia.
  rewrite Z.max_l, Z.max_r by lia. change (2 ^ 0) with 1.
  change (2 ^ 53) with (2 * 2 ^ 52) in *. set (c := 2 ^ 52) in *. assert (0 < c) by lia.
  case_cmp; (split; [lia|split; [lia|]]); rewrite ?Z.pow_add_r by lia; nia.
Qed.

(** A positive rational below 2^52 is rounded to [q / 2^k] with 53 bits and
    half a unit in the last place of error. *)
Lemma round_pos_spec n d :
  0 < n -> 0 < d -> Z.log2 n - Z.log2 d <= 52 ->
  exists q k, round_pos n d = DFin q (- k) /\ 52 - (Z.log2 n - Z.log2 d) <= k /\ 0 <= k /\
    2 ^ 52 <= q <= 2 ^ 53 /\ Z.abs (2 * (q * d - n * 2 ^ k)) <= d.
Proof.
  intros Hn Hd Hl. destruct (scale53_spec n d) as (Hk & Hk' & Hb); [done..|].
  unfold round_pos. set (k := scale53 n d) in *. rewrite Z.max_l, Z.max_r by lia.
  change (2 ^ 0) with 1. rewrite Z.mul_1_r.
  exists (rne (n * 2 ^ k) d), k. pose proof (rne_error (n * 2 ^ k) d Hd) as He.
  split; [done|]. split; [done|]. split; [done|]. split; [|done].
  set (q := rne _ _) in *. set (x := n * 2 ^ k) in *.
  change (2 ^ 53) with (2 * 2 ^ 52) in *. set (c := 2 ^ 52) in *. nia.
Qed.

(** Integers below 2^53 are exact. *)
Lemma round_pos_int n : 0 < n < 2 ^ 53 ->
  exists k, 0 <= k /\ round_pos n 1 = DFin (n * 2 ^ k) (- k).
Proof.
  intros Hn. assert (Z.log2 n <= 52).
  { apply Z.lt_succ_r. apply Z.log2_lt_pow2; simpl; lia. }
  destruct (scale53_spec n 1) as (Hk & _ & _); [lia|lia|simpl; lia|].
  unfold round_pos. set (k := scale53 n 1) in *. exists k. split; [done|].
  rewrite Z.max_l, Z.max_r by lia. f_equal.
  replace (n * 2 ^ k) with (n * 2 ^ k * (1 * 2 ^ 0)) at 1 by lia. apply rne_exact. lia.
Qed.

Lemma dround_spec n d :
  n <> 0 -> 0 < d -> Z.log2 (Z.abs n) - Z.log2 d <= 52 ->
  exists q k, dround n d = DFin q (- k) /\ 52 - (Z.log2 (Z.abs n) - Z.log2 d) <= k /\ 0 <= k /\
    2 ^ 52 <= Z.abs q <= 2 ^ 53 /\ Z.abs (2 * (q * d - n * 2 ^ k)) <= d /\ (q < 0 <-> n < 0).
Proof.
  intros Hn Hd Hl. unfold dround. destruct (Z.eqb_spec n 0); [done|].
  destruct (round_pos_spec (Z.abs n) d) as (q & k & E & ? & ? & ? & ?); [lia|lia|done|].
  case_cmp.
  - replace (Z.abs n) with n in * by lia. rewrite E. exists q, k. repeat split; lia.
  - replace (Z.abs n) with (- n) in * by lia. rewrite E. exists (- q), k. repeat split; lia.
Qed.

(** Integers below 2^53 in absolute value convert exactly. *)
Lemma d_of_Z_spec z : Z.abs z < 2 ^ 53 -> exists k, 0 <= k /\ d_of_Z z = DFin (z * 2 ^ k) (- k).
Proof.
  intros Hz. unfold d_of_Z, dround. destruct (Z.eqb_spec z 0) as [->|].
  - by exists 0.
  - case_cmp.
    + apply round_pos_int. lia.
    + destruct (round_pos_int (- z)) as (k & Hk & ->); [lia|]. exists k. split; [done|]. f_equal. lia.
Qed.

Lemma num_neg m k : 0 <= k -> num m (- k) = m.
Proof. intros. unfold num. rewrite Z.max_r by lia. lia. Qed.

Lemma den_neg k : 0 <= k -> den (- k) = 2 ^ k.
Proof. intros. unfold den. rewrite Z.max_l by lia. f_equal. lia. Qed.

(** The quotient of two exactly converted integers is the rounded quotient
    of the integers (numerator and denominator share a power of two). *)
Lemma ddiv_int n d :
  Z.abs n < 2 ^ 53 -> 0 < d < 2 ^ 53 ->
  exists c, 0 <= c /\ ddiv (d_of_Z n) (d_of_Z d) = dround (n * 2 ^ c) (d * 2 ^ c).
Proof.
  intros Hn Hd. destruct (d_of_Z_spec n) as (k1 & Hk1 & ->); [done|].
  destruct (d_of_Z_spec d) as (k2 & Hk2 & ->); [lia|].
  assert (0 < 2 ^ k2) by lia. exists (k1 + k2). split; [lia|].
  unfold ddiv. destruct (Z.eqb_spec (d * 2 ^ k2) 0); [nia|].
  rewrite Z.sgn_pos, Z.abs_eq, !num_neg, !den_neg by nia.
  rewrite Z.pow_add_r by lia. f_equal; lia.
Qed.

Lemma log2_shift n c : 0 < n -> 0 <= c -> Z.log2 (n * 2 ^ c) = c + Z.log2 n.
Proof. intros. rewrite Z.log2_mul_pow2; lia. Qed.

(** Scaled form of [dround_spec]: the common power of two cancels. *)
Lemma dround_scaled n d c :
  n <> 0 -> 0 < d -> 0 <= c -> Z.log2 (Z.abs n) - Z.log2 d <= 52 ->
  exists q k, dround (n * 2 ^ c) (d * 2 ^ c) = DFin q (- k) /\
    52 - (Z.log2 (Z.abs n) - Z.log2 d) <= k /\ 0 <= k /\
    2 ^ 52 <= Z.abs q <= 2 ^ 53 /\ Z.abs (2 * (q * d - n * 2 ^ k)) <= d /\ (q < 0 <-> n < 0).
Proof.
  intros Hn Hd Hc Hl. assert (0 < 2 ^ c) by lia.
  assert (El : Z.log2 (Z.abs (n * 2 ^ c)) - Z.log2 (d * 2 ^ c) = Z.log2 (Z.abs n) - Z.log2 d).
  { rewrite Z.abs_mul, (Z.abs_eq (2 ^ c)), !log2_shift by lia. lia. }
  destruct (dround_spec (n * 2 ^ c) (d * 2 ^ c)) as (q & k & E & Hk & Hk0 & Hq & He & Hs); [nia|nia|lia|].
  exists q, k. split; [done|]. split; [lia|]. split; [done|]. split; [done|]. split; [|nia].
  replace (2 * (q * (d * 2 ^ c) - n * 2 ^ c * 2 ^ k))
    with (2 * (q * d - n * 2 ^ k) * 2 ^ c) in He by ring.
  rewrite Z.abs_mul, (Z.abs_eq (2 ^ c)) in He by lia. nia.
Qed.

(** ** %f of a scaled integer *)

(** A 32-bit integer divided by a scale factor that divides 10^6 prints as
    the exact decimal fraction: the error of the binary quotient is too small
    to be seen in six decimals. *)
Lemma fmt_f_scaled v s :
  Z.abs v <= 2 ^ 31 -> 8 <= s <= 1000 -> (s | 10 ^ 6) ->
  fmt_f 6 (ddiv (d_of_Z v) (d_of_Z s)) = fmt_dec 6 (v <? 0) (Z.abs v * (10 ^ 6 / s)).
Proof.
  intros Hv Hs [t Ht]. destruct (ddiv_int v s) as (c & Hc & ->); [lia|lia|].
  assert (Et : 10 ^ 6 / s = t) by (rewrite Ht; apply Z.div_mul; lia).
  destruct (Z.eq_dec v 0) as [->|Hv0].
  { rewrite Z.mul_0_l. reflexivity. }
  assert (Hl : Z.log2 (Z.abs v) <= 31) by (rewrite <- (Z.log2_pow2 31) by lia; by apply Z.log2_le_mono).
  assert (Hl' : 3 <= Z.log2 s) by (rewrite <- (Z.log2_pow2 3) by lia; apply Z.log2_le_mono; simpl; lia).
  destruct (dround_scaled v s c) as (q & k & -> & Hk & Hk0 & Hq & He & Hsg); [done|lia|lia|lia|].
  unfold fmt_f. rewrite num_neg, den_neg by lia.
  replace (q <? 0) with (v <? 0) by (repeat case_cmp; lia).
  f_equal. rewrite Et. assert (H24 : 2 ^ 24 <= 2 ^ k) by (apply Z.pow_le_mono_r; lia).
  change (Z.of_nat 6) with 6. apply rne_unique; [lia|].
  assert (He' : Z.abs (2 * (Z.abs q * s - Z.abs v * 2 ^ k)) <= s) by nia.
  set (X := 2 * (Z.abs v * t * 2 ^ k - Z.abs q * 10 ^ 6)).
  assert (E : s * X = - (10 ^ 6 * (2 * (Z.abs q * s - Z.abs v * 2 ^ k)))) by (unfold X; rewrite Ht; ring).
  assert (Hx : s * Z.abs X <= s * 10 ^ 6).
  { replace (s * Z.abs X) with (Z.abs (s * X)) by (rewrite Z.abs_mul; f_equal; lia).
    rewrite E, Z.abs_opp, Z.abs_mul. change (Z.abs (10 ^ 6)) with (10 ^ 6). lia. }
  apply Z.mul_le_mono_pos_l in Hx; lia.
Qed.

(** ** Comparing a sum of seconds and nanoseconds with a threshold *)

(** Comparing [q / P], a rounding of [S / K], with an integer [T], when [S / K]
    is known to be at least half a nanosecond away from [T]. *)
Lemma threshold_round K S P q T :
  0 < T <= 30 -> 0 < K -> 0 < P ->
  Z.abs (2 * (q * K - S * P)) <= K -> 2 ^ 52 <= Z.abs q -> (P <= 2 ^ 47 \/ 2 ^ 47 <= P) ->
  (K <= 2 * 10 ^ 9 * (S - T * K) -> T * P <= q) /\
  (K <= 2 * 10 ^ 9 * (T * K - S) -> q < T * P).
Proof.
  intros HT HK HP H2 Hq Hc.
  change (10 ^ 9) with 1000000000 in *. change (2 ^ 52) with 4503599627370496 in *.
  change (2 ^ 47) with 140737488355328 in *.
  assert (HTP : T * P <= 30 * P) by (apply Z.mul_le_mono_nonneg_r; lia).
  split; intros H.
  - apply (Z.mul_le_mono_nonneg_r _ _ P) in H; [|lia].
    destruct (Z.le_gt_cases (T * P) q) as [|Hlt]; [done|exfalso].
    assert (Hm : (q + 1) * K <= T * P * K) by (apply Z.mul_le_mono_nonneg_r; lia).
    destruct Hc as [Hc|Hc].
    + assert (q < 0) by lia. assert (q * K < 0) by (apply Z.mul_neg_pos; lia).
      assert (0 <= K * P) by (apply Z.mul_nonneg_nonneg; lia).
      assert (T * P * K <= S * P) by lia. assert (0 < T * P) by (apply Z.mul_pos_pos; lia).
      assert (1 * K <= T * P * K) by (apply Z.mul_le_mono_nonneg_r; lia). lia.
    + assert (140737488355328 * K <= P * K) by (apply Z.mul_le_mono_nonneg_r; lia). lia.
  - apply (Z.mul_le_mono_nonneg_r _ _ P) in H; [|lia].
    destruct (Z.le_gt_cases (T * P) q) as [Hge|]; [exfalso|done].
    destruct Hc as [Hc|Hc].
    + assert (T * P + 1 <= q) by lia. assert (0 <= K * P) by (apply Z.mul_nonneg_nonneg; lia).
      assert ((T * P + 1) * K <= q * K) by (apply Z.mul_le_mono_nonneg_r; lia). lia.
    + assert (T * P * K <= q * K) by (apply Z.mul_le_mono_nonneg_r; lia).
      assert (140737488355328 * K <= P * K) by (apply Z.mul_le_mono_nonneg_r; lia). lia.
Qed.

(** The two roundings of [D + N / 10^9]: [q1 / K] is the rounded fraction,
    [q / P] the rounded sum. *)
Lemma threshold_sum D N K q1 P q T :
  0 < T <= 30 -> 2 ^ 52 <= K -> 0 < P ->
  Z.abs (2 * (q1 * 10 ^ 9 - N * K)) <= 10 ^ 9 ->
  N <> 0 -> Z.abs N < 10 ^ 9 ->
  Z.abs (2 * (q * K - (D * K + q1) * P)) <= K -> 2 ^ 52 <= Z.abs q ->
  (T * P <= q <-> T * 10 ^ 9 <= D * 10 ^ 9 + N).
Proof.
  intros HT HK HP H1 HN HN' H2 Hq.
  destruct (threshold_round K (D * K + q1) P q T) as [Hlo Hhi]; [done|lia|done|done|done|lia|].
  change (10 ^ 9) with 1000000000 in *. change (2 ^ 52) with 4503599627370496 in *.
  destruct (Z.le_gt_cases (T * 1000000000) (D * 1000000000 + N)) as [H|H].
  - split; [done|]. intros _. apply Hlo.
    assert (1 * K <= (D * 1000000000 + N - T * 1000000000) * K)
      by (apply Z.mul_le_mono_nonneg_r; lia). lia.
  - split; [|lia]. intros H'. assert (q < T * P); [|lia]. apply Hhi.
    assert (1 * K <= (T * 1000000000 - (D * 1000000000 + N)) * K)
      by (apply Z.mul_le_mono_nonneg_r; lia). lia.
Qed.

(** Comparison of a finite double with an exactly converted integer. *)
Lemma dge_int q k T : 0 <= k -> Z.abs T < 2 ^ 53 -> dge (DFin q (- k)) (d_of_Z T) = (T * 2 ^ k <=? q).
Proof.
  intros Hk HT. destruct (d_of_Z_spec T HT) as (kt & Hkt & ->). unfold dge.
  rewrite !num_neg, !den_neg by done. assert (0 < 2 ^ kt) by lia.
  apply eq_true_iff_eq. rewrite !Z.leb_le.
  replace (T * 2 ^ kt * 2 ^ k) with (T * 2 ^ k * 2 ^ kt) by ring.
  symmetry. by apply Z.mul_le_mono_pos_r.
Qed.

Lemma log2_lt_53 x y : 0 < x -> 0 < y -> x < 2 ^ 52 * y -> Z.log2 x - Z.log2 y <= 52.
Proof.
  intros Hx Hy H. assert (Z.log2 x <= Z.log2 (y * 2 ^ 52)) by (apply Z.log2_le_mono; lia).
  rewrite log2_shift in * by lia. lia.
Qed.

(** Seconds without a fraction. *)
Lemma dadd_zero_frac D :
  Z.abs D < 2 ^ 50 -> exists k, 0 <= k /\ dadd (d_of_Z D) (DFin 0 0) = DFin (D * 2 ^ k) (- k).
Proof.
  intros HD. destruct (d_of_Z_spec D) as (kd & Hkd & ->); [lia|]. unfold dadd.
  rewrite num_neg, den_neg by done. change (num 0 0) with 0. change (den 0) with 1.
  replace (D * 2 ^ kd * 1 + 0 * 2 ^ kd) with (D * 2 ^ kd) by lia.
  destruct (Z.eq_dec D 0) as [->|HD0]; [by exists 0|].
  replace (2 ^ kd * 1) with (1 * 2 ^ kd) by lia.
  destruct (dround_scaled D 1 kd) as (q & k & -> & _ & Hk0 & _ & He & _); [done|lia|done|apply log2_lt_53; lia|].
  exists k. split; [done|]. f_equal. lia.
Qed.

(** [D + N / 10^9 >= T] computed in doubles agrees with exact arithmetic on
    nanoseconds. *)
Lemma elapsed_threshold D N T :
  0 < T <= 30 -> Z.abs D < 2 ^ 50 -> Z.abs N < 10 ^ 9 ->
  dge (dadd (d_of_Z D) (ddiv (d_of_Z N) (d_of_Z (10 ^ 9)))) (d_of_Z T)
  = (T * 10 ^ 9 <=? D * 10 ^ 9 + N).
Proof.
  intros HT HD HN. destruct (ddiv_int N (10 ^ 9)) as (c & Hc & ->); [lia|lia|].
  destruct (Z.eq_dec N 0) as [->|HN0].
  - rewrite Z.mul_0_l. change (dround 0 _) with (DFin 0 0).
    destruct (dadd_zero_frac D HD) as (k & Hk & ->). rewrite dge_int by lia.
    assert (0 < 2 ^ k) by lia.
    apply eq_true_iff_eq. rewrite !Z.leb_le, <- Z.mul_le_mono_pos_r by lia. lia.
  - assert (Hl : Z.log2 (Z.abs N) <= Z.log2 (10 ^ 9)) by (apply Z.log2_le_mono; lia).
    destruct (dround_scaled N (10 ^ 9) c) as (q1 & k1 & -> & Hk1 & Hk10 & Hq1 & He1 & _); [done|lia|done|lia|].
    destruct (d_of_Z_spec D) as (kd & Hkd & ->); [lia|]. unfold dadd.
    rewrite !num_neg, !den_neg by done.
    replace (D * 2 ^ kd * 2 ^ k1 + q1 * 2 ^ kd) with ((D * 2 ^ k1 + q1) * 2 ^ kd) by ring.
    rewrite (Z.mul_comm (2 ^ kd) (2 ^ k1)).
    assert (HK : 2 ^ 52 <= 2 ^ k1) by (apply Z.pow_le_mono_r; lia).
    destruct (Z.eq_dec (D * 2 ^ k1 + q1) 0) as [Ez|Hz].
    + rewrite Ez, Z.mul_0_l. change (dround 0 _) with (DFin 0 (- 0)). rewrite dge_int by lia.
      apply eq_true_iff_eq. rewrite !Z.leb_le. change (2 ^ 0) with 1.
      change (2 ^ 52) with 4503599627370496 in *. change (10 ^ 9) with 1000000000 in *.
      split; [lia|]. intros. set (K := 2 ^ k1) in *.
      assert (T * 1000000000 * K <= (D * 1000000000 + N) * K) by (apply Z.mul_le_mono_nonneg_r; lia). nia.
    + destruct (dround_scaled (D * 2 ^ k1 + q1) (2 ^ k1) kd)
        as (q & k & -> & _ & Hk0 & Hq & He & _); [done|lia|done| |].
      { apply log2_lt_53; [lia|lia|].
        change (2 ^ 53) with 9007199254740992 in *. change (2 ^ 50) with 1125899906842624 in *.
        change (2 ^ 52) with 4503599627370496 in *. set (K := 2 ^ k1) in *.
        assert (Z.abs D * K <= 1125899906842624 * K) by (apply Z.mul_le_mono_nonneg_r; lia). lia. }
      rewrite dge_int by lia. apply eq_true_iff_eq. rewrite !Z.leb_le.
      apply threshold_sum with (K := 2 ^ k1) (q1 := q1); [done|done|lia|done|done|done|done|lia].
Qed.

Example double_ex :
  fmt_f 6 (ddiv (d_of_Z (-265)) (d_of_Z 10)) = str "-26.500000" /\
  fmt_f 2 (ddiv (d_of_Z 61752) (d_of_Z 1000)) = str "61.75" /\
  ddiv (d_of_Z 1) (d_of_Z 10) = DFin 7205759403792794 (-56).
Proof. repeat split; vm_compute; reflexivity. Qed.

(** The rounding agrees with the binary64 operations of the Standard
    Library's specification of IEEE 754 on readings of the sample data. *)
Example agrees_with_SpecFloat :
  forallb (fun v =>
    match SFdiv 53 1024 (S754_finite false v 0) (S754_finite false 10 0),
          ddiv (d_of_Z (Z.pos v)) (d_of_Z 10) with
    | S754_finite _ m e, DFin m' e' => Z.pos m * 2 ^ (e + 60) =? m' * 2 ^ (e' + 60)
    | _, _ => false
    end) [1; 3; 250; 544; 95; 140; 10000; 1230; 21950; 2147483647]%positive = true.
Proof. vm_compute. reflexivity. Qed.
