(* ===== verification/Sense.v ===== *)
(** The data model of include/sense.h: sensor types, states and frame types,
    the union of readings, and the frame [Sensor_t] with its memory layout.

    Enumeration fields are kept as the integers the C enumerations are: a
    zero-initialised frame has [type = 0], which is no enumerator.  The union
    is its twelve bytes, so that writing one member and reading another (as
    the latency reply does) means what it means in C. *)
From S2P Require Import Prelude Machine.
Local Open Scope Z_scope.

(** ** Constants *)

Definition SENSORS_LIMIT_MAX : Z := 128.
Definition SENSOR_NAME_SIZE : nat := 13.
Definition SENSOR_INACTIVE_SECS_MAX : Z := 30.

(** [ScaleFactor_e] *)
Definition TEMPERATURE_SCALE : Z := 10.
Definition PRESSURE_SCALE : Z := 100.
Definition VOLTAGE_SCALE : Z := 100.
Definition CURRENT_SCALE : Z := 100.
Definition POWER_SCALE : Z := 10.
Definition TORQUE_SCALE : Z := 10.
Definition PROXIMITY_SCALE : Z := 10.

(** [SensorType_e]; the last enumerator is the successor of the one before *)
Definition SENSOR_TYPE_TEMPPRESS : Z := 0x1B.
Definition SENSOR_TYPE_POWCURRVOLT : Z := 0x2B.
Definition SENSOR_TYPE_TORQUE : Z := 0x4B.
Definition SENSOR_TYPE_PROXIMITY : Z := 0x8B.
Definition SENSOR_TYPE_UNSUPPORTED : Z := 0x8C.

(** [SensorState_e] *)
Definition SENSOR_FRAME_DEFAULT : Z := 0.
Definition SENSOR_OFFLINE : Z := 1.
Definition SENSOR_ONLINE : Z := 2.

(** [SensorFrameType_e] *)
Definition SENSOR_HEARTBEAT : Z := 0.
Definition SENSOR_DATA : Z := 1.

(** ** Readings *)

(** [SensorData_u]: 12 bytes, the size of its largest member. *)
Abbreviation SensorData_u := (list Z).
Definition sizeof_SensorData : nat := 12.

Definition get_i32 (off : nat) (d : SensorData_u) : Z := i32 (le_val (take 4 (drop off d))).
Definition get_u32 (off : nat) (d : SensorData_u) : Z := le_val (take 4 (drop off d)).
Definition set_32 (off : nat) (v : Z) (d : SensorData_u) : SensorData_u :=
  splice d off (le_bytes 4 v).

(** [PowCurrVolt_t] *)
Definition powcurrvolt_power := get_i32 0.
Definition powcurrvolt_current := get_i32 4.
Definition powcurrvolt_voltage := get_i32 8.
(** [TempPress_t] *)
Definition temppress_temperature := get_i32 0.
Definition temppress_pressure := get_u32 4.
(** [Torque_t] and [Proximity_t] *)
Definition tor_torque := get_i32 0.
Definition prox_proximity := get_u32 0.

(** ** Frames *)

(** [struct timespec] *)
Record timespec := { tv_sec : Z; tv_nsec : Z }.

#[export] Instance timespec_eq_dec : EqDecision timespec.
Proof. solve_decision. Defined.

(** [Sensor_t] *)
Record Sensor_t := {
  data : SensorData_u;
  timestamp : timespec;
  last_seen_time : timespec;
  id : Z;
  name : list Z;
  type : Z;
  state : Z;
  frame_type : Z
}.

#[export] Instance Sensor_t_eq_dec : EqDecision Sensor_t.
Proof. solve_decision. Defined.

(** [Sensor_t x = {0};] *)
Definition zero_timespec : timespec := {| tv_sec := 0; tv_nsec := 0 |}.
Definition zero_sensor : Sensor_t :=
  {| data := replicate sizeof_SensorData 0; timestamp := zero_timespec;
     last_seen_time := zero_timespec; id := 0; name := replicate SENSOR_NAME_SIZE 0;
     type := 0; state := 0; frame_type := 0 |}.

(** What every object of type [Sensor_t] satisfies: the ranges of its
    fields' types. *)
Definition i64_ok (z : Z) : Prop := INT64_MIN <= z <= INT64_MAX.

Record wf_sensor (s : Sensor_t) : Prop := {
  wf_data : length (data s) = sizeof_SensorData /\ bytes_ok (data s);
  wf_stamp : i64_ok (tv_sec (timestamp s)) /\ i64_ok (tv_nsec (timestamp s));
  wf_seen : i64_ok (tv_sec (last_seen_time s)) /\ i64_ok (tv_nsec (last_seen_time s));
  wf_id : 0 <= id s < 2 ^ 16;
  wf_name : length (name s) = SENSOR_NAME_SIZE /\ bytes_ok (name s);
  wf_type : 0 <= type s < 2 ^ 32;
  wf_state : 0 <= state s < 2 ^ 32;
  wf_frame_type : 0 <= frame_type s < 2 ^ 32
}.

(** *** Memory layout *)

(** [sizeof(Sensor_t)] on LP64: 12 bytes of data, 4 of padding, two
    timespecs of 16, the id (2), the name (13), 1 of padding, three enums of
    4 and 4 of padding up to a multiple of 8. *)
Definition sizeof_Sensor_t : nat := 80.

(** The object as the bytes [mq_send(&frame, sizeof frame)] copies; the
    padding of a zero-initialised frame is zero. *)
Definition timespec_bytes (t : timespec) : list Z := le_bytes 8 (tv_sec t) ++ le_bytes 8 (tv_nsec t).

Definition Sensor_bytes (s : Sensor_t) : list Z :=
  data s ++ replicate 4 0 ++ timespec_bytes (timestamp s) ++ timespec_bytes (last_seen_time s) ++
  le_bytes 2 (id s) ++ name s ++ replicate 1 0 ++
  le_bytes 4 (type s) ++ le_bytes 4 (state s) ++ le_bytes 4 (frame_type s) ++ replicate 4 0.

Definition field (off len : nat) (bs : list Z) : list Z := take len (drop off bs).

Definition timespec_at (off : nat) (bs : list Z) : timespec :=
  {| tv_sec := i64 (le_val (field off 8 bs)); tv_nsec := i64 (le_val (field (off + 8) 8 bs)) |}.

(** The object a message of [sizeof(Sensor_t)] bytes is received into. *)
Definition Sensor_of_bytes (bs : list Z) : Sensor_t :=
  {| data := field 0 12 bs; timestamp := timespec_at 16 bs; last_seen_time := timespec_at 32 bs;
     id := le_val (field 48 2 bs); name := field 50 13 bs;
     type := le_val (field 64 4 bs); state := le_val (field 68 4 bs);
     frame_type := le_val (field 72 4 bs) |}.

(** ** Facts *)

Lemma field_skip off len a bs : (length a <= off)%nat -> field off len (a ++ bs) = field (off - length a) len bs.
Proof. intros. unfold field. by rewrite drop_app_ge by lia. Qed.

Lemma field_here len a bs : len = length a -> field 0 len (a ++ bs) = a.
Proof. intros. unfold field. simpl. by apply take_app_exact. Qed.

(** Lengths of the parts of a layout, known ones from the hypotheses. *)
Ltac part_len :=
  autorewrite with gw_len; repeat match goal with H : length ?l = _ |- context [length ?l] => rewrite H end.

(** Brings a field lookup in a concatenation down to the field itself. *)
Ltac field_at :=
  repeat (rewrite field_skip by (part_len; simpl; lia); part_len; cbn [Nat.sub]);
  rewrite field_here by (part_len; done).

Lemma length_timespec_bytes t : length (timespec_bytes t) = 16%nat.
Proof. unfold timespec_bytes. len. Qed.
#[export] Hint Rewrite length_timespec_bytes : gw_len.

Lemma length_Sensor_bytes s : wf_sensor s -> length (Sensor_bytes s) = sizeof_Sensor_t.
Proof.
  intros []. unfold Sensor_bytes, sizeof_Sensor_t, sizeof_SensorData, SENSOR_NAME_SIZE in *.
  autorewrite with gw_len. lia.
Qed.

Lemma le_val_u n v : 0 <= v < 2 ^ (8 * Z.of_nat n) -> le_val (le_bytes n v) = v.
Proof. intros. rewrite le_val_bytes. by apply Z.mod_small. Qed.

Lemma i64_le_bytes z : i64_ok z -> i64 (le_val (le_bytes 8 z)) = z.
Proof.
  unfold i64_ok, INT64_MIN, INT64_MAX. intros. apply (sint_le_bytes 8); [lia|].
  change (8 * Z.of_nat 8 - 1) with 63. lia.
Qed.

Lemma timespec_at_bytes t bs :
  i64_ok (tv_sec t) -> i64_ok (tv_nsec t) -> timespec_at 0 (timespec_bytes t ++ bs) = t.
Proof.
  intros H1 H2. destruct t as [s n]. unfold timespec_at, timespec_bytes.
  cbn [tv_sec tv_nsec Nat.add] in *.
  rewrite <- !app_assoc.
  replace (field 0 8 _) with (le_bytes 8 s) by (by field_at).
  replace (field 8 8 _) with (le_bytes 8 n) by (by field_at).
  by rewrite !i64_le_bytes.
Qed.

Lemma timespec_at_skip off a bs :
  (length a <= off)%nat -> timespec_at off (a ++ bs) = timespec_at (off - length a) bs.
Proof.
  intros. unfold timespec_at. rewrite !field_skip by lia.
  replace (off + 8 - length a)%nat with (off - length a + 8)%nat by lia. done.
Qed.

(** A frame survives the queue: what is received into a [Sensor_t] is what was
    sent from one. *)
Lemma Sensor_of_Sensor_bytes s : wf_sensor s -> Sensor_of_bytes (Sensor_bytes s) = s.
Proof.
  intros [[Hd Hdb] [Hs1 Hs2] [Hl1 Hl2] Hid [Hn Hnb] Hty Hst Hft]. destruct s as [d ts ls i nm ty st ft].
  cbn [data timestamp last_seen_time id name type state frame_type] in *.
  unfold sizeof_SensorData, SENSOR_NAME_SIZE in *.
  unfold Sensor_of_bytes, Sensor_bytes.
  cbn [data timestamp last_seen_time id name type state frame_type].
  f_equal; try (field_at; by rewrite ?le_val_u by done).
  all: repeat (rewrite timespec_at_skip by (part_len; simpl; lia); part_len; cbn [Nat.sub]);
    by apply timespec_at_bytes.
Qed.

Lemma length_set_32 off v d : (off + 4 <= length d)%nat -> length (set_32 off v d) = length d.
Proof. intros. unfold set_32. apply length_splice. rewrite length_le_bytes. lia. Qed.

Lemma set_32_bytes off v d : bytes_ok d -> bytes_ok (set_32 off v d).
Proof.
  intros. unfold set_32, splice. repeat (apply Forall_app; split); auto using Forall_take, Forall_drop with gw.
Qed.

Lemma zero_sensor_wf : wf_sensor zero_sensor.
Proof.
  split; unfold i64_ok, INT64_MIN, INT64_MAX; simpl; try lia;
    (split; [done|]; repeat constructor; unfold is_byte; lia).
Qed.
#[export] Hint Resolve zero_sensor_wf : gw.

(** ** Frames in messages *)

(** The frames among the messages of a queue: those of the size of a frame. *)
Definition frames_of (ms : list (list Z)) : list Sensor_t :=
  map Sensor_of_bytes (List.filter (fun m => (length m =? sizeof_Sensor_t)%nat) ms).

Lemma frames_of_app a b : frames_of (a ++ b) = frames_of a ++ frames_of b.
Proof. unfold frames_of. by rewrite List.filter_app, map_app. Qed.

Lemma frames_of_one m : length m = sizeof_Sensor_t -> frames_of [m] = [Sensor_of_bytes m].
Proof. intros H. unfold frames_of. cbn [List.filter]. by rewrite (proj2 (Nat.eqb_eq _ _) H). Qed.

Lemma frames_of_snoc ms m :
  length m = sizeof_Sensor_t -> frames_of (ms ++ [m]) = frames_of ms ++ [Sensor_of_bytes m].
Proof. intros H. by rewrite frames_of_app, frames_of_one. Qed.

Lemma frames_of_skip ms m : length m <> sizeof_Sensor_t -> frames_of (ms ++ [m]) = frames_of ms.
Proof.
  intros H. rewrite frames_of_app. unfold frames_of at 2. cbn [List.filter].
  by rewrite (proj2 (Nat.eqb_neq _ _) H), app_nil_r.
Qed.
