(* ===== verification/ProcessInit.v ===== *)
(** src/process_init.c: the exit request flag and the signal handler every
    daemon installs. *)
From S2P Require Import Prelude.
Local Open Scope Z_scope.

Definition SIGINT : Z := 2.
Definition SIGTERM : Z := 15.

(** [signalHandler]: the new value of [exitRQ] after a signal. *)
Definition signalHandler (signo : Z) (exitRQ : bool) : bool :=
  if (signo =? SIGINT) || (signo =? SIGTERM) then true else exitRQ.

(** A request to exit is never withdrawn. *)
Lemma signalHandler_mono signo e : e = true -> signalHandler signo e = true.
Proof. intros ->. unfold signalHandler. by destruct (_ || _). Qed.
