(* ===== verification/Posix.v ===== *)
(** The operating system as the daemons see it: stream sockets, signals that
    arrive while a call blocks or between calls, and POSIX message queues.

    The environment of a thread is a script: the events its blocking reads
    will meet, in order, and how much each [send] or [write] will accept.  The
    theorems quantify over all scripts.  When the script of a blocking read
    is used up, the thread waits. *)
From S2P Require Import Prelude Proc ProcessInit.
Local Open Scope Z_scope.

Definition EINTR : Z := 4.
Definition EAGAIN : Z := 11.
Definition EMSGSIZE : Z := 90.

(** ** Reading *)

(** What happens next at a blocking read: bytes arrive (none: the peer closed
    the connection), the call is interrupted by a signal, it fails, or a
    signal is handled without interrupting this thread's call. *)
Inductive event :=
| Arrives (bs : list Z)
| Interrupts (signo : Z)
| Fails (errno : Z)
| Signals (signo : Z).

(** How the next [send] or [write] ends: it takes at most [1 + n] bytes, none,
    is interrupted or fails.  Past the end of the script everything is taken. *)
Inductive tx_event :=
| Takes (n : nat)
| TakesNone
| TxInterrupts (signo : Z)
| TxFails (errno : Z).

Record io := mk_io {
  exitRQ : bool;
  rx : list event;
  tx : list tx_event;
  sent : list Z
}.

(** Result of a read or a write: the value returned, with [errno] when it is
    -1. *)
Inductive result (A : Type) :=
| Ok (a : A)
| Err (errno : Z).
Arguments Ok {A} a.
Arguments Err {A} errno.

(** The data of [recv(fd, buf, len, 0)] when [bs] are the bytes at hand: what is
    delivered and what stays for the next call.  The end of the stream stays. *)
Definition deliver (len : nat) (bs : list Z) (evs : list event) : list Z * list event :=
  match bs with
  | [] => ([], Arrives [] :: evs)
  | _ => (take len bs, match drop len bs with [] => evs | r => Arrives r :: evs end)
  end.

Fixpoint recv_script (len : nat) (e : bool) (evs : list event) : option (result (list Z)) * bool * list event :=
  match evs with
  | [] => (None, e, [])
  | Arrives bs :: evs => let '(d, evs') := deliver len bs evs in (Some (Ok d), e, evs')
  | Interrupts s :: evs => (Some (Err EINTR), signalHandler s e, evs)
  | Fails n :: evs => (Some (Err n), e, evs)
  | Signals s :: evs => recv_script len (signalHandler s e) evs
  end.

Definition set_rx (e : bool) (evs : list event) (w : io) : io :=
  {| exitRQ := e; rx := evs; tx := tx w; sent := sent w |}.

(** [recv(fd, buf, len, 0)] *)
Definition recv (len : nat) : proc io (result (list Z)) := fun w =>
  match recv_script len (exitRQ w) (rx w) with
  | (Some r, e, evs) => Done r (set_rx e evs w)
  | (None, e, evs) => Waits (set_rx e evs w)
  end.

(** Signals handled before the next blocking call. *)
Fixpoint pending (e : bool) (evs : list event) : bool * list event :=
  match evs with
  | Signals s :: evs => pending (signalHandler s e) evs
  | _ => (e, evs)
  end.

(** Reading the volatile [exitRQ]. *)
Definition read_exitRQ : proc io bool := fun w =>
  let '(e, evs) := pending (exitRQ w) (rx w) in Done e (set_rx e evs w).

(** [mq_receive] on the script of a queue: each [Arrives] is one message, taken
    whole (also an empty one). *)
Fixpoint mq_script (e : bool) (evs : list event) : option (result (list Z)) * bool * list event :=
  match evs with
  | [] => (None, e, [])
  | Arrives m :: evs => (Some (Ok m), e, evs)
  | Interrupts s :: evs => (Some (Err EINTR), signalHandler s e, evs)
  | Fails n :: evs => (Some (Err n), e, evs)
  | Signals s :: evs => mq_script (signalHandler s e) evs
  end.

Definition mq_receive : proc io (result (list Z)) := fun w =>
  match mq_script (exitRQ w) (rx w) with
  | (Some r, e, evs) => Done r (set_rx e evs w)
  | (None, e, evs) => Waits (set_rx e evs w)
  end.

(** ** Writing *)

Definition set_tx (e : bool) (t : list tx_event) (s : list Z) (w : io) : io :=
  {| exitRQ := e; rx := rx w; tx := t; sent := s |}.

(** [send(fd, buf, len, flags)] and [write(fd, buf, len)] of the bytes [bs]: the
    number of bytes taken. *)
Definition send (bs : list Z) : proc io (result nat) := fun w =>
  match tx w with
  | [] => Done (Ok (length bs)) (set_tx (exitRQ w) [] (sent w ++ bs) w)
  | Takes n :: t => Done (Ok (length (take (1 + n) bs))) (set_tx (exitRQ w) t (sent w ++ take (1 + n) bs) w)
  | TakesNone :: t => Done (Ok 0%nat) (set_tx (exitRQ w) t (sent w) w)
  | TxInterrupts s :: t => Done (Err EINTR) (set_tx (signalHandler s (exitRQ w)) t (sent w) w)
  | TxFails n :: t => Done (Err n) (set_tx (exitRQ w) t (sent w) w)
  end.

(** ** Measures of scripts *)

Definition ev_size (ev : event) : nat := match ev with Arrives bs => 1 + length bs | _ => 1 end.
Definition rx_size (evs : list event) : nat := sum_list_with ev_size evs.

(** The bytes a script will deliver before the stream ends or fails. *)
Fixpoint stream (evs : list event) : list Z :=
  match evs with
  | Arrives [] :: _ | [] => []
  | Arrives bs :: evs => bs ++ stream evs
  | Fails n :: evs => if n =? EINTR then stream evs else []
  | (Interrupts _ | Signals _) :: evs => stream evs
  end.

(** The messages of a queue's script, in order. *)
Fixpoint messages (evs : list event) : list (list Z) :=
  match evs with
  | [] => []
  | Arrives m :: evs => m :: messages evs
  | _ :: evs => messages evs
  end.

(** ** Message queues *)

(** A queue: its attributes, and its messages with their priorities, the
    next to be received first. *)
Record mqueue := mk_mq {
  mq_maxmsg : nat;
  mq_msgsize : nat;
  mq_msgs : list (Z * list Z)
}.

(** A message is queued behind those of the same or a higher priority. *)
Fixpoint mq_insert (prio : Z) (m : list Z) (l : list (Z * list Z)) : list (Z * list Z) :=
  match l with
  | [] => [(prio, m)]
  | (p, x) :: l' => if prio <=? p then (p, x) :: mq_insert prio m l' else (prio, m) :: l
  end.

Definition set_msgs (l : list (Z * list Z)) (q : mqueue) : mqueue :=
  {| mq_maxmsg := mq_maxmsg q; mq_msgsize := mq_msgsize q; mq_msgs := l |}.

Definition mq_full (q : mqueue) : bool := (mq_maxmsg q <=? length (mq_msgs q))%nat.

(** [mq_send] on a descriptor opened with [O_NONBLOCK]. *)
Definition mq_send_nb (q : mqueue) (m : list Z) (prio : Z) : result mqueue :=
  if (mq_msgsize q <? length m)%nat then Err EMSGSIZE
  else if mq_full q then Err EAGAIN
  else Ok (set_msgs (mq_insert prio m (mq_msgs q)) q).

(** [mq_receive] with a buffer of [len] bytes; [None] when it blocks. *)
Definition mq_recv (q : mqueue) (len : nat) : option (result (list Z * Z * mqueue)) :=
  if (len <? mq_msgsize q)%nat then Some (Err EMSGSIZE)
  else match mq_msgs q with
       | [] => None
       | (p, m) :: l => Some (Ok (m, p, set_msgs l q))
       end.

(** ** Facts *)

Lemma mq_insert_fifo prio m l :
  Forall (fun x => prio <= x.1) l -> mq_insert prio m l = l ++ [(prio, m)].
Proof.
  induction 1 as [|[p x] l Hp _ IH]; [done|]. simpl in *.
  destruct (Z.leb_spec prio p); [by rewrite IH|lia].
Qed.

Lemma stream_data evs bs : bs <> [] -> stream (Arrives bs :: evs) = bs ++ stream evs.
Proof. by destruct bs. Qed.

Lemma deliver_spec len bs evs d evs' :
  bs <> [] -> (0 < len)%nat -> deliver len bs evs = (d, evs') ->
  d <> [] /\ (length d <= len)%nat /\ d ++ stream evs' = bs ++ stream evs /\
  (rx_size evs' < rx_size (Arrives bs :: evs))%nat.
Proof.
  intros Hbs Hlen E. destruct bs as [|b bs]; [done|]. destruct len as [|len]; [lia|].
  unfold deliver in E. remember (S len) as n eqn:En. injection E as <- <-.
  split; [by subst n|]. split; [rewrite length_take; lia|].
  destruct (drop n (b :: bs)) as [|c r] eqn:Ed.
  - split; [by rewrite take_ge by (apply (f_equal length) in Ed; rewrite length_drop in Ed; simpl in *; lia)|].
    simpl. lia.
  - split.
    + rewrite stream_data by done. rewrite app_assoc, <- Ed, take_drop. done.
    + apply (f_equal length) in Ed. rewrite length_drop in Ed. simpl in *. lia.
Qed.

(** *** Quiet scripts *)

(** An event that neither fails nor asks the daemon to exit. *)
Definition calm (ev : event) : Prop :=
  match ev with
  | Arrives _ => True
  | Fails n => n = EINTR
  | Interrupts s | Signals s => s <> SIGINT /\ s <> SIGTERM
  end.

#[export] Instance calm_dec ev : Decision (calm ev).
Proof. destruct ev; simpl; apply _. Defined.

Definition quiet (w : io) : Prop := exitRQ w = false /\ Forall calm (rx w).

#[export] Instance quiet_dec w : Decision (quiet w).
Proof. unfold quiet. apply _. Defined.

Lemma calm_signal s e : s <> SIGINT /\ s <> SIGTERM -> signalHandler s e = e.
Proof. intros [? ?]. unfold signalHandler. by repeat case_cmp. Qed.

Lemma deliver_calm len bs evs d evs' :
  deliver len bs evs = (d, evs') -> Forall calm evs -> Forall calm evs'.
Proof.
  unfold deliver. intros E H. destruct bs as [|b bs]; injection E as <- <-; [by constructor|].
  destruct (drop _ _); [done|]. by constructor.
Qed.

(** [recv] answers with bytes of the stream, at most [len] of them, and uses up
    part of the script (the end of the stream apart); in a quiet environment
    it does not fail. *)
Lemma recv_spec len w (Q : result (list Z) -> io -> Prop) (W : io -> Prop) :
  (0 < len)%nat ->
  (forall d e evs, d <> [] -> (length d <= len)%nat -> d ++ stream evs = stream (rx w) ->
     (rx_size evs < rx_size (rx w))%nat -> (quiet w -> quiet (set_rx e evs w)) ->
     Q (Ok d) (set_rx e evs w)) ->
  (forall e evs, stream (rx w) = [] -> (quiet w -> quiet (set_rx e evs w)) -> stream evs = [] ->
     Q (Ok []) (set_rx e evs w)) ->
  (forall e evs, stream evs = stream (rx w) -> (rx_size evs < rx_size (rx w))%nat ->
     (quiet w -> quiet (set_rx e evs w)) -> Q (Err EINTR) (set_rx e evs w)) ->
  (forall n e evs, n <> EINTR -> stream (rx w) = [] -> ~ quiet w ->
     Q (Err n) (set_rx e evs w)) ->
  (forall e, stream (rx w) = [] -> W (set_rx e [] w)) ->
  wp (recv len) w Q W.
Proof.
  intros Hlen H1 H2 H3 H4 H5. unfold wp, recv, quiet in *.
  revert H1 H2 H3 H4 H5. generalize (exitRQ w) as e. generalize (rx w) as evs.
  induction evs as [|[bs|s|n|s] evs IH]; intros e H1 H2 H3 H4 H5; cbn [recv_script]; [by apply H5| | | |].
  - destruct bs as [|b bs]; [by apply H2|].
    destruct (deliver len (b :: bs) evs) as [d evs'] eqn:E.
    destruct (deliver_spec len (b :: bs) evs d evs') as (? & ? & ? & ?); [done..|]. apply H1; try done.
    intros [? [_ ?]%Forall_cons_1]. split; [done|]. by eapply deliver_calm.
  - apply H3; [done|simpl; lia|]. intros [? [? ?]%Forall_cons_1]. split; [|done]. simpl. by rewrite calm_signal.
  - simpl in *. destruct (Z.eqb_spec n EINTR) as [->|].
    + apply H3; [done|lia|]. by intros [? [? ?]%Forall_cons_1].
    + apply H4; [done|done|]. by intros [? [? ?]%Forall_cons_1].
  - assert (Hq : e = false /\ Forall calm (Signals s :: evs) ->
                 signalHandler s e = false /\ Forall calm evs).
    { intros [-> [Hs ?]%Forall_cons_1]. by rewrite calm_signal. }
    apply IH; simpl in *; intros; [apply H1|apply H2|apply H3|apply H4|apply H5]; auto; try lia.
Qed.

Lemma pending_spec e evs e' evs' :
  pending e evs = (e', evs') -> stream evs' = stream evs /\ (rx_size evs' <= rx_size evs)%nat /\
  (e = true -> e' = true) /\ (e = false /\ Forall calm evs -> e' = false /\ Forall calm evs').
Proof.
  revert e. induction evs as [|[bs|s|n|s] evs IH]; intros e E; cbn [pending] in E.
  1-4: by injection E as <- <-.
  apply IH in E as (E1 & E2 & E3 & E4). split; [done|]. split; [simpl; lia|].
  split; [intros; by apply E3, signalHandler_mono|].
  intros [-> [Hs ?]%Forall_cons_1]. apply E4. by rewrite calm_signal.
Qed.

Lemma wp_read_exitRQ w (Q : bool -> io -> Prop) W :
  (forall e evs, stream evs = stream (rx w) -> (rx_size evs <= rx_size (rx w))%nat ->
     (quiet w -> e = false /\ quiet (set_rx e evs w)) -> Q e (set_rx e evs w)) ->
  wp read_exitRQ w Q W.
Proof.
  intros H. unfold wp, read_exitRQ. destruct (pending _ _) as [e evs] eqn:E.
  apply pending_spec in E as (? & ? & ? & ?). apply H; [done..|]. unfold quiet. simpl. tauto.
Qed.

Lemma pending_messages e evs e' evs' : pending e evs = (e', evs') -> messages evs' = messages evs.
Proof.
  revert e. induction evs as [|[bs|s|n|s] evs IH]; intros e E; cbn [pending] in E.
  1-4: by injection E as <- <-.
  by apply IH in E.
Qed.

Lemma wp_read_exitRQ_mq w (Q : bool -> io -> Prop) W :
  (forall e evs, messages evs = messages (rx w) -> (rx_size evs <= rx_size (rx w))%nat ->
     (quiet w -> e = false /\ quiet (set_rx e evs w)) -> Q e (set_rx e evs w)) ->
  wp read_exitRQ w Q W.
Proof.
  intros H. unfold wp, read_exitRQ. destruct (pending _ _) as [e evs] eqn:E.
  apply pending_messages in E as Em. apply pending_spec in E as (? & ? & ? & ?).
  apply H; [done..|]. unfold quiet. simpl. tauto.
Qed.

(** [mq_receive] returns the next message or an error, and uses up part of the
    script. *)
Lemma mq_receive_spec w (Q : result (list Z) -> io -> Prop) (W : io -> Prop) :
  (forall m e evs, messages (rx w) = m :: messages evs -> (rx_size evs < rx_size (rx w))%nat ->
     (quiet w -> quiet (set_rx e evs w)) -> Q (Ok m) (set_rx e evs w)) ->
  (forall n e evs, messages (rx w) = messages evs -> (rx_size evs < rx_size (rx w))%nat ->
     (quiet w -> n = EINTR /\ quiet (set_rx e evs w)) -> Q (Err n) (set_rx e evs w)) ->
  (forall e, messages (rx w) = [] -> W (set_rx e [] w)) ->
  wp mq_receive w Q W.
Proof.
  intros H1 H2 H3. unfold wp, mq_receive, quiet in *.
  revert H1 H2 H3. generalize (exitRQ w) as e. generalize (rx w) as evs.
  induction evs as [|[bs|s|n|s] evs IH]; intros e H1 H2 H3; cbn [mq_script]; [by apply H3| | | |].
  - apply H1; [done|simpl; lia|]. by intros [? [_ ?]%Forall_cons_1].
  - apply H2; [done|simpl; lia|]. intros [? [? ?]%Forall_cons_1]. split; [done|]. split; [|done].
    simpl. by rewrite calm_signal.
  - apply H2; [done|simpl; lia|]. by intros [? [? ?]%Forall_cons_1].
  - assert (Hq : e = false /\ Forall calm (Signals s :: evs) ->
                 signalHandler s e = false /\ Forall calm evs).
    { intros [-> [Hs ?]%Forall_cons_1]. by rewrite calm_signal. }
    apply IH; simpl in *; intros; [apply H1|apply H2|apply H3]; auto; try lia.
Qed.

(** The input after the messages [ms] have been taken from it. *)
Definition drawn (w : io) (ms : list (list Z)) (w' : io) : Prop :=
  exists e evs, w' = set_rx e evs w /\ messages (rx w) = ms ++ messages evs /\
    (rx_size evs <= rx_size (rx w))%nat /\ (quiet w -> quiet w').

Lemma drawn_refl w : drawn w [] w.
Proof. exists (exitRQ w), (rx w). by destruct w. Qed.

Lemma drawn_trans w a w1 b w2 : drawn w a w1 -> drawn w1 b w2 -> drawn w (a ++ b) w2.
Proof.
  intros (e & evs & -> & Hm & Hs & Hq) (e' & evs' & -> & Hm' & Hs' & Hq'). simpl in *.
  exists e', evs'. split; [done|]. split; [by rewrite Hm, Hm', app_assoc|]. split; [lia|auto].
Qed.

Lemma drawn_bytes w ms w' : drawn w ms w' -> Forall bytes_ok (messages (rx w)) -> Forall bytes_ok (messages (rx w')).
Proof. intros (e & evs & -> & -> & _). simpl. by intros [_ ?]%Forall_app. Qed.

Lemma drawn_head w m w' : drawn w [m] w' -> Forall bytes_ok (messages (rx w)) -> bytes_ok m.
Proof. intros (e & evs & -> & -> & _). simpl. by intros [? _]%Forall_cons. Qed.
