(* ===== verification/Interfaces.v ===== *)
(** What the components promise to each other: a [Writer] puts a text on the
    descriptor of its thread or reports that an error cut it short, and a
    [FrameReceiver] takes the next message of the thread's queue.  The
    programs each have their own copies of these functions; the proofs of
    their callers rest on the two interfaces only. *)
From S2P Require Import Prelude Proc Posix.
Local Open Scope Z_scope.

(** ** Facts about writing *)

(** Writing reads nothing, and without a script of errors it leaves none and
    raises no signal. *)
Definition kept (w w' : io) : Prop :=
  rx w' = rx w /\ (tx w = [] -> tx w' = [] /\ exitRQ w' = exitRQ w).

Lemma kept_refl w : kept w w.
Proof. by split. Qed.

Lemma kept_trans w1 w2 w3 : kept w1 w2 -> kept w2 w3 -> kept w1 w3.
Proof. intros [E1 H1] [E2 H2]. split; [congruence|]. intros H. destruct (H1 H) as [Ht <-]. by apply H2. Qed.

Lemma kept_tx w w' : kept w w' -> tx w' <> [] -> tx w <> [].
Proof. intros [_ H] Hx E. destruct (H E) as [? _]. done. Qed.

#[export] Hint Resolve kept_refl kept_trans kept_tx : gw.

(** What a write loop has done with [text]: everything was written and 0
    returned, or an error cut it short and -1 was returned. *)
Definition written (w : io) (text : list Z) (r : Z) (w' : io) : Prop :=
  kept w w' /\
  ((r = 0 /\ sent w' = sent w ++ text) \/
   (r = -1 /\ tx w <> [] /\ exists k, (k < length text)%nat /\ sent w' = sent w ++ take k text)).

Lemma written_cut w d rest w' :
  rest <> [] -> tx w <> [] -> kept w w' -> sent w' = sent w ++ d -> written w (d ++ rest) (-1) w'.
Proof.
  intros Hr Hx Hk Hs. split; [done|]. right. split; [done|]. split; [done|]. exists (length d).
  rewrite take_app_length, length_app. destruct rest; [done|]. split; [simpl; lia|done].
Qed.

Lemma written_all w text w' : kept w w' -> sent w' = sent w ++ text -> written w text 0 w'.
Proof. intros. split; [done|]. by left. Qed.

Lemma written_nil w : written w [] 0 w.
Proof. apply written_all; [apply kept_refl|by rewrite app_nil_r]. Qed.

Lemma send_spec bs w (Q : result nat -> io -> Prop) W :
  bs <> [] ->
  (forall k w', (0 < k <= length bs)%nat -> sent w' = sent w ++ take k bs ->
     (length (tx w') < length (tx w) \/ tx w = [] /\ k = length bs)%nat -> (length (tx w') <= length (tx w))%nat ->
     kept w w' -> Q (Ok k) w') ->
  (forall w', tx w <> [] -> sent w' = sent w -> (length (tx w') < length (tx w))%nat -> kept w w' ->
     Q (Ok 0%nat) w') ->
  (forall n w', tx w <> [] -> sent w' = sent w -> (length (tx w') < length (tx w))%nat -> kept w w' ->
     Q (Err n) w') ->
  wp (send bs) w Q W.
Proof.
  intros Hne H1 H2 H3. assert (0 < length bs)%nat by (destruct bs; [done|simpl; lia]).
  unfold wp, send, kept in *. destruct (tx w) as [|[n| |s|n] t] eqn:E.
  - apply H1; [lia|simpl; by rewrite firstn_all|by right|simpl; lia|done].
  - apply H1; [rewrite length_take; lia| |left; simpl; lia|simpl; lia|done].
    cbn [sent set_tx]. f_equal. rewrite length_take.
    destruct (Nat.le_ge_cases (1 + n) (length bs)); [by rewrite Nat.min_l by done|].
    rewrite Nat.min_r by done. by rewrite firstn_all, take_ge.
  - apply H2; simpl; done || lia.
  - apply H3; simpl; done || lia.
  - apply H3; simpl; done || lia.
Qed.

(** One text after another. *)
Lemma written_app w a b w1 r w2 : written w a 0 w1 -> written w1 b r w2 -> written w (a ++ b) r w2.
Proof.
  intros [Hx [[_ Hs]|[? _]]] [Hx' [[-> E]|(-> & Hx1 & k & Hk & E)]]; try done.
  - apply written_all; [eauto with gw|]. by rewrite E, Hs, app_assoc.
  - split; [eauto with gw|]. right. split; [done|]. split; [eauto with gw|]. exists (length a + k)%nat.
    split; [rewrite length_app; lia|]. by rewrite E, Hs, take_app_add, app_assoc.
Qed.

Lemma written_app_err w a b w1 : written w a (-1) w1 -> written w (a ++ b) (-1) w1.
Proof.
  intros [Hx [[? ?]|(_ & Hx' & k & Hk & E)]]; [done|]. split; [done|]. right. split; [done|]. split; [done|].
  exists k. split; [rewrite length_app; lia|]. by rewrite take_app_le by lia.
Qed.

Lemma written_ret w text r w' : written w text r w' -> r = 0 \/ r = -1.
Proof. intros [_ [[-> _]|[-> _]]]; auto. Qed.

(** Writing one text, giving up on an error, then another. *)
Lemma wp_written_seq (c k : proc io Z) w a b :
  wp c w (written w a) (fun _ => False) -> (forall w1, wp k w1 (written w1 b) (fun _ => False)) ->
  wp (let! r := c in if r =? -1 then ret (-1) else k) w (written w (a ++ b)) (fun _ => False).
Proof.
  intros Hc Hk. apply wp_bind. eapply wp_mono; [done| |done]. intros r w1 H1.
  destruct (written_ret _ _ _ _ H1) as [-> | ->]; simpl.
  - eapply wp_mono; [apply Hk| |done]. intros r2 w2 H2. by eapply written_app.
  - apply wp_ret. by apply written_app_err.
Qed.

(** ** Writers *)

(** Every call writes its text, from every state and in every environment. *)
Class Writer (op : list Z -> proc io Z) : Prop :=
  writes text w : wp (op text) w (written w text) (fun _ => False).

(** Writers that agree on every state promise the same. *)
Lemma writer_ext (op op' : list Z -> proc io Z) : Writer op -> (forall text w, op' text w = op text w) -> Writer op'.
Proof. intros H E text w. unfold wp. rewrite E. apply (H text w). Qed.

(** Writing for the elements of a list one after the other, until one fails. *)
Fixpoint write_each {A} (op : A -> proc io Z) (l : list A) : proc io Z :=
  match l with
  | [] => ret 0
  | a :: l => let! r := op a in if r =? -1 then ret (-1) else write_each op l
  end.

Lemma write_each_spec {A} (op : A -> proc io Z) (text : A -> list Z) l w :
  Forall (fun a => forall w, wp (op a) w (written w (text a)) (fun _ => False)) l ->
  wp (write_each op l) w (written w (concat (map text l))) (fun _ => False).
Proof.
  intros H. revert w. induction H as [|a l Ha _ IH]; intros w; cbn [write_each map concat].
  - apply wp_ret, written_nil.
  - apply wp_written_seq; [apply Ha|apply IH].
Qed.

(** ** Receivers of frames *)

(** A call takes the next message and returns its length, or fails (by an exit
    request or a failing [mq_receive]) and takes none; it waits only on an
    empty queue. *)
Class FrameReceiver (c : proc io (Z * list Z)) : Prop :=
  receives w (Q : Z * list Z -> io -> Prop) (W : io -> Prop) :
    (forall m w', drawn w [m] w' -> (rx_size (rx w') < rx_size (rx w))%nat -> Q (Z.of_nat (length m), m) w') ->
    (forall w', ~ quiet w -> drawn w [] w' -> Q (-1, []) w') ->
    (forall w', messages (rx w) = [] -> tx w' = tx w -> W w') ->
    wp c w Q W.
