(* ===== verification/Resources.v ===== *)
(** The resources of a process: descriptors, results of [getaddrinfo], cells of
    the heap, threads and signal handlers, with the system calls that
    acquire and release them.  Which calls fail is a script of answers.  The
    [main]s of all the programs run on this state; [leaves] is what their
    theorems say of it. *)
From stdpp Require Import gmap.
From S2P Require Import Prelude Proc.
Local Open Scope Z_scope.

(** What a descriptor refers to. *)
Inductive file := DevNull | Queue (name : string) | Socket | Other.

#[export] Instance file_eq_dec : EqDecision file.
Proof. solve_decision. Defined.

(** The kernel gives a new file a descriptor that was free. *)
Class Kernel := {
  pick : gmap nat file -> nat;
  pick_free m : m !! pick m = None
}.

(** State of the process: what the system calls to come will answer (past the
    end they succeed), the open descriptors, the results of [getaddrinfo] and
    the cells of the heap not yet freed, the [mq_msgsize] the kernel reports
    for a queue, the signals with a handler, the threads created (of the
    type [T] of the program's threads) and the answer of [fork]. *)
Record sys {T : Type} := mk_sys {
  y_ok : list bool;
  y_fds : gmap nat file;
  y_infos : nat;
  y_cells : nat;
  y_msgsize : Z;
  y_handled : list Z;
  y_threads : list T;
  y_pid : Z
}.

Arguments sys : clear implicits.
Arguments mk_sys {T} _ _ _ _ _ _ _ _.

Section resources.
Context {K : Kernel} {T : Type}.
Implicit Types s y : sys T.

(** ** System calls *)

Definition set_ok (l : list bool) (s : sys T) : sys T :=
  mk_sys l (y_fds s) (y_infos s) (y_cells s) (y_msgsize s) (y_handled s) (y_threads s) (y_pid s).
Definition set_fds (m : gmap nat file) (s : sys T) : sys T :=
  mk_sys (y_ok s) m (y_infos s) (y_cells s) (y_msgsize s) (y_handled s) (y_threads s) (y_pid s).
Definition set_infos (n : nat) (s : sys T) : sys T :=
  mk_sys (y_ok s) (y_fds s) n (y_cells s) (y_msgsize s) (y_handled s) (y_threads s) (y_pid s).
Definition set_cells (n : nat) (s : sys T) : sys T :=
  mk_sys (y_ok s) (y_fds s) (y_infos s) n (y_msgsize s) (y_handled s) (y_threads s) (y_pid s).
Definition set_handled (l : list Z) (s : sys T) : sys T :=
  mk_sys (y_ok s) (y_fds s) (y_infos s) (y_cells s) (y_msgsize s) l (y_threads s) (y_pid s).
Definition set_threads (l : list T) (s : sys T) : sys T :=
  mk_sys (y_ok s) (y_fds s) (y_infos s) (y_cells s) (y_msgsize s) (y_handled s) l (y_pid s).

(** A call of which only success or failure matters. *)
Definition call : proc (sys T) bool := fun s => Done (hd true (y_ok s)) (set_ok (tl (y_ok s)) s).

(** [open], [mq_open] and [socket]: a new descriptor, [None] for -1. *)
Definition open_fd (f : file) : proc (sys T) (option nat) :=
  let! ok := call in
  if ok then
    let! fd := gets (fun s => pick (y_fds s)) in
    modify (fun s => set_fds (<[fd := f]> (y_fds s)) s) ;! ret (Some fd)
  else ret None.

(** [close] and [mq_close] *)
Definition close (fd : nat) : proc (sys T) unit := modify (fun s => set_fds (delete fd (y_fds s)) s).

(** [dup2(oldfd, newfd)], of an open descriptor; it is taken to succeed (the
    code does not look at its result). *)
Definition dup2 (oldfd newfd : nat) : proc (sys T) unit := modify (fun s =>
  match y_fds s !! oldfd with Some f => set_fds (<[newfd := f]> (y_fds s)) s | None => s end).

(** [getaddrinfo]; it allocates its result. *)
Definition getaddrinfo : proc (sys T) bool :=
  let! ok := call in
  if ok then modify (fun s => set_infos (S (y_infos s)) s) ;! ret true else ret false.
Definition freeaddrinfo : proc (sys T) unit := modify (fun s => set_infos (pred (y_infos s)) s).

(** [malloc] and [free] of a cell. *)
Definition malloc_cell : proc (sys T) bool :=
  let! ok := call in
  if ok then modify (fun s => set_cells (S (y_cells s)) s) ;! ret true else ret false.
Definition free_cell : proc (sys T) unit := modify (fun s => set_cells (pred (y_cells s)) s).

(** [pthread_create] *)
Definition create_thread (t : T) : proc (sys T) bool :=
  let! ok := call in
  if ok then modify (fun s => set_threads (y_threads s ++ [t]) s) ;! ret true else ret false.

(** [sigaction], which installs [signalHandler]. *)
Definition sigaction (signo : Z) : proc (sys T) bool :=
  let! ok := call in
  if ok then modify (fun s => set_handled (y_handled s ++ [signo]) s) ;! ret true else ret false.

(** ** Facts *)

(** Every call to come succeeds. *)
Definition willing (s : sys T) : Prop := Forall (eq true) (y_ok s).

(** The descriptors opened from [m] on, in order: each was free. *)
Fixpoint opens (m : gmap nat file) (l : list (nat * file)) (m' : gmap nat file) : Prop :=
  match l with
  | [] => m' = m
  | (fd, f) :: l => m !! fd = None /\ opens (<[fd := f]> m) l m'
  end.

(** What a run from [s] to [s'] leaves: new descriptors, cells and threads;
    no result of [getaddrinfo], no handler. *)
Record leaves (fds : list (nat * file)) (cells : nat) (threads : list T) (s s' : sys T) : Prop := {
  lv_fds : opens (y_fds s) fds (y_fds s');
  lv_infos : y_infos s' = y_infos s;
  lv_cells : y_cells s' = (cells + y_cells s)%nat;
  lv_threads : y_threads s' = y_threads s ++ threads;
  lv_handled : y_handled s' = y_handled s;
  lv_msgsize : y_msgsize s' = y_msgsize s;
  lv_willing : willing s -> willing s'
}.

Lemma leaves_refl s : leaves [] 0 [] s s.
Proof. split; try done. by rewrite app_nil_r. Qed.

Lemma opens_app m l1 m1 l2 m2 : opens m l1 m1 -> opens m1 l2 m2 -> opens m (l1 ++ l2) m2.
Proof.
  revert m. induction l1 as [|[fd f] l1 IH]; intros m; [by intros ->|].
  intros [? H1] H2. split; [done|]. by apply IH.
Qed.

Lemma leaves_trans l1 n1 ts1 l2 n2 ts2 s1 s2 s3 :
  leaves l1 n1 ts1 s1 s2 -> leaves l2 n2 ts2 s2 s3 -> leaves (l1 ++ l2) (n1 + n2) (ts1 ++ ts2) s1 s3.
Proof.
  intros [] []. split; try congruence; [by eapply opens_app|lia| |by auto].
  rewrite app_assoc. congruence.
Qed.

Lemma leaves_ok s ok : (willing s -> Forall (eq true) ok) -> leaves [] 0 [] s (set_ok ok s).
Proof. intros H. split; cbn; try done. by rewrite app_nil_r. Qed.

(** Closing the only descriptor opened. *)
Lemma leaves_close fd f n ts s s' :
  leaves [(fd, f)] n ts s s' -> leaves [] n ts s (set_fds (delete fd (y_fds s')) s').
Proof.
  intros [[Hn E] ? ? ? ? ? ?]. split; cbn; try done. by rewrite E, delete_insert_id.
Qed.

(** [leaves] only looks at the resources of the state it starts from. *)
Lemma leaves_from l n ts s1 s2 s' :
  leaves l n ts s1 s' ->
  y_fds s1 = y_fds s2 -> y_infos s1 = y_infos s2 -> y_cells s1 = y_cells s2 -> y_threads s1 = y_threads s2 ->
  y_handled s1 = y_handled s2 -> y_msgsize s1 = y_msgsize s2 -> (willing s2 -> willing s1) ->
  leaves l n ts s2 s'.
Proof. intros [] E1 E2 E3 E4 E5 E6 Hw. split; try congruence. auto. Qed.

(** The handlers may be set first. *)
Lemma leaves_rebase hs l n ts s1 s2 s3 :
  leaves [] 0 [] s1 s2 -> leaves l n ts (set_handled hs s2) s3 -> leaves l n ts (set_handled hs s1) s3.
Proof.
  intros [] H. eapply leaves_from; [exact H|..]; cbn in *; rewrite ?app_nil_r in *; auto.
Qed.

Lemma wp_call s (Q : bool -> sys T -> Prop) W :
  (forall b ok, (willing s -> b = true /\ Forall (eq true) ok) -> Q b (set_ok ok s)) -> wp call s Q W.
Proof.
  intros H. apply H. unfold willing. intros Hw. destruct (y_ok s); [done|]. by inv Hw.
Qed.

Lemma wp_open_fd f s (Q : option nat -> sys T -> Prop) W :
  (forall fd ok, y_fds s !! fd = None -> (willing s -> Forall (eq true) ok) ->
     Q (Some fd) (set_fds (<[fd := f]> (y_fds s)) (set_ok ok s))) ->
  (forall ok, ~ willing s -> Q None (set_ok ok s)) ->
  wp (open_fd f) s Q W.
Proof.
  intros H1 H2. apply wp_bind, wp_call. intros [] ok Hok.
  - apply wp_bind, wp_gets, wp_bind, wp_modify, wp_ret, H1; [apply pick_free|]. intros Hw. by apply Hok.
  - apply wp_ret, H2. intros Hw. by apply Hok in Hw as [? _].
Qed.

(** *** Rules for what a program has acquired since [s] *)

Lemma opens_snoc m l fd f m' :
  opens m (l ++ [(fd, f)]) m' <-> exists m1, opens m l m1 /\ m1 !! fd = None /\ m' = <[fd := f]> m1.
Proof.
  revert m. induction l as [|[fd' f'] l IH]; intros m; cbn [opens app].
  - split; [intros [? ->]; by exists m|]. by intros (m1 & -> & ? & ->).
  - rewrite IH. naive_solver.
Qed.

Lemma wp_call_leaves l n ts s y (Q : bool -> sys T -> Prop) W :
  leaves l n ts s y ->
  (forall (b : bool) y', leaves l n ts s y' -> (willing s -> b = true) -> Q b y') -> wp call y Q W.
Proof.
  intros [] H. apply wp_call. intros b ok Hok. apply H; [|intros Hw; by apply Hok, lv_willing0].
  split; try done. intros Hw. by apply Hok, lv_willing0.
Qed.

Lemma wp_open_leaves l n ts s y f (Q : option nat -> sys T -> Prop) W :
  leaves l n ts s y ->
  (forall fd y', leaves (l ++ [(fd, f)]) n ts s y' -> Q (Some fd) y') ->
  (forall y', leaves l n ts s y' -> ~ willing s -> Q None y') -> wp (open_fd f) y Q W.
Proof.
  intros [] H1 H2. apply wp_open_fd.
  - intros fd ok Hfd Hok. apply H1. split; try done; [|by intros Hw; apply Hok, lv_willing0].
    apply opens_snoc. by exists (y_fds y).
  - intros ok Hw. apply H2; [|by intros ?; apply Hw, lv_willing0]. split; try done.
    intros ?. by destruct Hw; apply lv_willing0.
Qed.

Lemma wp_close_leaves l n ts s y fd (f : file) (Q : unit -> sys T -> Prop) W :
  leaves (l ++ [(fd, f)]) n ts s y -> (forall y', leaves l n ts s y' -> Q tt y') -> wp (close fd) y Q W.
Proof.
  intros [Ho] H. apply wp_modify, H. split; try done. cbn. apply opens_snoc in Ho as (m1 & Ho & Hn & ->).
  by rewrite delete_insert_id.
Qed.

Lemma wp_malloc_leaves l n ts s y (Q : bool -> sys T -> Prop) W :
  leaves l n ts s y ->
  (forall (b : bool) y', leaves l (if b then S n else n) ts s y' -> (willing s -> b = true) -> Q b y') ->
  wp malloc_cell y Q W.
Proof.
  intros Hl H. apply wp_bind. eapply wp_call_leaves; [exact Hl|]. intros b y' [] Hb. destruct b.
  - apply wp_bind, wp_modify, wp_ret, H; [|done]. split; try done. cbn. lia.
  - apply wp_ret, H; [|done]. by split.
Qed.

Lemma wp_free_leaves l n ts s y (Q : unit -> sys T -> Prop) W :
  leaves l (S n) ts s y -> (forall y', leaves l n ts s y' -> Q tt y') -> wp free_cell y Q W.
Proof. intros [] H. apply wp_modify, H. split; try done. cbn. lia. Qed.

Lemma wp_create_leaves l n ts s y t (Q : bool -> sys T -> Prop) W :
  leaves l n ts s y ->
  (forall (b : bool) y', leaves l n (if b then ts ++ [t] else ts) s y' -> (willing s -> b = true) -> Q b y') ->
  wp (create_thread t) y Q W.
Proof.
  intros Hl H. apply wp_bind. eapply wp_call_leaves; [exact Hl|]. intros b y' [] Hb. destruct b.
  - apply wp_bind, wp_modify, wp_ret, H; [|done]. split; try done. cbn. by rewrite lv_threads0, app_assoc.
  - apply wp_ret, H; [|done]. by split.
Qed.

Lemma wp_getaddrinfo_leaves s (Q : bool -> sys T -> Prop) W :
  (forall y, leaves [] 0 [] s y -> ~ willing s -> Q false y) ->
  (forall y, leaves [] 0 [] (set_infos (S (y_infos s)) s) y -> Q true y) ->
  wp getaddrinfo s Q W.
Proof.
  intros H1 H2. apply wp_bind. eapply wp_call_leaves; [apply leaves_refl|]. intros [] y Hy Hb.
  - apply wp_bind, wp_modify, wp_ret, H2. destruct Hy. split; cbn in *; try done. by rewrite lv_infos0.
  - apply wp_ret, H1; [done|]. by intros ?%Hb.
Qed.

Lemma wp_freeaddrinfo_leaves l n ts s y (Q : unit -> sys T -> Prop) W :
  leaves l n ts (set_infos (S (y_infos s)) s) y -> (forall y', leaves l n ts s y' -> Q tt y') ->
  wp freeaddrinfo y Q W.
Proof. intros [] H. apply wp_modify, H. split; cbn in *; try done. by rewrite lv_infos0. Qed.
End resources.

(** Runs a function rule by rule on what it has acquired. *)
Ltac own_step := lazymatch goal with
  | |- wp call _ _ _ => eapply wp_call_leaves; [eassumption|]
  | |- wp (open_fd _) _ _ _ => eapply wp_open_leaves; [eassumption|..]
  | |- wp (close _) _ _ _ => eapply wp_close_leaves; [eassumption|]
  | |- wp malloc_cell _ _ _ => eapply wp_malloc_leaves; [eassumption|]
  | |- wp free_cell _ _ _ => eapply wp_free_leaves; [eassumption|]
  | |- wp (create_thread _) _ _ _ => eapply wp_create_leaves; [eassumption|]
  | |- wp (ret _) _ _ _ => apply wp_ret
  | |- wp (bind _ _) _ _ _ => apply wp_bind
  end; cbv beta.

Lemma too_small m n : 0 <= n -> (m <? 0) || (m <? n) = (m <? n).
Proof. intros. repeat case_cmp; lia || done. Qed.

(** Runs a function call by call. *)
Ltac boot_step :=
  lazymatch goal with
  | |- wp call _ _ _ => apply wp_call; intros [] ? ?
  | |- wp (open_fd _) _ _ _ => apply wp_open_fd; [intros ? ? ? ?|intros ? ?]
  | |- wp (if (_ <? 0) || _ then _ else _) _ _ _ => rewrite too_small by done
  | |- wp (if ?a <? ?b then _ else _) _ _ _ => destruct (Z.ltb_spec a b)
  | |- wp (if _ then _ else _) _ _ _ => cbn [negb]; cbv iota
  | |- wp (match _ with Some _ => _ | None => _ end) _ _ _ => cbv iota
  | |- wp ?c _ _ _ => first [apply wp_bind|apply wp_ret|apply wp_gets|apply wp_modify|progress unfold getaddrinfo, freeaddrinfo, malloc_cell, free_cell, close, create_thread, sigaction]
  end; cbv beta.

(** Uses what the successful calls say of [willing]. *)
Ltac boot_chain := repeat match goal with
  | H : ?A -> _, H' : ?A |- _ => specialize (H H')
  | H : _ /\ _ |- _ => destruct H
  end.

Lemma close_both (m : gmap nat file) a b f g :
  m !! a = None -> <[a := f]> m !! b = None -> delete b (delete a (<[b := g]> (<[a := f]> m))) = m.
Proof. intros. rewrite delete_delete, !delete_insert_id by done. done. Qed.

(** Closes the goals about the state a run ends in. *)
Ltac boot_done :=
  unfold willing in *; cbn in *;
  repeat match goal with
  | |- leaves _ _ _ _ _ => split
  | |- _ /\ _ => split
  | |- ~ _ => intros ?
  end; cbn in *; intros; rewrite ?app_nil_r, ?delete_insert_id, ?close_both by done; boot_chain;
  try solve [done | lia | by left | by right | by rewrite <- app_assoc].

(** ** A concrete kernel *)

(** The first free of the descriptors 0, 1, 2, ... *)
Definition example_pick (m : gmap nat file) : nat :=
  default (fresh (dom m)) (head (filter (fun i => m !! i = None) (seq 0 64))).

Lemma example_pick_free m : m !! example_pick m = None.
Proof.
  unfold example_pick. destruct (filter _ _) as [|i l] eqn:E; cbn.
  - apply not_elem_of_dom, is_fresh.
  - assert (Hi : i ∈ filter (fun i => m !! i = None) (seq 0 64)) by (rewrite E; left).
    by apply list_elem_of_filter in Hi as [? _].
Qed.

#[export] Instance example_kernel : Kernel := {| pick := example_pick; pick_free := example_pick_free |}.

