(* ===== verification/SenseUtils.v ===== *)
(** src/sense_utils.c: the library shared by the daemons: sensor types and
    names, decoding of readings, the registry's elementary operations, and
    the texts shown to users and written to the log files. *)
From S2P Require Import Prelude Machine Proc CText CFloat Sense Posix Interfaces.
Local Open Scope Z_scope.

Definition WRITE_BUFFER_SIZE : nat := 300.
Definition INTER_BUF_SIZE : nat := 50.

(** ** Types and names *)

Definition findSensorType (type : Z) : Z :=
  if type =? SENSOR_TYPE_TEMPPRESS then SENSOR_TYPE_TEMPPRESS
  else if type =? SENSOR_TYPE_POWCURRVOLT then SENSOR_TYPE_POWCURRVOLT
  else if type =? SENSOR_TYPE_TORQUE then SENSOR_TYPE_TORQUE
  else if type =? SENSOR_TYPE_PROXIMITY then SENSOR_TYPE_PROXIMITY
  else SENSOR_TYPE_UNSUPPORTED.

Definition SENSOR_NAME_3_TEMPRESS : list Z := str "TPS".
Definition SENSOR_NAME_4_POWCURRVOLT : list Z := str "PCVS".
Definition SENSOR_NAME_5_TORQUE : list Z := str "TORQS".
Definition SENSOR_NAME_5_PROXIMITY : list Z := str "PROXS".

(** The switch of [nameSensor] on the type. *)
Definition name_base (type : Z) : option (list Z) :=
  if type =? SENSOR_TYPE_POWCURRVOLT then Some SENSOR_NAME_4_POWCURRVOLT
  else if type =? SENSOR_TYPE_PROXIMITY then Some SENSOR_NAME_5_PROXIMITY
  else if type =? SENSOR_TYPE_TEMPPRESS then Some SENSOR_NAME_3_TEMPRESS
  else if type =? SENSOR_TYPE_TORQUE then Some SENSOR_NAME_5_TORQUE
  else None.

(** Storing a C string at the start of a buffer. *)
Definition store_cstr (buf : list Z) (text : list Z) : list Z := splice buf 0 (text ++ [NUL]).

(** [nameSensor(string, id, type)] on the buffer [string] points to. *)
Definition nameSensor (string : list Z) (id type : Z) : list Z :=
  match name_base type with
  | None => store_cstr string []
  | Some base =>
      store_cstr string (fst (snprintf SENSOR_NAME_SIZE (base ++ str "_0X" ++ fmt_x id)))
  end.

(** ** Readings *)

Definition raw (raw_data : list Z) (i : nat) : Z := nth i raw_data 0.

(** The 32-bit expression over [raw_data[i..i+3]]. *)
Definition raw32 (raw_data : list Z) (i : nat) : Z :=
  or32 (raw raw_data i) (raw raw_data (i + 1)) (raw raw_data (i + 2)) (raw raw_data (i + 3)).

(** [recordSensorData]: the value returned and the union afterwards. *)
Definition recordSensorData (target : SensorData_u) (raw_data : list Z) (byte_size type : Z)
  : Z * SensorData_u :=
  if type =? SENSOR_TYPE_POWCURRVOLT then
    if negb (byte_size =? 12) then (-1, target)
    else (0, set_32 8 (i32 (raw32 raw_data 8))
              (set_32 4 (i32 (raw32 raw_data 4)) (set_32 0 (i32 (raw32 raw_data 0)) target)))
  else if type =? SENSOR_TYPE_TEMPPRESS then
    if negb (byte_size =? 8) then (-1, target)
    else (0, set_32 4 (raw32 raw_data 4) (set_32 0 (i32 (raw32 raw_data 0)) target))
  else if type =? SENSOR_TYPE_PROXIMITY then
    if negb (byte_size =? 4) then (-1, target)
    else (0, set_32 0 (raw32 raw_data 0) target)
  else if type =? SENSOR_TYPE_TORQUE then
    if negb (byte_size =? 4) then (-1, target)
    else (0, set_32 0 (i32 (raw32 raw_data 0)) target)
  else (-1, target).

(** ** The registry's elementary operations *)

Definition sensor_key (s : Sensor_t) : Z * Z := (id s, type s).

(** [sensorExists]: the index returned and [*new_sensor_flag]; [registry] are
    the first [count] slots. *)
Fixpoint find_key (k : Z * Z) (registry : list Sensor_t) (idx : nat) : option nat :=
  match registry with
  | [] => None
  | r :: registry =>
      if (id r =? k.1) && (type r =? k.2) then Some idx else find_key k registry (S idx)
  end.

Definition sensorExists (frame : Sensor_t) (registry : list Sensor_t) (count : nat) : nat * Z :=
  match find_key (sensor_key frame) (take count registry) 0 with
  | Some idx => (idx, 0)
  | None => (count, 1)
  end.

(** [updateRegistry(source, target)]: the slot afterwards. *)
Definition updateRegistry (source target : Sensor_t) : Sensor_t :=
  let is_data := frame_type source =? SENSOR_DATA in
  {| data := if is_data then data source else data target;
     timestamp := if is_data then timestamp source else timestamp target;
     last_seen_time := last_seen_time source;
     id := id source;
     name := splice (name target) 0 (take SENSOR_NAME_SIZE (name source));
     type := type source;
     state := SENSOR_ONLINE;
     frame_type := frame_type source |}.

Fixpoint find_id (id0 : Z) (registry : list Sensor_t) : option Sensor_t :=
  match registry with
  | [] => None
  | r :: registry => if id r =? id0 then Some r else find_id id0 registry
  end.

(** [getSensor_ID] *)
Definition getSensor_ID (id0 : Z) (registry : list Sensor_t) (count : nat) : Sensor_t :=
  match find_id id0 (take count registry) with Some s => s | None => zero_sensor end.

(** ** Texts *)

(** [measurement_to_string(buffer, len, value, scale)]: the C string in the
    buffer afterwards. *)
Definition measurement_to_string (buffer : list Z) (len : nat) (value scale : Z) : list Z :=
  if (len =? 0)%nat || (scale =? 0) then buffer
  else fst (snprintf len (fmt_f 6 (ddiv (d_of_Z value) (d_of_Z scale)))).

(** *** Calendar time *)

(** [struct tm], as far as the format reads it. *)
Record tm := {
  tm_year : Z; tm_mon : Z; tm_mday : Z; tm_hour : Z; tm_min : Z; tm_sec : Z
}.

(** Year, month (1-12) and day of a day counted from 1970-01-01 in the
    proleptic Gregorian calendar. *)
Definition civil_from_days (days : Z) : Z * Z * Z :=
  let z := days + 719468 in
  let era := z / 146097 in
  let doe := z mod 146097 in
  let yoe := (doe - doe / 1460 + doe / 36524 - doe / 146096) / 365 in
  let doy := doe - (365 * yoe + yoe / 4 - yoe / 100) in
  let mp := (5 * doy + 2) / 153 in
  let d := doy - (153 * mp + 2) / 5 + 1 in
  let m := if mp <? 10 then mp + 3 else mp - 9 in
  (yoe + era * 400 + (if m <=? 2 then 1 else 0), m, d).

(** [localtime_r] in a time zone [tz] seconds east of UTC; it fails when the year
    does not fit an [int]. *)
Definition localtime_r (tz sec : Z) : option tm :=
  let t := sec + tz in
  let '(y, m, d) := civil_from_days (t / 86400) in
  let s := t mod 86400 in
  if (- 2 ^ 31 <=? y - 1900) && (y - 1900 <? 2 ^ 31) then
    Some {| tm_year := y - 1900; tm_mon := m - 1; tm_mday := d;
            tm_hour := s / 3600; tm_min := s / 60 mod 60; tm_sec := s mod 60 |}
  else None.

(** The text of the format "%Y-%m-%d %H:%M:%S". *)
Definition stamp_text (t : tm) : list Z :=
  fmt_d (tm_year t + 1900) ++ str "-" ++ fmt_pad 2 (tm_mon t + 1) ++ str "-" ++ fmt_pad 2 (tm_mday t) ++
  str " " ++ fmt_pad 2 (tm_hour t) ++ str ":" ++ fmt_pad 2 (tm_min t) ++ str ":" ++ fmt_pad 2 (tm_sec t).

(** [strftime(s, max, ...)]: the text stored, [None] when it returns 0. *)
Definition strftime (max : nat) (t : tm) : option (list Z) :=
  if (length (stamp_text t) <? max)%nat then Some (stamp_text t) else None.

Section texts.
(** The time zone of the device. *)
Context (tz : Z).

(** [getTime(frame, string)]: the C string in [string] afterwards. *)
Definition getTime (frame : Sensor_t) : list Z :=
  match localtime_r tz (tv_sec (timestamp frame)) with
  | None => []
  | Some info => match strftime INTER_BUF_SIZE info with Some s => s | None => [] end
  end.

Definition meas (value scale : Z) : list Z := measurement_to_string [] INTER_BUF_SIZE value scale.

(** [getDataString(frame, string)] *)
Definition getDataString (frame : Sensor_t) : list Z :=
  let d := data frame in
  if type frame =? SENSOR_TYPE_POWCURRVOLT then
    fst (snprintf WRITE_BUFFER_SIZE
      (meas (powcurrvolt_power d) POWER_SCALE ++ str "W :: " ++
       meas (powcurrvolt_current d) CURRENT_SCALE ++ str "A :: " ++
       meas (powcurrvolt_voltage d) VOLTAGE_SCALE ++ str "V"))
  else if type frame =? SENSOR_TYPE_TEMPPRESS then
    fst (snprintf WRITE_BUFFER_SIZE
      (meas (temppress_temperature d) TEMPERATURE_SCALE ++ str "C :: " ++
       meas (i32 (temppress_pressure d)) PRESSURE_SCALE ++ str "Pa"))
  else if type frame =? SENSOR_TYPE_PROXIMITY then
    fst (snprintf WRITE_BUFFER_SIZE (meas (i32 (prox_proximity d)) PROXIMITY_SCALE ++ str "m"))
  else if type frame =? SENSOR_TYPE_TORQUE then
    fst (snprintf WRITE_BUFFER_SIZE (meas (tor_torque d) TORQUE_SCALE ++ str "Nm"))
  else [].

(** *** Log records *)

(** [write_all(fd, buffer, len)]; the loop variable is [total]. *)
Definition write_all_body (buffer : list Z) (total : nat) : proc io (nat + Z) :=
  if (total <? length buffer)%nat then
    let! r := send (drop total buffer) in
    match r with
    | Err n => if n =? EINTR then ret (inl total) else ret (inr (-1))
    | Ok 0%nat => ret (inr (-1))
    | Ok n => ret (inl (total + n)%nat)
    end
  else ret (inr 0).

Definition write_all (fd : Z) (buffer : list Z) : proc io Z :=
  if fd <? 0 then ret (-1)
  else iterate (fun total w => length (tx w) + (length buffer - total))%nat (write_all_body buffer) 0%nat.

Definition log_title (type : Z) : list Z :=
  if type =? SENSOR_TYPE_POWCURRVOLT then str "<Timestamp> -> <power>W :: <current>A :: <voltage>V" ++ [LF]
  else if type =? SENSOR_TYPE_TEMPPRESS then str "<Timestamp> -> <temperature>C :: <pressure>Pa" ++ [LF]
  else if type =? SENSOR_TYPE_PROXIMITY then str "<Timestamp> -> <proximity>m" ++ [LF]
  else str "<Timestamp> -> <torque>Nm" ++ [LF].

Definition log_record (data : SensorData_u) (type : Z) (timestamp : list Z) : list Z :=
  if type =? SENSOR_TYPE_POWCURRVOLT then
    timestamp ++ str " -> " ++ meas (powcurrvolt_power data) POWER_SCALE ++ str "W :: " ++
    meas (powcurrvolt_current data) CURRENT_SCALE ++ str "A :: " ++
    meas (powcurrvolt_voltage data) VOLTAGE_SCALE ++ str "V" ++ [LF]
  else if type =? SENSOR_TYPE_TEMPPRESS then
    timestamp ++ str " -> " ++ meas (temppress_temperature data) TEMPERATURE_SCALE ++ str "C :: " ++
    meas (i32 (temppress_pressure data)) PRESSURE_SCALE ++ str "Pa" ++ [LF]
  else if type =? SENSOR_TYPE_PROXIMITY then
    timestamp ++ str " -> " ++ meas (i32 (prox_proximity data)) PROXIMITY_SCALE ++ str "m" ++ [LF]
  else
    timestamp ++ str " -> " ++ meas (tor_torque data) TORQUE_SCALE ++ str "Nm" ++ [LF].

Definition supported (type : Z) : bool :=
  (type =? SENSOR_TYPE_POWCURRVOLT) || (type =? SENSOR_TYPE_TEMPPRESS) ||
  (type =? SENSOR_TYPE_PROXIMITY) || (type =? SENSOR_TYPE_TORQUE).

(** [snprintf] into a buffer of [WRITE_BUFFER_SIZE] followed by [write_all]; the
    test between them rejects a truncated text. *)
Definition print_and_write (fd : Z) (text : list Z) : proc io Z :=
  let '(buffer, result) := snprintf WRITE_BUFFER_SIZE text in
  if (result <? 0) || (Z.of_nat WRITE_BUFFER_SIZE <=? result) then ret (-1)
  else write_all fd buffer.

(** [writeFrameData(data, type, stamp, flag, fd)] *)
Definition writeFrameData (data : SensorData_u) (type : Z) (stamp : timespec) (flag fd : Z) : proc io Z :=
  if fd <? 0 then ret (-1) else
  match localtime_r tz (tv_sec stamp) with
  | None => ret (-1)
  | Some info =>
      match strftime INTER_BUF_SIZE info with
      | None => ret (-1)
      | Some timestamp =>
          if negb (supported type) then ret (-1) else
          let! r := if flag =? 1 then print_and_write fd (log_title type) else ret 0 in
          if r =? -1 then ret (-1)
          else print_and_write fd (log_record data type timestamp)
      end
  end.
End texts.

Example getTime_ex :
  getTime 0 (zero_sensor) = str "1970-01-01 00:00:00" /\
  stamp_text <$> localtime_r 0 1788423083 = Some (str "2026-09-03 08:11:23").
Proof. split; vm_compute; reflexivity. Qed.

(** ** Facts about types and names *)

Lemma findSensorType_supported b :
  findSensorType b = (if supported b then b else SENSOR_TYPE_UNSUPPORTED).
Proof.
  unfold findSensorType, supported.
  destruct (Z.eqb_spec b SENSOR_TYPE_TEMPPRESS) as [->|]; [done|].
  destruct (Z.eqb_spec b SENSOR_TYPE_POWCURRVOLT) as [->|]; [done|].
  destruct (Z.eqb_spec b SENSOR_TYPE_TORQUE) as [->|]; [done|].
  destruct (Z.eqb_spec b SENSOR_TYPE_PROXIMITY) as [->|]; done.
Qed.

(** The four supported types. *)
Lemma supported_cases t :
  supported t = true ->
  t = SENSOR_TYPE_POWCURRVOLT \/ t = SENSOR_TYPE_TEMPPRESS \/ t = SENSOR_TYPE_PROXIMITY \/ t = SENSOR_TYPE_TORQUE.
Proof. unfold supported. rewrite !orb_true_iff, !Z.eqb_eq. tauto. Qed.

(** The text [nameSensor] prints for a supported type. *)
Definition sensor_name (id type : Z) : list Z :=
  match name_base type with Some base => base ++ str "_0X" ++ fmt_x id | None => [] end.

Lemma length_sensor_name id type :
  0 <= id < 2 ^ 16 -> (length (sensor_name id type) < SENSOR_NAME_SIZE)%nat.
Proof.
  intros Hid. assert (length (fmt_x id) <= 4)%nat by (apply length_fmt_uint; simpl; lia).
  unfold sensor_name, name_base, SENSOR_NAME_SIZE. repeat case_match; simplify_eq; simpl; lia.
Qed.

Lemma cstr_store buf s : Forall (fun c => c <> NUL) s -> cstr (store_cstr buf s) = s.
Proof. intros. unfold store_cstr, splice. simpl. rewrite <- app_assoc. by apply cstr_app. Qed.

Lemma sensor_name_nonzero id type : 0 <= id -> Forall (fun c => c <> NUL) (sensor_name id type).
Proof.
  intros Hid.
  assert (Forall (fun c => c <> NUL) (fmt_x id)).
  { eapply Forall_impl; [apply (fmt_uint_printable 16 id); lia|]. unfold NUL. simpl. intros. lia. }
  unfold sensor_name, name_base. repeat case_match; simplify_eq; try done.
  all: repeat (apply Forall_app; split); try done; repeat constructor; done.
Qed.

Lemma sensor_name_inj id1 id2 t1 t2 :
  supported t1 = true -> supported t2 = true -> 0 <= id1 < 2 ^ 16 -> 0 <= id2 < 2 ^ 16 ->
  sensor_name id1 t1 = sensor_name id2 t2 -> id1 = id2 /\ t1 = t2.
Proof.
  intros H1 H2 Hi1 Hi2 E.
  assert (Ht : t1 = t2).
  { destruct (supported_cases t1 H1) as [-> | [-> | [-> | ->]]], (supported_cases t2 H2) as [-> | [-> | [-> | ->]]];
      done || (cbn in E; discriminate E). }
  subst t2. split; [|done].
  assert (Ex : fmt_x id1 = fmt_x id2).
  { destruct (supported_cases t1 H1) as [-> | [-> | [-> | ->]]]; cbn in E; by injection E. }
  apply (f_equal (fun s => sto_value (strtoul 16 (s ++ [])))) in Ex.
  rewrite !strtoul_fmt_x in Ex by (done || unfold ULONG_MAX; lia). done.
Qed.

(** The name of a frame, as a C string. *)
Lemma cstr_nameSensor buf id type :
  length buf = SENSOR_NAME_SIZE -> 0 <= id < 2 ^ 16 ->
  cstr (nameSensor buf id type) = sensor_name id type.
Proof.
  intros Hb Hid. pose proof (length_sensor_name id type Hid) as Hl.
  assert (Hn := sensor_name_nonzero id type (proj1 Hid)).
  unfold nameSensor. unfold sensor_name in *. destruct (name_base type).
  - rewrite snprintf_fits by done. by apply cstr_store.
  - by rewrite cstr_store.
Qed.

Lemma nameSensor_wf buf id type :
  length buf = SENSOR_NAME_SIZE -> bytes_ok buf -> 0 <= id < 2 ^ 16 ->
  length (nameSensor buf id type) = SENSOR_NAME_SIZE /\ bytes_ok (nameSensor buf id type).
Proof.
  intros Hb Hbb Hid. pose proof (length_sensor_name id type Hid) as Hl.
  assert (E : nameSensor buf id type = store_cstr buf (sensor_name id type)).
  { unfold nameSensor, sensor_name in *. destruct (name_base type); [|done]. by rewrite snprintf_fits. }
  rewrite E. unfold store_cstr. split.
  - rewrite length_splice; [done|]. rewrite length_app. simpl. lia.
  - unfold splice. simpl. repeat (apply Forall_app; split); [|repeat constructor; unfold NUL; lia|by apply Forall_drop].
    unfold sensor_name, name_base. repeat case_match; simplify_eq; try done.
    all: repeat (apply Forall_app; split); try apply str_bytes; apply fmt_uint_bytes; lia.
Qed.

(** ** Facts about readings *)

(** The number of data bytes of a type. *)
Definition data_size (type : Z) : Z :=
  if type =? SENSOR_TYPE_POWCURRVOLT then 12
  else if type =? SENSOR_TYPE_TEMPPRESS then 8 else 4.

Lemma le_bytes_raw32 l i bs :
  bytes_ok l -> (i + 4 <= length l)%nat -> bs = take 4 (drop i l) ->
  le_bytes 4 (raw32 l i) = bs /\ le_bytes 4 (i32 (raw32 l i)) = bs.
Proof.
  intros Hl Hi ->.
  assert (E : take 4 (drop i l) = [raw l i; raw l (i + 1); raw l (i + 2); raw l (i + 3)]).
  { unfold raw. rewrite <- (Nat.add_0_r i) at 2. rewrite <- !nth_skipn.
    assert (Hd : (4 <= length (drop i l))%nat) by (rewrite length_drop; lia).
    by destruct (drop i l) as [|a [|b [|c [|d r]]]]; simpl in Hd; try lia. }
  assert (Hb : bytes_ok (take 4 (drop i l))) by auto using Forall_take, Forall_drop.
  rewrite E in *. unfold raw32.
  rewrite or32_le by (repeat (apply Forall_cons in Hb as [? Hb]); done).
  split; [by apply le_bytes_val|].
  rewrite <- (le_bytes_mod 4 (i32 _)), sint_mod_out, le_bytes_mod by lia. by apply le_bytes_val.
Qed.

(** Consecutive 32-bit stores. *)
Lemma splice_splice {A} (buf a b : list A) (n : nat) :
  n = length a -> (length a + length b <= length buf)%nat ->
  splice (splice buf 0 a) n b = splice buf 0 (a ++ b).
Proof.
  intros -> Hl. unfold splice. simpl. rewrite take_app_length, <- app_assoc, length_app.
  rewrite <- drop_drop, drop_app_length, drop_drop. done.
Qed.

Lemma take_take_drop {A} (l : list A) n m : take n l ++ take m (drop n l) = take (n + m) l.
Proof.
  revert n. induction l as [|x l IH]; intros [|n]; simpl; try done; [by rewrite !take_nil|by rewrite IH].
Qed.

(** Decoding with shifts, ors and casts, then storing the members, copies the
    bytes: on the little-endian target the union holds the data field of the
    packet as it was sent. *)
Lemma recordSensorData_copies target raw_data n type :
  length target = sizeof_SensorData -> bytes_ok raw_data -> n <= Z.of_nat (length raw_data) ->
  recordSensorData target raw_data n type =
    if supported type && (n =? data_size type)
    then (0, splice target 0 (take (Z.to_nat n) raw_data)) else (-1, target).
Proof.
  intros Ht Hb Hn. unfold sizeof_SensorData in Ht.
  assert (Hs : forall i v bs, (v = raw32 raw_data i \/ v = i32 (raw32 raw_data i)) ->
     (i + 4 <= length raw_data)%nat -> bs = take i raw_data -> (i + 4 <= 12)%nat ->
     set_32 i v (splice target 0 bs) = splice target 0 (take (i + 4) raw_data)).
  { intros i v bs Hv Hi -> Hi'. unfold set_32.
    replace (le_bytes 4 v) with (take 4 (drop i raw_data))
      by (destruct Hv as [-> | ->]; symmetry; by apply le_bytes_raw32).
    rewrite splice_splice; [by rewrite take_take_drop|rewrite length_take; lia|].
    rewrite !length_take, length_drop. lia. }
  assert (H0 : target = splice target 0 (take 0 raw_data)) by done.
  unfold recordSensorData, supported, data_size.
  destruct (type =? SENSOR_TYPE_POWCURRVOLT), (type =? SENSOR_TYPE_TEMPPRESS),
    (type =? SENSOR_TYPE_PROXIMITY), (type =? SENSOR_TYPE_TORQUE); try done; simpl;
    destruct (Z.eqb_spec n 12), (Z.eqb_spec n 8), (Z.eqb_spec n 4); subst; try done; try lia; simpl;
    rewrite H0 at 1; repeat (erewrite Hs; [|auto; fail|lia|done|lia]); done.
Qed.

(** ** Facts about texts *)

Lemma length_fmt_pad k n : length (fmt_pad k n) = k.
Proof. revert n. induction k; intros; simpl; [done|]. rewrite length_app, IHk. simpl. lia. Qed.
#[export] Hint Rewrite length_fmt_pad : gw_len.

(** Characters of the printed texts: no NUL and no line feed. *)
Definition printable (s : list Z) : Prop := Forall (fun c => 32 <= c <= 126) s.

Lemma printable_app s1 s2 : printable s1 -> printable s2 -> printable (s1 ++ s2).
Proof. intros. by apply Forall_app. Qed.

Lemma printable_str s : forallb (fun c => (32 <=? c) && (c <=? 126)) (str s) = true -> printable (str s).
Proof.
  intros H. unfold printable. induction (str s); [done|]. simpl in H. rewrite !andb_true_iff, !Z.leb_le in H.
  constructor; [lia|tauto].
Qed.

Lemma printable_fmt_uint base n : 2 <= base <= 16 -> 0 <= n -> printable (fmt_uint base n).
Proof. intros. eapply Forall_impl; [by apply fmt_uint_printable|]. simpl. lia. Qed.

Lemma printable_fmt_d z : printable (fmt_d z).
Proof. eapply Forall_impl; [apply fmt_d_printable|]. simpl. lia. Qed.

Lemma printable_fmt_pad k n : printable (fmt_pad k n).
Proof.
  revert n. induction k; intros n; simpl; [constructor|]. apply printable_app; [done|].
  constructor; [|done]. unfold digit_char. pose proof (Z.mod_pos_bound n 10). case_cmp; lia.
Qed.

Create HintDb printable discriminated.
#[export] Hint Resolve printable_app printable_fmt_d printable_fmt_pad : printable.
#[export] Hint Extern 1 (printable (str _)) => (apply printable_str; vm_compute; reflexivity) : printable.
#[export] Hint Extern 1 (printable []) => constructor : printable.

Lemma printable_take n s : printable s -> printable (take n s).
Proof. apply Forall_take. Qed.

Lemma printable_nonzero s : printable s -> Forall (fun c => c <> NUL) s.
Proof. intros H. eapply Forall_impl; [done|]. unfold NUL. simpl. lia. Qed.

Lemma printable_fmt_dec k neg n : 0 <= n -> printable (fmt_dec k neg n).
Proof.
  intros. unfold fmt_dec. apply printable_app; [destruct neg; auto with printable|].
  apply printable_app; [|auto with printable]. apply printable_fmt_uint; [lia|].
  apply Z.div_pos; lia.
Qed.

Lemma printable_fmt_f k x : printable (fmt_f k x).
Proof.
  destruct x as [m e|neg|]; simpl.
  - apply printable_fmt_dec.
    assert (Hd : 0 < den e) by (unfold den; apply Z.pow_pos_nonneg; lia).
    assert (Hn : 0 <= num (Z.abs m) e * 10 ^ Z.of_nat k).
    { apply Z.mul_nonneg_nonneg; [|apply Z.pow_nonneg; lia].
      unfold num. apply Z.mul_nonneg_nonneg; [lia|apply Z.pow_nonneg; lia]. }
    pose proof (Z.div_pos _ _ Hn Hd). unfold rne. repeat case_match; lia.
  - apply printable_app; [destruct neg; auto with printable|auto with printable].
  - auto with printable.
Qed.
#[export] Hint Resolve printable_fmt_f : printable.

Lemma printable_sensor_name id type : 0 <= id -> printable (sensor_name id type).
Proof.
  intros Hid. unfold sensor_name, name_base.
  repeat case_match; simplify_eq; repeat apply printable_app;
    first [by apply printable_fmt_uint|apply printable_str; vm_compute; reflexivity|constructor].
Qed.

(** A reading in its unit: 32-bit value over its scale factor. *)
Definition is_scale (s : Z) : Prop := s = 10 \/ s = 100.

Definition decimal_reading (value scale : Z) : list Z :=
  fmt_dec 6 (value <? 0) (Z.abs value * (10 ^ 6 / scale)).

Lemma length_decimal_reading v s :
  Z.abs v <= 2 ^ 31 -> is_scale s -> (length (decimal_reading v s) <= 18)%nat.
Proof.
  intros Hv Hs. unfold decimal_reading, fmt_dec. rewrite !length_app, length_fmt_pad.
  assert (length (fmt_uint 10 (Z.abs v * (10 ^ 6 / s) / 10 ^ Z.of_nat 6)) <= 10)%nat.
  { destruct Hs as [-> | ->]; [change (10 ^ 6 / 10) with 100000|change (10 ^ 6 / 100) with 10000].
    all: apply length_fmt_uint; [lia| |lia]; (split; [apply Z.div_pos; lia|]); apply Z.div_lt_upper_bound; lia. }
  destruct (v <? 0); simpl; lia.
Qed.

Lemma meas_decimal v s :
  Z.abs v <= 2 ^ 31 -> is_scale s -> meas v s = decimal_reading v s.
Proof.
  intros Hv Hs. pose proof (length_decimal_reading v s Hv Hs) as Hl.
  unfold meas, measurement_to_string, INTER_BUF_SIZE. simpl Nat.eqb.
  destruct (Z.eqb_spec s 0); [destruct Hs; lia|]. simpl orb. cbv iota.
  rewrite fmt_f_scaled; [|done|destruct Hs; lia|].
  - rewrite snprintf_fits; [done|]. unfold decimal_reading in Hl. lia.
  - destruct Hs as [-> | ->]; [by exists 100000|by exists 10000].
Qed.

Lemma meas_bounds v s :
  Z.abs v <= 2 ^ 31 -> is_scale s -> printable (meas v s) /\ (length (meas v s) <= 18)%nat.
Proof.
  intros Hv Hs. rewrite meas_decimal by done. split; [|by apply length_decimal_reading].
  apply printable_fmt_dec. apply Z.mul_nonneg_nonneg; [lia|]. by destruct Hs as [-> | ->].
Qed.

Lemma i32_abs z : Z.abs (i32 z) <= 2 ^ 31.
Proof. pose proof (sint_range 32 z). lia. Qed.
#[export] Hint Resolve i32_abs : gw.

(** The reading of a frame in its units, every decimal exact. *)
Definition reading_text (d : SensorData_u) (type : Z) : list Z :=
  if type =? SENSOR_TYPE_POWCURRVOLT then
    decimal_reading (powcurrvolt_power d) POWER_SCALE ++ str "W :: " ++
    decimal_reading (powcurrvolt_current d) CURRENT_SCALE ++ str "A :: " ++
    decimal_reading (powcurrvolt_voltage d) VOLTAGE_SCALE ++ str "V"
  else if type =? SENSOR_TYPE_TEMPPRESS then
    decimal_reading (temppress_temperature d) TEMPERATURE_SCALE ++ str "C :: " ++
    decimal_reading (i32 (temppress_pressure d)) PRESSURE_SCALE ++ str "Pa"
  else if type =? SENSOR_TYPE_PROXIMITY then
    decimal_reading (i32 (prox_proximity d)) PROXIMITY_SCALE ++ str "m"
  else if type =? SENSOR_TYPE_TORQUE then
    decimal_reading (tor_torque d) TORQUE_SCALE ++ str "Nm"
  else [].

Lemma get_i32_abs off d : Z.abs (get_i32 off d) <= 2 ^ 31.
Proof. apply i32_abs. Qed.
#[export] Hint Resolve get_i32_abs : gw.

Lemma is_scale_10 : is_scale 10. Proof. by left. Qed.
Lemma is_scale_100 : is_scale 100. Proof. by right. Qed.
#[export] Hint Resolve is_scale_10 is_scale_100 : gw.

Ltac unfold_readings := unfold powcurrvolt_power, powcurrvolt_current, powcurrvolt_voltage,
  temppress_temperature, temppress_pressure, tor_torque, prox_proximity, TEMPERATURE_SCALE, PRESSURE_SCALE,
  VOLTAGE_SCALE, CURRENT_SCALE, POWER_SCALE, TORQUE_SCALE, PROXIMITY_SCALE in *.

Lemma decimal_bounds v s :
  Z.abs v <= 2 ^ 31 -> is_scale s ->
  printable (decimal_reading v s) /\ (length (decimal_reading v s) <= 18)%nat.
Proof. intros. rewrite <- meas_decimal by done. by apply meas_bounds. Qed.

(** Adds the bounds of every reading of the goal. *)
Ltac add_bounds :=
  repeat match goal with
  | |- context [decimal_reading ?v ?s] =>
      lazymatch goal with
      | _ : printable (decimal_reading v s) /\ _ |- _ => fail
      | _ => pose proof (decimal_bounds v s ltac:(auto with gw) ltac:(auto with gw))
      end
  end; destruct_and?.

Lemma reading_text_bounds d type : printable (reading_text d type) /\ (length (reading_text d type) <= 70)%nat.
Proof.
  unfold reading_text. unfold_readings.
  repeat case_match; add_bounds; rewrite ?length_app; simpl length; (split; [auto 10 with printable|lia]).
Qed.

Lemma getDataString_exact frame : getDataString frame = reading_text (data frame) (type frame).
Proof.
  pose proof (reading_text_bounds (data frame) (type frame)) as [_ Hl].
  unfold getDataString, reading_text, WRITE_BUFFER_SIZE in *. unfold_readings.
  rewrite !meas_decimal by auto with gw.
  repeat case_match; rewrite ?snprintf_fits by lia; done.
Qed.

Lemma localtime_stamp tz sec t :
  localtime_r tz sec = Some t -> printable (stamp_text t) /\ (length (stamp_text t) <= 26)%nat.
Proof.
  unfold localtime_r. destruct (civil_from_days _) as [[y m] d]. case_match eqn:E; [|done].
  intros [= <-]. rewrite andb_true_iff, Z.leb_le, Z.ltb_lt in E. unfold stamp_text. cbn [tm_year tm_mon tm_mday tm_hour tm_min tm_sec].
  split; [auto 20 with printable|]. autorewrite with gw_len. simpl length.
  assert (length (fmt_d (y - 1900 + 1900)) <= 11)%nat by (apply (length_fmt_d _ 10); simpl; lia). lia.
Qed.

Lemma strftime_stamp tz sec t :
  localtime_r tz sec = Some t -> strftime INTER_BUF_SIZE t = Some (stamp_text t).
Proof.
  intros H. apply localtime_stamp in H as [_ Hl]. unfold strftime, INTER_BUF_SIZE.
  destruct (Nat.ltb_spec (length (stamp_text t)) 50); [done|lia].
Qed.

Lemma getTime_bounds tz frame : printable (getTime tz frame) /\ (length (getTime tz frame) <= 26)%nat.
Proof.
  unfold getTime. destruct (localtime_r _ _) as [t|] eqn:E; [|split; [constructor|simpl; lia]].
  rewrite (strftime_stamp _ _ _ E). by eapply localtime_stamp.
Qed.

(** ** Facts about writing *)

Lemma write_all_spec fd text w :
  0 <= fd -> wp (write_all fd text) w (written w text) (fun _ => False).
Proof.
  intros Hfd. unfold write_all. destruct (Z.ltb_spec fd 0); [lia|].
  apply wp_iterate with (I := fun total w' => (total <= length text)%nat /\
    sent w' = sent w ++ take total text /\ kept w w').
  { split; [lia|]. rewrite take_0, app_nil_r. auto with gw. }
  intros total w' (Ht & Hs & Htx). unfold write_all_body.
  destruct (Nat.ltb_spec total (length text)) as [Hlt|].
  2:{ apply wp_ret, written_all; [done|]. by rewrite Hs, take_ge. }
  assert (Hd : length (drop total text) = (length text - total)%nat) by apply length_drop.
  assert (Hne : drop total text <> []) by (intros Hn; rewrite Hn in Hd; simpl in Hd; lia).
  assert (Hcut : forall w2, tx w' <> [] -> kept w' w2 -> sent w2 = sent w' -> written w text (-1) w2).
  { intros w2 Hx Hk Hs2. rewrite <- (take_drop total text). apply written_cut; eauto with gw. congruence. }
  apply wp_bind, send_spec; [done|..].
  - intros k w2 Hk Hs2 Hm Hle Hx. destruct k as [|k]; [lia|]. apply wp_ret. rewrite Hd in *.
    split; [split; [lia|]|lia]. split; [|eauto with gw].
    by rewrite Hs2, Hs, <- app_assoc, take_take_drop.
  - intros w2 Hx Hs2 Hm Hk. by apply wp_ret, Hcut.
  - intros n w2 Hx Hs2 Hm Hk. destruct (n =? EINTR); [|by apply wp_ret, Hcut].
    apply wp_ret. split; [|lia]. split; [done|]. split; [by rewrite Hs2|eauto with gw].
Qed.

#[export] Instance write_all_writer fd : TCEq (fd <? 0) false -> Writer (write_all fd).
Proof. intros E text w. apply write_all_spec. apply TCEq_eq, Z.ltb_ge in E. done. Qed.

(** The record [writeFrameData] appends. *)
Definition record_text (d : SensorData_u) (type : Z) (t : tm) : list Z :=
  stamp_text t ++ str " -> " ++ reading_text d type ++ [LF].

Lemma log_record_exact d type t :
  supported type = true -> log_record d type (stamp_text t) = record_text d type t.
Proof.
  intros Ht. unfold log_record, record_text, reading_text. unfold_readings.
  rewrite !meas_decimal by auto with gw.
  destruct (supported_cases type Ht) as [-> | [-> | [-> | ->]]]; simpl Z.eqb; cbv iota;
    by rewrite <- ?app_assoc.
Qed.

Lemma length_record_text d type tz sec t :
  localtime_r tz sec = Some t -> (length (record_text d type t) < WRITE_BUFFER_SIZE)%nat.
Proof.
  intros [_ H1]%localtime_stamp. pose proof (proj2 (reading_text_bounds d type)) as H2.
  unfold record_text, WRITE_BUFFER_SIZE. rewrite !length_app. simpl. lia.
Qed.

Lemma print_and_write_fits fd text :
  (length text < WRITE_BUFFER_SIZE)%nat -> print_and_write fd text = write_all fd text.
Proof.
  intros. unfold print_and_write. rewrite snprintf_fits by done.
  destruct (Z.ltb_spec (Z.of_nat (length text)) 0); [lia|].
  destruct (Z.leb_spec (Z.of_nat WRITE_BUFFER_SIZE) (Z.of_nat (length text))); [lia|done].
Qed.

Lemma length_log_title type : (length (log_title type) < WRITE_BUFFER_SIZE)%nat.
Proof. unfold log_title, WRITE_BUFFER_SIZE. repeat case_match; vm_compute; lia. Qed.

(** [writeFrameData] of a supported type at a representable time. *)
Lemma writeFrameData_writes tz d type stamp flag fd w t :
  0 <= fd -> supported type = true -> localtime_r tz (tv_sec stamp) = Some t ->
  wp (writeFrameData tz d type stamp flag fd) w
    (written w ((if flag =? 1 then log_title type else []) ++ record_text d type t)) (fun _ => False).
Proof.
  intros Hfd Hty Ht. unfold writeFrameData. destruct (Z.ltb_spec fd 0); [lia|].
  rewrite Ht, (strftime_stamp _ _ _ Ht), Hty. simpl negb. cbv iota.
  rewrite log_record_exact by done.
  assert (E := print_and_write_fits fd _ (length_record_text d type _ _ _ Ht)).
  apply wp_written_seq; [|intros w1; rewrite E; by apply write_all_spec].
  destruct (flag =? 1); [|by apply wp_ret, written_nil].
  rewrite print_and_write_fits by apply length_log_title. by apply write_all_spec.
Qed.

(** C24.  A log record, every branch: for a valid descriptor, a supported type and a
    time with a calendar date the call writes the title line exactly when
    [flag] is 1, then the line with the time and the exact readings, never
    truncated; a failed write leaves a proper prefix and returns -1; it always
    returns.  In every other case it returns -1 and writes nothing. *)
Theorem writeFrameData_record tz d type stamp flag fd w :
  match localtime_r tz (tv_sec stamp) with
  | Some t =>
      if (0 <=? fd) && supported type then
        wp (writeFrameData tz d type stamp flag fd) w
          (written w ((if flag =? 1 then log_title type else []) ++ record_text d type t)) (fun _ => False)
      else writeFrameData tz d type stamp flag fd w = Done (-1) w
  | None => writeFrameData tz d type stamp flag fd w = Done (-1) w
  end.
Proof.
  destruct (localtime_r tz (tv_sec stamp)) as [t|] eqn:Et.
  - destruct (Z.leb_spec 0 fd) as [Hfd|Hfd]; cbn [andb].
    + destruct (supported type) eqn:Hty; [by apply writeFrameData_writes|]. unfold writeFrameData.
      rewrite Et, (strftime_stamp _ _ _ Et), Hty. by destruct (Z.ltb_spec fd 0); [lia|].
    + unfold writeFrameData. by destruct (Z.ltb_spec fd 0); [|lia].
  - unfold writeFrameData. rewrite Et. by destruct (fd <? 0).
Qed.

(** ** Instances of the theorems *)

Definition example_reading : SensorData_u := le_bytes 4 (-2048) ++ replicate 8 0.
Definition example_tm : tm :=
  {| tm_year := 70; tm_mon := 0; tm_mday := 2; tm_hour := 0; tm_min := 0; tm_sec := 0 |}.
Definition example_file : io := mk_io false [] [Takes 3; TxInterrupts 10] [].

Example record_text_ex :
  record_text example_reading SENSOR_TYPE_TORQUE example_tm =
  str "1970-01-02 00:00:00 -> -204.800000Nm" ++ [LF].
Proof. vm_compute. reflexivity. Qed.
