(* ===== verification/Acquiring.v ===== *)
(** src/acquiring_d.c: one client connection of the acquisition daemon.

    [socketConnectionHandler] reads packets from a TCP stream, checks their
    header and forwards them to the message queue of the processing daemon.
    The theorems relate it to [packets], the division of the byte stream into
    packets, whatever the sizes in which the bytes arrive. *)
From S2P Require Import Prelude Machine Proc ProcessInit Posix.
Local Open Scope Z_scope.

Definition PACKET_HEADER_FIELDS_SIZE : nat := 6.
Definition PACKET_DATA_FIELDS_SIZE : nat := 12.
Definition PACKET_SIZE : nat := PACKET_HEADER_FIELDS_SIZE + PACKET_DATA_FIELDS_SIZE.
Definition SYNC_BYTE : Z := 0xAA.
Definition PACKET_DATA_FIELD_LEN_OFFSET_1 : nat := 4.
Definition PACKET_DATA_FIELD_LEN_OFFSET_2 : nat := 5.
Definition MESSAGE_QUEUE_PRIORITY : Z := 3.

(** ** The operations *)

(** [socket_recv]: the value returned and the bytes stored in the buffer; the
    loop variable is what has been stored so far. *)
Definition socket_recv_body (len : nat) (got : list Z) : proc io (list Z + Z * list Z) :=
  if (length got <? len)%nat then
    let! r := recv (len - length got) in
    match r with
    | Ok [] => ret (inr (0, got))
    | Ok d => ret (inl (got ++ d))
    | Err n =>
        if n =? EINTR then
          let! e := read_exitRQ in
          if e then ret (inr (-1, got)) else ret (inl got)
        else ret (inr (-1, got))
    end
  else ret (inr (Z.of_nat (length got), got)).

Definition socket_recv (len : nat) : proc io (Z * list Z) :=
  iterate (fun _ w => rx_size (rx w)) (socket_recv_body len) [].

(** State of a connection thread: its socket, the results the next [mq_send]
    calls will have ([Some errno] for a failure; past the end they succeed),
    the messages the queue has accepted with their priority, and whether the
    socket has been closed. *)
Record conn := mk_conn {
  c_io : io;
  c_mq : list (option Z);
  c_fwd : list (list Z * Z);
  c_closed : bool
}.

Definition set_c_io (w : io) (s : conn) : conn :=
  {| c_io := w; c_mq := c_mq s; c_fwd := c_fwd s; c_closed := c_closed s |}.
Definition on_io {A} (c : proc io A) : proc conn A := lift c_io set_c_io c.

(** [forwardPacket(packet, len)] *)
Definition forwardPacket (packet : list Z) : proc conn unit := fun s =>
  let accept := {| c_io := c_io s; c_mq := tl (c_mq s); c_closed := c_closed s;
                   c_fwd := c_fwd s ++ [(packet, MESSAGE_QUEUE_PRIORITY)] |} in
  match c_mq s with
  | Some _ :: ans => Done tt {| c_io := c_io s; c_mq := ans; c_closed := c_closed s; c_fwd := c_fwd s |}
  | _ => Done tt accept
  end.

(** [close(client_fd)] *)
Definition close_conn : proc conn unit :=
  modify (fun s => {| c_io := c_io s; c_mq := c_mq s; c_fwd := c_fwd s; c_closed := true |}).

(** Why the handler's loop ended: the messages it logs. *)
Inductive closing :=
| ExitRequested | Disconnected | HeaderError | BadSync | TooLong | DataError.

Definition byte_at (buf : list Z) (i : nat) : Z := nth i buf 0.

(** One turn of the loop of [socketConnectionHandler]; the loop variable is
    [msg_buffer], whose contents survive from one packet to the next. *)
Definition handler_body (msg_buffer : list Z) : proc conn (list Z + closing) :=
  let! e := on_io read_exitRQ in
  if e then ret (inr ExitRequested) else
  let! (bytes_read, got) := on_io (socket_recv PACKET_HEADER_FIELDS_SIZE) in
  let msg_buffer := splice msg_buffer 0 got in
  if bytes_read =? 0 then ret (inr Disconnected) else
  if bytes_read <? 0 then ret (inr HeaderError) else
  if negb (byte_at msg_buffer 0 =? SYNC_BYTE) then ret (inr BadSync) else
  let msg_data_len := or16 (byte_at msg_buffer PACKET_DATA_FIELD_LEN_OFFSET_1)
                           (byte_at msg_buffer PACKET_DATA_FIELD_LEN_OFFSET_2) in
  if Z.of_nat PACKET_DATA_FIELDS_SIZE <? msg_data_len then ret (inr TooLong) else
  let forward buf :=
    forwardPacket (take (PACKET_HEADER_FIELDS_SIZE + Z.to_nat msg_data_len) buf) ;! ret (inl buf) in
  if 0 <? msg_data_len then
    let! (bytes_read, got) := on_io (socket_recv (Z.to_nat msg_data_len)) in
    let msg_buffer := splice msg_buffer PACKET_HEADER_FIELDS_SIZE got in
    if bytes_read =? 0 then ret (inr Disconnected) else
    if bytes_read <? 0 then ret (inr DataError) else
    forward msg_buffer
  else forward msg_buffer.

Definition conn_size (_ : list Z) (s : conn) : nat := rx_size (rx (c_io s)).

(** [socketConnectionHandler]; [buf0] is the uninitialised [msg_buffer]. *)
Definition socketConnectionHandler (buf0 : list Z) : proc conn closing :=
  let! why := iterate conn_size handler_body buf0 in
  close_conn ;! ret why.

(** ** The stream divided into packets *)

(** The length of the packet at the head of a stream, if there is a complete
    and valid one. *)
Definition packet_length (bs : list Z) : option nat :=
  if (length bs <? PACKET_HEADER_FIELDS_SIZE)%nat then None
  else if negb (byte_at bs 0 =? SYNC_BYTE) then None
  else let len := Z.to_nat (or16 (byte_at bs 4) (byte_at bs 5)) in
       if (PACKET_DATA_FIELDS_SIZE <? len)%nat then None
       else if (length bs <? PACKET_HEADER_FIELDS_SIZE + len)%nat then None
       else Some (PACKET_HEADER_FIELDS_SIZE + len)%nat.

Fixpoint packets_fuel (fuel : nat) (bs : list Z) : list (list Z) :=
  match fuel with
  | O => []
  | S fuel =>
      match packet_length bs with
      | None => []
      | Some n => take n bs :: packets_fuel fuel (drop n bs)
      end
  end.

(** All the packets at the head of a stream; each takes at least six bytes. *)
Definition packets (bs : list Z) : list (list Z) := packets_fuel (length bs) bs.

(** ** Facts about [socket_recv] *)

(** The socket after some of its script has been used: [got] are the bytes
    taken from the stream since [w]. *)
Definition taken (w : io) (got : list Z) (w' : io) : Prop :=
  exists e evs, w' = set_rx e evs w /\ got ++ stream evs = stream (rx w) /\
    (rx_size evs <= rx_size (rx w))%nat /\ (got <> [] -> (rx_size evs < rx_size (rx w))%nat) /\
    (quiet w -> quiet w').

Lemma taken_refl w : taken w [] w.
Proof. exists (exitRQ w), (rx w). destruct w. split; [done|]. split; [done|]. split; [done|]. by split. Qed.

Lemma taken_step w got w' e evs d :
  taken w got w' -> d ++ stream evs = stream (rx w') -> (rx_size evs <= rx_size (rx w'))%nat ->
  (d <> [] -> (rx_size evs < rx_size (rx w'))%nat) -> (quiet w' -> quiet (set_rx e evs w')) ->
  taken w (got ++ d) (set_rx e evs w').
Proof.
  intros (e0 & evs0 & -> & Hs & Hm & Hlt & Hq) Hd Hm' Hlt' Hq'. simpl in *.
  exists e, evs. split; [done|]. split; [by rewrite <- app_assoc, Hd|]. split; [lia|].
  split; [|auto]. intros Hne. destruct d; [|specialize (Hlt' ltac:(done)); lia].
  rewrite app_nil_r in Hne. specialize (Hlt Hne). lia.
Qed.

(** Reading touches the script and the flag only. *)
Definition reads (w w' : io) : Prop := exists e evs, w' = set_rx e evs w.

Lemma reads_refl w : reads w w.
Proof. exists (exitRQ w), (rx w). by destruct w. Qed.

Lemma reads_trans w1 w2 w3 : reads w1 w2 -> reads w2 w3 -> reads w1 w3.
Proof. intros (e & evs & ->) (e' & evs' & ->). by exists e', evs'. Qed.

Lemma reads_sent w w' : reads w w' -> sent w' = sent w /\ tx w' = tx w.
Proof. by intros (e & evs & ->). Qed.

Lemma taken_reads w d w' : taken w d w' -> reads w w'.
Proof. intros (e & evs & -> & _). by exists e, evs. Qed.

#[export] Hint Resolve reads_refl reads_trans taken_reads : gw.

Lemma socket_recv_spec len w (Q : Z * list Z -> io -> Prop) (W : io -> Prop) :
  (0 < len)%nat ->
  (forall d w', length d = len -> taken w d w' -> Q (Z.of_nat len, d) w') ->
  (forall d w', (length d < len)%nat -> d = stream (rx w) -> (quiet w -> quiet w') -> reads w w' -> Q (0, d) w') ->
  (forall d w', (length d < len)%nat -> ~ quiet w -> reads w w' -> Q (-1, d) w') ->
  (forall w', (length (stream (rx w)) < len)%nat -> reads w w' -> W w') ->
  wp (socket_recv len) w Q W.
Proof.
  intros Hlen H1 H2 H3 H4. unfold socket_recv.
  apply wp_iterate with (I := fun got w' => (length got <= len)%nat /\ taken w got w').
  { split; [simpl; lia|apply taken_refl]. }
  intros got w' [Hl Ht]. unfold socket_recv_body. destruct (Nat.ltb_spec (length got) len).
  2:{ apply wp_ret. assert (length got = len) as E by lia. rewrite E. by apply H1. }
  assert (Ht' := Ht). destruct Ht as (e0 & evs0 & -> & Hs & Hm & Hlt & Hq).
  apply wp_bind, recv_spec; [lia|..]; cbn [rx set_rx] in *.
  - intros d e evs Hd Hld Hsd Hmd Hqd. destruct d as [|b d]; [done|]. apply wp_ret.
    split; [split; [rewrite length_app; lia|]|done]. apply taken_step; simpl; auto; lia.
  - intros e evs Hsd Hqd Hse. apply wp_ret. rewrite Hsd, app_nil_r in Hs. apply H2; auto. by exists e, evs.
  - intros e evs Hsd Hmd Hqd. rewrite Z.eqb_refl. apply wp_bind, wp_read_exitRQ.
    cbn [rx set_rx]. intros e' evs' Hs' Hm' Hq'. destruct e'.
    + apply wp_ret. apply H3; [done| |by exists true, evs'].
      intros Hqw. by destruct (Hq' (Hqd (Hq Hqw))).
    + apply wp_ret. split; [|simpl; lia]. split; [done|]. rewrite <- (app_nil_r got).
      change (set_rx false evs' (set_rx e evs ?w)) with (set_rx false evs' w).
      apply taken_step; simpl; [done|congruence|lia|done|]. intros Hqw. by apply Hq', Hqd.
  - intros n e evs Hn Hsd Hnq. destruct (Z.eqb_spec n EINTR); [done|]. apply wp_ret. apply H3; auto. by exists e, evs.
  - intros e Hsd. apply H4; [by rewrite <- Hs, Hsd, app_nil_r|by exists e, []].
Qed.

(** ** Facts about [packets] *)

Lemma byte_at_app a b i : (i < length a)%nat -> byte_at (a ++ b) i = byte_at a i.
Proof. intros. unfold byte_at. by apply app_nth1. Qed.

Lemma byte_at_splice0 buf new i : (i < length new)%nat -> byte_at (splice buf 0 new) i = byte_at new i.
Proof. intros. unfold splice. simpl. by apply byte_at_app. Qed.

Lemma packet_length_bound bs n :
  packet_length bs = Some n -> (PACKET_HEADER_FIELDS_SIZE <= n <= PACKET_SIZE)%nat /\ (n <= length bs)%nat.
Proof.
  unfold packet_length, PACKET_SIZE, PACKET_DATA_FIELDS_SIZE, PACKET_HEADER_FIELDS_SIZE.
  repeat case_match; try done. intros [= <-].
  repeat match goal with H : (_ <? _)%nat = false |- _ => apply Nat.ltb_ge in H end. lia.
Qed.

Lemma packets_fuel_enough f1 f2 bs :
  (length bs <= f1)%nat -> (length bs <= f2)%nat -> packets_fuel f1 bs = packets_fuel f2 bs.
Proof.
  revert f2 bs. induction f1 as [|f1 IH]; intros [|f2] bs H1 H2; try done; cbn [packets_fuel].
  1,2: destruct bs; [done|simpl in *; lia].
  destruct (packet_length bs) as [n|] eqn:E; [|done].
  apply packet_length_bound in E. unfold PACKET_HEADER_FIELDS_SIZE in E.
  f_equal. apply IH; rewrite length_drop; lia.
Qed.

Lemma packets_unfold bs :
  packets bs = match packet_length bs with
               | None => [] | Some n => take n bs :: packets (drop n bs) end.
Proof.
  unfold packets at 1. destruct (length bs) as [|k] eqn:E.
  - destruct bs; done.
  - cbn [packets_fuel]. destruct (packet_length bs) as [n|] eqn:En; [|done].
    apply packet_length_bound in En. unfold PACKET_HEADER_FIELDS_SIZE in En.
    f_equal. apply packets_fuel_enough; rewrite length_drop; lia.
Qed.

Lemma or16_range a b : 0 <= or16 a b < 65536.
Proof. apply (uint_range 16). lia. Qed.

(** The header [h] read from a stream decides the packet at its head. *)
Lemma packet_length_header h r :
  length h = PACKET_HEADER_FIELDS_SIZE ->
  packet_length (h ++ r) =
    if negb (byte_at h 0 =? SYNC_BYTE) then None
    else let len := or16 (byte_at h 4) (byte_at h 5) in
      if Z.of_nat PACKET_DATA_FIELDS_SIZE <? len then None
      else if (length r <? Z.to_nat len)%nat then None
      else Some (PACKET_HEADER_FIELDS_SIZE + Z.to_nat len)%nat.
Proof.
  unfold packet_length, PACKET_HEADER_FIELDS_SIZE, PACKET_DATA_FIELDS_SIZE. intros Hh.
  rewrite length_app, !byte_at_app by lia. destruct (Nat.ltb_spec (length h + length r) 6); [lia|].
  destruct (negb _); [done|]. pose proof (or16_range (byte_at h 4) (byte_at h 5)).
  cbv zeta. repeat case_cmp; try done; lia.
Qed.

(** ** The handler *)

Definition accepting (s : conn) : Prop := Forall (fun a => a = None) (c_mq s).

(** Progress of a connection since [s]: the packets [fwd] accepted by the queue
    are among the packets [all] read since then, all of them when no
    [mq_send] fails. *)
Definition progress (s s' : conn) (all : list (list Z)) : Prop :=
  exists fwd, c_fwd s' = c_fwd s ++ map (fun p => (p, MESSAGE_QUEUE_PRIORITY)) fwd /\
    fwd `sublist_of` all /\ (accepting s -> fwd = all /\ accepting s') /\ c_closed s' = c_closed s.

Lemma progress_io s s' all w : progress s s' all -> progress s (set_c_io w s') all.
Proof. done. Qed.

Lemma forwardPacket_spec p s (Q : unit -> conn -> Prop) W :
  (forall s', progress s s' [p] -> c_io s' = c_io s -> Q tt s') -> wp (forwardPacket p) s Q W.
Proof.
  intros H. unfold wp, forwardPacket. destruct (c_mq s) as [|[n|] ans] eqn:E.
  - apply H; [|done]. exists [p]. split; [done|]. split; [done|]. split; [|done].
    intros _. split; [done|]. by constructor.
  - apply H; [|done]. exists []. split; [by rewrite app_nil_r|]. split; [apply sublist_nil_l|].
    split; [|done]. unfold accepting. rewrite E. by intros [? ?]%Forall_cons_1.
  - apply H; [|done]. exists [p]. split; [done|]. split; [done|]. split; [|done].
    unfold accepting. rewrite E. by intros [? ?]%Forall_cons_1.
Qed.

Lemma progress_trans s s1 s2 all all' :
  progress s s1 all -> progress s1 s2 all' -> progress s s2 (all ++ all').
Proof.
  intros (f1 & E1 & H1 & A1 & C1) (f2 & E2 & H2 & A2 & C2). exists (f1 ++ f2).
  split; [by rewrite E2, E1, map_app, app_assoc|]. split; [by apply sublist_app|].
  split; [|congruence]. intros Ha. destruct (A1 Ha) as [-> Ha']. by destruct (A2 Ha') as [-> ?].
Qed.

(** Invariant of the loop. *)
Definition handler_inv (s : conn) (buf : list Z) (s' : conn) : Prop :=
  length buf = PACKET_SIZE /\
  exists all, packets (stream (rx (c_io s))) = all ++ packets (stream (rx (c_io s'))) /\
    progress s s' all /\ (quiet (c_io s) -> quiet (c_io s')).

(** What the loop leaves: part of the packets have been read, all of them
    in a quiet environment. *)
Definition handler_post (s s' : conn) : Prop :=
  exists all rest, packets (stream (rx (c_io s))) = all ++ rest /\
    progress s s' all /\ (quiet (c_io s) -> rest = []).

Lemma handler_stop s s' buf w :
  handler_inv s buf s' -> (quiet (c_io s') -> packets (stream (rx (c_io s'))) = []) ->
  handler_post s (set_c_io w s').
Proof.
  intros (_ & all & E & Hp & Hq) Hr. exists all, (packets (stream (rx (c_io s')))).
  split; [done|]. split; [by apply progress_io|]. auto.
Qed.

(** The packet [h ++ d], complete in the buffer, is forwarded. *)
Lemma forward_spec s s' buf h d r w (Q : list Z + closing -> conn -> Prop) W :
  handler_inv s buf s' -> stream (rx (c_io s')) = h ++ d ++ r ->
  packet_length (h ++ d ++ r) = Some (length (h ++ d)) ->
  (rx_size (rx w) < rx_size (rx (c_io s')))%nat -> stream (rx w) = r ->
  (quiet (c_io s') -> quiet w) ->
  forall buf', length buf' = PACKET_SIZE -> take (length (h ++ d)) buf' = h ++ d ->
  (forall s'', handler_inv s buf' s'' -> (conn_size buf' s'' < conn_size buf s')%nat -> Q (inl buf') s'') ->
  wp (forwardPacket (take (length (h ++ d)) buf') ;! ret (inl buf')) (set_c_io w s') Q W.
Proof.
  intros (_ & all & E & Hp & Hq) Hs Hpl Hm Hr Hqw buf' Hlb Hb HQ. rewrite Hb.
  apply wp_bind, forwardPacket_spec. intros s'' Hpr Hio. apply wp_ret, HQ.
  - split; [done|]. exists (all ++ [h ++ d]). split; [|split].
    + rewrite Hio. simpl. rewrite E, Hs, Hr, packets_unfold, Hpl, app_assoc.
      rewrite take_app_length, drop_app_length, <- app_assoc. done.
    + apply progress_trans with s'; [done|]. apply Hpr.
    + rewrite Hio. simpl. auto.
  - unfold conn_size. by rewrite Hio.
Qed.

(** A stream that is too short or has a bad header has no packet. *)
Lemma packets_none bs : packet_length bs = None -> packets bs = [].
Proof. intros E. by rewrite packets_unfold, E. Qed.

Lemma packets_short bs : (length bs < PACKET_HEADER_FIELDS_SIZE)%nat -> packets bs = [].
Proof. intros. apply packets_none. unfold packet_length.
  destruct (Nat.ltb_spec (length bs) PACKET_HEADER_FIELDS_SIZE); [done|lia].
Qed.

Ltac turn_consts := unfold PACKET_SIZE, PACKET_HEADER_FIELDS_SIZE, PACKET_DATA_FIELDS_SIZE,
  PACKET_DATA_FIELD_LEN_OFFSET_1, PACKET_DATA_FIELD_LEN_OFFSET_2 in *.

(** The part of a turn that follows the header [h]. *)
Lemma handler_header_spec s buf s' h w :
  handler_inv s buf s' -> length h = PACKET_HEADER_FIELDS_SIZE -> taken (c_io s') h w ->
  let buf1 := splice buf 0 h in
  let len := or16 (byte_at buf1 4) (byte_at buf1 5) in
  let Q := fun r s'' => match r with
       | inl buf' => handler_inv s buf' s'' /\ (conn_size buf' s'' < conn_size buf s')%nat
       | inr _ => handler_post s s'' end in
  let forward buf := forwardPacket (take (PACKET_HEADER_FIELDS_SIZE + Z.to_nat len) buf) ;! ret (inl buf) in
  wp (if negb (byte_at buf1 0 =? SYNC_BYTE) then ret (inr BadSync) else
      if Z.of_nat PACKET_DATA_FIELDS_SIZE <? len then ret (inr TooLong) else
      if 0 <? len then
        let! (bytes_read, got) := on_io (socket_recv (Z.to_nat len)) in
        let msg_buffer := splice buf1 PACKET_HEADER_FIELDS_SIZE got in
        if bytes_read =? 0 then ret (inr Disconnected) else
        if bytes_read <? 0 then ret (inr DataError) else forward msg_buffer
      else forward buf1) (set_c_io w s') Q (handler_post s).
Proof.
  intros HI Hh Ht buf1 len Q forward. assert (Hb := proj1 HI).
  destruct Ht as (e & evs & -> & Hs & Hm & Hlt & Hq).
  assert (Hlt' : (rx_size evs < rx_size (rx (c_io s')))%nat) by (apply Hlt; by intros ->).
  assert (Hpl := packet_length_header h (stream evs) Hh). rewrite Hs in Hpl.
  subst forward len buf1. cbv beta zeta. rewrite !byte_at_splice0 in * by (rewrite Hh; turn_consts; lia).
  pose proof (or16_range (byte_at h 4) (byte_at h 5)) as Hr.
  set (len := or16 (byte_at h 4) (byte_at h 5)) in *. cbv zeta in Hpl.
  destruct (negb _).
  { apply wp_ret. eapply handler_stop; [done|]. intros _. by apply packets_none. }
  destruct (Z.ltb_spec (Z.of_nat PACKET_DATA_FIELDS_SIZE) len).
  { apply wp_ret. eapply handler_stop; [done|]. intros _. by apply packets_none. }
  destruct (Z.ltb_spec 0 len).
  - unfold on_io. apply wp_bind, wp_lift. apply socket_recv_spec; [lia|..]; cbn [rx set_rx c_io set_c_io].
    + intros d w' Hd (e' & evs' & -> & Hs' & Hm' & Hlt'' & Hq'). cbn [rx set_rx] in *.
      rewrite Z2Nat.id by lia. destruct (Z.eqb_spec len 0); [lia|]. destruct (Z.ltb_spec len 0); [lia|].
      replace (PACKET_HEADER_FIELDS_SIZE + Z.to_nat len)%nat with (length (h ++ d)) by (rewrite length_app; lia).
      apply (forward_spec s s' buf h d (stream evs')); try done.
      * by rewrite Hs'.
      * rewrite Hs', Hs, Hpl, length_app, Hh, Hd. rewrite <- Hs', length_app.
        destruct (Nat.ltb_spec (length d + length (stream evs')) (Z.to_nat len)); [lia|done].
      * simpl. lia.
      * simpl in *. auto.
      * rewrite length_splice; rewrite length_splice; turn_consts; simpl; lia.
      * rewrite length_app, Hh. rewrite take_splice by (rewrite length_splice; turn_consts; simpl; lia).
        f_equal. rewrite <- Hh. apply (take_splice buf 0 h). turn_consts. simpl. lia.
    + intros d w' Hd -> Hq' _. apply wp_ret. apply (handler_stop s s' buf); [done|]. intros _. apply packets_none.
      rewrite Hpl. by destruct (Nat.ltb_spec (length (stream evs)) (Z.to_nat len)); [|lia].
    + intros d w' Hd Hnq _. apply wp_ret. apply (handler_stop s s' buf); [done|]. intros Hqs. by destruct Hnq; apply Hq.
    + intros w' Hd _. apply (handler_stop s s' buf); [done|]. intros _. apply packets_none.
      rewrite Hpl. by destruct (Nat.ltb_spec (length (stream evs)) (Z.to_nat len)); [|lia].
  - assert (len = 0) as Hl0 by lia. rewrite Hl0 in *.
    replace (PACKET_HEADER_FIELDS_SIZE + Z.to_nat 0)%nat with (length (h ++ [])) by (rewrite app_nil_r, Hh; done).
    apply (forward_spec s s' buf h [] (stream evs)); try done.
    + rewrite app_nil_l, Hs, Hpl, app_nil_r, Hh. done.
    + rewrite length_splice; turn_consts; simpl; lia.
    + rewrite app_nil_r. apply (take_splice buf 0 h). turn_consts. simpl. lia.
Qed.

(** One turn of the loop keeps the invariant or leaves it finished. *)
Lemma handler_body_spec s buf s' :
  handler_inv s buf s' ->
  wp (handler_body buf) s'
    (fun r s'' => match r with
       | inl buf' => handler_inv s buf' s'' /\ (conn_size buf' s'' < conn_size buf s')%nat
       | inr _ => handler_post s s'' end)
    (handler_post s).
Proof.
  intros HI. unfold handler_body. apply wp_bind, wp_lift, wp_read_exitRQ. intros e evs Hse Hme Hqe. destruct e.
  { apply wp_ret. apply (handler_stop s s' buf); [done|]. intros Hq. by destruct (Hqe Hq). }
  apply wp_bind, wp_lift. cbn [c_io set_c_io]. apply socket_recv_spec; [unfold PACKET_HEADER_FIELDS_SIZE; lia|..].
  - intros h w' Hh Ht. apply (handler_header_spec s buf s' h w'); [done|done|].
    destruct Ht as (e' & evs' & -> & Hs' & Hm' & Hlt' & Hq'). simpl in *.
    exists e', evs'. split; [done|]. split; [congruence|]. split; [lia|].
    split; [intros Hne; specialize (Hlt' Hne); lia|]. intros Hq. by apply Hq', Hqe.
  - cbn [rx set_rx]. intros d w' Hd -> Hq' _. apply wp_ret. apply (handler_stop s s' buf); [done|].
    intros _. rewrite <- Hse. by apply packets_short.
  - cbn [rx set_rx]. intros d w' Hd Hnq _. apply wp_ret. apply (handler_stop s s' buf); [done|].
    intros Hqs. by destruct Hnq; apply Hqe.
  - cbn [rx set_rx]. intros w' Hd _. apply (handler_stop s s' buf); [done|]. intros _. rewrite <- Hse. by apply packets_short.
Qed.

Lemma handler_loop_spec s buf :
  length buf = PACKET_SIZE ->
  wp (iterate conn_size handler_body buf) s (fun _ => handler_post s) (handler_post s).
Proof.
  intros Hb. apply wp_iterate with (I := handler_inv s); [|intros; by apply handler_body_spec].
  split; [done|]. exists []. split; [done|]. split; [|done].
  exists []. split; [by rewrite app_nil_r|]. split; [done|]. by split.
Qed.

(** ** Properties *)

(** The packets a connection has put in the queue. *)
Definition forwarded (s : conn) : list (list Z) := map fst (c_fwd s).

Lemma progress_forwarded s s' all :
  progress s s' all -> exists fwd, forwarded s' = forwarded s ++ fwd /\ fwd `sublist_of` all /\
    (accepting s -> fwd = all).
Proof.
  intros (fwd & E & Hs & Ha & _). exists fwd. split; [|split; [done|naive_solver]].
  unfold forwarded. rewrite E, map_app, map_map. simpl. by rewrite map_id.
Qed.

Lemma handler_post_sublist s s' :
  handler_post s s' -> exists fwd, forwarded s' = forwarded s ++ fwd /\
    fwd `sublist_of` packets (stream (rx (c_io s))).
Proof.
  intros (all & rest & E & Hp & _). apply progress_forwarded in Hp as (fwd & Ef & Hs & _).
  exists fwd. split; [done|]. rewrite E. by apply sublist_inserts_r.
Qed.

Lemma handler_post_exact s s' :
  quiet (c_io s) -> accepting s -> handler_post s s' ->
  forwarded s' = forwarded s ++ packets (stream (rx (c_io s))).
Proof.
  intros Hq Ha (all & rest & E & Hp & Hr). apply progress_forwarded in Hp as (fwd & Ef & _ & Hf).
  by rewrite Ef, E, (Hr Hq), (Hf Ha), app_nil_r.
Qed.

(** The whole run in a quiet environment. *)
Lemma handler_forwards s buf :
  length buf = PACKET_SIZE -> quiet (c_io s) -> accepting s ->
  wp (socketConnectionHandler buf) s
    (fun _ s' => forwarded s' = forwarded s ++ packets (stream (rx (c_io s))) /\ c_closed s' = true)
    (fun s' => forwarded s' = forwarded s ++ packets (stream (rx (c_io s)))).
Proof.
  intros Hb Hq Ha. apply wp_bind. eapply wp_mono; [by apply handler_loop_spec|cbv beta|].
  - intros why s' Hp. apply wp_bind, wp_modify, wp_ret. split; [|done]. by apply handler_post_exact in Hp.
  - intros s' Hp. by apply handler_post_exact.
Qed.

(** C1.  Reassembly: in a quiet environment that accepts every message, the
    handler forwards exactly the packets of the byte stream, in order and
    once each, however the bytes are divided into [recv] results; and it
    closes the socket when it returns. *)
Theorem handler_forwards_stream s buf :
  length buf = PACKET_SIZE -> quiet (c_io s) -> accepting s ->
  wp (socketConnectionHandler buf) s
    (fun _ s' => forwarded s' = forwarded s ++ packets (stream (rx (c_io s))) /\ c_closed s' = true)
    (fun s' => forwarded s' = forwarded s ++ packets (stream (rx (c_io s)))).
Proof. apply handler_forwards. Qed.

(** C29.  Whatever the environment does (failures of [recv] and [mq_send],
    signals, an early end of the stream), the handler neither hangs on its
    own nor forwards anything but complete, well-formed packets of the
    stream, in stream order. *)
Theorem handler_forwards_sublist s buf :
  length buf = PACKET_SIZE ->
  let among s' := exists fwd, forwarded s' = forwarded s ++ fwd /\
                    fwd `sublist_of` packets (stream (rx (c_io s))) in
  wp (socketConnectionHandler buf) s (fun _ s' => among s' /\ c_closed s' = true) among.
Proof.
  intros Hb among. apply wp_bind. eapply wp_mono; [by apply handler_loop_spec|cbv beta|].
  - intros why s' Hp. apply wp_bind, wp_modify, wp_ret. split; [|done]. by apply handler_post_sublist in Hp.
  - intros s' Hp. by apply handler_post_sublist.
Qed.

(** The shape of every packet of a stream. *)
Definition well_formed_packet (p : list Z) : Prop :=
  (PACKET_HEADER_FIELDS_SIZE <= length p <= PACKET_SIZE)%nat /\ byte_at p 0 = SYNC_BYTE /\
  Z.of_nat (length p) = Z.of_nat PACKET_HEADER_FIELDS_SIZE + or16 (byte_at p 4) (byte_at p 5).

Lemma byte_at_take n bs i : (i < n)%nat -> (n <= length bs)%nat -> byte_at (take n bs) i = byte_at bs i.
Proof.
  intros Hi Hn. rewrite <- (take_drop n bs) at 2. rewrite byte_at_app; [done|]. rewrite length_take. lia.
Qed.



(** ** Instances of the theorems *)

(** A connection on which a heartbeat arrives in two pieces, with a signal in
    between, and then a byte that is no header. *)
Definition example_conn : conn :=
  mk_conn (mk_io false [Arrives [0xAA; 0x2B; 0x34]; Interrupts 10; Arrives [0x12; 0; 0; 7]] [] []) [] [] false.

Lemma handler_forwards_stream_witness :
  wp (socketConnectionHandler (replicate PACKET_SIZE 0)) example_conn
    (fun _ s' => forwarded s' = [[0xAA; 0x2B; 0x34; 0x12; 0; 0]] /\ c_closed s' = true)
    (fun s' => forwarded s' = [[0xAA; 0x2B; 0x34; 0x12; 0; 0]]).
Proof.
  apply (handler_forwards_stream example_conn (replicate PACKET_SIZE 0)).
  - reflexivity.
  - split; [reflexivity|repeat constructor; discriminate].
  - constructor.
Defined.

Lemma handler_forwards_sublist_witness :
  let among s' := exists fwd, forwarded s' = [] ++ fwd /\ fwd `sublist_of` [[0xAA; 0x2B; 0x34; 0x12; 0; 0]] in
  wp (socketConnectionHandler (replicate PACKET_SIZE 0)) example_conn
    (fun _ s' => among s' /\ c_closed s' = true) among.
Proof. apply (handler_forwards_sublist example_conn (replicate PACKET_SIZE 0)). reflexivity. Defined.

