(* ===== verification/Processing.v ===== *)
(** src/processing_d.c: packets from the acquisition queue become frames, which
    go to the log queue (data frames) and to the telemetry queue (all). *)
From S2P Require Import Prelude Machine Proc CText Sense ProcessInit Posix Interfaces SenseUtils.
Local Open Scope Z_scope.

Definition PACKET_HEADER_FIELDS_SIZE : nat := 6.
Definition PACKET_DATA_FIELDS_SIZE : nat := 12.
Definition PACKET_SIZE : nat := PACKET_DATA_FIELDS_SIZE + PACKET_HEADER_FIELDS_SIZE.
Definition SYNC_FIELD : Z := 0xAA.
Definition MQ_PRIORITY : Z := 3.

(** ** Assignments to the fields of a frame *)

Definition set_type_id (ty i : Z) (f : Sensor_t) : Sensor_t :=
  {| data := data f; timestamp := timestamp f; last_seen_time := last_seen_time f; id := i;
     name := name f; type := ty; state := state f; frame_type := frame_type f |}.
Definition set_name (n : list Z) (f : Sensor_t) : Sensor_t :=
  {| data := data f; timestamp := timestamp f; last_seen_time := last_seen_time f; id := id f;
     name := n; type := type f; state := state f; frame_type := frame_type f |}.
Definition set_timestamp (t : timespec) (f : Sensor_t) : Sensor_t :=
  {| data := data f; timestamp := t; last_seen_time := last_seen_time f; id := id f;
     name := name f; type := type f; state := state f; frame_type := frame_type f |}.
Definition set_last_seen (t : timespec) (f : Sensor_t) : Sensor_t :=
  {| data := data f; timestamp := timestamp f; last_seen_time := t; id := id f;
     name := name f; type := type f; state := state f; frame_type := frame_type f |}.
Definition set_state (s : Z) (f : Sensor_t) : Sensor_t :=
  {| data := data f; timestamp := timestamp f; last_seen_time := last_seen_time f; id := id f;
     name := name f; type := type f; state := s; frame_type := frame_type f |}.
Definition set_frame_type (ft : Z) (f : Sensor_t) : Sensor_t :=
  {| data := data f; timestamp := timestamp f; last_seen_time := last_seen_time f; id := id f;
     name := name f; type := type f; state := state f; frame_type := ft |}.
Definition set_data (d : SensorData_u) (f : Sensor_t) : Sensor_t :=
  {| data := d; timestamp := timestamp f; last_seen_time := last_seen_time f; id := id f;
     name := name f; type := type f; state := state f; frame_type := frame_type f |}.

(** ** The operations *)

Definition buf_at (buffer : list Z) (i : nat) : Z := nth i buffer 0.

(** [generateFrame(buffer, frame, size)]: the value returned and the frame
    afterwards.  [now] and [mono] are the answers of [clock_gettime] for
    [CLOCK_REALTIME] and [CLOCK_MONOTONIC], [None] for -1. *)
Definition generateFrame (now mono : option timespec) (buffer : list Z) (frame : Sensor_t) (size : nat)
  : Z * Sensor_t :=
  if (size <? PACKET_HEADER_FIELDS_SIZE)%nat then (-1, frame) else
  if negb (buf_at buffer 0 =? SYNC_FIELD) then (-1, frame) else
  let ty := findSensorType (buf_at buffer 1) in
  if ty =? SENSOR_TYPE_UNSUPPORTED then (-1, frame) else
  let i := or16 (buf_at buffer 2) (buf_at buffer 3) in
  let len := or16 (buf_at buffer 4) (buf_at buffer 5) in
  if Z.of_nat PACKET_DATA_FIELDS_SIZE <? len then (-1, frame) else
  if negb (len + Z.of_nat PACKET_HEADER_FIELDS_SIZE =? Z.of_nat size) then (-1, frame) else
  let frame := set_type_id ty i frame in
  let frame := set_name (nameSensor (name frame) (id frame) (type frame)) frame in
  match now with
  | None => (-1, frame)
  | Some t =>
      let frame := set_timestamp t frame in
      match mono with
      | None => (-1, frame)
      | Some t =>
          let frame := set_last_seen t frame in
          let frame := set_state SENSOR_FRAME_DEFAULT frame in
          if len =? 0 then (0, set_frame_type SENSOR_HEARTBEAT frame) else
          let frame := set_frame_type SENSOR_DATA frame in
          let '(r, d) := recordSensorData (data frame) (drop PACKET_HEADER_FIELDS_SIZE buffer) len (type frame) in
          if r =? -1 then (-1, set_data d frame) else (0, set_data d frame)
      end
  end.

(** The two output queues. *)
Record queues := mk_queues { tx_log_mq : mqueue; tx_telemetry_mq : mqueue }.

(** [forwardFrame(frame)]; both queues were opened with [O_NONBLOCK]. *)
Definition forwardFrame (frame : Sensor_t) (q : queues) : Z * queues :=
  let to_telemetry q :=
    match mq_send_nb (tx_telemetry_mq q) (Sensor_bytes frame) MQ_PRIORITY with
    | Err _ => (-1, q)
    | Ok m => (0, {| tx_log_mq := tx_log_mq q; tx_telemetry_mq := m |})
    end in
  if frame_type frame =? SENSOR_DATA then
    match mq_send_nb (tx_log_mq q) (Sensor_bytes frame) MQ_PRIORITY with
    | Err _ => (-1, q)
    | Ok m => to_telemetry {| tx_log_mq := m; tx_telemetry_mq := tx_telemetry_mq q |}
    end
  else to_telemetry q.

(** [receivePacket(buffer)]: the value returned and the message received; the
    loop is the [goto mq_receive_retry]. *)
Definition receivePacket_body (_ : unit) : proc io (unit + Z * list Z) :=
  let! r := mq_receive in
  match r with
  | Err n =>
      if n =? EINTR then
        let! e := read_exitRQ in
        if e then ret (inr (-1, [])) else ret (inl tt)
      else ret (inr (-1, []))
  | Ok m =>
      if (length m <? PACKET_HEADER_FIELDS_SIZE)%nat then ret (inr (-1, m))
      else if (PACKET_SIZE <? length m)%nat then ret (inr (-1, m))
      else ret (inr (Z.of_nat (length m), m))
  end.

Definition receivePacket : proc io (Z * list Z) :=
  iterate (fun _ w => rx_size (rx w)) receivePacket_body tt.

(** State of the daemon: the acquisition queue with the signals, the answers
    of the two clocks for the successive frames, the output queues. *)
Record processing := mk_processing {
  p_io : io;
  p_clock : nat -> option timespec * option timespec;
  p_frames : nat;
  p_out : queues
}.

Definition set_p_io (w : io) (s : processing) : processing :=
  {| p_io := w; p_clock := p_clock s; p_frames := p_frames s; p_out := p_out s |}.
Definition on_p_io {A} (c : proc io A) : proc processing A := lift p_io set_p_io c.

(** A packet in the buffer: generate the frame, forward it. *)
Definition processPacket (buffer : list Z) (size : nat) : proc processing unit := fun s =>
  let '(now, mono) := p_clock s (p_frames s) in
  let '(r, frame) := generateFrame now mono buffer zero_sensor size in
  let s1 := {| p_io := p_io s; p_clock := p_clock s; p_frames := S (p_frames s); p_out := p_out s |} in
  if r =? -1 then Done tt s1
  else let '(_, q) := forwardFrame frame (p_out s1) in
       Done tt {| p_io := p_io s1; p_clock := p_clock s1; p_frames := p_frames s1; p_out := q |}.

(** The loop of [main]. *)
Definition main_body (_ : unit) : proc processing (unit + unit) :=
  let! e := on_p_io read_exitRQ in
  if e then ret (inr tt) else
  let! (packet_size, buffer) := on_p_io receivePacket in
  if packet_size =? -1 then
    let! e := on_p_io read_exitRQ in
    if e then ret (inr tt) else ret (inl tt)
  else processPacket buffer (Z.to_nat packet_size) ;! ret (inl tt).

Definition main_loop : proc processing unit :=
  iterate (fun _ s => rx_size (rx (p_io s))) main_body tt.

(** ** Facts about [generateFrame] *)

(** The packets that become frames. *)
Definition valid_packet (buffer : list Z) (size : nat) : Prop :=
  let len := or16 (buf_at buffer 4) (buf_at buffer 5) in
  (PACKET_HEADER_FIELDS_SIZE <= size)%nat /\ buf_at buffer 0 = SYNC_FIELD /\
  supported (buf_at buffer 1) = true /\ Z.of_nat size = len + Z.of_nat PACKET_HEADER_FIELDS_SIZE /\
  (len = 0 \/ len = data_size (buf_at buffer 1)).

#[export] Instance valid_packet_dec buffer size : Decision (valid_packet buffer size).
Proof. unfold valid_packet. apply _. Defined.

(** The frame of a valid packet. *)
Definition frame_of (now mono : timespec) (buffer : list Z) (size : nat) : Sensor_t :=
  let ty := buf_at buffer 1 in
  let i := or16 (buf_at buffer 2) (buf_at buffer 3) in
  let payload := take (size - PACKET_HEADER_FIELDS_SIZE) (drop PACKET_HEADER_FIELDS_SIZE buffer) in
  {| data := splice (replicate sizeof_SensorData 0) 0 payload;
     timestamp := now; last_seen_time := mono; id := i;
     name := nameSensor (replicate SENSOR_NAME_SIZE 0) i ty; type := ty;
     state := SENSOR_FRAME_DEFAULT;
     frame_type := if (size =? PACKET_HEADER_FIELDS_SIZE)%nat then SENSOR_HEARTBEAT else SENSOR_DATA |}.

Lemma data_size_range t : 4 <= data_size t <= 12.
Proof. unfold data_size. repeat case_match; lia. Qed.

Lemma or16_bounds a b : 0 <= or16 a b < 2 ^ 16.
Proof. apply (uint_range 16). lia. Qed.

Lemma buf_at_byte buffer i : bytes_ok buffer -> is_byte (buf_at buffer i).
Proof.
  intros H. unfold buf_at. revert i. induction H; intros [|i]; simpl; auto; unfold is_byte; lia.
Qed.

(** The outcome when both clocks answer. *)
Lemma generateFrame_decides now mono buffer size :
  bytes_ok buffer -> (size <= length buffer)%nat ->
  let '(r, frame) := generateFrame (Some now) (Some mono) buffer zero_sensor size in
  (valid_packet buffer size -> r = 0 /\ frame = frame_of now mono buffer size) /\
  (~ valid_packet buffer size -> r = -1).
Proof.
  intros Hb Hs. unfold generateFrame, valid_packet.
  set (len := or16 (buf_at buffer 4) (buf_at buffer 5)).
  pose proof (or16_bounds (buf_at buffer 4) (buf_at buffer 5)) as Hlen. fold len in Hlen.
  destruct (Nat.ltb_spec size PACKET_HEADER_FIELDS_SIZE) as [?|H6]; [split; [lia|done]|].
  destruct (Z.eqb_spec (buf_at buffer 0) SYNC_FIELD) as [H0|?]; simpl negb; cbv iota; [|split; [tauto|done]].
  rewrite findSensorType_supported. destruct (supported (buf_at buffer 1)) eqn:Hsup; [|split; [by intros (_ & _ & ? & _)|done]].
  destruct (Z.eqb_spec (buf_at buffer 1) SENSOR_TYPE_UNSUPPORTED) as [E|_]; [by rewrite E in Hsup|].
  pose proof (data_size_range (buf_at buffer 1)) as Hds.
  destruct (Z.ltb_spec (Z.of_nat PACKET_DATA_FIELDS_SIZE) len) as [Hl|Hl];
    [unfold PACKET_DATA_FIELDS_SIZE in Hl; split; [lia|done]|].
  destruct (Z.eqb_spec (len + Z.of_nat PACKET_HEADER_FIELDS_SIZE) (Z.of_nat size)) as [Hsz|?];
    simpl negb; cbv iota; [|split; [lia|done]].
  destruct (Z.eqb_spec len 0) as [El|Hnz].
  - split; [|intros Hn; exfalso; apply Hn; repeat split; auto; lia]. intros _. split; [done|].
    assert (size = PACKET_HEADER_FIELDS_SIZE) as -> by lia. reflexivity.
  - cbn [data type set_frame_type set_state set_last_seen set_timestamp set_name set_type_id zero_sensor].
    rewrite recordSensorData_copies by
      (first [done|by apply Forall_drop|rewrite length_drop; lia]).
    rewrite Hsup. simpl andb. destruct (Z.eqb_spec len (data_size (buf_at buffer 1))) as [Ed|?]; simpl.
    + split; [|intros Hn; exfalso; apply Hn; repeat split; auto; lia]. intros _. split; [done|].
      unfold set_data, frame_of. simpl. destruct (Nat.eqb_spec size PACKET_HEADER_FIELDS_SIZE); [lia|].
      f_equal. f_equal. f_equal. lia.
    + split; [lia|done].
Qed.

Lemma generateFrame_valid now mono buffer size :
  bytes_ok buffer -> (size <= length buffer)%nat -> valid_packet buffer size ->
  generateFrame (Some now) (Some mono) buffer zero_sensor size = (0, frame_of now mono buffer size).
Proof.
  intros Hb Hs Hv. pose proof (generateFrame_decides now mono buffer size Hb Hs) as H.
  destruct (generateFrame _ _ _ _ _). by destruct (proj1 H Hv) as [-> ->].
Qed.

(** A failing clock rejects the packet. *)
Lemma generateFrame_no_clock now mono buffer frame size :
  now = None \/ mono = None -> fst (generateFrame now mono buffer frame size) = -1.
Proof.
  unfold generateFrame. intros [-> | ->]; repeat case_match; done.
Qed.

(** C19.  [generateFrame], every branch: when both clocks answer it accepts exactly
    the valid packets (header complete, sync byte, known type, length field
    equal to the received size, payload empty or of the size of its type), and
    the frame is [frame_of]: the payload bytes, both clocks, the id, the type
    and the name, a heartbeat when there is no payload; every other packet,
    and every packet when a clock fails, gives -1. *)
Theorem generateFrame_spec now mono buffer size :
  bytes_ok buffer -> (size <= length buffer)%nat ->
  let '(r, frame) := generateFrame now mono buffer zero_sensor size in
  match now, mono with
  | Some now, Some mono =>
      if decide (valid_packet buffer size) then r = 0 /\ frame = frame_of now mono buffer size else r = -1
  | _, _ => r = -1
  end.
Proof.
  intros Hb Hs. destruct now as [now|], mono as [mono|].
  - pose proof (generateFrame_decides now mono buffer size Hb Hs) as H. destruct (generateFrame _ _ _ _ _).
    destruct (decide _); tauto.
  - pose proof (generateFrame_no_clock (Some now) None buffer zero_sensor size) as H.
    destruct (generateFrame _ _ _ _ _). auto.
  - pose proof (generateFrame_no_clock None (Some mono) buffer zero_sensor size) as H.
    destruct (generateFrame _ _ _ _ _). auto.
  - pose proof (generateFrame_no_clock None None buffer zero_sensor size) as H.
    destruct (generateFrame _ _ _ _ _). auto.
Qed.

Lemma wf_frame_of now mono buffer size :
  bytes_ok buffer -> (size <= length buffer)%nat -> valid_packet buffer size ->
  i64_ok (tv_sec now) -> i64_ok (tv_nsec now) -> i64_ok (tv_sec mono) -> i64_ok (tv_nsec mono) ->
  wf_sensor (frame_of now mono buffer size).
Proof.
  intros Hb Hs (H6 & _ & _ & Hsz & Hl) Hn1 Hn2 Hm1 Hm2.
  pose proof (data_size_range (buf_at buffer 1)). unfold PACKET_HEADER_FIELDS_SIZE in *.
  pose proof (buf_at_byte buffer 1 Hb) as H1. unfold is_byte in H1.
  pose proof (or16_bounds (buf_at buffer 2) (buf_at buffer 3)) as Hid.
  split; cbn [frame_of data timestamp last_seen_time id name type state frame_type]; try done; try lia.
  - split.
    + rewrite length_splice; [done|]. rewrite length_take, length_drop, length_replicate.
      unfold sizeof_SensorData, PACKET_HEADER_FIELDS_SIZE. lia.
    + unfold splice. simpl. apply Forall_app; split; [auto using Forall_take, Forall_drop|].
      apply Forall_drop. repeat constructor; unfold is_byte; lia.
  - apply nameSensor_wf; [done|repeat constructor; unfold is_byte; lia|done].
  - unfold SENSOR_HEARTBEAT, SENSOR_DATA. case_match; lia.
Qed.

(** ** Facts about the queues *)

(** An output queue as [ipc_init] creates it and as the daemon fills it. *)
Record mq_ok (q : mqueue) : Prop := {
  ok_size : (sizeof_Sensor_t <= mq_msgsize q)%nat;
  ok_bound : (length (mq_msgs q) <= mq_maxmsg q)%nat;
  ok_prio : Forall (fun x => MQ_PRIORITY <= x.1) (mq_msgs q)
}.

(** The message of a frame, and a queue with messages appended. *)
Definition frame_msg (f : Sensor_t) : Z * list Z := (MQ_PRIORITY, Sensor_bytes f).
Definition push (fs : list Sensor_t) (q : mqueue) : mqueue := set_msgs (mq_msgs q ++ map frame_msg fs) q.

Lemma push_nil q : push [] q = q.
Proof. unfold push. simpl. rewrite app_nil_r. by destruct q. Qed.

Lemma push_app a b q : push b (push a q) = push (a ++ b) q.
Proof. unfold push. simpl. by rewrite map_app, app_assoc. Qed.

Lemma mq_send_frame f q :
  wf_sensor f -> mq_ok q ->
  mq_send_nb q (Sensor_bytes f) MQ_PRIORITY = if mq_full q then Err EAGAIN else Ok (push [f] q).
Proof.
  intros Hf [Hs _ Hp]. unfold mq_send_nb. rewrite length_Sensor_bytes by done.
  destruct (Nat.ltb_spec (mq_msgsize q) sizeof_Sensor_t); [lia|].
  destruct (mq_full q); [done|]. by rewrite mq_insert_fifo.
Qed.

Lemma mq_ok_push f q : mq_ok q -> mq_full q = false -> mq_ok (push [f] q).
Proof.
  intros [Hs Hb Hp] Hf. unfold mq_full in Hf. apply Nat.leb_gt in Hf. split; simpl; [done| |].
  - rewrite length_app. simpl. lia.
  - apply Forall_app. split; [done|]. apply Forall_singleton. simpl. lia.
Qed.

(** [forwardFrame] when frame and queues are well formed. *)
Lemma forwardFrame_result f q :
  wf_sensor f -> mq_ok (tx_log_mq q) -> mq_ok (tx_telemetry_mq q) ->
  let is_data := frame_type f =? SENSOR_DATA in
  let log_full := mq_full (tx_log_mq q) in
  let tel_full := mq_full (tx_telemetry_mq q) in
  let log' := if is_data && negb log_full then push [f] (tx_log_mq q) else tx_log_mq q in
  let blocked := is_data && log_full || tel_full in
  let tel' := if blocked then tx_telemetry_mq q else push [f] (tx_telemetry_mq q) in
  forwardFrame f q = ((if blocked then -1 else 0), mk_queues log' tel') /\ mq_ok log' /\ mq_ok tel'.
Proof.
  intros Hf Hl Ht. destruct q as [l t]. unfold forwardFrame. simpl in *.
  rewrite !mq_send_frame by done.
  destruct (frame_type f =? SENSOR_DATA), (mq_full l) eqn:El, (mq_full t) eqn:Et; simpl;
    rewrite ?mq_send_frame, ?Et by done; auto using mq_ok_push.
Qed.

(** C27.  [forwardFrame], every branch: a heartbeat goes to the telemetry queue
    only; a data frame goes to the log queue and then to the telemetry queue;
    a full queue drops the frame from that queue on (a full log queue also
    keeps it from telemetry); queues stay within their bounds and first in,
    first out, and what a receiver decodes is the frame. *)
Theorem forwardFrame_spec f q :
  wf_sensor f -> mq_ok (tx_log_mq q) -> mq_ok (tx_telemetry_mq q) ->
  let is_data := frame_type f =? SENSOR_DATA in
  let log_full := mq_full (tx_log_mq q) in
  let tel_full := mq_full (tx_telemetry_mq q) in
  let log' := if is_data && negb log_full then push [f] (tx_log_mq q) else tx_log_mq q in
  let blocked := is_data && log_full || tel_full in
  let tel' := if blocked then tx_telemetry_mq q else push [f] (tx_telemetry_mq q) in
  forwardFrame f q = ((if blocked then -1 else 0), mk_queues log' tel') /\ mq_ok log' /\ mq_ok tel' /\
  Sensor_of_bytes (frame_msg f).2 = f.
Proof.
  intros Hf Hl Ht is_data log_full tel_full log' blocked tel'.
  destruct (forwardFrame_result f q Hf Hl Ht) as (E & H1 & H2). split; [exact E|]. split; [exact H1|].
  split; [exact H2|]. by apply Sensor_of_Sensor_bytes.
Qed.

(** ** The main loop *)

(** What becomes of the messages of the acquisition queue, from the [n]-th
    clock answers on: the frames generated, and the next answers to use. *)
Fixpoint run_packets (clock : nat -> option timespec * option timespec) (n : nat) (msgs : list (list Z))
  : list Sensor_t * nat :=
  match msgs with
  | [] => ([], n)
  | m :: msgs =>
      if (length m <? PACKET_HEADER_FIELDS_SIZE)%nat || (PACKET_SIZE <? length m)%nat
      then run_packets clock n msgs
      else let '(r, f) := generateFrame (clock n).1 (clock n).2 m zero_sensor (length m) in
           let '(fs, n') := run_packets clock (S n) msgs in
           (if r =? -1 then fs else f :: fs, n')
  end.

Lemma run_packets_snoc clock n msgs m :
  run_packets clock n (msgs ++ [m]) =
  let '(fs, n1) := run_packets clock n msgs in
  let '(fs', n2) := run_packets clock n1 [m] in (fs ++ fs', n2).
Proof.
  revert n. induction msgs as [|x msgs IH]; intros n; simpl app.
  - cbn [run_packets]. by repeat case_match.
  - cbn [run_packets]. destruct (_ || _); [apply IH|].
    destruct (generateFrame _ _ x zero_sensor _) as [r f]. rewrite IH.
    destruct (run_packets clock (S n) msgs) as [fs n1]. cbn [run_packets].
    repeat case_match; simplify_eq; done.
Qed.

Definition is_data (f : Sensor_t) : bool := frame_type f =? SENSOR_DATA.
Definition data_frames (fs : list Sensor_t) : list Sensor_t := List.filter is_data fs.

(** Room for [k] more messages in both output queues. *)
Definition room (q : queues) (k : nat) : Prop :=
  (length (mq_msgs (tx_log_mq q)) + k <= mq_maxmsg (tx_log_mq q))%nat /\
  (length (mq_msgs (tx_telemetry_mq q)) + k <= mq_maxmsg (tx_telemetry_mq q))%nat.

(** The output queues after the frames [fs] of [k] packets: part of them, in
    order, all of them when there was room. *)
Definition emitted (q q' : queues) (k : nat) (fs : list Sensor_t) : Prop :=
  mq_ok (tx_log_mq q') /\ mq_ok (tx_telemetry_mq q') /\
  exists l t, tx_log_mq q' = push l (tx_log_mq q) /\ tx_telemetry_mq q' = push t (tx_telemetry_mq q) /\
    l `sublist_of` data_frames fs /\ t `sublist_of` fs /\ (length fs <= k)%nat /\
    (room q k -> l = data_frames fs /\ t = fs).

Lemma emitted_step q q1 k fs f :
  emitted q q1 k fs -> wf_sensor f -> emitted q (snd (forwardFrame f q1)) (S k) (fs ++ [f]).
Proof.
  intros (Hl & Ht & l & t & El & Et & Sl & St & Hk & Hr) Hf.
  destruct (forwardFrame_result f q1 Hf Hl Ht) as (E & Hl' & Ht'). rewrite E. simpl.
  split; [done|]. split; [done|].
  assert (Ed : data_frames (fs ++ [f]) = data_frames fs ++ (if is_data f then [f] else [])).
  { unfold data_frames. rewrite List.filter_app. simpl. by destruct (is_data f). }
  set (pl := is_data f && negb (mq_full (tx_log_mq q1))).
  set (bl := is_data f && mq_full (tx_log_mq q1) || mq_full (tx_telemetry_mq q1)).
  exists (l ++ if pl then [f] else []), (t ++ if bl then [] else [f]). unfold is_data in *.
  split; [|split; [|split; [|split; [|split]]]].
  - fold pl. rewrite El, <- push_app. destruct pl; [done|]. by rewrite push_nil.
  - fold bl. rewrite Et, <- push_app. destruct bl; [|done]. by rewrite push_nil.
  - rewrite Ed. apply sublist_app; [done|]. subst pl.
    destruct (frame_type f =? SENSOR_DATA); simpl; [|done]. destruct (negb _); [done|apply sublist_nil_l].
  - apply sublist_app; [done|]. destruct bl; [apply sublist_nil_l|done].
  - rewrite length_app. simpl. lia.
  - intros [R1 R2]. destruct Hr as [-> ->]; [split; lia|].
    assert (Hlen : (length (data_frames fs) <= length fs)%nat) by apply List.filter_length_le.
    assert (F1 : mq_full (tx_log_mq q1) = false).
    { unfold mq_full. rewrite El. apply Nat.leb_gt. simpl. rewrite length_app, length_map. lia. }
    assert (F2 : mq_full (tx_telemetry_mq q1) = false).
    { unfold mq_full. rewrite Et. apply Nat.leb_gt. simpl. rewrite length_app, length_map. lia. }
    subst pl bl. rewrite F1, F2, Ed. simpl. rewrite andb_true_r, andb_false_r. done.
Qed.

(** The answers of the clocks are objects of type [struct timespec]. *)
Definition clock_ok (clock : nat -> option timespec * option timespec) : Prop :=
  forall n t, (clock n).1 = Some t \/ (clock n).2 = Some t -> i64_ok (tv_sec t) /\ i64_ok (tv_nsec t).

Lemma generateFrame_wf clock n m f :
  clock_ok clock -> bytes_ok m ->
  generateFrame (clock n).1 (clock n).2 m zero_sensor (length m) = (0, f) -> wf_sensor f.
Proof.
  intros Hc Hm E. specialize (Hc n). destruct (clock n) as [[now|] [mono|]]; simpl in *.
  2-4: by assert (H := f_equal fst E); rewrite generateFrame_no_clock in H by auto.
  destruct (Hc now) as [? ?]; [auto|]. destruct (Hc mono) as [? ?]; [auto|].
  pose proof (generateFrame_decides now mono m (length m) Hm ltac:(done)) as Hs. rewrite E in Hs.
  destruct (decide (valid_packet m (length m))) as [Hv|Hv].
  - destruct Hs as [[_ ->] _]; [done|]. by apply wf_frame_of.
  - by destruct Hs as [_ Hs]; specialize (Hs Hv).
Qed.

Lemma generateFrame_ret now mono b f n : fst (generateFrame now mono b f n) = 0 \/ fst (generateFrame now mono b f n) = -1.
Proof. unfold generateFrame. repeat case_match; auto. Qed.

Definition bad_size (m : list Z) : bool :=
  (length m <? PACKET_HEADER_FIELDS_SIZE)%nat || (PACKET_SIZE <? length m)%nat.

Lemma receivePacket_spec w (Q : Z * list Z -> io -> Prop) (W : io -> Prop) :
  (forall m w', bad_size m = false -> drawn w [m] w' -> (rx_size (rx w') < rx_size (rx w))%nat ->
     Q (Z.of_nat (length m), m) w') ->
  (forall m w', bad_size m = true -> drawn w [m] w' -> (rx_size (rx w') < rx_size (rx w))%nat -> Q (-1, m) w') ->
  (forall w', ~ quiet w -> drawn w [] w' -> (rx_size (rx w') < rx_size (rx w))%nat -> Q (-1, []) w') ->
  (forall w', messages (rx w) = [] -> W w') ->
  wp receivePacket w Q W.
Proof.
  intros H1 H2 H3 H4. unfold receivePacket.
  apply wp_iterate with (I := fun _ w' => drawn w [] w'); [apply drawn_refl|].
  intros [] w1 Hd. assert (Hd' := Hd). destruct Hd as (e & evs & -> & Hm & Hs & Hq). simpl in Hm.
  unfold receivePacket_body. apply wp_bind, mq_receive_spec; cbn [rx set_rx].
  - intros m e' evs' Hm' Hs' Hq'.
    assert (Hdr : drawn w [m] (set_rx e' evs' (set_rx e evs w))).
    { exists e', evs'. split; [done|]. split; [by rewrite Hm|]. split; [lia|auto]. }
    destruct (bad_size m) eqn:Hb; unfold bad_size in Hb.
    + destruct (Nat.ltb_spec (length m) PACKET_HEADER_FIELDS_SIZE) as [Hl|Hl].
      * apply wp_ret. apply H2; [|done|simpl; lia]. unfold bad_size. apply Nat.ltb_lt in Hl. by rewrite Hl.
      * simpl in Hb. rewrite Hb. apply wp_ret. apply H2; [|done|simpl; lia]. unfold bad_size. by rewrite Hb, orb_true_r.
    + apply orb_false_iff in Hb as Hb'. destruct Hb' as [-> ->]. apply wp_ret. apply H1; [done|done|simpl; lia].
  - intros n e' evs' Hm' Hs' Hq'. destruct (Z.eqb_spec n EINTR).
    + apply wp_bind, wp_read_exitRQ_mq. cbn [rx set_rx]. intros e2 evs2 Hm2 Hs2 Hq2.
      assert (Hdr : drawn w [] (set_rx e2 evs2 (set_rx e' evs' (set_rx e evs w)))).
      { exists e2, evs2. split; [done|]. split; [simpl; congruence|]. split; [lia|]. intros Hqw. by apply Hq2, Hq', Hq. }
      destruct e2; apply wp_ret.
      * apply H3; [|done|simpl; lia]. intros Hqw. by destruct (Hq2 (proj2 (Hq' (Hq Hqw)))).
      * split; [done|simpl; lia].
    + apply wp_ret. apply H3; [|exists e', evs'|simpl; lia].
      * intros Hqw. by destruct (Hq' (Hq Hqw)).
      * split; [done|]. split; [simpl; congruence|]. split; [lia|]. intros Hqw. by apply Hq', Hq.
  - intros e' Hm'. apply H4. congruence.
Qed.

(** The daemon since [s]: the packets [ms] have been processed. *)
Definition processed (s : processing) (ms : list (list Z)) (s' : processing) : Prop :=
  p_clock s' = p_clock s /\
  exists fs, run_packets (p_clock s) (p_frames s) ms = (fs, p_frames s') /\
    emitted (p_out s) (p_out s') (length ms) fs.

Lemma emitted_more q q' k fs : emitted q q' k fs -> emitted q q' (S k) fs.
Proof.
  intros (Hl & Ht & l & t & El & Et & Sl & St & Hk & Hr). split; [done|]. split; [done|].
  exists l, t. do 4 (split; [done|]). split; [lia|]. intros [? ?]. apply Hr. split; lia.
Qed.

Lemma processed_bad s ms s' m w :
  processed s ms s' -> bad_size m = true -> processed s (ms ++ [m]) (set_p_io w s').
Proof.
  intros (Hc & fs & Hr & He) Hb. split; [done|]. exists fs.
  rewrite run_packets_snoc, Hr. cbn [run_packets]. unfold bad_size in Hb. rewrite Hb, app_nil_r.
  split; [done|]. rewrite length_app, Nat.add_1_r. by apply emitted_more.
Qed.

Lemma processed_packet s ms s' m w (Q : unit -> processing -> Prop) W :
  clock_ok (p_clock s) -> bytes_ok m ->
  processed s ms s' -> bad_size m = false ->
  (forall s'', processed s (ms ++ [m]) s'' -> p_io s'' = w -> Q tt s'') ->
  wp (processPacket m (length m)) (set_p_io w s') Q W.
Proof.
  intros Hck Hm (Hc & fs & Hr & He) Hb HQ. unfold wp, processPacket. cbn [p_clock p_frames p_out set_p_io p_io].
  rewrite Hc. pose proof (generateFrame_wf (p_clock s) (p_frames s') m) as Hwf.
  pose proof (generateFrame_ret (p_clock s (p_frames s')).1 (p_clock s (p_frames s')).2 m zero_sensor (length m)) as Hret.
  assert (Hsn : forall r f, generateFrame (p_clock s (p_frames s')).1 (p_clock s (p_frames s')).2 m zero_sensor (length m) = (r, f) ->
    run_packets (p_clock s) (p_frames s) (ms ++ [m]) = (fs ++ (if r =? -1 then [] else [f]), S (p_frames s'))).
  { intros r f E. rewrite run_packets_snoc, Hr. cbn [run_packets]. unfold bad_size in Hb. rewrite Hb, E. done. }
  destruct (p_clock s (p_frames s')) as [now mono]. simpl in *.
  destruct (generateFrame now mono m zero_sensor (length m)) as [r f]. specialize (Hsn r f eq_refl).
  assert (Hk : length (ms ++ [m]) = S (length ms)) by (rewrite length_app; simpl; lia).
  destruct (Z.eqb_spec r (-1)) as [->|Hne].
  - apply HQ; [|done]. split; [done|]. exists (fs ++ []). split; [done|]. rewrite Hk, app_nil_r.
    by apply emitted_more.
  - destruct (forwardFrame f (p_out s')) as [r' q'] eqn:Ef. apply HQ; [|done]. split; [done|].
    exists (fs ++ [f]). split; [done|]. rewrite Hk. simpl.
    replace q' with (snd (forwardFrame f (p_out s'))) by (by rewrite Ef).
    apply emitted_step; [done|]. apply Hwf; [done|done|]. by destruct Hret as [Hz|Hz]; simpl in Hz; subst r.
Qed.

Definition loop_inv (s : processing) (_ : unit) (s' : processing) : Prop :=
  exists ms, processed s ms s' /\ drawn (p_io s) ms (p_io s').

Definition loop_post (s s' : processing) : Prop :=
  exists ms rest, messages (rx (p_io s)) = ms ++ rest /\ processed s ms s' /\ (quiet (p_io s) -> rest = []).

Lemma loop_stop s s' w :
  loop_inv s tt s' -> ~ quiet (p_io s') \/ messages (rx (p_io s')) = [] -> loop_post s (set_p_io w s').
Proof.
  intros (ms & Hp & e & evs & E & Hm & _ & Hq) Hc. exists ms, (messages evs).
  split; [done|]. split; [done|]. rewrite E in *. simpl in *. naive_solver.
Qed.

Lemma main_body_spec s s' :
  clock_ok (p_clock s) -> Forall bytes_ok (messages (rx (p_io s))) -> loop_inv s tt s' ->
  wp (main_body tt) s'
    (fun r s'' => match r with
       | inl l => loop_inv s l s'' /\ (rx_size (rx (p_io s'')) < rx_size (rx (p_io s')))%nat
       | inr _ => loop_post s s'' end) (loop_post s).
Proof.
  intros Hck Hbs HI. unfold main_body. apply wp_bind, wp_lift, wp_read_exitRQ_mq.
  intros e evs Hm Hs Hq. destruct e.
  { apply wp_ret. apply loop_stop; [done|]. left. intros Hqs. by destruct (Hq Hqs). }
  set (w0 := set_rx false evs (p_io s')) in *.
  assert (Hd0 : drawn (p_io s') [] w0).
  { exists false, evs. split; [done|]. split; [done|]. split; [done|]. intros ?. by apply Hq. }
  destruct HI as (ms & Hp & Hd). pose proof (drawn_trans _ _ _ _ _ Hd Hd0) as Hd1. rewrite app_nil_r in Hd1.
  assert (HI : forall ms' w, drawn w0 ms' w -> drawn (p_io s) (ms ++ ms') w).
  { intros ms' w Hw. by apply (drawn_trans _ _ w0). }
  apply wp_bind, wp_lift. cbn [p_io set_p_io]. apply receivePacket_spec.
  - intros m w Hb Hw Hlt. destruct (Z.eqb_spec (Z.of_nat (length m)) (-1)); [lia|]. rewrite Nat2Z.id.
    apply wp_bind. change (set_p_io w (set_p_io w0 s')) with (set_p_io w s').
    eapply processed_packet; [done| |done|done|].
    + apply (drawn_head w0 m w Hw). by apply (drawn_bytes _ _ _ Hd1).
    + intros s'' Hp'' Hio. apply wp_ret. rewrite Hio. split; [|simpl in *; lia]. exists (ms ++ [m]).
      split; [done|]. rewrite Hio. by apply HI.
  - intros m w Hb Hw Hlt. simpl Z.eqb. cbv iota. apply wp_bind, wp_lift, wp_read_exitRQ_mq.
    intros e evs' Hm' Hs' Hq'. simpl in Hm', Hs', Hq'. cbn [p_io set_p_io].
    assert (Hd2 : drawn w [] (set_rx e evs' w)).
    { exists e, evs'. split; [done|]. split; [done|]. split; [done|]. intros ?. by apply Hq'. }
    assert (HI' : loop_inv s tt (set_p_io w s')).
    { exists (ms ++ [m]). split; [by apply processed_bad|]. by apply HI. }
    destruct e; apply wp_ret.
    + apply (loop_stop s (set_p_io w s')); [done|]. left. intros Hqs. by destruct (Hq' Hqs).
    + split; [|simpl in *; lia]. exists (ms ++ [m]). split; [by apply processed_bad|].
      simpl. replace (ms ++ [m]) with ((ms ++ [m]) ++ []) by apply app_nil_r.
      apply (drawn_trans _ _ w); [by apply HI|done].
  - intros w Hnq Hw Hlt. simpl Z.eqb. cbv iota. apply wp_bind, wp_lift, wp_read_exitRQ_mq.
    intros e evs' Hm' Hs' Hq'. simpl in Hm', Hs', Hq'. cbn [p_io set_p_io].
    destruct e; apply wp_ret.
    + apply (loop_stop s (set_p_io w0 s')); [by exists ms|by left].
    + split; [|simpl in *; lia]. exists ms. split; [done|]. simpl.
      rewrite <- (app_nil_r ms). apply (drawn_trans _ _ w0); [done|]. rewrite <- (app_nil_r []).
      apply (drawn_trans _ _ w); [done|]. exists false, evs'. split; [done|]. split; [done|]. split; [done|].
      intros ?. by apply Hq'.
  - intros w Hm'. apply (loop_stop s (set_p_io w0 s')); [by exists ms|by right].
Qed.

Lemma main_loop_spec s :
  clock_ok (p_clock s) -> Forall bytes_ok (messages (rx (p_io s))) ->
  mq_ok (tx_log_mq (p_out s)) -> mq_ok (tx_telemetry_mq (p_out s)) ->
  wp main_loop s (fun _ => loop_post s) (loop_post s).
Proof.
  intros Hck Hbs Hl Ht. apply wp_iterate with (I := loop_inv s); [|intros [] s' HI; by apply main_body_spec].
  exists []. split; [|apply drawn_refl]. split; [done|]. exists []. split; [done|].
  split; [done|]. split; [done|]. exists [], []. rewrite !push_nil. by repeat split.
Qed.

(** C11.  The processing daemon: it takes messages in order, and the output
    queues receive, in order and without duplicates, frames of the valid
    packets only, the log queue the data frames; in a quiet environment every
    message is processed, and while there is room no frame is lost.  The loop
    comes to an end or waits for a message. *)
Theorem processing_main s :
  clock_ok (p_clock s) -> Forall bytes_ok (messages (rx (p_io s))) ->
  mq_ok (tx_log_mq (p_out s)) -> mq_ok (tx_telemetry_mq (p_out s)) ->
  wp main_loop s (fun _ => loop_post s) (loop_post s).
Proof. apply main_loop_spec. Qed.

(** ** Instances of the theorems *)

Definition example_packet : list Z := [0xAA; 0x4B; 0x34; 0x12; 4; 0; 1; 2; 3; 4].
Definition example_time : timespec := {| tv_sec := 1700000000; tv_nsec := 42 |}.
Definition example_queue : mqueue := mk_mq 10 80 [].

Lemma example_valid : valid_packet example_packet 10.
Proof.
  split; [unfold PACKET_HEADER_FIELDS_SIZE; lia|].
  split; [reflexivity|]. split; [reflexivity|]. split; [reflexivity|]. right. reflexivity.
Qed.

Lemma generateFrame_spec_witness :
  generateFrame (Some example_time) (Some example_time) example_packet zero_sensor 10 =
    (0, frame_of example_time example_time example_packet 10).
Proof.
  pose proof (generateFrame_spec (Some example_time) (Some example_time) example_packet 10) as H.
  destruct (generateFrame _ _ _ _ _) as [r f].
  rewrite decide_True in H by apply example_valid. destruct H as [-> ->].
  - repeat constructor; unfold is_byte; lia.
  - simpl. lia.
  - reflexivity.
Defined.

Lemma example_wf : wf_sensor (frame_of example_time example_time example_packet 10).
Proof.
  apply wf_frame_of; unfold i64_ok, INT64_MIN, INT64_MAX; simpl; try lia.
  - repeat constructor; unfold is_byte; lia.
  - apply example_valid.
Qed.

Lemma forwardFrame_spec_witness :
  let f := frame_of example_time example_time example_packet 10 in
  forwardFrame f (mk_queues example_queue example_queue) =
    (0, mk_queues (push [f] example_queue) (push [f] example_queue)) /\
  mq_ok (push [f] example_queue) /\ mq_ok (push [f] example_queue) /\
  Sensor_of_bytes (frame_msg f).2 = f.
Proof.
  apply (forwardFrame_spec (frame_of example_time example_time example_packet 10)
           (mk_queues example_queue example_queue)).
  - apply example_wf.
  - split; simpl; [unfold sizeof_Sensor_t; lia|lia|constructor].
  - split; simpl; [unfold sizeof_Sensor_t; lia|lia|constructor].
Defined.

Definition example_daemon : processing :=
  mk_processing (mk_io false [Arrives [1; 2]; Arrives example_packet; Signals SIGTERM] [] [])
    (fun _ => (Some example_time, Some example_time)) 0 (mk_queues example_queue example_queue).

Lemma processing_main_witness :
  wp main_loop example_daemon (fun _ => loop_post example_daemon) (loop_post example_daemon).
Proof.
  apply (processing_main example_daemon).
  - intros n t [E|E]; injection E as <-; split; unfold i64_ok, INT64_MIN, INT64_MAX; simpl; lia.
  - repeat constructor; unfold is_byte; lia.
  - split; simpl; [unfold sizeof_Sensor_t; lia|lia|constructor].
  - split; simpl; [unfold sizeof_Sensor_t; lia|lia|constructor].
Defined.
