(* ===== verification/Registry.v ===== *)
(** src/telemetry_d.c, the sensor registry: its growth, the update by the main
    loop, the watchdog's sweep and the snapshots the replies are made from.

    Memory comes from [malloc] and [realloc]: the slots of the array beyond
    those in use hold whatever the allocator left there ([garbage]), and an
    access outside the array is an outcome of its own. *)
From S2P Require Import Prelude Machine CFloat Sense SenseUtils.
Local Open Scope Z_scope.

Definition sensor_allocation_count : nat := 16.
Definition limit : nat := Z.to_nat SENSORS_LIMIT_MAX.
Definition sensor_activity_time : Z := SENSOR_INACTIVE_SECS_MAX.

(** The globals [sensor_registry] (the allocated array), [sensor_count],
    [sensor_reallocation] and [throughput_frame_count]. *)
Record registry := mk_registry {
  slots : list Sensor_t;
  sensor_count : nat;
  sensor_reallocation : nat;
  throughput_frame_count : Z
}.

Definition with_slots (l : list Sensor_t) (r : registry) : registry :=
  {| slots := l; sensor_count := sensor_count r; sensor_reallocation := sensor_reallocation r;
     throughput_frame_count := throughput_frame_count r |}.

(** What a critical section of the main loop leads to: it goes on, the daemon
    exits with -1 after an error it detects, or it accesses memory outside
    the array. *)
Inductive step_result :=
| Continue (r : registry)
| ExitError
| OutOfBounds.

(** [malloc(sizeof(Sensor_t) * n)] and [realloc(old, sizeof(Sensor_t) * n)] when
    they succeed. *)
Definition fresh (garbage : nat -> Sensor_t) (from n : nat) : list Sensor_t := map garbage (seq from n).
Definition malloc_slots (garbage : nat -> Sensor_t) (n : nat) : list Sensor_t := fresh garbage 0 n.
Definition realloc_slots (garbage : nat -> Sensor_t) (old : list Sensor_t) (n : nat) : list Sensor_t :=
  take n old ++ fresh garbage (length old) (n - length old).

(** The registry [main] starts with. *)
Definition initial_registry (garbage : nat -> Sensor_t) : registry :=
  {| slots := malloc_slots garbage sensor_allocation_count; sensor_count := 0;
     sensor_reallocation := 1; throughput_frame_count := 0 |}.

(** The first critical section of the loop; [alloc] is the memory [realloc]
    adds, [None] when it fails. *)
Definition grow (alloc : option (nat -> Sensor_t)) (r : registry) : step_result :=
  if (sensor_allocation_count * sensor_reallocation r <=? sensor_count r)%nat && (sensor_count r <? limit)%nat then
    let new_reallocation := (sensor_reallocation r * 2)%nat in
    let new_reallocation :=
      if (limit / sensor_allocation_count <? new_reallocation)%nat
      then (limit / sensor_allocation_count)%nat else new_reallocation in
    match alloc with
    | None => ExitError
    | Some garbage =>
        Continue {| slots := realloc_slots garbage (slots r) (sensor_allocation_count * new_reallocation);
                    sensor_count := sensor_count r; sensor_reallocation := new_reallocation;
                    throughput_frame_count := throughput_frame_count r |}
    end
  else Continue r.

(** [throughput_frame_count++] *)
Definition count_frame (r : registry) : registry :=
  {| slots := slots r; sensor_count := sensor_count r; sensor_reallocation := sensor_reallocation r;
     throughput_frame_count := u64 (throughput_frame_count r + 1) |}.

(** The critical section that enters a frame: [sensorExists], the limit, and
    [updateRegistry] on the slot. *)
Definition enter_frame (frame : Sensor_t) (r : registry) : step_result :=
  if (length (slots r) <? sensor_count r)%nat then OutOfBounds else
  let '(sensor_index, new_sensor_flag) := sensorExists frame (slots r) (sensor_count r) in
  let is_new := new_sensor_flag =? 1 in
  if is_new && (limit <=? sensor_count r)%nat then ExitError else
  let count := if is_new then S (sensor_count r) else sensor_count r in
  match slots r !! sensor_index with
  | None => OutOfBounds
  | Some slot =>
      Continue {| slots := <[sensor_index := updateRegistry frame slot]> (slots r);
                  sensor_count := count; sensor_reallocation := sensor_reallocation r;
                  throughput_frame_count := throughput_frame_count r |}
  end.

(** [elapsedSeconds(prev, curr)] *)
Definition elapsedSeconds (prev curr : timespec) : double :=
  dadd (d_of_Z (tv_sec curr - tv_sec prev))
       (ddiv (d_of_Z (tv_nsec curr - tv_nsec prev)) (d_of_Z (10 ^ 9))).

(** The body of the watchdog's loop for one sensor. *)
Definition watch (curr_time : timespec) (s : Sensor_t) : Sensor_t :=
  let elapsed := elapsedSeconds (last_seen_time s) curr_time in
  let st := if dge elapsed (d_of_Z sensor_activity_time) then SENSOR_OFFLINE else SENSOR_ONLINE in
  {| data := data s; timestamp := timestamp s; last_seen_time := last_seen_time s; id := id s;
     name := name s; type := type s; state := st; frame_type := frame_type s |}.

(** The loop over the sensors under the mutex, from index [idx] on with [n]
    sensors left. *)
Fixpoint sweep_from (curr_time : timespec) (idx n : nat) (l : list Sensor_t) : list Sensor_t :=
  match n with
  | O => l
  | S n => sweep_from curr_time (S idx) n (alter (watch curr_time) idx l)
  end.

(** One pass of [WDT_SensorHandler]. *)
Definition sweep (curr_time : timespec) (r : registry) : registry :=
  with_slots (sweep_from curr_time 0 (sensor_count r) (slots r)) r.

(** The copy a reply works on: [memcpy] of the first [sensor_count] slots. *)
Definition snapshot (r : registry) : list Sensor_t := take (sensor_count r) (slots r).

(** ** Invariant *)

(** The registry whenever the mutex is free: the array is as large as
    [sensor_reallocation] says, at most [SENSORS_LIMIT_MAX]; the sensors in use
    fit, have distinct (id, type) keys and are online or offline. *)
Record reg_ok (r : registry) : Prop := {
  ok_alloc : length (slots r) = (sensor_allocation_count * sensor_reallocation r)%nat;
  ok_realloc : sensor_reallocation r ∈ [1; 2; 4; 8]%nat;
  ok_count : (sensor_count r <= length (slots r))%nat;
  ok_keys : NoDup (map sensor_key (snapshot r));
  ok_states : Forall (fun s => state s = SENSOR_ONLINE \/ state s = SENSOR_OFFLINE) (snapshot r)
}.

(** There is a free slot, or the limit is reached: what [grow] establishes for
    [enter_frame]. *)
Definition has_slot (r : registry) : Prop :=
  (sensor_count r < length (slots r))%nat \/ sensor_count r = limit.

(** ** Facts *)

Lemma limit_eq : limit = 128%nat. Proof. done. Qed.

Lemma factor_cases n : n ∈ [1; 2; 4; 8]%nat <-> (n = 1 \/ n = 2 \/ n = 4 \/ n = 8)%nat.
Proof. rewrite !elem_of_cons, elem_of_nil. tauto. Qed.

Lemma reg_capacity r : reg_ok r -> (length (slots r) <= limit)%nat.
Proof.
  intros [Ha Hr _ _ _]. rewrite Ha, limit_eq. unfold sensor_allocation_count.
  apply factor_cases in Hr. lia.
Qed.

Lemma length_fresh g from n : length (fresh g from n) = n.
Proof. unfold fresh. by rewrite length_map, length_seq. Qed.
#[export] Hint Rewrite length_fresh : gw_len.

Lemma initial_ok garbage : reg_ok (initial_registry garbage).
Proof.
  split; simpl; [done|apply elem_of_cons; by left|lia|constructor|constructor].
Qed.

Lemma initial_has_slot garbage : has_slot (initial_registry garbage).
Proof. left. simpl. lia. Qed.

(** *** Growth *)

Lemma grow_result alloc r :
  reg_ok r ->
  (grow alloc r = Continue r /\ has_slot r) \/
  (grow alloc r = ExitError /\ alloc = None) \/
  exists garbage, alloc = Some garbage /\
    grow alloc r = Continue {| slots := slots r ++ fresh garbage (length (slots r))
                                          (sensor_allocation_count * sensor_reallocation r);
      sensor_count := sensor_count r; sensor_reallocation := sensor_reallocation r * 2;
      throughput_frame_count := throughput_frame_count r |} /\
    (sensor_count r < limit)%nat /\ (sensor_reallocation r * 2)%nat ∈ [1; 2; 4; 8]%nat.
Proof.
  intros [Ha Hr%factor_cases Hc _ _]. unfold has_slot, grow. rewrite limit_eq.
  unfold sensor_allocation_count in *.
  destruct (Nat.leb_spec (16 * sensor_reallocation r) (sensor_count r)) as [H1|H1]; simpl andb; cbv iota.
  2:{ left. split; [done|]. left. lia. }
  destruct (Nat.ltb_spec (sensor_count r) 128) as [H2|H2].
  2:{ left. split; [done|]. right. lia. }
  right. destruct alloc as [garbage|]; [right|by left].
  exists garbage. split; [done|].
  assert (Hr' : (sensor_reallocation r = 1 \/ sensor_reallocation r = 2 \/ sensor_reallocation r = 4)%nat) by lia.
  assert (E : (if 128 / 16 <? sensor_reallocation r * 2 then 128 / 16 else sensor_reallocation r * 2)%nat
              = (sensor_reallocation r * 2)%nat).
  { by destruct Hr' as [-> | [-> | ->]]. }
  rewrite E. split; [|split; [lia|]].
  - f_equal. f_equal. unfold realloc_slots. rewrite take_ge by lia. do 2 f_equal. lia.
  - apply factor_cases. lia.
Qed.

Lemma grow_ok alloc r r' :
  reg_ok r -> grow alloc r = Continue r' ->
  reg_ok r' /\ has_slot r' /\ snapshot r' = snapshot r /\ sensor_count r' = sensor_count r.
Proof.
  intros Hok E. destruct (grow_result alloc r Hok) as [[E' Hs]|[[E' _]|(g & _ & E' & Hlt & Hr)]];
    rewrite E' in E; [by injection E as <-|done|].
  apply (f_equal (fun x => match x with Continue r => r | _ => r end)) in E. cbv beta iota in E. subst r'.
  destruct Hok as [Ha Hr0 Hc Hk Hst].
  assert (Hsn : take (sensor_count r) (slots r ++ fresh g (length (slots r)) (sensor_allocation_count * sensor_reallocation r)) = snapshot r)
    by (by apply take_app_le).
  split; [split; unfold snapshot; cbn [slots sensor_count sensor_reallocation]; rewrite ?Hsn; try done|].
  - autorewrite with gw_len. unfold sensor_allocation_count in *. lia.
  - autorewrite with gw_len. lia.
  - split; [left|done]. cbn [slots sensor_count]. autorewrite with gw_len. rewrite Ha in *.
    apply factor_cases in Hr0. unfold sensor_allocation_count in *. lia.
Qed.

(** *** Looking up a key *)

Lemma find_key_spec k l n :
  match find_key k l n with
  | Some i => (n <= i)%nat /\ exists s, l !! (i - n)%nat = Some s /\ sensor_key s = k /\
                Forall (fun s => sensor_key s <> k) (take (i - n) l)
  | None => Forall (fun s => sensor_key s <> k) l
  end.
Proof.
  revert n. induction l as [|s l IH]; intros n; simpl; [done|].
  destruct k as [k1 k2]. simpl. unfold sensor_key in *.
  destruct (Z.eqb_spec (id s) k1) as [E1|E1], (Z.eqb_spec (type s) k2) as [E2|E2]; simpl.
  1:{ split; [done|]. exists s. rewrite Nat.sub_diag. simpl. split; [done|]. split; [by rewrite E1, E2|constructor]. }
  all: specialize (IH (S n)); destruct (find_key (k1, k2) l (S n)) as [i|].
  all: try (destruct IH as (Hi & s' & Hl & Hk & Hf); split; [lia|]; exists s';
    replace (i - n)%nat with (S (i - S n)) by lia; simpl; split; [done|split; [done|]];
    constructor; [congruence|done]).
  all: constructor; [congruence|done].
Qed.

(** [sensorExists] answers with the slot of the frame's key, or with the first
    free slot when the key is new. *)
Lemma sensorExists_spec frame r :
  reg_ok r ->
  let k := sensor_key frame in
  (exists i s, sensorExists frame (slots r) (sensor_count r) = (i, 0) /\ (i < sensor_count r)%nat /\
     snapshot r !! i = Some s /\ sensor_key s = k) \/
  (sensorExists frame (slots r) (sensor_count r) = (sensor_count r, 1) /\ k ∉ map sensor_key (snapshot r)).
Proof.
  intros Hok k. unfold sensorExists. fold (snapshot r).
  pose proof (find_key_spec (sensor_key frame) (snapshot r) 0) as H.
  destruct (find_key _ _ _) as [i|].
  - left. destruct H as (_ & s & Hl & Hk & _). rewrite Nat.sub_0_r in Hl. exists i, s.
    split; [done|]. split; [|done]. apply lookup_lt_Some in Hl. unfold snapshot in Hl. rewrite length_take in Hl. lia.
  - right. split; [done|]. rewrite list_elem_of_In, in_map_iff. intros (s & Hk & Hin).
    apply list_elem_of_In in Hin. rewrite Forall_forall in H. by eapply H.
Qed.

(** *** Entering a frame *)

Lemma key_update frame slot : sensor_key (updateRegistry frame slot) = sensor_key frame.
Proof. done. Qed.

(** The three ways the critical section ends, and what the registry shows
    afterwards. *)
Lemma enter_result frame r :
  reg_ok r -> has_slot r ->
  (exists i s, snapshot r !! i = Some s /\ sensor_key s = sensor_key frame /\ slots r !! i = Some s /\
     (let r' := with_slots (<[i := updateRegistry frame s]> (slots r)) r in
      enter_frame frame r = Continue r' /\ snapshot r' = <[i := updateRegistry frame s]> (snapshot r))) \/
  (sensor_key frame ∉ map sensor_key (snapshot r) /\ sensor_count r = limit /\ enter_frame frame r = ExitError) \/
  (sensor_key frame ∉ map sensor_key (snapshot r) /\ (sensor_count r < limit)%nat /\
   exists s r', slots r !! sensor_count r = Some s /\ enter_frame frame r = Continue r' /\
     snapshot r' = snapshot r ++ [updateRegistry frame s] /\
     length (slots r') = length (slots r) /\ sensor_reallocation r' = sensor_reallocation r /\
     sensor_count r' = S (sensor_count r)).
Proof.
  intros Hok Hs. pose proof (reg_capacity r Hok) as Hcap. unfold enter_frame.
  destruct (Nat.ltb_spec (length (slots r)) (sensor_count r)) as [?|Hc]; [by destruct Hok; lia|].
  destruct (sensorExists_spec frame r Hok) as [(i & s & -> & Hi & Hl & Hk)|[-> Hk]].
  - change (0 =? 1) with false. rewrite andb_false_l. left. exists i, s. assert (Hl' : slots r !! i = Some s).
    { unfold snapshot in Hl. by apply lookup_take_Some in Hl as [? _]. }
    rewrite Hl'. split; [done|]. split; [done|]. split; [done|]. split; [done|].
    unfold snapshot. simpl. by rewrite take_insert_lt.
  - change (1 =? 1) with true. rewrite andb_true_l. right. destruct (Nat.leb_spec limit (sensor_count r)) as [Hlim|Hlim].
    { left. split; [done|]. split; [|done]. lia. }
    right. split; [done|]. split; [done|]. destruct Hs as [Hs|Hs]; [|lia].
    destruct (lookup_lt_is_Some_2 (slots r) (sensor_count r) Hs) as [s Hl]. rewrite Hl.
    exists s. eexists. split; [done|]. split; [done|]. unfold snapshot. cbn [slots sensor_count sensor_reallocation].
    rewrite length_insert. split; [|done].
    rewrite (take_S_r _ _ (updateRegistry frame s)) by (by apply list_lookup_insert_eq).
    by rewrite take_insert_ge.
Qed.

Lemma NoDup_insert_key i s s' l :
  l !! i = Some s -> sensor_key s' = sensor_key s ->
  map sensor_key (<[i := s']> l) = map sensor_key l.
Proof.
  revert i. induction l as [|x l IH]; intros [|i] Hl Hk; simpl in *; [done|done| |].
  - injection Hl as ->. by rewrite Hk.
  - by rewrite (IH i).
Qed.

Lemma enter_frame_ok frame r r' :
  reg_ok r -> has_slot r -> enter_frame frame r = Continue r' -> reg_ok r'.
Proof.
  intros Hok Hs E. destruct (enter_result frame r Hok Hs)
    as [(i & s & Hl & Hk & Hl' & E' & Hsn)|[(_ & _ & E')|(Hk & Hlt & s & r2 & Hl & E' & Hsn & Hlen & Hre & Hcnt)]];
    rewrite E' in E; [|done|]; injection E as <-; destruct Hok as [Ha Hr Hc Hnd Hst].
  - split; try rewrite Hsn; simpl; rewrite ?length_insert; try done.
    + by rewrite (NoDup_insert_key i s).
    + apply Forall_insert; [done|by left].
  - split; rewrite ?Hsn, ?Hlen, ?Hre, ?Hcnt; try done.
    + apply lookup_lt_Some in Hl. lia.
    + rewrite map_app. apply NoDup_app. split; [done|]. split; [|apply NoDup_singleton].
      simpl. intros k Hin ->%list_elem_of_singleton. by rewrite key_update in Hin.
    + apply Forall_app. split; [done|]. apply Forall_singleton. by left.
Qed.

(** *** The watchdog *)

Lemma length_sweep_from t i n l : length (sweep_from t i n l) = length l.
Proof. revert i l. induction n as [|n IH]; intros i l; simpl; [done|]. by rewrite IH, length_alter. Qed.

Lemma sweep_from_spec t i n l :
  (i + n <= length l)%nat ->
  sweep_from t i n l = take i l ++ map (watch t) (take n (drop i l)) ++ drop (i + n) l.
Proof.
  revert i l. induction n as [|n IH]; intros i l Hl; simpl.
  - by rewrite Nat.add_0_r, take_drop.
  - destruct (lookup_lt_is_Some_2 l i) as [s Hs]; [lia|].
    rewrite IH by (rewrite length_alter; lia).
    assert (Hd : drop i l = s :: drop (S i) l) by (by apply drop_S).
    assert (Ha : alter (watch t) i l = take i l ++ watch t s :: drop (S i) l).
    { rewrite <- (take_drop i l) at 1. rewrite Hd.
      replace i with (length (take i l) + 0)%nat at 1 by (rewrite length_take; lia).
      by rewrite alter_app_r. }
    rewrite Ha, Hd. simpl.
    assert (Hi : length (take i l) = i) by (rewrite length_take; lia).
    rewrite (take_app_ge (take i l)), (drop_app_ge (take i l)) by lia. rewrite Hi.
    replace (S i - i)%nat with 1%nat by lia. simpl.
    rewrite drop_app_ge by lia. rewrite Hi, Nat.sub_succ_l by lia. simpl.
    rewrite drop_drop, <- app_assoc. simpl.
    rewrite Nat.add_0_r, drop_drop. by replace (S i + (i + n - i))%nat with (i + S n)%nat by lia.
Qed.

(** A sweep applies [watch] to every sensor in use and to nothing else. *)
Lemma snapshot_sweep t r : reg_ok r -> snapshot (sweep t r) = map (watch t) (snapshot r).
Proof.
  intros [_ _ Hc _ _]. unfold snapshot, sweep. simpl. rewrite sweep_from_spec by lia. simpl.
  rewrite drop_0. apply take_app_exact. rewrite length_map, length_take. lia.
Qed.

Lemma watch_key t s : sensor_key (watch t s) = sensor_key s.
Proof. done. Qed.

Lemma sweep_ok t r : reg_ok r -> reg_ok (sweep t r).
Proof.
  intros Hok. pose proof (snapshot_sweep t r Hok) as Hs. destruct Hok as [Ha Hr Hc Hk Hst].
  split; rewrite ?Hs; simpl; rewrite ?length_sweep_from; try done.
  - by rewrite map_map, (map_ext _ sensor_key).
  - apply Forall_map. eapply Forall_impl; [done|]. intros s _. unfold watch. simpl.
    destruct (dge _ _); auto.
Qed.

Lemma sweep_has_slot t r : has_slot r -> has_slot (sweep t r).
Proof. unfold has_slot. simpl. by rewrite length_sweep_from. Qed.

(** The nanoseconds between two readings of the clock. *)
Definition elapsed_ns (prev curr : timespec) : Z :=
  (tv_sec curr - tv_sec prev) * 10 ^ 9 + (tv_nsec curr - tv_nsec prev).

(** Readings of [CLOCK_MONOTONIC]. *)
Definition clock_reading (t : timespec) : Prop := 0 <= tv_sec t < 2 ^ 50 /\ 0 <= tv_nsec t < 10 ^ 9.

(** C25.  The watchdog marks a sensor offline exactly when at least thirty
    seconds, to the nanosecond, have passed since its last frame: the
    floating-point computation of the elapsed time does not move the
    threshold. *)
Theorem watch_threshold t s :
  clock_reading t -> clock_reading (last_seen_time s) ->
  state (watch t s) = if 30 * 10 ^ 9 <=? elapsed_ns (last_seen_time s) t then SENSOR_OFFLINE else SENSOR_ONLINE.
Proof.
  intros [Hs Hn] [Hs' Hn']. unfold watch, elapsedSeconds, elapsed_ns, sensor_activity_time, SENSOR_INACTIVE_SECS_MAX.
  cbn [state]. rewrite elapsed_threshold by lia. done.
Qed.

(** ** The registry over time *)

(** The critical sections of the main loop and of the watchdog, and the two
    ways a received message is treated. *)
Inductive action :=
| AGrow (alloc : option (nat -> Sensor_t))
| AEnter (frame : Sensor_t)
| AIgnore
| ASweep (curr_time : timespec).

(** [ready]: the main loop has left its first critical section and is
    receiving. *)
Record tstate := mk_tstate { ready : bool; reg : registry }.

Inductive step : tstate -> action -> tstate -> Prop :=
| step_grow alloc r r' :
    grow alloc r = Continue r' -> step (mk_tstate false r) (AGrow alloc) (mk_tstate true r')
| step_enter f r r' :
    enter_frame f (count_frame r) = Continue r' -> step (mk_tstate true r) (AEnter f) (mk_tstate false r')
| step_ignore r : step (mk_tstate true r) AIgnore (mk_tstate false r)
| step_sweep b t r : step (mk_tstate b r) (ASweep t) (mk_tstate b (sweep t r)).

Inductive steps : tstate -> list action -> tstate -> Prop :=
| steps_nil s : steps s [] s
| steps_snoc s tr s1 a s2 : steps s tr s1 -> step s1 a s2 -> steps s (tr ++ [a]) s2.

Definition initial_state (garbage : nat -> Sensor_t) : tstate := mk_tstate false (initial_registry garbage).

(** The invariant of the daemon between critical sections. *)
Definition state_ok (s : tstate) : Prop := reg_ok (reg s) /\ (ready s = true -> has_slot (reg s)).

Lemma count_frame_ok r : reg_ok r -> reg_ok (count_frame r).
Proof. intros []. by split. Qed.

Lemma step_preserves s a s' : state_ok s -> step s a s' -> state_ok s'.
Proof.
  intros [Hok Hs] Hstep. destruct Hstep as [alloc r r' E|f r r' E|r|b t r]; simpl in *.
  - destruct (grow_ok _ _ _ Hok E) as (? & ? & _). by split.
  - split; [|done]. eapply enter_frame_ok; [by apply count_frame_ok| |done]. by apply Hs.
  - by split.
  - split; [by apply sweep_ok|]. intros Hb. apply sweep_has_slot. auto.
Qed.

Lemma steps_ok garbage tr s : steps (initial_state garbage) tr s -> state_ok s.
Proof.
  remember (initial_state garbage) as s0 eqn:E. induction 1 as [s|s tr s1 a s2 _ IH Hst].
  - subst s. split; [apply initial_ok|done].
  - eapply step_preserves; [by apply IH|done].
Qed.

(** C14.  Memory safety of the registry: in every reachable state the array
    has the size the counters say, never more than 128 slots, the keys are
    distinct; and when a frame is entered the slot written is inside the
    array, the daemon giving up only for a new sensor when all 128 slots are
    taken. *)
Theorem registry_safe garbage tr s f :
  steps (initial_state garbage) tr s ->
  reg_ok (reg s) /\ (length (slots (reg s)) <= limit)%nat /\
  (ready s = true ->
   let r := enter_frame f (count_frame (reg s)) in
   r <> OutOfBounds /\
   (r = ExitError <-> sensor_count (reg s) = limit /\ sensor_key f ∉ map sensor_key (snapshot (reg s)))).
Proof.
  intros [Hok Hs]%steps_ok. split; [done|]. split; [by apply reg_capacity|]. intros Hr. cbv zeta.
  destruct (enter_result f (count_frame (reg s))) as [(i & x & Hl & Hk & _ & -> & _)|[(Hk & Hlim & ->)|(Hk & Hlt & x & r' & _ & -> & _)]];
    [by apply count_frame_ok|by apply Hs|..]; (split; [done|]); split; try done.
  - intros [_ Hn]. exfalso. apply Hn. rewrite <- Hk. rewrite list_elem_of_In. apply in_map, list_elem_of_In.
    by eapply list_elem_of_lookup_2.
  - simpl in Hlt. intros [? _]. lia.
Qed.

(** *** What the registry shows *)

(** The frames entered along a trace. *)
Fixpoint entered (tr : list action) : list Sensor_t :=
  match tr with
  | [] => []
  | AEnter f :: tr => f :: entered tr
  | _ :: tr => entered tr
  end.

(** The keys of a list of frames, in order of first appearance. *)
Definition add_key (ks : list (Z * Z)) (f : Sensor_t) : list (Z * Z) :=
  if decide (sensor_key f ∈ ks) then ks else ks ++ [sensor_key f].
Definition first_keys (fs : list Sensor_t) : list (Z * Z) := fold_left add_key fs [].

(** The last frame, and the last data frame, of a key. *)
Definition last_frame (k : Z * Z) (fs : list Sensor_t) : option Sensor_t :=
  last (filter (fun f => sensor_key f = k) fs).
Definition last_data (k : Z * Z) (fs : list Sensor_t) : option Sensor_t :=
  last (filter (fun f => sensor_key f = k /\ frame_type f = SENSOR_DATA) fs).

(** A registry entry shows the history [fs] of its key. *)
Definition shows (fs : list Sensor_t) (s : Sensor_t) : Prop :=
  (exists f, last_frame (sensor_key s) fs = Some f /\ last_seen_time s = last_seen_time f /\
     frame_type s = frame_type f) /\
  (forall d, last_data (sensor_key s) fs = Some d -> data s = data d /\ timestamp s = timestamp d).

Lemma entered_snoc tr a : entered (tr ++ [a]) = entered tr ++ entered [a].
Proof. induction tr as [|[] tr IH]; simpl; [done|done| |done|done]. by rewrite IH. Qed.

Lemma last_filter_snoc P `{!forall f : Sensor_t, Decision (P f)} fs f :
  last (filter P (fs ++ [f])) = if decide (P f) then Some f else last (filter P fs).
Proof.
  rewrite filter_app. cbn. destruct (decide (P f)); [by rewrite last_snoc|by rewrite app_nil_r].
Qed.

(** Other keys do not see a frame; its own key sees the update. *)
Lemma shows_other fs f s : sensor_key f <> sensor_key s -> shows fs s -> shows (fs ++ [f]) s.
Proof.
  intros Hk [(g & Hl & H1 & H2) Hd]. unfold shows, last_frame, last_data in *.
  rewrite !last_filter_snoc. rewrite !decide_False by tauto. eauto.
Qed.

Lemma shows_update fs f s :
  (sensor_key s = sensor_key f /\ shows fs s) \/ last_data (sensor_key f) fs = None ->
  shows (fs ++ [f]) (updateRegistry f s).
Proof.
  intros Hs. unfold shows, last_frame, last_data in *. rewrite key_update, !last_filter_snoc.
  rewrite decide_True by done. split; [by exists f|]. intros d Hd.
  destruct (decide (frame_type f = SENSOR_DATA)) as [E|E].
  - rewrite decide_True in Hd by done. injection Hd as <-. simpl. rewrite E. done.
  - rewrite decide_False in Hd by tauto. simpl. destruct (Z.eqb_spec (frame_type f) SENSOR_DATA); [done|].
    destruct Hs as [[Hk [_ Hs]]|Hs]; [apply Hs; by rewrite Hk|by rewrite Hs in Hd].
Qed.

Lemma shows_watch fs t s : shows fs s -> shows fs (watch t s).
Proof. done. Qed.

Lemma first_keys_snoc fs f : first_keys (fs ++ [f]) = add_key (first_keys fs) f.
Proof. unfold first_keys. by rewrite fold_left_app. Qed.

Lemma no_data_of_new_key k fs : k ∉ first_keys fs -> last_data k fs = None.
Proof.
  unfold last_data. induction fs as [|f fs IH] using rev_ind; [done|].
  rewrite first_keys_snoc. unfold add_key. intros Hk.
  assert (Hne : sensor_key f <> k).
  { intros <-. apply Hk. case_decide; [done|]. apply elem_of_app. right. by apply list_elem_of_singleton. }
  rewrite last_filter_snoc, decide_False by tauto. apply IH. intros Hin. apply Hk.
  case_decide; [done|]. apply elem_of_app. by left.
Qed.

(** The contents of the registry after the frames [fs]. *)
Definition history (fs : list Sensor_t) (r : registry) : Prop :=
  map sensor_key (snapshot r) = first_keys fs /\ Forall (shows fs) (snapshot r).

Lemma shows_lookup_ne fs f l j s :
  Forall (shows fs) l -> NoDup (map sensor_key l) -> l !! j = Some s -> sensor_key s = sensor_key f ->
  Forall (shows (fs ++ [f])) (<[j := updateRegistry f s]> l).
Proof.
  intros Hl Hnd Hj Hk. apply Forall_lookup. intros i x Hx.
  destruct (decide (i = j)) as [->|Hne].
  - rewrite list_lookup_insert_eq in Hx by (by eapply lookup_lt_Some). injection Hx as <-.
    apply shows_update. left. split; [done|]. by eapply Forall_lookup_1.
  - rewrite list_lookup_insert_ne in Hx by done. apply shows_other; [|by eapply Forall_lookup_1].
    intros Hkx. apply Hne. eapply NoDup_lookup; [done|..].
    + by rewrite list_lookup_fmap, Hx.
    + rewrite list_lookup_fmap, Hj. simpl. by rewrite Hk, Hkx.
Qed.

Lemma history_enter fs f r r' :
  reg_ok r -> has_slot r -> history fs r -> enter_frame f r = Continue r' -> history (fs ++ [f]) r'.
Proof.
  intros Hok Hs [Hk Hf] E. unfold history. rewrite first_keys_snoc. unfold add_key. rewrite <- Hk.
  destruct (enter_result f r Hok Hs) as [(i & s & Hl & Hks & _ & E' & Hsn)|[(_ & _ & E')|(Hkn & _ & s & r2 & _ & E' & Hsn & _)]];
    rewrite E' in E; [|done|]; injection E as <-; rewrite Hsn.
  - rewrite decide_True.
    2:{ rewrite <- Hks, list_elem_of_In. apply in_map, list_elem_of_In. by eapply list_elem_of_lookup_2. }
    split; [by rewrite (NoDup_insert_key i s)|]. apply shows_lookup_ne; [done|by destruct Hok|done|done].
  - rewrite decide_False by done. split; [by rewrite map_app|].
    apply Forall_app. split; [|apply Forall_singleton, shows_update; right; apply no_data_of_new_key; by rewrite <- Hk].
    apply Forall_lookup. intros j x Hx. apply shows_other; [|by eapply Forall_lookup_1].
    intros Hkx. apply Hkn. rewrite Hkx, list_elem_of_In. apply in_map, list_elem_of_In. by eapply list_elem_of_lookup_2.
Qed.

Lemma steps_history garbage tr s : steps (initial_state garbage) tr s -> history (entered tr) (reg s).
Proof.
  remember (initial_state garbage) as s0 eqn:E. intros H.
  assert (Hs0 : s0 = initial_state garbage) by done. clear E.
  induction H as [s|s tr s1 a s2 Hst IH Hstep]; [by subst s|].
  specialize (IH Hs0). subst s. apply steps_ok in Hst. destruct Hst as [Hok Hslot].
  rewrite entered_snoc. change (history (entered tr ++ entered [a]) (reg s2)).
  destruct Hstep as [alloc r r' Hg|f r r' He|r|b t r]; simpl in *; rewrite ?app_nil_r; try done.
  - destruct (grow_ok _ _ _ Hok Hg) as (_ & _ & Hsn & _). unfold history. by rewrite Hsn.
  - eapply (history_enter _ _ (count_frame r)); [by apply count_frame_ok|by apply Hslot|done|done].
  - destruct IH as [Hk Hf]. unfold history. rewrite snapshot_sweep by done. split.
    + rewrite map_map, (map_ext _ sensor_key) by done. done.
    + apply Forall_map. by eapply Forall_impl.
Qed.

(** C4.  What users see: along every interleaving of received frames, growth
    and watchdog sweeps, the registry lists the sensors in order of their
    first frame, each with the last-seen time of its last frame and the data
    and timestamp of its last data frame. *)
Theorem registry_history garbage tr s :
  steps (initial_state garbage) tr s ->
  map sensor_key (snapshot (reg s)) = first_keys (entered tr) /\
  Forall (shows (entered tr)) (snapshot (reg s)).
Proof. apply steps_history. Qed.

(** ** Instances of the theorems *)

Lemma watch_threshold_witness :
  state (watch {| tv_sec := 31; tv_nsec := 7 |} zero_sensor) = SENSOR_OFFLINE /\
  state (watch {| tv_sec := 29; tv_nsec := 999999999 |} zero_sensor) = SENSOR_ONLINE.
Proof.
  split.
  - apply (watch_threshold {| tv_sec := 31; tv_nsec := 7 |} zero_sensor); split; simpl; lia.
  - apply (watch_threshold {| tv_sec := 29; tv_nsec := 999999999 |} zero_sensor); split; simpl; lia.
Defined.

(** A run: the first heartbeat of a sensor and then a sweep. *)
Definition example_garbage : nat -> Sensor_t := fun _ => zero_sensor.
Definition example_registry : registry :=
  with_slots (updateRegistry zero_sensor zero_sensor :: replicate 15 zero_sensor)
    {| slots := []; sensor_count := 1; sensor_reallocation := 1; throughput_frame_count := 1 |}.
Definition example_sweep : timespec := {| tv_sec := 100; tv_nsec := 0 |}.

Lemma example_steps :
  steps (initial_state example_garbage) [AGrow None; AEnter zero_sensor; ASweep example_sweep]
    (mk_tstate false (sweep example_sweep example_registry)).
Proof.
  apply (steps_snoc _ [AGrow None; AEnter zero_sensor] (mk_tstate false example_registry)); [|constructor].
  apply (steps_snoc _ [AGrow None] (mk_tstate true (initial_registry example_garbage)));
    [|constructor; vm_compute; reflexivity].
  apply (steps_snoc _ [] (initial_state example_garbage)); constructor. vm_compute. reflexivity.
Qed.

Lemma registry_safe_witness :
  reg_ok (sweep example_sweep example_registry) /\
  (length (slots (sweep example_sweep example_registry)) <= limit)%nat.
Proof.
  destruct (registry_safe example_garbage _ _ zero_sensor example_steps) as (H1 & H2 & _). by split.
Defined.

Lemma registry_history_witness :
  map sensor_key (snapshot (sweep example_sweep example_registry)) = [(0, 0)] /\
  Forall (shows [zero_sensor]) (snapshot (sweep example_sweep example_registry)).
Proof. exact (registry_history example_garbage _ _ example_steps). Defined.
