(* ===== verification/Replies.v ===== *)
(** src/telemetry_d.c, the replies: the text of a sensor, the lists of sensors
    selected by state or type, the throughput, and how they are sent. *)
From S2P Require Import Prelude Machine Proc CText CFloat Sense Posix Interfaces SenseUtils Registry.
Local Open Scope Z_scope.

Definition RESPONSE_END_MARKER : list Z := str "END" ++ [LF].
Definition TRANSMIT_BUFFER_SIZE : nat := 500.
Definition LATENCY_ID : Z := 65000.

(** ** Sending *)

(** The loop that [sendResponseEnd], [giveSensor] and [giveSensorThroughput]
    contain: [send] until nothing is left; the loop variable is the text from
    [ptr] on. *)
Definition send_body (rest : list Z) : proc io (list Z + Z) :=
  match rest with
  | [] => ret (inr 0)
  | _ =>
      let! r := send rest in
      match r with
      | Ok 0%nat => ret (inr (-1))
      | Ok n => ret (inl (drop n rest))
      | Err n => if n =? EINTR then ret (inl rest) else ret (inr (-1))
      end
  end.

Definition send_text (text : list Z) : proc io Z :=
  iterate (fun rest w => length (tx w) + length rest)%nat send_body text.

Definition sendResponseEnd : proc io Z := send_text RESPONSE_END_MARKER.

Section replies.
(** The time zone of the device. *)
Context (tz : Z).

(** ** One sensor *)

(** The two [memcpy]s from the union. *)
Definition sent_seconds (d : SensorData_u) : Z := i64 (le_val (take 8 d)).
Definition sent_nanoseconds (d : SensorData_u) : Z := i32 (le_val (take 4 (drop 8 d))).

(** The text [giveSensor] prints into [sendBuffer]. *)
Definition sensor_line (target : Sensor_t) : list Z :=
  if id target =? LATENCY_ID then
    str "LATENCY: " ++ fmt_d (sent_seconds (data target)) ++ str " " ++
    fmt_d (sent_nanoseconds (data target)) ++ [LF]
  else
    getTime tz target ++ str ": " ++ cstr (name target) ++ str ": " ++ getDataString target ++ [LF].

(** [giveSensor(target, fd)] *)
Definition giveSensor (target : Sensor_t) : proc io Z :=
  let '(sendBuffer, result) := snprintf TRANSMIT_BUFFER_SIZE (sensor_line target) in
  if (result <? 0) || (Z.of_nat TRANSMIT_BUFFER_SIZE <=? result) then ret (-1)
  else send_text (cstr sendBuffer).

(** ** Lists of sensors *)

(** The loop over the snapshot. *)
Fixpoint give_selected (select : Sensor_t -> bool) (l : list Sensor_t) : proc io Z :=
  match l with
  | [] => ret 0
  | s :: l =>
      if select s then
        let! r := giveSensor s in
        if r =? -1 then ret (-1) else give_selected select l
      else give_selected select l
  end.

(** Common shape of the list replies: the snapshot taken under the mutex
    ([alloc] is whether its [malloc] succeeds), the loop, the end marker. *)
Definition give_list (select : Sensor_t -> bool) (alloc : bool) (r : registry) : proc io Z :=
  if (0 <? sensor_count r)%nat && negb alloc then ret (-1) else
  let! e := give_selected select (snapshot r) in
  if e =? -1 then ret (-1) else sendResponseEnd.

Definition giveSensorAll_Offline := give_list (fun s => state s =? SENSOR_OFFLINE).
Definition giveSensorAll_Online := give_list (fun s => state s =? SENSOR_ONLINE).
Definition giveSensorAll := give_list (fun _ => true).

Definition giveSensorAll_Type (type_byte : Z) (alloc : bool) (r : registry) : proc io Z :=
  let ty := findSensorType type_byte in
  if ty =? SENSOR_TYPE_UNSUPPORTED then ret (-1)
  else give_list (fun s => type s =? ty) alloc r.

(** ** Throughput *)

(** The response of [giveSensorThroughput] for the two readings of the clock
    and of the frame counter, ten seconds apart. *)
Definition throughput_text (start_time end_time : timespec) (start_count end_count : Z) : list Z :=
  let frames_received := u64 (end_count - start_count) in
  let elapsed_seconds := elapsedSeconds start_time end_time in
  let total_bits := dmul (dmul (d_of_Z frames_received) (d_of_Z (Z.of_nat sizeof_Sensor_t))) (d_of_Z 8) in
  let throughput_bps := ddiv total_bits elapsed_seconds in
  if dge throughput_bps (d_of_Z 1000000)
  then str "THROUGHPUT: " ++ fmt_f 2 (ddiv throughput_bps (d_of_Z 1000000)) ++ str " Mbps" ++ [LF]
  else str "THROUGHPUT: " ++ fmt_f 2 (ddiv throughput_bps (d_of_Z 1000)) ++ str " Kbps" ++ [LF].

(** [giveSensorThroughput(fd)]; a clock that fails is [None]. *)
Definition giveSensorThroughput (start_time end_time : option timespec) (start_count end_count : Z) : proc io Z :=
  match start_time, end_time with
  | Some t0, Some t1 =>
      let '(response, result) := snprintf 256 (throughput_text t0 t1 start_count end_count) in
      if (result <? 0) || (256 <=? result) then ret (-1) else
      let! r := send_text (cstr response) in
      if r =? -1 then ret (-1) else sendResponseEnd
  | _, _ => ret (-1)
  end.

(** ** Facts *)

#[export] Instance send_text_writer : Writer send_text.
Proof.
  intros text w.
  unfold send_text. apply wp_iterate with (I := fun rest w' =>
    exists done, text = done ++ rest /\ sent w' = sent w ++ done /\ kept w w').
  { exists []. split; [done|]. rewrite app_nil_r. auto with gw. }
  intros rest w' (d & -> & Hs & Htx).
  unfold send_body. destruct rest as [|b rest].
  { apply wp_ret, written_all; [done|]. by rewrite app_nil_r. }
  assert (Hcut : forall w2, tx w' <> [] -> kept w' w2 -> sent w2 = sent w' -> written w (d ++ b :: rest) (-1) w2).
  { intros w2 Hx Hk Hs2. apply written_cut; eauto with gw. congruence. }
  apply wp_bind, send_spec; [done|..].
  - intros k w2 Hk Hs2 Hm Hle Hx. destruct k as [|k]; [lia|]. apply wp_ret.
    split; [|rewrite length_drop; lia]. exists (d ++ take (S k) (b :: rest)).
    split; [by rewrite <- app_assoc, take_drop|]. split; [by rewrite Hs2, Hs, app_assoc|eauto with gw].
  - intros w2 Hx Hs2 Hm Hk. by apply wp_ret, Hcut.
  - intros n w2 Hx Hs2 Hm Hk. destruct (n =? EINTR); [|by apply wp_ret, Hcut].
    apply wp_ret. split; [|lia]. exists d. split; [done|]. split; [congruence|eauto with gw].
Qed.

(** A frame as its type declares it, as far as the name is concerned. *)
Definition named (s : Sensor_t) : Prop := length (name s) = SENSOR_NAME_SIZE.

Lemma length_i64 z : (length (fmt_d (i64 z)) <= 20)%nat.
Proof. apply (length_fmt_d _ 19); [|lia]. pose proof (sint_range 64 z). simpl in *. lia. Qed.

Lemma length_i32 z : (length (fmt_d (i32 z)) <= 20)%nat.
Proof. apply (length_fmt_d _ 19); [|lia]. pose proof (sint_range 32 z). simpl in *. lia. Qed.

Lemma sensor_line_bounds s :
  named s -> (length (sensor_line s) < TRANSMIT_BUFFER_SIZE)%nat /\ Forall (fun c => c <> NUL) (sensor_line s).
Proof.
  intros Hn. unfold sensor_line, TRANSMIT_BUFFER_SIZE. destruct (id s =? LATENCY_ID).
  - split.
    + rewrite !length_app. pose proof (length_i64 (le_val (take 8 (data s)))).
      pose proof (length_i32 (le_val (take 4 (drop 8 (data s))))).
      unfold sent_seconds, sent_nanoseconds. simpl. lia.
    + repeat (apply Forall_app; split); try (apply printable_nonzero; auto with printable; fail).
      by repeat constructor.
  - rewrite getDataString_exact. destruct (getTime_bounds tz s) as [Ht Hlt].
    destruct (reading_text_bounds (data s) (type s)) as [Hr Hlr]. pose proof (length_cstr (name s)).
    unfold named, SENSOR_NAME_SIZE in Hn. split.
    + rewrite !length_app. simpl. lia.
    + repeat (apply Forall_app; split); try (apply printable_nonzero; auto with printable; fail);
        [apply cstr_nonzero|by repeat constructor].
Qed.

Lemma giveSensor_spec s w :
  named s -> wp (giveSensor s) w (written w (sensor_line s)) (fun _ => False).
Proof.
  intros [Hl Hz]%sensor_line_bounds. unfold giveSensor. rewrite snprintf_fits by done.
  destruct (Z.ltb_spec (Z.of_nat (length (sensor_line s))) 0); [lia|].
  destruct (Z.leb_spec (Z.of_nat TRANSMIT_BUFFER_SIZE) (Z.of_nat (length (sensor_line s)))); [lia|].
  simpl orb. cbv iota. rewrite cstr_id by done. apply writes.
Qed.

(** The lines of a list of sensors. *)
Definition lines (l : list Sensor_t) : list Z := concat (map sensor_line l).

Lemma give_selected_each select l : give_selected select l = write_each giveSensor (List.filter select l).
Proof. induction l as [|s l IH]; [done|]. simpl. destruct (select s); [|done]. cbn [write_each]. by rewrite IH. Qed.

Lemma give_selected_spec select l w :
  Forall named l ->
  wp (give_selected select l) w (written w (lines (List.filter select l))) (fun _ => False).
Proof.
  intros H. rewrite give_selected_each. apply write_each_spec.
  induction H as [|s l Hs _ IH]; simpl; [constructor|].
  destruct (select s); [|done]. constructor; [|done]. intros. by apply giveSensor_spec.
Qed.

Lemma give_list_spec select alloc r w :
  Forall named (snapshot r) -> alloc = true ->
  wp (give_list select alloc r) w
    (written w (lines (List.filter select (snapshot r)) ++ RESPONSE_END_MARKER)) (fun _ => False).
Proof.
  intros Hn ->. unfold give_list. rewrite andb_false_r.
  apply wp_written_seq; [by apply give_selected_spec|intros; apply writes].
Qed.

(** A refused request sends nothing. *)
Lemma give_list_no_memory select r w :
  (0 < sensor_count r)%nat -> give_list select false r w = Done (-1) w.
Proof. intros H%Nat.ltb_lt. unfold give_list. by rewrite H. Qed.

(** C23.  A reply is complete lines: for every selection, when the snapshot can
    be allocated, the bytes sent are the lines of the selected sensors of
    the registry, in order, then the end marker; a failed [send] leaves a
    proper prefix of them and makes the call return -1; the call always
    returns. *)
Theorem list_replies r w type_byte :
  Forall named (snapshot r) ->
  let reply sel := written w (lines (List.filter sel (snapshot r)) ++ RESPONSE_END_MARKER) in
  wp (giveSensorAll true r) w (reply (fun _ => true)) (fun _ => False) /\
  wp (giveSensorAll_Online true r) w (reply (fun s => state s =? SENSOR_ONLINE)) (fun _ => False) /\
  wp (giveSensorAll_Offline true r) w (reply (fun s => state s =? SENSOR_OFFLINE)) (fun _ => False) /\
  (if supported type_byte
   then wp (giveSensorAll_Type type_byte true r) w (reply (fun s => type s =? type_byte)) (fun _ => False)
   else giveSensorAll_Type type_byte true r w = Done (-1) w).
Proof.
  intros Hn reply. split; [by apply give_list_spec|]. split; [by apply give_list_spec|].
  split; [by apply give_list_spec|]. unfold giveSensorAll_Type. rewrite findSensorType_supported.
  destruct (supported type_byte) eqn:E; [|done].
  destruct (Z.eqb_spec type_byte SENSOR_TYPE_UNSUPPORTED) as [->|_]; [done|]. by apply give_list_spec.
Qed.

(** The selections of the two replies split the list. *)
Lemma online_offline_split r :
  reg_ok r ->
  Permutation (snapshot r)
    (List.filter (fun s => state s =? SENSOR_ONLINE) (snapshot r) ++
     List.filter (fun s => state s =? SENSOR_OFFLINE) (snapshot r)).
Proof.
  intros [_ _ _ _ Hst]. induction Hst as [|s l Hs _ IH]; [done|]. simpl.
  destruct Hs as [-> | ->]; simpl; [by constructor|]. by apply Permutation_cons_app.
Qed.

Lemma give_list_sends select r w :
  Forall named (snapshot r) -> tx w = [] ->
  wp (give_list select true r) w
    (fun ret w' => ret = 0 /\ sent w' = sent w ++ lines (List.filter select (snapshot r)) ++ RESPONSE_END_MARKER)
    (fun _ => False).
Proof.
  intros Hn Hw. eapply wp_mono; [by apply give_list_spec| |done]. by intros ret w' [_ [?|(_ & ? & _)]].
Qed.

End replies.

(** ** Instances of the theorems *)

Lemma list_replies_witness :
  let w := mk_io false [] [Takes 5; TxFails 32] [] in
  let reply sel := written w (lines 0 (List.filter sel (snapshot example_registry)) ++ RESPONSE_END_MARKER) in
  wp (giveSensorAll 0 true example_registry) w (reply (fun _ => true)) (fun _ => False) /\
  wp (giveSensorAll_Online 0 true example_registry) w (reply (fun s => state s =? SENSOR_ONLINE)) (fun _ => False) /\
  wp (giveSensorAll_Offline 0 true example_registry) w (reply (fun s => state s =? SENSOR_OFFLINE)) (fun _ => False) /\
  wp (giveSensorAll_Type 0 SENSOR_TYPE_TORQUE true example_registry) w
    (reply (fun s => type s =? SENSOR_TYPE_TORQUE)) (fun _ => False).
Proof.
  apply (list_replies 0 example_registry (mk_io false [] [Takes 5; TxFails 32] []) SENSOR_TYPE_TORQUE).
  repeat constructor.
Defined.

