(* ===== verification/Throughput.v ===== *)
(** src/src/telemetry_d.c, [giveSensorThroughput]: how far the rate it prints is
    from the exact one, through the six roundings of its computation in
    [double]. *)
From S2P Require Import Prelude Machine Proc CText CFloat Sense Posix Interfaces SenseUtils Registry Replies.
Local Open Scope Z_scope.

(** ** Doubles near a rational *)

Definition half_ulp : Z := 2 ^ 52.

(** The double [x] is positive and differs from [n/d] by at most [c] units of
    2^-52, relatively. *)
Definition near (c : Z) (x : double) (n d : Z) : Prop :=
  exists q k, x = DFin q (- k) /\ 0 <= k /\ 0 < q /\ Z.abs (q * d - n * 2 ^ k) * half_ulp <= c * (n * 2 ^ k).

(** One rounding. *)
Lemma dround_near n d c :
  0 < n -> 0 < d -> 0 <= c -> n < 2 ^ 52 * d -> near 1 (dround (n * 2 ^ c) (d * 2 ^ c)) n d.
Proof.
  intros Hn Hd Hc Hl. destruct (dround_scaled n d c) as (q & k & -> & _ & Hk & Hq & He & Hs);
    [lia|done|done|rewrite Z.abs_eq by lia; by apply log2_lt_53|].
  assert (0 < q) by lia. rewrite Z.abs_eq in Hq by lia. exists q, k. split; [done|]. split; [done|]. split; [done|].
  unfold half_ulp. set (X := n * 2 ^ k) in *. change (2 ^ 52) with 4503599627370496 in *.
  assert (4503599627370496 * d <= q * d) by (apply Z.mul_le_mono_nonneg_r; lia). lia.
Qed.

(** An exact product of integers. *)
Lemma dmul_exact a b i j :
  0 <= a -> 0 <= b -> a * b < 2 ^ 52 -> 0 <= i -> 0 <= j ->
  exists k, 0 <= k /\ dmul (DFin (a * 2 ^ i) (- i)) (DFin (b * 2 ^ j) (- j)) = DFin (a * b * 2 ^ k) (- k).
Proof.
  intros Ha Hb Hab Hi Hj. unfold dmul. rewrite !num_neg, !den_neg by done.
  replace (a * 2 ^ i * (b * 2 ^ j)) with (a * b * 2 ^ (i + j)) by (rewrite Z.pow_add_r by lia; ring).
  replace (2 ^ i * 2 ^ j) with (1 * 2 ^ (i + j)) by (rewrite Z.pow_add_r by lia; ring).
  destruct (Z.eq_dec (a * b) 0) as [->|Hne]; [by exists 0|].
  destruct (dround_scaled (a * b) 1 (i + j)) as (q & k & -> & _ & Hk & _ & He & _);
    [done|lia|lia|apply log2_lt_53; lia|].
  exists k. split; [done|]. f_equal. lia.
Qed.

(** The frames as bits. *)
Lemma bits_exact f :
  0 <= f < 2 ^ 42 -> exists k, 0 <= k /\
  dmul (dmul (d_of_Z f) (d_of_Z (Z.of_nat sizeof_Sensor_t))) (d_of_Z 8) = DFin (640 * f * 2 ^ k) (- k).
Proof.
  intros Hf. change (Z.of_nat sizeof_Sensor_t) with 80.
  destruct (d_of_Z_spec f) as (k1 & Hk1 & ->); [lia|]. destruct (d_of_Z_spec 80) as (k2 & Hk2 & ->); [lia|].
  destruct (d_of_Z_spec 8) as (k3 & Hk3 & ->); [lia|].
  destruct (dmul_exact f 80 k1 k2) as (k4 & Hk4 & ->); [lia..|].
  destruct (dmul_exact (f * 80) 8 k4 k3) as (k & Hk & ->); [lia..|].
  exists k. split; [done|]. f_equal. lia.
Qed.

(** The error of a quotient, from those of the divisor [q / K] (near [n/d]) and
    of the rounding [p / J] (near [b * K / q]). *)
Lemma quotient_error b d n p q c J K :
  0 < b -> 0 < d -> 0 < n -> 0 < p -> 0 < q -> 0 < J -> 0 < K -> 0 <= c <= 5 ->
  Z.abs (q * d - n * K) * half_ulp <= c * (n * K) ->
  Z.abs (p * q - b * K * J) * half_ulp <= 1 * (b * K * J) ->
  Z.abs (p * n - b * d * J) * half_ulp <= (c + 2) * (b * d * J).
Proof.
  intros Hb Hd Hn Hp Hq HJ HK Hc He Hr. unfold half_ulp in *. change (2 ^ 52) with 4503599627370496 in *.
  set (M := 4503599627370496) in *. assert (HM : M = 4503599627370496) by done. clearbody M.
  assert (H1 : n * K * (M - c) <= q * d * M <= n * K * (M + c)) by lia.
  assert (H2 : b * K * J * (M - 1) <= p * q * M <= b * K * J * (M + 1)) by lia.
  assert (Hup : K * (p * n * (M - c)) <= K * (b * d * J * (M + 1))).
  { assert (p * (n * K * (M - c)) <= p * (q * d * M)) by (apply Z.mul_le_mono_nonneg_l; lia).
    assert (d * (p * q * M) <= d * (b * K * J * (M + 1))) by (apply Z.mul_le_mono_nonneg_l; lia). lia. }
  assert (Hlo : K * (b * d * J * (M - 1)) <= K * (p * n * (M + c))).
  { assert (p * (q * d * M) <= p * (n * K * (M + c))) by (apply Z.mul_le_mono_nonneg_l; lia).
    assert (d * (b * K * J * (M - 1)) <= d * (p * q * M)) by (apply Z.mul_le_mono_nonneg_l; lia). lia. }
  apply Z.mul_le_mono_pos_l in Hup; [|done]. apply Z.mul_le_mono_pos_l in Hlo; [|done].
  assert (HX : 0 < p * n) by (by apply Z.mul_pos_pos). assert (HY : 0 < b * d * J) by (apply Z.mul_pos_pos; [by apply Z.mul_pos_pos|done]).
  set (X := p * n) in *. set (Y := b * d * J) in *. clearbody X Y. subst M.
  assert (c = 0 \/ c = 1 \/ c = 2 \/ c = 3 \/ c = 4 \/ c = 5) as Hcs by lia.
  destruct Hcs as [-> | [-> | [-> | [-> | [-> | ->]]]]]; lia.
Qed.

(** The quotient of [b] by a double near [n/d]. *)
Lemma ddiv_near b i x c n d :
  0 < b -> 0 <= i -> 0 < n -> 0 < d -> 0 <= c <= 5 -> near c x n d -> b * d * 2 < 2 ^ 52 * n ->
  near (c + 2) (ddiv (DFin (b * 2 ^ i) (- i)) x) (b * d) n.
Proof.
  intros Hb Hi Hn Hd Hc (q & k & -> & Hk & Hq & He) Hl. unfold ddiv.
  destruct (Z.eqb_spec q 0); [lia|]. rewrite Z.sgn_pos, Z.abs_eq, !num_neg, !den_neg by lia.
  replace (b * 2 ^ i * 2 ^ k * 1) with (b * 2 ^ k * 2 ^ i) by ring.
  replace (2 ^ i * q) with (q * 2 ^ i) by ring.
  assert (HK : 0 < 2 ^ k) by lia. set (K := 2 ^ k) in *. clearbody K.
  destruct (dround_near (b * K) q i) as (p & j & -> & Hj & Hp & Hr); [by apply Z.mul_pos_pos|done|done| |].
  { unfold half_ulp in He. change (2 ^ 52) with 4503599627370496 in *.
    assert (0 < n * K) by (by apply Z.mul_pos_pos).
    assert (n * K * 4503599627370491 <= q * d * 4503599627370496).
    { assert (c * (n * K) <= 5 * (n * K)) by (apply Z.mul_le_mono_nonneg_r; lia). lia. }
    assert (K * (b * d * 2) < K * (4503599627370496 * n)) by (by apply Z.mul_lt_mono_pos_l).
    assert (d * (b * K) < d * (4503599627370496 * q)) by lia. by apply Z.mul_lt_mono_pos_l in H2. }
  exists p, j. split; [done|]. split; [done|]. split; [done|].
  apply quotient_error with (q := q) (K := K); try done. lia.
Qed.

(** A double near [n/d] divided by an integer. *)
Lemma ddiv_int_near x c n d m :
  0 < n -> 0 < d -> 0 <= c <= 5 -> near c x n d -> 0 < m < 2 ^ 53 -> n * 2 < 2 ^ 52 * (d * m) ->
  near (c + 2) (ddiv x (d_of_Z m)) n (d * m).
Proof.
  intros Hn Hd Hc (q & k & -> & Hk & Hq & He) Hm Hl. destruct (d_of_Z_spec m) as (i & Hi & ->); [lia|]. unfold ddiv.
  assert (HI : 0 < 2 ^ i) by lia. destruct (Z.eqb_spec (m * 2 ^ i) 0); [nia|].
  rewrite Z.sgn_pos, Z.abs_eq, !num_neg, !den_neg by nia.
  replace (q * 2 ^ i * 1) with (q * 2 ^ i) by ring. replace (2 ^ k * (m * 2 ^ i)) with (2 ^ k * m * 2 ^ i) by ring.
  assert (HK : 0 < 2 ^ k) by lia. set (K := 2 ^ k) in *. clearbody K.
  destruct (dround_near q (K * m) i) as (p & j & -> & Hj & Hp & Hr); [done|by apply Z.mul_pos_pos; [|lia]|done| |].
  { unfold half_ulp in He. change (2 ^ 52) with 4503599627370496 in *.
    assert (0 < n * K) by (by apply Z.mul_pos_pos).
    assert (q * d * 4503599627370496 <= n * K * 4503599627370501).
    { assert (c * (n * K) <= 5 * (n * K)) by (apply Z.mul_le_mono_nonneg_r; lia). lia. }
    assert (K * (n * 2) < K * (4503599627370496 * (d * m))) by (by apply Z.mul_lt_mono_pos_l).
    assert (d * q < d * (4503599627370496 * (K * m))) by lia. by apply Z.mul_lt_mono_pos_l in H2. }
  exists p, j. split; [done|]. split; [done|]. split; [done|].
  unfold half_ulp in *. change (2 ^ 52) with 4503599627370496 in *.
  set (M := 4503599627370496) in *. assert (HM : M = 4503599627370496) by done. clearbody M.
  assert (HJ : 0 < 2 ^ j) by lia. set (J := 2 ^ j) in *. clearbody J.
  assert (H1 : n * K * (M - c) <= q * d * M <= n * K * (M + c)) by lia.
  assert (H2 : q * J * (M - 1) <= p * (K * m) * M <= q * J * (M + 1)) by lia.
  (* p K m M d <= q d J (M + 1) and q d M <= n K (M + c) *)
  assert (Hup : K * (p * (d * m) * M * M) <= K * (n * J * ((M + c) * (M + 1)))).
  { assert (d * (p * (K * m) * M) <= d * (q * J * (M + 1))) by (apply Z.mul_le_mono_nonneg_l; lia).
    assert (J * (M + 1) * (q * d * M) <= J * (M + 1) * (n * K * (M + c))) by (apply Z.mul_le_mono_nonneg_l; lia). lia. }
  assert (Hlo : K * (n * J * ((M - c) * (M - 1))) <= K * (p * (d * m) * M * M)).
  { assert (d * (q * J * (M - 1)) <= d * (p * (K * m) * M)) by (apply Z.mul_le_mono_nonneg_l; lia).
    assert (J * (M - 1) * (n * K * (M - c)) <= J * (M - 1) * (q * d * M)) by (apply Z.mul_le_mono_nonneg_l; lia). lia. }
  apply Z.mul_le_mono_pos_l in Hup; [|done]. apply Z.mul_le_mono_pos_l in Hlo; [|done].
  assert (HY : 0 < n * J) by (by apply Z.mul_pos_pos). set (X := p * (d * m)) in *. set (Y := n * J) in *.
  clearbody X Y. subst M. assert (c = 0 \/ c = 1 \/ c = 2 \/ c = 3 \/ c = 4 \/ c = 5) as Hcs by lia.
  destruct Hcs as [-> | [-> | [-> | [-> | [-> | ->]]]]]; lia.
Qed.

(** ** The elapsed time *)

(** [q / P] is the rounding of [S / K = D + q1 / K], and [q1 / K] that of
    [f / 10^9]. *)
Lemma sum_error D f q1 K q P :
  2 ^ 52 <= K -> 0 < P -> 10 ^ 9 <= D * 10 ^ 9 + f -> 2 ^ 52 <= q ->
  Z.abs (2 * (q1 * 10 ^ 9 - f * K)) <= 10 ^ 9 ->
  Z.abs (2 * (q * K - (D * K + q1) * P)) <= K ->
  Z.abs (q * 10 ^ 9 - (D * 10 ^ 9 + f) * P) * half_ulp <= 3 * ((D * 10 ^ 9 + f) * P).
Proof.
  intros HK HP HN Hq H1 H2. unfold half_ulp. set (N := D * 10 ^ 9 + f) in *.
  change (2 ^ 52) with 4503599627370496 in *. change (10 ^ 9) with 1000000000 in *.
  assert (Hs : Z.abs (2 * ((D * K + q1) * 1000000000 - N * K)) <= 1000000000).
  { replace ((D * K + q1) * 1000000000 - N * K) with (q1 * 1000000000 - f * K) by (unfold N; ring). done. }
  set (S := D * K + q1) in *.
  assert (Ha : Z.abs (2 * (S * 1000000000 - N * K)) * P <= 1000000000 * P) by (apply Z.mul_le_mono_nonneg_r; lia).
  replace (Z.abs (2 * (S * 1000000000 - N * K)) * P) with (Z.abs (2 * (S * P * 1000000000 - N * P * K))) in Ha
    by (rewrite <- (Z.abs_eq P) at 3 by lia; rewrite <- Z.abs_mul; f_equal; ring).
  assert (Hb : Z.abs (2 * (q * 1000000000 - N * P)) * K <= 1000000000 * P + 1000000000 * K).
  { rewrite <- (Z.abs_eq K) at 1 by lia. rewrite <- Z.abs_mul.
    replace (2 * (q * 1000000000 - N * P) * K) with (2 * (q * K - S * P) * 1000000000 + 2 * (S * P * 1000000000 - N * P * K)) by ring. lia. }
  clear Ha Hs H2 H1. clearbody S N.
  set (Y := Z.abs (q * 1000000000 - N * P)) in *. assert (HY : 2 * Y * K <= 1000000000 * P + 1000000000 * K) by lia.
  assert (HNP : 1000000000 * P <= N * P) by (apply Z.mul_le_mono_nonneg_r; lia).
  assert (HPK : P * 4503599627370496 <= P * K) by (apply Z.mul_le_mono_nonneg_l; lia).
  destruct (Z.le_gt_cases (2 * Y) 1000000000) as [Hsmall|Hbig]; [lia|].
  assert ((2 * Y - 1000000000) * 4503599627370496 <= (2 * Y - 1000000000) * K) by (apply Z.mul_le_mono_nonneg_l; lia). lia.
Qed.

Lemma elapsed_near t0 t1 :
  clock_reading t0 -> clock_reading t1 -> 10 ^ 9 <= elapsed_ns t0 t1 ->
  near 3 (elapsedSeconds t0 t1) (elapsed_ns t0 t1) (10 ^ 9).
Proof.
  intros [Hs Hn] [Hs' Hn']. unfold elapsedSeconds, elapsed_ns.
  set (D := tv_sec t1 - tv_sec t0). set (f := tv_nsec t1 - tv_nsec t0). intros HN.
  assert (HD : 0 <= D < 2 ^ 50) by lia. assert (Hf : Z.abs f < 10 ^ 9) by lia. clearbody D f.
  destruct (ddiv_int f (10 ^ 9)) as (c & Hc & ->); [lia|lia|]. destruct (Z.eq_dec f 0) as [->|Hf0].
  - rewrite Z.mul_0_l. change (dround 0 _) with (DFin 0 0).
    destruct (dadd_zero_frac D) as (k & Hk & ->); [lia|]. assert (0 < 2 ^ k) by lia.
    exists (D * 2 ^ k), k. split; [done|]. split; [done|]. split; [apply Z.mul_pos_pos; lia|]. unfold half_ulp.
    replace (D * 2 ^ k * 10 ^ 9 - (D * 10 ^ 9 + 0) * 2 ^ k) with 0 by ring. nia.
  - assert (Hl : Z.log2 (Z.abs f) <= Z.log2 (10 ^ 9)) by (apply Z.log2_le_mono; lia).
    destruct (dround_scaled f (10 ^ 9) c) as (q1 & k1 & -> & Hk1 & Hk10 & _ & He1 & _); [done|lia|done|lia|].
    destruct (d_of_Z_spec D) as (kd & Hkd & ->); [lia|]. unfold dadd. rewrite !num_neg, !den_neg by done.
    replace (D * 2 ^ kd * 2 ^ k1 + q1 * 2 ^ kd) with ((D * 2 ^ k1 + q1) * 2 ^ kd) by ring.
    rewrite (Z.mul_comm (2 ^ kd) (2 ^ k1)).
    assert (HK : 2 ^ 52 <= 2 ^ k1) by (apply Z.pow_le_mono_r; lia). set (K := 2 ^ k1) in *. clearbody K.
    change (10 ^ 9) with 1000000000 in *. change (2 ^ 50) with 1125899906842624 in *.
    assert (Hpos : K <= 2 * (D * K + q1) /\ D * K + q1 < 1125899906842626 * K).
    { assert (D * K <= 1125899906842623 * K) by (apply Z.mul_le_mono_nonneg_r; lia).
      assert (1000000000 * K <= (D * 1000000000 + f) * K) by (apply Z.mul_le_mono_nonneg_r; lia).
      assert (f * K <= 999999999 * K) by (apply Z.mul_le_mono_nonneg_r; lia).
      change (2 ^ 52) with 4503599627370496 in *. lia. }
    destruct (dround_scaled (D * K + q1) K kd) as (q & k & -> & _ & Hk0 & Hq & He & Hs2);
      [change (2 ^ 52) with 4503599627370496 in *; lia|lia|done| |].
    { apply log2_lt_53; change (2 ^ 52) with 4503599627370496 in *; lia. }
    exists q, k. split; [done|]. split; [done|]. change (2 ^ 52) with 4503599627370496 in *.
    assert (0 < q) by lia. split; [done|]. apply sum_error with (q1 := q1) (K := K);
      change (10 ^ 9) with 1000000000; change (2 ^ 52) with 4503599627370496; lia.
Qed.

(** ** The rate *)

(** The comparison that chooses the unit. *)
Lemma near_dge x n d T :
  0 < n -> 0 < d -> 0 < T <= 1000000 -> near 5 x n d ->
  if dge x (d_of_Z T) then (T - 1) * d <= n else n <= (T + 1) * d.
Proof.
  intros Hn Hd HT (q & k & -> & Hk & Hq & He). rewrite dge_int by lia. unfold half_ulp in He.
  assert (HK : 0 < 2 ^ k) by lia. set (K := 2 ^ k) in *. clearbody K. change (2 ^ 52) with 4503599627370496 in *.
  destruct (Z.leb_spec (T * K) q) as [H|H].
  - assert (T * K * d <= q * d) by (apply Z.mul_le_mono_nonneg_r; lia).
    assert (K * (T * d * 4503599627370496) <= K * (n * 4503599627370501)) by lia.
    apply Z.mul_le_mono_pos_l in H1; [|done]. assert (T * d <= 1000000 * d) by (apply Z.mul_le_mono_nonneg_r; lia). lia.
  - assert (q * d <= T * K * d) by (apply Z.mul_le_mono_nonneg_r; lia).
    assert (K * (n * 4503599627370491) <= K * (T * d * 4503599627370496)) by lia.
    apply Z.mul_le_mono_pos_l in H1; [|done]. assert (T * d <= 1000000 * d) by (apply Z.mul_le_mono_nonneg_r; lia). lia.
Qed.

(** Two decimals of a double near [n/d]. *)
Lemma fmt_f_near x n d :
  0 < n -> 0 < d -> n <= 6000000000 * d -> near 7 x n d ->
  exists h, 0 <= h /\ fmt_f 2 x = fmt_dec 2 false h /\ Z.abs (h * d - 100 * n) * 1000 <= 501 * d.
Proof.
  intros Hn Hd Hl (q & k & -> & Hk & Hq & He). unfold fmt_f. rewrite num_neg, den_neg by lia.
  destruct (Z.ltb_spec q 0); [lia|]. rewrite Z.abs_eq by lia. change (10 ^ Z.of_nat 2) with 100.
  assert (HK : 0 < 2 ^ k) by lia. set (K := 2 ^ k) in *. clearbody K. unfold half_ulp in *.
  change (2 ^ 52) with 4503599627370496 in *.
  pose proof (rne_error (q * 100) K HK) as Hr. set (h := rne (q * 100) K) in *. clearbody h.
  exists h. split; [|split; [done|]].
  { destruct (Z.le_gt_cases 0 h) as [|Hh]; [done|]. assert (h * K <= (-1) * K) by (apply Z.mul_le_mono_nonneg_r; lia). lia. }
  assert (Hd2 : Z.abs (2 * (h * K - q * 100)) * d <= K * d) by (apply Z.mul_le_mono_nonneg_r; lia).
  rewrite <- (Z.abs_eq d) in Hd2 at 1 by lia. rewrite <- Z.abs_mul in Hd2.
  assert (Hn2 : n * K <= 6000000000 * d * K) by (apply Z.mul_le_mono_nonneg_r; lia).
  assert (Hg : K * (Z.abs (h * d - 100 * n) * 1000) <= K * (501 * d)); [|by apply Z.mul_le_mono_pos_l in Hg].
  replace (K * (Z.abs (h * d - 100 * n) * 1000)) with (Z.abs (h * K * d - 100 * n * K) * 1000).
  2:{ replace (h * K * d - 100 * n * K) with (K * (h * d - 100 * n)) by ring. rewrite Z.abs_mul, (Z.abs_eq K) by lia. ring. }
  replace (2 * (h * K - q * 100) * d) with (2 * (h * K * d - 100 * (q * d))) in Hd2 by ring. lia.
Qed.

(** The bits of the frames counted between the two readings. *)
Definition bits_counted (start_count end_count : Z) : Z := 8 * Z.of_nat sizeof_Sensor_t * u64 (end_count - start_count).

(** The unit a rate of [bits] in [ns] nanoseconds may be given in: [unit] bits
    per second, with its name. *)
Definition unit_for (bits ns unit : Z) (name : list Z) : Prop :=
  unit = 10 ^ 6 /\ name = str " Mbps" /\ 999999 * ns <= bits * 10 ^ 9 \/
  unit = 10 ^ 3 /\ name = str " Kbps" /\ bits * 10 ^ 9 <= 1000001 * ns.

(** [h] hundredths of the unit, for the rate of [bits] in [ns] nanoseconds. *)
Definition accurate (bits ns unit h : Z) : Prop :=
  0 <= h /\ Z.abs (h * (ns * unit) - 100 * (bits * 10 ^ 9)) * 1000 <= 501 * (ns * unit).

Lemma throughput_text_rate t0 t1 c0 c1 :
  clock_reading t0 -> clock_reading t1 -> 10 ^ 9 <= elapsed_ns t0 t1 -> u64 (c1 - c0) < 2 ^ 41 ->
  exists unit name h,
    throughput_text t0 t1 c0 c1 = str "THROUGHPUT: " ++ fmt_dec 2 false h ++ name ++ [LF] /\
    unit_for (bits_counted c0 c1) (elapsed_ns t0 t1) unit name /\
    accurate (bits_counted c0 c1) (elapsed_ns t0 t1) unit h.
Proof.
  intros H0 H1 HN Hf. assert (He := elapsed_near t0 t1 H0 H1 HN). set (N := elapsed_ns t0 t1) in *. clearbody N.
  unfold throughput_text, bits_counted. assert (Hf0 : 0 <= u64 (c1 - c0)) by (apply (uint_range 64); lia).
  set (f := u64 (c1 - c0)) in *. clearbody f. change (8 * Z.of_nat sizeof_Sensor_t) with 640. cbv zeta.
  destruct (bits_exact f) as (i & Hi & ->); [lia|].
  change (10 ^ 9) with 1000000000 in *. change (2 ^ 41) with 2199023255552 in *.
  destruct (Z.eq_dec f 0) as [->|Hf1].
  { destruct He as (q & k & -> & Hk & Hq & _). exists (10 ^ 3), (str " Kbps"), 0.
    assert (E : ddiv (DFin (640 * 0 * 2 ^ i) (- i)) (DFin q (- k)) = DFin 0 0).
    { unfold ddiv. destruct (Z.eqb_spec q 0); [lia|]. change (640 * 0 * 2 ^ i) with (0 * 2 ^ i). rewrite Z.mul_0_l. done. }
    rewrite E. split; [vm_compute; reflexivity|]. split; [right; split; [done|split; [done|lia]]|]. split; [done|lia]. }
  assert (Ht : near 5 (ddiv (DFin (640 * f * 2 ^ i) (- i)) (elapsedSeconds t0 t1)) (640 * f * 1000000000) N).
  { apply (ddiv_near _ _ _ 3); try done; lia. }
  set (T := ddiv _ _) in *. clearbody T. assert (Hg := near_dge T (640 * f * 1000000000) N 1000000).
  assert (Hunit : forall unit, 1000 <= unit <= 1000000 -> 640 * f * 1000000000 <= 6000000000 * (N * unit) ->
    exists h, fmt_f 2 (ddiv T (d_of_Z unit)) = fmt_dec 2 false h /\ accurate (640 * f) N unit h).
  { intros unit Hu Hl. assert (HU : 0 < N * unit) by (apply Z.mul_pos_pos; lia).
    assert (Hx : near 7 (ddiv T (d_of_Z unit)) (640 * f * 1000000000) (N * unit)).
    { apply (ddiv_int_near _ 5); try done. all: lia. }
    destruct (fmt_f_near _ _ _ (Z.mul_pos_pos (640 * f) 1000000000 ltac:(lia) ltac:(lia)) HU Hl Hx) as (h & Hh & E & Ha). by exists h. }
  destruct (dge T (d_of_Z 1000000)).
  - destruct (Hunit 1000000) as (h & E & Ha); [lia|lia|]. exists (10 ^ 6), (str " Mbps"), h. rewrite E.
    split; [done|]. split; [|done]. left. split; [done|]. split; [done|]. apply Hg; try done; lia.
  - assert (Hle : 640 * f * 1000000000 <= 1000001 * N) by (apply Hg; try done; lia).
    destruct (Hunit 1000) as (h & E & Ha); [lia|lia|]. exists (10 ^ 3), (str " Kbps"), h. rewrite E.
    split; [done|]. split; [|done]. right. split; [done|]. by split.
Qed.

Lemma rate_text_short name h :
  0 <= h < 10 ^ 16 -> (length name <= 5)%nat -> Forall (fun c => c <> NUL) name ->
  let text := str "THROUGHPUT: " ++ fmt_dec 2 false h ++ name ++ [LF] in
  (length text < 256)%nat /\ Forall (fun c => c <> NUL) text.
Proof.
  intros Hh Hl Hz. cbv zeta. split.
  - unfold fmt_dec. rewrite !length_app, length_fmt_pad.
    assert (length (fmt_uint 10 (h / 10 ^ Z.of_nat 2)) <= 16)%nat.
    { apply length_fmt_uint; [lia| |lia]. change (10 ^ Z.of_nat 2) with 100. change (10 ^ Z.of_nat 16) with (10 ^ 16).
      split; [apply Z.div_pos; lia|]. apply Z.div_lt_upper_bound; lia. }
    simpl length. lia.
  - apply Forall_app; split; [by repeat constructor|].
    apply Forall_app; split; [apply printable_nonzero, printable_fmt_dec; lia|].
    apply Forall_app; split; [done|by repeat constructor].
Qed.

Lemma accurate_small bits ns unit name h :
  0 < ns -> bits * 10 ^ 9 <= 2 ^ 51 * ns -> unit_for bits ns unit name -> accurate bits ns unit h ->
  h < 10 ^ 16 /\ (length name <= 5)%nat /\ Forall (fun c => c <> NUL) name.
Proof.
  intros Hn Hb Hu [Hh Ha]. split.
  - assert (0 < ns * unit) by (destruct Hu as [(-> & _)|(-> & _)]; lia).
    assert (2 ^ 51 * ns * 1000 <= 2251799813685248 * (ns * unit)) by (destruct Hu as [(-> & _)|(-> & _)]; lia).
    destruct (Z.lt_ge_cases h (10 ^ 16)) as [|Hge]; [done|]. exfalso.
    assert (10 ^ 16 * (ns * unit) <= h * (ns * unit)) by (apply Z.mul_le_mono_nonneg_r; lia).
    change (10 ^ 16) with 10000000000000000 in *. lia.
  - by destruct Hu as [(_ & -> & _)|(_ & -> & _)]; (split; [simpl; lia|repeat constructor]).
Qed.

(** C26.  The throughput shown to a user: [giveSensorThroughput] fails, without
    sending anything, when the clock fails; otherwise, for readings of the
    clock at least a second apart and fewer than 2^41 frames between them, it
    sends one line and the end marker (or a proper prefix, when [send]
    fails), and the line gives the bits of the frames per second in Mbps or
    Kbps with two decimals, of which the last differs from the exact rate
    by at most 0.501, for all the roundings of the computation; the unit is
    Mbps from a million bits per second on, up to one bit. *)
Theorem throughput_accurate t0 t1 c0 c1 w :
  clock_reading t0 -> clock_reading t1 -> 10 ^ 9 <= elapsed_ns t0 t1 -> u64 (c1 - c0) < 2 ^ 41 ->
  (exists unit name h,
    unit_for (bits_counted c0 c1) (elapsed_ns t0 t1) unit name /\
    accurate (bits_counted c0 c1) (elapsed_ns t0 t1) unit h /\
    wp (giveSensorThroughput (Some t0) (Some t1) c0 c1) w
      (written w ((str "THROUGHPUT: " ++ fmt_dec 2 false h ++ name ++ [LF]) ++ RESPONSE_END_MARKER)) (fun _ => False)) /\
  giveSensorThroughput None (Some t1) c0 c1 w = Done (-1) w /\
  giveSensorThroughput (Some t0) None c0 c1 w = Done (-1) w.
Proof.
  intros H0 H1 HN Hf. split; [|done]. destruct (throughput_text_rate t0 t1 c0 c1) as (unit & name & h & E & Hu & Ha); [done..|].
  exists unit, name, h. split; [done|]. split; [done|].
  assert (Hb : bits_counted c0 c1 * 10 ^ 9 <= 2 ^ 51 * elapsed_ns t0 t1).
  { unfold bits_counted. change (8 * Z.of_nat sizeof_Sensor_t) with 640. lia. }
  assert (Hn : 0 < elapsed_ns t0 t1) by lia. destruct (accurate_small _ _ _ _ _ Hn Hb Hu Ha) as (Hh & Hl & Hz).
  destruct (rate_text_short name h) as [Ht Hz']; [split; [apply Ha|done]|done..|]. cbv zeta in Ht, Hz'.
  unfold giveSensorThroughput. rewrite E. set (text := str "THROUGHPUT: " ++ _) in *. clearbody text.
  rewrite snprintf_fits by done. destruct (Z.ltb_spec (Z.of_nat (length text)) 0); [lia|].
  destruct (Z.leb_spec 256 (Z.of_nat (length text))); [lia|]. cbn [orb]. rewrite cstr_id by done.
  apply wp_written_seq; [apply writes|intros; apply writes].
Qed.

(** ** Instances of the theorems *)

(** 1234 frames in a little over ten seconds: 78.96 Kbps. *)
Definition example_start : timespec := {| tv_sec := 100; tv_nsec := 999000000 |}.
Definition example_end : timespec := {| tv_sec := 111; tv_nsec := 1000000 |}.

Example throughput_text_ex :
  throughput_text example_start example_end (2 ^ 64 - 34) 1200 = str "THROUGHPUT: 78.96 Kbps" ++ [LF].
Proof. vm_compute. reflexivity. Qed.

Lemma throughput_accurate_witness :
  let w := mk_io false [] [Takes 3; TxInterrupts 10] [] in
  (exists unit name h,
    unit_for (bits_counted (2 ^ 64 - 34) 1200) (elapsed_ns example_start example_end) unit name /\
    accurate (bits_counted (2 ^ 64 - 34) 1200) (elapsed_ns example_start example_end) unit h /\
    wp (giveSensorThroughput (Some example_start) (Some example_end) (2 ^ 64 - 34) 1200) w
      (written w ((str "THROUGHPUT: " ++ fmt_dec 2 false h ++ name ++ [LF]) ++ RESPONSE_END_MARKER)) (fun _ => False)) /\
  giveSensorThroughput None (Some example_end) (2 ^ 64 - 34) 1200 w = Done (-1) w /\
  giveSensorThroughput (Some example_start) None (2 ^ 64 - 34) 1200 w = Done (-1) w.
Proof.
  apply (throughput_accurate example_start example_end (2 ^ 64 - 34) 1200 (mk_io false [] [Takes 3; TxInterrupts 10] [])).
  - split; simpl; lia.
  - split; simpl; lia.
  - vm_compute. discriminate.
  - vm_compute. reflexivity.
Defined.
