(* ===== verification/TelemetryMain.v ===== *)
(** src/telemetry_d.c, [main]: frames from the processing daemon are entered in
    the registry, with the watchdog at work whenever the mutex is free.  The
    executable loop refines the transition system of [Registry]. *)
From S2P Require Import Prelude Machine Proc Sense Posix Interfaces SenseUtils Registry.
Local Open Scope Z_scope.

(** State of the daemon: the queue of frames with the signals, the registry,
    the memory [realloc] will add when the array has a given number of blocks
    ([None] when it fails), and the sweeps the watchdog makes each time the
    main loop leaves a critical section. *)
Record telemetry := mk_telemetry {
  t_io : io;
  t_reg : registry;
  t_alloc : nat -> option (nat -> Sensor_t);
  t_sweeps : list (list timespec)
}.

Definition set_t_io (w : io) (s : telemetry) : telemetry :=
  {| t_io := w; t_reg := t_reg s; t_alloc := t_alloc s; t_sweeps := t_sweeps s |}.
Definition on_t_io {A} (c : proc io A) : proc telemetry A := lift t_io set_t_io c.
Definition set_t_reg (r : registry) (s : telemetry) : telemetry :=
  {| t_io := t_io s; t_reg := r; t_alloc := t_alloc s; t_sweeps := t_sweeps s |}.

(** ** The operations *)

(** [receiveFrame(frame)]: the loop is [while(!exitRQ)]. *)
Definition receiveFrame_body (_ : unit) : proc io (unit + Z * list Z) :=
  let! e := read_exitRQ in
  if e then ret (inr (-1, [])) else
  let! r := mq_receive in
  match r with
  | Ok m => ret (inr (Z.of_nat (length m), m))
  | Err n => if n =? EINTR then ret (inl tt) else ret (inr (-1, []))
  end.

Definition receiveFrame : proc io (Z * list Z) :=
  iterate (fun _ w => rx_size (rx w)) receiveFrame_body tt.

(** [pthread_mutex_unlock(&registry_mutex)]: the watchdog sweeps until the main
    loop takes the mutex again. *)
Definition unlock : proc telemetry unit := modify (fun s =>
  {| t_io := t_io s; t_reg := fold_left (fun r t => sweep t r) (hd [] (t_sweeps s)) (t_reg s);
     t_alloc := t_alloc s; t_sweeps := tl (t_sweeps s) |}).

(** How the daemon ends: [main] returns a value, or it accesses memory outside
    the registry. *)
Inductive ended := Returned (code : Z) | Fault.

(** A critical section of the main loop; on an error [main] returns -1. *)
Definition critical (f : telemetry -> step_result) (k : proc telemetry (unit + ended)) : proc telemetry (unit + ended) :=
  fun s => match f s with
           | Continue r => (unlock ;! k) (set_t_reg r s)
           | ExitError => Done (inr (Returned (-1))) s
           | OutOfBounds => Done (inr Fault) s
           end.

(** One turn of the loop of [main]. *)
Definition main_body (_ : unit) : proc telemetry (unit + ended) :=
  let! e := on_t_io read_exitRQ in
  if e then ret (inr (Returned 0)) else
  critical (fun s => grow (t_alloc s (sensor_reallocation (t_reg s))) (t_reg s)) (
  let! (len, m) := on_t_io receiveFrame in
  if len =? -1 then
    let! e := on_t_io read_exitRQ in
    if e then ret (inr (Returned 0)) else ret (inr (Returned (-1)))
  else if negb (len =? Z.of_nat sizeof_Sensor_t) then ret (inl tt) else
  let data_frame := Sensor_of_bytes m in
  modify (fun s => set_t_reg (count_frame (t_reg s)) s) ;!
  critical (fun s => enter_frame data_frame (t_reg s)) (ret (inl tt))).

Definition main_loop : proc telemetry ended := iterate (fun _ s => rx_size (rx (t_io s))) main_body tt.

(** ** Facts *)

#[export] Instance telemetry_receiver : FrameReceiver receiveFrame.
Proof.
  intros w Q W H1 H2 H3. unfold receiveFrame.
  apply wp_iterate with (I := fun _ w' => drawn w [] w'); [apply drawn_refl|].
  intros [] w1 (e & evs & -> & Hm & Hs & Hq). simpl in Hm.
  unfold receiveFrame_body. apply wp_bind, wp_read_exitRQ_mq. cbn [rx set_rx]. intros e2 evs2 Hm2 Hs2 Hq2.
  destruct e2.
  { apply wp_ret, H2; [intros Hqw; by destruct (Hq2 (Hq Hqw))|]. exists true, evs2.
    split; [done|]. split; [simpl; congruence|]. split; [lia|]. intros Hqw. by destruct (Hq2 (Hq Hqw)). }
  apply wp_bind, mq_receive_spec; cbn [rx set_rx].
  - intros m e' evs' Hm' Hs' Hq'. apply wp_ret, H1; [|simpl; lia].
    exists e', evs'. split; [done|]. split; [by rewrite Hm, <- Hm2, Hm'|]. split; [lia|].
    intros Hqw. by apply Hq', Hq2, Hq.
  - intros n e' evs' Hm' Hs' Hq'.
    assert (Hdr : drawn w [] (set_rx e' evs' (set_rx false evs2 (set_rx e evs w)))).
    { exists e', evs'. split; [done|]. split; [simpl; congruence|]. split; [lia|]. intros Hqw. by apply Hq', Hq2, Hq. }
    destruct (Z.eqb_spec n EINTR); apply wp_ret; [split; [done|simpl; lia]|].
    apply H2; [|done]. intros Hqw. by destruct (Hq' (proj2 (Hq2 (Hq Hqw)))).
  - intros e' Hm'. apply H3; [congruence|done].
Qed.

(** Sweeps are steps of the transition system. *)
Lemma steps_sweeps s0 tr b ts r :
  steps s0 tr (mk_tstate b r) ->
  steps s0 (tr ++ map ASweep ts) (mk_tstate b (fold_left (fun r t => sweep t r) ts r)).
Proof.
  revert tr r. induction ts as [|t ts IH]; intros tr r H; simpl; [by rewrite app_nil_r|].
  rewrite cons_middle, app_assoc. apply IH. by eapply steps_snoc; [|constructor].
Qed.

Lemma entered_app a b : entered (a ++ b) = entered a ++ entered b.
Proof. induction a as [|[] a IH]; simpl; [done|done| |done|done]. by rewrite IH. Qed.

Lemma entered_sweeps ts : entered (map ASweep ts) = [].
Proof. by induction ts. Qed.

Section refinement.
Context (garbage : nat -> Sensor_t).

(** The registry [r] is reached in the transition system by entering the frames
    [fs]; [ready] as in [tstate]. *)
Definition reaches (fs : list Sensor_t) (ready : bool) (r : registry) : Prop :=
  exists tr, steps (initial_state garbage) tr (mk_tstate ready r) /\ entered tr = fs.

Lemma reaches_sweeps fs b ts r : reaches fs b r -> reaches fs b (fold_left (fun r t => sweep t r) ts r).
Proof.
  intros (tr & H & <-). exists (tr ++ map ASweep ts). split; [by apply steps_sweeps|].
  by rewrite entered_app, entered_sweeps, app_nil_r.
Qed.

Lemma reaches_step fs b r a b' r' :
  reaches fs b r -> step (mk_tstate b r) a (mk_tstate b' r') -> reaches (fs ++ entered [a]) b' r'.
Proof.
  intros (tr & H & <-) Hs. exists (tr ++ [a]). split; [by eapply steps_snoc|]. by rewrite entered_app.
Qed.

Lemma reaches_ok fs b r : reaches fs b r -> reg_ok r /\ (b = true -> has_slot r) /\ history fs r.
Proof.
  intros (tr & H & <-). destruct (steps_ok _ _ _ H) as [Hok Hs]. split; [done|]. split; [done|].
  by apply steps_history in H.
Qed.

(** Every [realloc] succeeds. *)
Definition memory (s : telemetry) : Prop := forall n, exists g, t_alloc s n = Some g.

(** A new sensor has no place in a full registry. *)
Definition rejected (fs : list Sensor_t) (f : Sensor_t) : Prop :=
  length (first_keys fs) = limit /\ sensor_key f ∉ first_keys fs.

Definition main_inv (s : telemetry) (_ : unit) (s' : telemetry) : Prop :=
  exists ms, messages (rx (t_io s)) = ms ++ messages (rx (t_io s')) /\
    reaches (frames_of ms) false (t_reg s') /\ (quiet (t_io s) -> quiet (t_io s')) /\ t_alloc s' = t_alloc s.

(** What the daemon has done: it has entered the frames among the messages [ms]
    of its queue; when nothing fails it waits, having handled all messages,
    unless it met the frame [m] of a new sensor with a full registry. *)
Definition main_post (s : telemetry) (waits : bool) (s' : telemetry) : Prop :=
  exists ms rest b r, messages (rx (t_io s)) = ms ++ rest /\ reaches (frames_of ms) b r /\
    (t_reg s' = r \/ t_reg s' = count_frame r) /\
    (quiet (t_io s) -> memory s ->
       (waits = true /\ rest = []) \/ exists m rest', rest = m :: rest' /\ length m = sizeof_Sensor_t /\
         rejected (frames_of ms) (Sensor_of_bytes m)).

Lemma main_stop s waits ms s' b w :
  messages (rx (t_io s)) = ms ++ messages (rx (t_io s')) -> reaches (frames_of ms) b (t_reg s') ->
  (quiet (t_io s) -> memory s -> waits = true /\ messages (rx (t_io s')) = []) ->
  main_post s waits (set_t_io w s').
Proof.
  intros Hm Hr Hn. exists ms, (messages (rx (t_io s'))), b, (t_reg s').
  split; [done|]. split; [done|]. split; [by left|]. intros. left. auto.
Qed.

(** The end of a turn: the frame is counted and entered. *)
Lemma enter_spec s ms m s1 size (Q : unit + ended -> telemetry -> Prop) W :
  messages (rx (t_io s)) = (ms ++ [m]) ++ messages (rx (t_io s1)) -> reaches (frames_of ms) true (t_reg s1) ->
  (quiet (t_io s) -> quiet (t_io s1)) -> t_alloc s1 = t_alloc s ->
  length m = sizeof_Sensor_t -> (rx_size (rx (t_io s1)) < size)%nat ->
  (forall s2, main_inv s tt s2 -> (rx_size (rx (t_io s2)) < size)%nat -> Q (inl tt) s2) ->
  (forall s2, main_post s false s2 -> Q (inr (Returned (-1))) s2) ->
  wp (modify (fun s => set_t_reg (count_frame (t_reg s)) s) ;!
      critical (fun s => enter_frame (Sensor_of_bytes m) (t_reg s)) (ret (inl tt))) s1 Q W.
Proof.
  intros Hm Hr Hq Ha Hl Hsz H1 H2. set (f := Sensor_of_bytes m).
  destruct (reaches_ok _ _ _ Hr) as (Hok & Hslot & Hk & _).
  apply wp_bind, wp_modify. unfold wp, critical. cbn [t_reg set_t_reg].
  assert (Hr2 : forall r', enter_frame f (count_frame (t_reg s1)) = Continue r' -> reaches (frames_of (ms ++ [m])) false r').
  { intros r' E. rewrite frames_of_snoc by done. by eapply (reaches_step _ _ _ (AEnter f)); [|constructor]. }
  destruct (enter_result f (count_frame (t_reg s1))) as [(i & s0 & _ & _ & _ & E & _)|[(Hkn & Hlim & E)|(_ & _ & s0 & r' & _ & E & _)]];
    [by apply count_frame_ok|by apply Hslot|..]; rewrite E; cbn [bind unlock modify].
  - apply H1; [|exact Hsz]. exists (ms ++ [m]). split; [exact Hm|]. split; [apply reaches_sweeps; by apply Hr2|]. by split.
  - apply H2. exists ms, (m :: messages (rx (t_io s1))), true, (t_reg s1). split; [by rewrite Hm, <- app_assoc|].
    split; [done|]. split; [by right|]. intros _ _. right. exists m. eexists. split; [done|]. split; [done|]. split.
    + rewrite <- Hk, length_map. unfold snapshot. rewrite length_take. cbn [count_frame sensor_count] in Hlim.
      destruct Hok. lia.
    + by rewrite <- Hk.
  - apply H1; [|exact Hsz]. exists (ms ++ [m]). split; [exact Hm|]. split; [apply reaches_sweeps; by apply Hr2|]. by split.
Qed.
End refinement.

Section run.
Context (garbage : nat -> Sensor_t).

(** The first critical section. *)
Lemma grow_never_faults alloc r :
  (exists r', grow alloc r = Continue r') \/ grow alloc r = ExitError /\ alloc = None.
Proof. unfold grow. repeat case_match; eauto. Qed.

Lemma telemetry_body_spec s s' :
  main_inv garbage s tt s' ->
  wp (main_body tt) s'
    (fun r s2 => match r with
       | inl u => main_inv garbage s u s2 /\ (rx_size (rx (t_io s2)) < rx_size (rx (t_io s')))%nat
       | inr e => e <> Fault /\ main_post garbage s false s2
       end)
    (main_post garbage s true).
Proof.
  intros (ms & Hm & Hr & Hq & Ha). unfold main_body. apply wp_bind, wp_lift, wp_read_exitRQ_mq.
  intros e evs Hme Hse Hqe. destruct e.
  { apply wp_ret. split; [done|]. eapply main_stop; [done|done|]. intros Hqs _. by destruct (Hqe (Hq Hqs)). }
  set (s1 := set_t_io (set_rx false evs (t_io s')) s').
  unfold wp at 1, critical at 1. change (t_reg s1) with (t_reg s'). change (t_alloc s1) with (t_alloc s').
  destruct (grow_never_faults (t_alloc s' (sensor_reallocation (t_reg s'))) (t_reg s')) as [[r' Eg]|[Eg En]]; rewrite Eg.
  2:{ split; [done|]. apply (main_stop garbage s false ms s' false (set_rx false evs (t_io s'))); [done|done|].
      intros _ Hmem. rewrite Ha in En. destruct (Hmem (sensor_reallocation (t_reg s'))) as [g Eg']. congruence. }
  assert (Hr1 : reaches garbage (frames_of ms) true r').
  { rewrite <- (app_nil_r (frames_of ms)). by eapply (reaches_step _ _ _ _ (AGrow _)); [|constructor]. }
  apply (reaches_sweeps _ _ _ (hd [] (t_sweeps s1))) in Hr1. unfold bind at 1, unlock at 1, modify at 1.
  set (s2 := {| t_io := _ |}). change (t_io (set_t_reg r' s1)) with (set_rx false evs (t_io s')) in s2.
  assert (Hm2 : messages (rx (t_io s2)) = messages (rx (t_io s'))) by done.
  assert (Hq2 : quiet (t_io s) -> quiet (t_io s2)) by (intros Hqs; by apply Hqe, Hq).
  change (reaches garbage (frames_of ms) true (t_reg s2)) in Hr1.
  assert (Ha2 : t_alloc s2 = t_alloc s) by done.
  assert (Hz2 : (rx_size (rx (t_io s2)) <= rx_size (rx (t_io s')))%nat) by done.
  clearbody s2. clear Eg r' s1 Hr Hq Ha Hqe Hme Hse evs.
  change (match ?c s2 with Done a s0 => _ a s0 | Waits s0 => _ s0 | NoFuel => False end)
    with (wp c s2 (fun r s2 => match r with
       | inl u => main_inv garbage s u s2 /\ (rx_size (rx (t_io s2)) < rx_size (rx (t_io s')))%nat
       | inr e => e <> Fault /\ main_post garbage s false s2 end) (main_post garbage s true)).
  rewrite <- Hm2 in Hm. clear Hm2. apply wp_bind, wp_lift, (receives _).
  - intros m w (e' & evs' & -> & Hm' & Hs' & Hq') Hlt. cbn [rx set_rx] in *.
    destruct (Z.eqb_spec (Z.of_nat (length m)) (-1)); [lia|].
    rewrite Hm' in Hm. change ([m] ++ ?r) with (m :: r) in Hm. rewrite cons_middle, app_assoc in Hm.
    destruct (Z.eqb_spec (Z.of_nat (length m)) (Z.of_nat sizeof_Sensor_t)) as [El|El]; cbn [negb].
    + apply (enter_spec garbage s ms m _ (rx_size (rx (t_io s')))); [done|done|simpl; auto|done|lia|simpl; lia|..].
      * by intros s3 H3 H4.
      * by intros s3 H3.
    + apply wp_ret. split; [|simpl; lia]. exists (ms ++ [m]). split; [done|].
      rewrite frames_of_skip by lia. split; [|simpl; auto].
      destruct Hr1 as (tr & H1 & H2). exists (tr ++ [AIgnore]). split; [eapply steps_snoc; [done|constructor]|].
      by rewrite entered_app, H2, app_nil_r.
  - intros w Hnq (e' & evs' & -> & Hm' & _). cbn [Z.eqb]. apply wp_bind, wp_lift, wp_read_exitRQ_mq.
    intros e evs _ _ _. destruct e; apply wp_ret; (split; [done|]);
      apply (main_stop garbage s false ms s2 true); try done; intros Hqs; by destruct Hnq; apply Hq2.
  - intros w Hw _. by apply (main_stop garbage s true ms s2 true).
Qed.

Lemma main_loop_post s :
  t_reg s = initial_registry garbage ->
  wp main_loop s (fun e s' => e <> Fault /\ main_post garbage s false s') (main_post garbage s true).
Proof.
  intros Hr. apply wp_iterate with (I := main_inv garbage s); [|intros [] s' HI; by apply telemetry_body_spec].
  exists []. split; [done|]. split; [|by split]. rewrite Hr. exists []. split; [constructor|done].
Qed.
End run.

(** ** Properties *)


Lemma first_keys_prefix fs gs : exists ks, first_keys (fs ++ gs) = first_keys fs ++ ks.
Proof.
  induction gs as [|g gs [ks IH]] using rev_ind; [exists []; by rewrite !app_nil_r|].
  rewrite app_assoc, first_keys_snoc. unfold add_key. destruct (decide _); [by exists ks|].
  exists (ks ++ [sensor_key g]). by rewrite IH, app_assoc.
Qed.

(** A rejected frame would be one sensor too many. *)
Lemma rejected_many fs f gs : rejected fs f -> (limit < length (first_keys (fs ++ f :: gs)))%nat.
Proof.
  intros [Hl Hk]. rewrite cons_middle, app_assoc. destruct (first_keys_prefix (fs ++ [f]) gs) as [ks ->].
  rewrite first_keys_snoc. unfold add_key. rewrite decide_False by done. rewrite !length_app. cbn [length]. lia.
Qed.

(** The run when nothing fails. *)
Lemma main_loop_waits garbage s :
  t_reg s = initial_registry garbage -> quiet (t_io s) -> memory s ->
  let fs := frames_of (messages (rx (t_io s))) in
  (length (first_keys fs) <= limit)%nat ->
  wp main_loop s (fun _ _ => False)
    (fun s' => map sensor_key (snapshot (t_reg s')) = first_keys fs /\ Forall (shows fs) (snapshot (t_reg s'))).
Proof.
  intros Hr Hq Hmem fs Hl.
  assert (Hno : forall ms m rest, messages (rx (t_io s)) = ms ++ m :: rest -> length m = sizeof_Sensor_t ->
    ~ rejected (frames_of ms) (Sensor_of_bytes m)).
  { intros ms m rest Hm Hlm Hrej. unfold fs in Hl. rewrite Hm, cons_middle, !frames_of_app, frames_of_one in Hl by done.
    apply (rejected_many _ _ (frames_of rest)) in Hrej. simpl in Hl, Hrej. lia. }
  eapply wp_mono; [by apply main_loop_post|..].
  - intros e s' [_ (ms & rest & b & r & Hm & _ & _ & Hc)].
    destruct (Hc Hq Hmem) as [[? _]|(m & rest' & -> & Hlm & Hrej)]; [done|]. by eapply Hno.
  - intros s' (ms & rest & b & r & Hm & Hre & Ht & Hc).
    destruct (Hc Hq Hmem) as [[_ ->]|(m & rest' & -> & Hlm & Hrej)]; [|exfalso; by eapply Hno].
    rewrite app_nil_r in Hm. unfold fs. rewrite Hm. apply reaches_ok in Hre as (_ & _ & Hh).
    by destruct Ht as [-> | ->].
Qed.

(** C15.  The telemetry daemon keeps running: when nothing fails and the frames of
    its queue come from at most 128 sensors, the loop does not end; when it
    waits, every frame has been entered, and the registry lists the sensors in
    order of their first frame, each with the last-seen time of its last frame
    and the data of its last data frame. *)
Theorem telemetry_keeps_running garbage s :
  t_reg s = initial_registry garbage -> quiet (t_io s) -> memory s ->
  let fs := frames_of (messages (rx (t_io s))) in
  (length (first_keys fs) <= limit)%nat ->
  wp main_loop s (fun _ _ => False)
    (fun s' => map sensor_key (snapshot (t_reg s')) = first_keys fs /\ Forall (shows fs) (snapshot (t_reg s'))).
Proof. apply main_loop_waits. Qed.

(** ** Instances of the theorems *)

(** A heartbeat of sensor 0 and an incomplete message, with a sweep before the
    heartbeat is entered. *)
Definition example_daemon : telemetry :=
  mk_telemetry (mk_io false [Arrives (Sensor_bytes zero_sensor); Interrupts 10; Arrives [1; 2]] [] [])
    (initial_registry example_garbage) (fun _ => Some example_garbage) [[example_sweep]].


Lemma telemetry_keeps_running_witness :
  let fs := frames_of (messages (rx (t_io example_daemon))) in
  wp main_loop example_daemon (fun _ _ => False)
    (fun s' => map sensor_key (snapshot (t_reg s')) = first_keys fs /\ Forall (shows fs) (snapshot (t_reg s'))).
Proof.
  apply (telemetry_keeps_running example_garbage example_daemon).
  - reflexivity.
  - split; [reflexivity|repeat constructor; discriminate].
  - intros n. exists example_garbage. reflexivity.
  - apply Nat.leb_le. vm_compute. reflexivity.
Defined.
