(* ===== verification/UserHandler.v ===== *)
(** src/telemetry_d.c, one connection of the telemetry interface:
    [userHandler] finds the sync byte, reads a selection and its argument, and
    answers from the registry.  The theorems relate it to [answers], the
    replies to the requests found in the byte stream. *)
From S2P Require Import Prelude Machine Proc CText CFloat Sense Posix Interfaces SenseUtils Registry Acquiring Replies.
Local Open Scope Z_scope.

Definition SYNC_BYTE : Z := 0xAA.
Definition SYNC_BYTE_SIZE : nat := 1.
Definition SELECTION_BYTE_SIZE : nat := 1.
Definition SELECTION_BYTE_GETALL : Z := 0xF6.
Definition SELECTION_BYTE_GETTYPE : Z := 0xF7.
Definition SELECTION_BYTE_GETID : Z := 0xFB.
Definition SELECTION_BYTE_GETONLINE : Z := 0xFD.
Definition SELECTION_BYTE_GETOFFLINE : Z := 0xFE.
Definition SELECTION_BYTE_GETTHROUGHPUT : Z := 0xFC.
Definition ID_BYTE_SIZE : nat := 2.
Definition TYPE_BYTE_SIZE : nat := 1.

(** ** The operations *)

(** [socket_recv], the copy of this file. *)
Definition socket_recv_body (len : nat) (got : list Z) : proc io (list Z + Z * list Z) :=
  if (length got <? len)%nat then
    let! r := recv (len - length got) in
    match r with
    | Ok [] => ret (inr (0, got))
    | Ok d => ret (inl (got ++ d))
    | Err n =>
        if n =? EINTR then
          let! e := read_exitRQ in
          if e then ret (inr (-1, got)) else ret (inl got)
        else ret (inr (-1, got))
    end
  else ret (inr (Z.of_nat (length got), got)).

Definition socket_recv (len : nat) : proc io (Z * list Z) :=
  iterate (fun _ w => rx_size (rx w)) (socket_recv_body len) [].

(** Why the connection is closed: the messages of the log. *)
Inductive ending := EExit | EDisconnected | ERecvFailed | ESendFailed | EUnsupported.

(** What the handler reads from the rest of the daemon at its [k]-th request:
    the registry when it holds the mutex, whether [malloc] succeeds, the
    clock and the frame counter at both ends of the throughput interval. *)
Record service := mk_service {
  at_registry : nat -> registry;
  at_alloc : nat -> bool;
  at_times : nat -> option timespec * option timespec;
  at_counts : nat -> Z * Z
}.

(** The loop that looks for the sync byte; the loop variable is
    [sync_byte_data]. *)
Definition sync_body (sync_byte_data : Z) : proc io (Z + option ending) :=
  if sync_byte_data =? SYNC_BYTE then ret (inr None) else
  let! (bytes_read, d) := socket_recv SYNC_BYTE_SIZE in
  if bytes_read =? 0 then ret (inr (Some EDisconnected)) else
  if bytes_read <? 0 then ret (inr (Some ERecvFailed)) else
  ret (inl (nth 0 d 0)).

Definition find_sync : proc io (option ending) := iterate (fun _ w => rx_size (rx w)) sync_body 0.

(** A read of [len] bytes followed by the checks of its result. *)
Definition read_field (len : nat) (k : list Z -> proc io (nat + ending)) : proc io (nat + ending) :=
  let! (bytes_read, d) := socket_recv len in
  if bytes_read =? 0 then ret (inr EDisconnected) else
  if bytes_read <? 0 then ret (inr ERecvFailed) else k d.

Definition sent_or_stop (n : nat) (c : proc io Z) : proc io (nat + ending) :=
  let! r := c in if r =? -1 then ret (inr ESendFailed) else ret (inl (S n)).

Section handler.
Context (tz : Z) (sv : service).

(** The part of a turn of the loop after the sync byte. *)
Definition serve_selection (n : nat) : proc io (nat + ending) :=
  read_field SELECTION_BYTE_SIZE (fun d =>
  let selection_byte := nth 0 d 0 in
  let r := at_registry sv n in
  if selection_byte =? SELECTION_BYTE_GETID then
    read_field ID_BYTE_SIZE (fun d =>
    let call_id := le_val d in
    let target_sensor := getSensor_ID call_id (slots r) (sensor_count r) in
    sent_or_stop n (let! a := giveSensor tz target_sensor in
                    if a =? -1 then ret (-1) else sendResponseEnd))
  else if selection_byte =? SELECTION_BYTE_GETTYPE then
    read_field TYPE_BYTE_SIZE (fun d =>
    let call_type := nth 0 d 0 in
    sent_or_stop n (giveSensorAll_Type tz call_type (at_alloc sv n) r))
  else if selection_byte =? SELECTION_BYTE_GETONLINE then
    sent_or_stop n (giveSensorAll_Online tz (at_alloc sv n) r)
  else if selection_byte =? SELECTION_BYTE_GETOFFLINE then
    sent_or_stop n (giveSensorAll_Offline tz (at_alloc sv n) r)
  else if selection_byte =? SELECTION_BYTE_GETALL then
    sent_or_stop n (giveSensorAll tz (at_alloc sv n) r)
  else if selection_byte =? SELECTION_BYTE_GETTHROUGHPUT then
    sent_or_stop n (giveSensorThroughput (at_times sv n).1 (at_times sv n).2
                      (at_counts sv n).1 (at_counts sv n).2)
  else ret (inr EUnsupported)).

(** One turn of the loop of [userHandler]; the loop variable counts the
    requests answered. *)
Definition userHandler_body (n : nat) : proc io (nat + ending) :=
  let! e := read_exitRQ in
  if e then ret (inr EExit) else
  let! failed := find_sync in
  match failed with Some why => ret (inr why) | None => serve_selection n end.

(** [userHandler]; it closes the socket on every way out. *)
Definition userHandler : proc io ending :=
  iterate (fun _ w => rx_size (rx w)) userHandler_body 0%nat.

(** ** The requests of a stream and their answers *)

Inductive request :=
| ReqAll | ReqType (type_byte : Z) | ReqId (call_id : Z) | ReqOnline | ReqOffline | ReqThroughput
| ReqUnsupported.

Fixpoint skip_to_sync (bs : list Z) : option (list Z) :=
  match bs with
  | [] => None
  | b :: bs => if b =? SYNC_BYTE then Some bs else skip_to_sync bs
  end.

(** The request after the sync byte. *)
Definition selection (bs : list Z) : option (request * list Z) :=
  match bs with
  | [] => None
  | sel :: bs =>
      if sel =? SELECTION_BYTE_GETID then
        match bs with b0 :: b1 :: bs => Some (ReqId (le_val [b0; b1]), bs) | _ => None end
      else if sel =? SELECTION_BYTE_GETTYPE then
        match bs with t :: bs => Some (ReqType t, bs) | _ => None end
      else if sel =? SELECTION_BYTE_GETONLINE then Some (ReqOnline, bs)
      else if sel =? SELECTION_BYTE_GETOFFLINE then Some (ReqOffline, bs)
      else if sel =? SELECTION_BYTE_GETALL then Some (ReqAll, bs)
      else if sel =? SELECTION_BYTE_GETTHROUGHPUT then Some (ReqThroughput, bs)
      else Some (ReqUnsupported, bs)
  end.

Definition next_request (bs : list Z) : option (request * list Z) :=
  match skip_to_sync bs with None => None | Some bs => selection bs end.

(** The reply to the [n]-th request, [None] when the connection is closed
    without one. *)
Definition answer (n : nat) (req : request) : option (list Z) :=
  let r := at_registry sv n in
  let listing sel :=
    if (0 <? sensor_count r)%nat && negb (at_alloc sv n) then None
    else Some (lines tz (List.filter sel (snapshot r)) ++ RESPONSE_END_MARKER) in
  match req with
  | ReqAll => listing (fun _ => true)
  | ReqType t => if supported t then listing (fun s => type s =? t) else None
  | ReqId i => Some (sensor_line tz (getSensor_ID i (slots r) (sensor_count r)) ++ RESPONSE_END_MARKER)
  | ReqOnline => listing (fun s => state s =? SENSOR_ONLINE)
  | ReqOffline => listing (fun s => state s =? SENSOR_OFFLINE)
  | ReqThroughput =>
      match at_times sv n with
      | (Some t0, Some t1) =>
          let text := throughput_text t0 t1 (at_counts sv n).1 (at_counts sv n).2 in
          if (length text <? 256)%nat then Some (text ++ RESPONSE_END_MARKER) else None
      | _ => None
      end
  | ReqUnsupported => None
  end.

Fixpoint answers_fuel (fuel n : nat) (bs : list Z) : list Z :=
  match fuel with
  | O => []
  | S fuel =>
      match next_request bs with
      | None => []
      | Some (req, bs) =>
          match answer n req with
          | None => []
          | Some text => text ++ answers_fuel fuel (S n) bs
          end
      end
  end.

(** All the bytes sent in reply to a stream, from the [n]-th request on; every
    request takes at least two bytes. *)
Definition answers (n : nat) (bs : list Z) : list Z := answers_fuel (length bs) n bs.
End handler.

(** ** Facts *)

Lemma socket_recv_copies : socket_recv = Acquiring.socket_recv.
Proof. reflexivity. Qed.

Section facts.
Context (tz : Z) (sv : service).
#[local] Abbreviation answers := (answers tz sv).
#[local] Abbreviation answer := (answer tz sv).

Lemma skip_to_sync_length bs r : skip_to_sync bs = Some r -> (length r < length bs)%nat.
Proof.
  induction bs as [|b bs IH]; simpl; [done|]. destruct (b =? SYNC_BYTE); [intros [= ->]; lia|].
  intros H%IH. lia.
Qed.

Lemma selection_length bs req r : selection bs = Some (req, r) -> (length r < length bs)%nat.
Proof.
  destruct bs as [|sel bs]; simpl; [done|].
  repeat case_match; intros [= <- <-]; subst; simpl; lia.
Qed.

Lemma answers_fuel_enough f1 f2 n bs :
  (length bs <= f1)%nat -> (length bs <= f2)%nat -> answers_fuel tz sv f1 n bs = answers_fuel tz sv f2 n bs.
Proof.
  assert (H0 : forall f n, answers_fuel tz sv f n [] = []) by (by intros []).
  revert f2 n bs. induction f1 as [|f1 IH]; intros [|f2] n bs H1 H2; try done.
  1,2: destruct bs; [by rewrite !H0|simpl in *; lia].
  cbn [answers_fuel]. unfold next_request.
  destruct (skip_to_sync bs) as [r|] eqn:E; [|done]. apply skip_to_sync_length in E.
  destruct (selection r) as [[req r']|] eqn:E'; [|done]. apply selection_length in E'.
  destruct (answer n req); [|done]. f_equal. apply IH; lia.
Qed.

Lemma answers_unfold n bs :
  answers n bs = match next_request bs with
                 | None => []
                 | Some (req, r) => match answer n req with None => [] | Some text => text ++ answers (S n) r end
                 end.
Proof.
  unfold answers at 1. destruct (length bs) as [|k] eqn:E.
  - by destruct bs.
  - cbn [answers_fuel]. unfold next_request. destruct (skip_to_sync bs) as [r|] eqn:Es; [|done].
    apply skip_to_sync_length in Es. destruct (selection r) as [[req r']|] eqn:E'; [|done].
    apply selection_length in E'. destruct (answer n req); [|done]. f_equal.
    apply answers_fuel_enough; lia.
Qed.

(** *** Reading a request *)

Lemma find_sync_spec w (Q : option ending -> io -> Prop) (W : io -> Prop) :
  (forall w' r, skip_to_sync (stream (rx w)) = Some r -> stream (rx w') = r ->
     (rx_size (rx w') < rx_size (rx w))%nat -> (quiet w -> quiet w') -> reads w w' -> Q None w') ->
  (forall why w', (quiet w -> skip_to_sync (stream (rx w)) = None) -> reads w w' -> Q (Some why) w') ->
  (forall w', skip_to_sync (stream (rx w)) = None -> reads w w' -> W w') ->
  wp find_sync w Q W.
Proof.
  intros H1 H2 H3. unfold find_sync.
  apply wp_iterate with (I := fun b w' =>
    (if b =? SYNC_BYTE
     then skip_to_sync (stream (rx w)) = Some (stream (rx w')) /\ (rx_size (rx w') < rx_size (rx w))%nat
     else skip_to_sync (stream (rx w)) = skip_to_sync (stream (rx w')) /\ (rx_size (rx w') <= rx_size (rx w))%nat) /\
    (quiet w -> quiet w') /\ reads w w').
  { split; [done|]. split; [done|apply reads_refl]. }
  intros b w' (Hb & Hq & Hr). unfold sync_body. destruct (b =? SYNC_BYTE).
  { destruct Hb as [Hs Hm]. apply wp_ret. by eapply H1. }
  destruct Hb as [Hs Hm]. apply wp_bind. rewrite socket_recv_copies. unfold SYNC_BYTE_SIZE.
  assert (Hnone : (length (stream (rx w')) < 1)%nat -> skip_to_sync (stream (rx w)) = None).
  { rewrite Hs. destruct (stream (rx w')); [done|simpl; lia]. }
  apply socket_recv_spec; [lia|..].
  - intros d w2 Hd Ht. assert (Ht2 := taken_reads _ _ _ Ht). destruct d as [|c [|]]; [done| |done].
    destruct Ht as (e & evs & -> & Hs' & Hm' & Hlt & Hq'). specialize (Hlt ltac:(done)). apply wp_ret.
    cbn [nth rx set_rx] in *. split; [|by cbn].
    split; [|split; [by auto|eauto with gw]]. rewrite Hs, <- Hs'. cbn [app skip_to_sync].
    destruct (c =? SYNC_BYTE); (split; [done|lia]).
  - intros d w2 Hd E Hq' Hr'. apply wp_ret, H2; [|eauto with gw]. intros _. apply Hnone. by rewrite <- E.
  - intros d w2 Hd Hnq Hr'. apply wp_ret, H2; [|eauto with gw]. intros Hqw. by destruct Hnq; apply Hq.
  - intros w2 Hd Hr'. apply H3; [|eauto with gw]. by apply Hnone.
Qed.

Lemma read_field_spec len k w (Q : nat + ending -> io -> Prop) (W : io -> Prop) :
  (0 < len)%nat ->
  (forall d w', length d = len -> taken w d w' -> wp (k d) w' Q W) ->
  (forall why w', (quiet w -> (length (stream (rx w)) < len)%nat) -> reads w w' -> Q (inr why) w') ->
  (forall w', (length (stream (rx w)) < len)%nat -> reads w w' -> W w') ->
  wp (read_field len k) w Q W.
Proof.
  intros Hlen H1 H2 H3. unfold read_field. apply wp_bind. rewrite socket_recv_copies.
  apply socket_recv_spec; [done|..].
  - intros d w' Hd Ht. destruct (Z.eqb_spec (Z.of_nat len) 0); [lia|].
    destruct (Z.ltb_spec (Z.of_nat len) 0); [lia|]. by apply H1.
  - intros d w' Hd E _ Hr. apply wp_ret, H2; [|done]. by rewrite <- E.
  - intros d w' _ Hnq Hr. by apply wp_ret, H2.
  - intros w' Hd Hr. by apply H3.
Qed.

(** *** Answering a request *)

(** A computation gives the specified answer. *)
Definition serves (n : nat) (req : request) (c : proc io Z) : Prop :=
  forall w, match answer n req with
            | Some text => wp c w (written w text) (fun _ => False)
            | None => c w = Done (-1) w
            end.

(** The frames of the registry are of their C type. *)
Context (Hnamed : forall n, Forall named (snapshot (at_registry sv n))).

Lemma zero_sensor_named : named zero_sensor.
Proof. done. Qed.

Lemma find_id_named i l : Forall named l -> match find_id i l with Some s => named s | None => True end.
Proof. induction 1 as [|s l Hs _ IH]; simpl; [done|]. by destruct (id s =? i). Qed.

Lemma serves_id n call_id :
  serves n (ReqId call_id)
    (let! a := giveSensor tz (getSensor_ID call_id (slots (at_registry sv n)) (sensor_count (at_registry sv n))) in
     if a =? -1 then ret (-1) else sendResponseEnd).
Proof.
  intros w. cbn [UserHandler.answer]. apply wp_written_seq; [|intros; apply writes].
  apply giveSensor_spec. unfold getSensor_ID. pose proof (find_id_named call_id _ (Hnamed n)) as H.
  unfold snapshot in H. destruct (find_id _ _); [done|apply zero_sensor_named].
Qed.

Lemma serves_list n req sel :
  answer n req = (if (0 <? sensor_count (at_registry sv n))%nat && negb (at_alloc sv n) then None
                  else Some (lines tz (List.filter sel (snapshot (at_registry sv n))) ++ RESPONSE_END_MARKER)) ->
  serves n req (give_list tz sel (at_alloc sv n) (at_registry sv n)).
Proof.
  intros E w. rewrite E. unfold give_list. destruct (_ && _); [done|].
  apply wp_written_seq; [by apply give_selected_spec|intros; apply writes].
Qed.

Lemma serves_type n t :
  serves n (ReqType t) (giveSensorAll_Type tz t (at_alloc sv n) (at_registry sv n)).
Proof.
  unfold giveSensorAll_Type. rewrite findSensorType_supported. destruct (supported t) eqn:E.
  - destruct (Z.eqb_spec t SENSOR_TYPE_UNSUPPORTED) as [-> | _]; [done|].
    apply serves_list. cbn [UserHandler.answer]. by rewrite E.
  - intros w. cbn [UserHandler.answer]. by rewrite E.
Qed.

Lemma throughput_nonzero t0 t1 c0 c1 : Forall (fun c => c <> NUL) (throughput_text t0 t1 c0 c1).
Proof.
  unfold throughput_text. destruct (dge _ _);
    (repeat (apply Forall_app; split); try (apply printable_nonzero; auto with printable; fail); by repeat constructor).
Qed.

Lemma serves_throughput n :
  serves n ReqThroughput
    (giveSensorThroughput (at_times sv n).1 (at_times sv n).2 (at_counts sv n).1 (at_counts sv n).2).
Proof.
  intros w. cbn [UserHandler.answer]. destruct (at_times sv n) as [[t0|] [t1|]]; try done. cbn [fst snd].
  unfold giveSensorThroughput. pose proof (throughput_nonzero t0 t1 (at_counts sv n).1 (at_counts sv n).2) as Hz.
  set (text := throughput_text _ _ _ _) in *. destruct (Nat.ltb_spec (length text) 256) as [Hl|Hl].
  - rewrite snprintf_fits by done. destruct (Z.ltb_spec (Z.of_nat (length text)) 0); [lia|].
    destruct (Z.leb_spec 256 (Z.of_nat (length text))); [lia|]. cbn [orb]. rewrite cstr_id by done.
    apply wp_written_seq; [apply writes|intros; apply writes].
  - unfold snprintf. destruct (Z.leb_spec 256 (Z.of_nat (length text))); [|lia]. by rewrite orb_true_r.
Qed.

(** *** The loop *)

Definition user_inv (w0 : io) (n : nat) (w : io) : Prop :=
  exists d, sent w = sent w0 ++ d /\ answers 0 (stream (rx w0)) = d ++ answers n (stream (rx w)) /\
    (quiet w0 -> tx w0 = [] -> quiet w /\ tx w = []).

(** What a connection has sent: part of the answers, all of them in a quiet
    environment. *)
Definition user_post (w0 w : io) : Prop :=
  exists d rest, answers 0 (stream (rx w0)) = d ++ rest /\ sent w = sent w0 ++ d /\
    (quiet w0 -> tx w0 = [] -> rest = []).

Definition turn_post (w0 : io) (w : io) (r : nat + ending) (w' : io) : Prop :=
  match r with
  | inl n' => user_inv w0 n' w' /\ (rx_size (rx w') < rx_size (rx w))%nat
  | inr _ => user_post w0 w'
  end.

Lemma user_stop w0 n w w' :
  user_inv w0 n w -> reads w w' -> (quiet w -> answers n (stream (rx w)) = []) -> user_post w0 w'.
Proof.
  intros (d & Hs & Ha & Hq) [Hr _]%reads_sent Hn. exists d, (answers n (stream (rx w))).
  split; [done|]. split; [congruence|]. intros H1 H2. destruct (Hq H1 H2). auto.
Qed.

Lemma answers_none n bs : next_request bs = None -> answers n bs = [].
Proof. intros E. by rewrite answers_unfold, E. Qed.

Lemma user_reply w0 n w w1 req c :
  user_inv w0 n w -> reads w w1 -> (quiet w -> quiet w1) ->
  next_request (stream (rx w)) = Some (req, stream (rx w1)) -> (rx_size (rx w1) < rx_size (rx w))%nat ->
  serves n req c -> wp (sent_or_stop n c) w1 (turn_post w0 w) (user_post w0).
Proof.
  intros (d & Hs & Ha & Hq) Hr Hq1 Hn Hlt Hc. assert (Hrs := reads_sent _ _ Hr). destruct Hrs as [Hrs Hrt].
  specialize (Hc w1). rewrite (answers_unfold n), Hn in Ha. unfold sent_or_stop. apply wp_bind.
  destruct (answer n req) as [text|] eqn:E.
  - eapply wp_mono; [exact Hc| |done]. intros r w2 [[Hk1 Hk2] Hw].
    destruct Hw as [[-> Hs2]|(-> & Hx & k & Hk & Hs2)]; apply wp_ret; cbn [Z.eqb turn_post].
    + split; [|by rewrite Hk1]. exists (d ++ text). split; [by rewrite Hs2, Hrs, Hs, app_assoc|].
      split; [by rewrite Ha, Hk1, app_assoc|]. intros H1 H2. destruct (Hq H1 H2) as [H3 H4].
      rewrite <- Hrt in H4. destruct (Hk2 H4) as [H5 H6]. destruct (Hq1 H3) as [H7 H8].
      split; [|done]. split; [congruence|by rewrite Hk1].
    + exists (d ++ take k text), (drop k text ++ answers (S n) (stream (rx w1))).
      split; [by rewrite Ha, <- app_assoc, (app_assoc (take k text)), take_drop|].
      split; [by rewrite Hs2, Hrs, Hs, app_assoc|]. intros H1 H2. destruct (Hq H1 H2) as [_ H4]. congruence.
  - unfold wp. rewrite Hc. cbn. exists d, []. rewrite app_nil_r in *. split; [done|]. split; [congruence|done].
Qed.

(** A request read but not answered. *)
Lemma user_unanswered w0 n w w' req r :
  user_inv w0 n w -> reads w w' -> next_request (stream (rx w)) = Some (req, r) -> answer n req = None ->
  user_post w0 w'.
Proof.
  intros Hi Hr Hn Ha. eapply user_stop; [done|done|]. intros _. by rewrite answers_unfold, Hn, Ha.
Qed.

(** The state [w1] at which the sync byte of the turn from [w] was found. *)
Definition synced (w w1 : io) : Prop :=
  next_request (stream (rx w)) = selection (stream (rx w1)) /\ reads w w1 /\ (quiet w -> quiet w1) /\
  (rx_size (rx w1) < rx_size (rx w))%nat.

Lemma synced_stop w0 n w w1 w2 :
  user_inv w0 n w -> synced w w1 -> reads w1 w2 -> (quiet w1 -> selection (stream (rx w1)) = None) ->
  user_post w0 w2.
Proof.
  intros Hi (Hn & Hr & Hq & _) Hr2 Hs. eapply user_stop; [done|eauto with gw|].
  intros Hqw. apply answers_none. rewrite Hn. auto.
Qed.

(** A request read in full after the sync byte. *)
Lemma synced_reply w0 n w w1 d w2 req c :
  user_inv w0 n w -> synced w w1 -> taken w1 d w2 -> selection (stream (rx w1)) = Some (req, stream (rx w2)) ->
  serves n req c -> wp (sent_or_stop n c) w2 (turn_post w0 w) (user_post w0).
Proof.
  intros Hi (Hn & Hr & Hq & Hm) Ht Hs Hc.
  assert (Hr2 := taken_reads _ _ _ Ht). destruct Ht as (e & evs & E & _ & Hm2 & _ & Hq2).
  eapply user_reply; [done|eauto with gw|auto|by rewrite Hn|subst w2; simpl; lia|done].
Qed.

(** Reading on. *)
Lemma taken_trans w d w1 d' w2 : taken w d w1 -> taken w1 d' w2 -> taken w (d ++ d') w2.
Proof.
  intros H1 (e & evs & -> & H2). destruct H2 as (Hs & Hm & Hlt & Hq). by eapply taken_step.
Qed.

Lemma taken_stream w d w' : taken w d w' -> stream (rx w) = d ++ stream (rx w').
Proof. by intros (e & evs & -> & Hs & _). Qed.

(** Reading the next field of the request: a request cut short is none. *)
Lemma synced_field w0 n w w1 d w2 len k :
  (0 < len)%nat -> user_inv w0 n w -> synced w w1 -> taken w1 d w2 ->
  (forall bs, (length bs < len)%nat -> selection (d ++ bs) = None) ->
  (forall d' w3, length d' = len -> taken w1 (d ++ d') w3 -> wp (k d') w3 (turn_post w0 w) (user_post w0)) ->
  wp (read_field len k) w2 (turn_post w0 w) (user_post w0).
Proof.
  intros Hlen Hi Hsy Ht Hcut Hk. assert (Hr := taken_reads _ _ _ Ht). assert (Hs := taken_stream _ _ _ Ht).
  assert (Hq : quiet w1 -> quiet w2) by (destruct Ht as (? & ? & -> & ?); tauto).
  apply read_field_spec; [done|..].
  - intros d' w3 Hd Ht3. apply Hk; [done|by eapply taken_trans].
  - intros why w3 Hl Hr3. eapply synced_stop; [done|done|eauto with gw|]. intros Hqw. rewrite Hs. auto.
  - intros w3 Hl Hr3. eapply synced_stop; [done|done|eauto with gw|]. intros Hqw. rewrite Hs. auto.
Qed.

Lemma serve_selection_spec w0 n w w1 :
  user_inv w0 n w -> synced w w1 ->
  wp (serve_selection tz sv n) w1 (turn_post w0 w) (user_post w0).
Proof.
  intros Hi Hsy.
  apply (synced_field w0 n w w1 [] w1); unfold SELECTION_BYTE_SIZE; [lia|done|done|apply taken_refl|by intros [|]; simpl; [|lia]|].
  intros [|sel [|]] w2 Hd Ht; [done| |done]. clear Hd. cbn [nth app] in *.
  assert (Hs := taken_stream _ _ _ Ht). cbn [app] in Hs.
  assert (Hreply : forall req c, selection (stream (rx w1)) = Some (req, stream (rx w2)) -> serves n req c ->
    wp (sent_or_stop n c) w2 (turn_post w0 w) (user_post w0)) by (intros; by eapply synced_reply).
  assert (Hnone : selection (stream (rx w1)) = Some (ReqUnsupported, stream (rx w2)) -> user_post w0 w2).
  { intros E. destruct Hsy as (Hn & Hr & _). rewrite <- Hn in E.
    eapply user_unanswered; [done|eauto with gw|done|done]. }
  unfold ID_BYTE_SIZE, TYPE_BYTE_SIZE. rewrite Hs in Hreply, Hnone. cbn [selection] in Hreply, Hnone.
  destruct (Z.eqb_spec sel SELECTION_BYTE_GETID) as [-> | _].
  { eapply synced_field; [lia|done..|by intros [|? [|]]; simpl; try lia|].
    intros [|b0 [|b1 [|]]] w3 Hd Ht3; try done.
    eapply synced_reply; [done|done|done|by rewrite (taken_stream _ _ _ Ht3)|apply serves_id]. }
  destruct (Z.eqb_spec sel SELECTION_BYTE_GETTYPE) as [-> | _].
  { eapply synced_field; [lia|done..|by intros [|]; simpl; try lia|].
    intros [|b0 [|]] w3 Hd Ht3; try done.
    eapply synced_reply; [done|done|done|by rewrite (taken_stream _ _ _ Ht3)|apply serves_type]. }
  destruct (sel =? SELECTION_BYTE_GETONLINE); [by apply (Hreply ReqOnline), serves_list|].
  destruct (sel =? SELECTION_BYTE_GETOFFLINE); [by apply (Hreply ReqOffline), serves_list|].
  destruct (sel =? SELECTION_BYTE_GETALL); [by apply (Hreply ReqAll), serves_list|].
  destruct (sel =? SELECTION_BYTE_GETTHROUGHPUT); [by apply (Hreply ReqThroughput), serves_throughput|].
  by apply wp_ret, Hnone.
Qed.

Lemma user_body_spec w0 n w :
  user_inv w0 n w -> wp (userHandler_body tz sv n) w (turn_post w0 w) (user_post w0).
Proof.
  intros Hi. unfold userHandler_body. apply wp_bind, wp_read_exitRQ. intros e evs Hse Hme Hqe.
  assert (Hr0 : reads w (set_rx e evs w)) by (by exists e, evs).
  destruct e. { apply wp_ret. eapply user_stop; [done..|]. intros Hq. by destruct (Hqe Hq). }
  apply wp_bind, find_sync_spec; cbn [rx set_rx] in *; rewrite Hse.
  - intros w1 r Hsync Hs1 Hm1 Hq1 Hr1. apply serve_selection_spec; [done|].
    split; [unfold next_request; by rewrite Hsync, Hs1|]. split; [eauto with gw|].
    split; [|lia]. intros. by apply Hq1, Hqe.
  - intros why w1 Hn Hr. apply wp_ret. eapply user_stop; [done|eauto with gw|]. intros Hq.
    apply answers_none. unfold next_request. by rewrite Hn by (by apply Hqe).
  - intros w1 Hn Hr. eapply user_stop; [done|eauto with gw|]. intros _.
    apply answers_none. unfold next_request. by rewrite Hn.
Qed.

Lemma userHandler_post w :
  wp (userHandler tz sv) w (fun _ => user_post w) (user_post w).
Proof.
  unfold userHandler. apply wp_iterate with (I := user_inv w); [|intros; by apply user_body_spec].
  exists []. by rewrite app_nil_r.
Qed.

Lemma user_post_prefix w w' :
  user_post w w' -> exists k, sent w' = sent w ++ take k (answers 0 (stream (rx w))).
Proof. intros (d & rest & E & Hs & _). exists (length d). by rewrite E, take_app_length. Qed.

Lemma user_post_exact w w' :
  quiet w -> tx w = [] -> user_post w w' -> sent w' = sent w ++ answers 0 (stream (rx w)).
Proof. intros Hq Ht (d & rest & E & Hs & Hr). by rewrite E, (Hr Hq Ht), app_nil_r. Qed.
End facts.

(** ** Properties *)

Lemma userHandler_sends tz sv w :
  (forall n, Forall named (snapshot (at_registry sv n))) -> quiet w -> tx w = [] ->
  wp (userHandler tz sv) w
    (fun _ w' => sent w' = sent w ++ answers tz sv 0 (stream (rx w)))
    (fun w' => sent w' = sent w ++ answers tz sv 0 (stream (rx w))).
Proof.
  intros Hn Hq Ht. eapply wp_mono; [by apply userHandler_post|..]; intros; by apply user_post_exact.
Qed.

(** C2.  The telemetry interface: in a quiet environment a connection is sent
    exactly the answers to the requests of its byte stream, in order, however
    the bytes are divided into [recv] results; each answer is made from the
    registry as it is at that request. *)
Theorem userHandler_answers tz sv w :
  (forall n, Forall named (snapshot (at_registry sv n))) -> quiet w -> tx w = [] ->
  wp (userHandler tz sv) w
    (fun _ w' => sent w' = sent w ++ answers tz sv 0 (stream (rx w)))
    (fun w' => sent w' = sent w ++ answers tz sv 0 (stream (rx w))).
Proof. apply userHandler_sends. Qed.

(** C28.  In every environment (failing or interrupted [recv] and [send], partial
    sends, signals, a stream that ends in the middle of a request) what has been
    sent is a prefix of those answers, and the handler does not loop without
    reading. *)
Theorem userHandler_prefix tz sv w :
  (forall n, Forall named (snapshot (at_registry sv n))) ->
  let sent_prefix w' := exists k, sent w' = sent w ++ take k (answers tz sv 0 (stream (rx w))) in
  wp (userHandler tz sv) w (fun _ => sent_prefix) sent_prefix.
Proof.
  intros Hn sent_prefix. eapply wp_mono; [by apply userHandler_post|..]; intros; by apply user_post_prefix.
Qed.

(** ** Instances of the theorems *)

(** A user who asks for all sensors and then for sensor 0, after some noise and
    in three pieces. *)
Definition example_user : io :=
  mk_io false [Arrives [7; 0xAA]; Arrives [0xF6; 0xAA; 0xFB; 0]; Arrives [0]] [] [].
Definition example_service : service :=
  mk_service (fun _ => example_registry) (fun _ => true) (fun _ => (None, None)) (fun _ => (0, 0)).
Definition example_replies : list Z :=
  sensor_line 0 (updateRegistry zero_sensor zero_sensor) ++ RESPONSE_END_MARKER ++
  sensor_line 0 (updateRegistry zero_sensor zero_sensor) ++ RESPONSE_END_MARKER.

Lemma example_answers : answers 0 example_service 0 (stream (rx example_user)) = example_replies.
Proof. vm_compute. reflexivity. Qed.

Lemma userHandler_answers_witness :
  wp (userHandler 0 example_service) example_user
    (fun _ w' => sent w' = example_replies) (fun w' => sent w' = example_replies).
Proof.
  rewrite <- example_answers. apply (userHandler_answers 0 example_service example_user).
  - intros n. repeat constructor.
  - split; [reflexivity|repeat constructor].
  - reflexivity.
Defined.

Lemma userHandler_prefix_witness :
  let sent_prefix w' := exists k, sent w' = [] ++ take k (answers 0 example_service 0 (stream (rx example_user))) in
  wp (userHandler 0 example_service) example_user (fun _ => sent_prefix) sent_prefix.
Proof. apply (userHandler_prefix 0 example_service example_user). intros n. repeat constructor. Defined.
