(* ===== verification/ClientSensors.v ===== *)
(** src/sensor-sims/client-sensors.c: the simulator of sensors.  It turns the
    lines of a text file into packets and sends them to the acquisition
    daemon; its first thread sends packets that carry the time of day. *)
From S2P Require Import Prelude Machine Proc CText Sense Posix Interfaces SenseUtils Acquiring.
Local Open Scope Z_scope.

Definition SYNC_FIELD : Z := 0xAA.
Definition PACKET_HEADER_SIZE : nat := 6.
Definition MAX_DATA_SIZE : nat := 12.
Definition MAX_PACKET_SIZE : nat := PACKET_HEADER_SIZE + MAX_DATA_SIZE.
Definition LATENCY_SENSOR_ID : Z := 0xFDE8.
Definition LATENCY_SENSOR_TYPE : Z := 0x2B.

(** ** The operations *)

(** [send_all(sockfd, buffer, length)]; the loop variable is [total_sent]. *)
Definition send_all_body (buffer : list Z) (total_sent : nat) : proc io (nat + Z) :=
  if (total_sent <? length buffer)%nat then
    let! bytes_sent := send (drop total_sent buffer) in
    match bytes_sent with
    | Ok 0%nat => ret (inr (-1))
    | Ok n => ret (inl (total_sent + n)%nat)
    | Err n => if n =? EINTR then ret (inl total_sent) else ret (inr (-1))
    end
  else ret (inr 0).

Definition send_all (buffer : list Z) : proc io Z :=
  iterate (fun total w => length (tx w) + (length buffer - total))%nat (send_all_body buffer) 0%nat.

(** [build_packet(type, id, data, data_length, packet)]: the packet buffer
    afterwards and the length returned. *)
Definition build_packet (type id : Z) (data : list Z) (data_length : nat) (packet : list Z) : list Z * nat :=
  let len := Z.of_nat data_length in
  let packet := splice packet 0 [SYNC_FIELD; type; lo8 id; hi8 id; lo8 len; hi8 len] in
  let packet := if (0 <? data_length)%nat then splice packet PACKET_HEADER_SIZE (take data_length data) else packet in
  (packet, (PACKET_HEADER_SIZE + data_length)%nat).

(** The delimiters of [strtok]: space, tab, carriage return, line feed. *)
Definition delimiters : list Z := [32; 9; 13; LF].

(** [errno != 0 || *endptr != '\0' || value > max] *)
Definition rejected (max : Z) (r : strto) : bool :=
  sto_errno r || negb (bool_decide (sto_end r = [])) || (max <? sto_value r).

(** The loop over the data bytes, with room for [k] more: whether [token] is
    not NULL at its end, and the bytes stored ([data_length] of them; none
    after an invalid byte). *)
Fixpoint read_data (k : nat) (data saved : list Z) : bool * list Z :=
  match k with
  | O => (true, data)
  | S k =>
      match strtok delimiters saved with
      | (None, _) => (false, data)
      | (Some token, saved) =>
          let byte_value := strtoul 16 token in
          if rejected UINT8_MAX byte_value then (true, [])
          else read_data k (data ++ [u8 (sto_value byte_value)]) saved
      end
  end.

(** What a line asks to send: type, id and data bytes; [None] where the loop
    goes on to the next line. *)
Definition parse_line (line : list Z) : option (Z * Z * list Z) :=
  match strtok delimiters line with
  | (None, _) => None
  | (Some token, saved) =>
      if nth 0 token NUL =? 35 then None else
      let type_value := strtoul 16 token in
      if rejected UINT8_MAX type_value then None else
      match strtok delimiters saved with
      | (None, _) => None
      | (Some token, saved) =>
          let id_value := strtoul 10 token in
          if rejected UINT16_MAX id_value then None else
          let '(token_left, data) := read_data MAX_DATA_SIZE [] saved in
          if token_left && (length data =? 0)%nat then None
          else Some (u8 (sto_value type_value), u16 (sto_value id_value), data)
      end
  end.

(** The bytes given to [send_all]; [packet] is the uninitialised buffer. *)
Definition packet_bytes (packet : list Z) (type id : Z) (data : list Z) : list Z :=
  let '(packet, packet_length) := build_packet type id data (length data) packet in
  take packet_length packet.

Definition LINE_SIZE : nat := 256.

Section client.
(** The uninitialised packet buffer of the thread. *)
Context (stack : list Z).

(** The loop over the lines of the file: 0 at its end, -1 when the connection
    is lost. *)
Fixpoint send_lines (lines : list (list Z)) : proc io Z :=
  match lines with
  | [] => ret 0
  | line :: lines =>
      match parse_line (cstr line) with
      | None => send_lines lines
      | Some (type, id, data) =>
          let! r := send_all (packet_bytes stack type id data) in
          if r =? -1 then ret (-1) else send_lines lines
      end
  end.

(** The first [passes] passes over the file of [normal_client_thread], which
    goes on for ever while the connection lasts. *)
Fixpoint normal_client (passes : nat) (file : list Z) : proc io Z :=
  match passes with
  | O => ret 0
  | S passes =>
      let! r := send_lines (file_lines LINE_SIZE file) in
      if r =? -1 then ret (-1) else normal_client passes file
  end.

(** The packet of one turn of [latency_client_thread]: two [memcpy]s of the
    time, truncated to 64 and 32 bits. *)
Definition latency_packet (now : timespec) : list Z :=
  let seconds := i64 (tv_sec now) in
  let nanoseconds := i32 (tv_nsec now) in
  let data := splice (splice (replicate MAX_DATA_SIZE 0) 0 (le_bytes 8 seconds)) 8 (le_bytes 4 nanoseconds) in
  packet_bytes stack LATENCY_SENSOR_TYPE LATENCY_SENSOR_ID data.

(** The turns of [latency_client_thread] for the successive answers of
    [clock_gettime] ([None] when it fails). *)
Fixpoint latency_client (clock : list (option timespec)) : proc io Z :=
  match clock with
  | [] => ret 0
  | None :: _ => ret (-1)
  | Some now :: clock =>
      let! r := send_all (latency_packet now) in
      if r =? -1 then ret (-1) else latency_client clock
  end.
End client.

(** ** Facts *)

Lemma send_all_copies buffer : send_all buffer = write_all 0 buffer.
Proof. reflexivity. Qed.

#[export] Instance send_all_writer : Writer send_all.
Proof. apply (writer_ext (write_all 0)); [apply _|]. intros. by rewrite send_all_copies. Qed.

(** The packet as the protocol has it. *)
Definition protocol_packet (type id : Z) (data : list Z) : list Z :=
  [SYNC_FIELD; type] ++ le_bytes 2 id ++ le_bytes 2 (Z.of_nat (length data)) ++ data.

Lemma packet_bytes_protocol stack type id data :
  length stack = MAX_PACKET_SIZE -> (length data <= MAX_DATA_SIZE)%nat ->
  packet_bytes stack type id data = protocol_packet type id data.
Proof.
  unfold MAX_PACKET_SIZE, MAX_DATA_SIZE, PACKET_HEADER_SIZE. intros Hs Hd.
  unfold packet_bytes, build_packet, protocol_packet, PACKET_HEADER_SIZE. rewrite <- !lo8_hi8_le.
  set (len := Z.of_nat (length data)). set (header := [SYNC_FIELD; type; lo8 id; hi8 id; lo8 len; hi8 len]).
  change ([SYNC_FIELD; type] ++ [lo8 id; hi8 id] ++ [lo8 len; hi8 len] ++ data) with (header ++ data).
  assert (Hh : take 6 (splice stack 0 header) = header).
  { apply (take_splice stack 0 header). simpl. lia. }
  destruct (Nat.ltb_spec 0 (length data)) as [Hp|Hz].
  - rewrite (take_ge data) by done.
    rewrite take_splice by (rewrite length_splice; simpl; lia). by rewrite Hh.
  - assert (data = []) as -> by (apply nil_length_inv; lia). rewrite app_nil_r. exact Hh.
Qed.

(** The acquisition daemon finds such a packet at the head of a stream. *)
Lemma packet_length_protocol type id data rest :
  (length data <= MAX_DATA_SIZE)%nat ->
  packet_length (protocol_packet type id data ++ rest) = Some (6 + length data)%nat.
Proof.
  unfold MAX_DATA_SIZE. intros Hd. unfold protocol_packet.
  set (header := [SYNC_FIELD; type] ++ le_bytes 2 id ++ le_bytes 2 (Z.of_nat (length data))).
  replace (([SYNC_FIELD; type] ++ le_bytes 2 id ++ le_bytes 2 (Z.of_nat (length data)) ++ data) ++ rest)
    with (header ++ data ++ rest) by (unfold header; by rewrite <- !app_assoc).
  rewrite packet_length_header by done.
  change (byte_at header 0) with SYNC_FIELD. cbn [negb Z.eqb].
  assert (E : or16 (byte_at header 4) (byte_at header 5) = Z.of_nat (length data)).
  { rewrite or16_le by (split; apply Z.mod_pos_bound || apply Z.mod_pos_bound; lia).
    change [byte_at header 4; byte_at header 5] with (le_bytes 2 (Z.of_nat (length data))).
    apply le_val_u. lia. }
  rewrite E. unfold PACKET_DATA_FIELDS_SIZE, PACKET_HEADER_FIELDS_SIZE. change (negb (SYNC_FIELD =? SYNC_BYTE)) with false.
  cbv iota zeta. destruct (Z.ltb_spec (Z.of_nat 12) (Z.of_nat (length data))); [lia|].
  rewrite length_app, Nat2Z.id. destruct (Nat.ltb_spec (length data + length rest) (length data)); [lia|done].
Qed.

Lemma length_protocol_packet type id data : length (protocol_packet type id data) = (6 + length data)%nat.
Proof. unfold protocol_packet. rewrite !length_app, !length_le_bytes. simpl. lia. Qed.

(** Packets sent one after the other are recovered. *)
Lemma packets_concat (l : list (Z * Z * list Z)) :
  Forall (fun '(_, _, data) => (length data <= MAX_DATA_SIZE)%nat) l ->
  packets (concat (map (fun '(type, id, data) => protocol_packet type id data) l)) =
  map (fun '(type, id, data) => protocol_packet type id data) l.
Proof.
  induction 1 as [|[[type id] data] l Hd _ IH]; [done|]. cbn [map concat].
  rewrite packets_unfold, packet_length_protocol by done.
  by rewrite take_app_exact, drop_app_exact, IH by (by rewrite length_protocol_packet).
Qed.

(** ** What a client sends *)

Lemma read_data_bounds k data saved b d :
  read_data k data saved = (b, d) -> bytes_ok data ->
  (length d <= length data + k)%nat /\ bytes_ok d.
Proof.
  revert data saved. induction k as [|k IH]; intros data saved E Hd; cbn [read_data] in E.
  - simplify_eq. split; [lia|done].
  - destruct (strtok delimiters saved) as [[t|] saved']; [|simplify_eq; split; [lia|done]].
    destruct (rejected _ _); [simplify_eq; split; [simpl; lia|constructor]|].
    apply IH in E; [|apply Forall_app; split; [done|repeat constructor; by apply (uint_range 8)]].
    rewrite length_app in E. simpl in E. split; [lia|tauto].
Qed.

(** What a line yields has the ranges of the packet's fields. *)
Lemma parse_line_bounds line type id data :
  parse_line line = Some (type, id, data) ->
  is_byte type /\ 0 <= id < 2 ^ 16 /\ (length data <= MAX_DATA_SIZE)%nat /\ bytes_ok data.
Proof.
  unfold parse_line. intros E.
  destruct (strtok delimiters line) as [[t|] s1]; [|done].
  destruct (nth 0 t NUL =? 35); [done|]. destruct (rejected UINT8_MAX _); [done|].
  destruct (strtok delimiters s1) as [[t2|] s2]; [|done]. destruct (rejected UINT16_MAX _); [done|].
  destruct (read_data MAX_DATA_SIZE [] s2) as [b d] eqn:Er.
  apply read_data_bounds in Er as [Hl Hb]; [|constructor]. destruct (_ && _); [done|]. injection E as <- <- <-.
  split; [by apply (uint_range 8)|]. split; [by apply (uint_range 16)|]. simpl in Hl. split; [lia|done].
Qed.

(** The readings a file asks for, one per accepted line. *)
Definition file_readings (file : list Z) : list (Z * Z * list Z) :=
  omap (fun line => parse_line (cstr line)) (file_lines LINE_SIZE file).

Definition packets_of (l : list (Z * Z * list Z)) : list (list Z) :=
  map (fun '(type, id, data) => protocol_packet type id data) l.

Lemma packets_of_app a b : packets_of (a ++ b) = packets_of a ++ packets_of b.
Proof. apply map_app. Qed.

Lemma send_lines_each stack lines :
  send_lines stack lines =
    write_each (fun '(type, id, data) => send_all (packet_bytes stack type id data))
      (omap (fun line => parse_line (cstr line)) lines).
Proof.
  induction lines as [|line lines IH]; [done|]. cbn [send_lines omap list_omap].
  destruct (parse_line (cstr line)) as [[[type id] data]|]; [|done]. cbn [write_each]. by rewrite IH.
Qed.

Lemma send_lines_spec stack lines w :
  length stack = MAX_PACKET_SIZE ->
  wp (send_lines stack lines) w
    (written w (concat (packets_of (omap (fun line => parse_line (cstr line)) lines)))) (fun _ => False).
Proof.
  intros Hs. rewrite send_lines_each. apply write_each_spec.
  induction lines as [|line lines IH]; cbn [omap list_omap]; [constructor|].
  destruct (parse_line (cstr line)) as [[[type id] data]|] eqn:E; [|done]. constructor; [|done]. intros w1.
  apply parse_line_bounds in E as (_ & _ & Hd & _). rewrite packet_bytes_protocol by done. apply writes.
Qed.

Lemma normal_client_writes stack passes file w :
  length stack = MAX_PACKET_SIZE ->
  wp (normal_client stack passes file) w
    (written w (concat (packets_of (concat (replicate passes (file_readings file)))))) (fun _ => False).
Proof.
  intros Hs. revert w. induction passes as [|n IH]; intros w; cbn [normal_client replicate concat].
  - apply wp_ret, written_nil.
  - rewrite packets_of_app, concat_app. apply wp_written_seq; [by apply send_lines_spec|apply IH].
Qed.

Lemma file_readings_bounds file passes :
  Forall (fun '(_, _, data) => (length data <= MAX_DATA_SIZE)%nat) (concat (replicate passes (file_readings file))).
Proof.
  assert (H : Forall (fun '(_, _, data) => (length data <= MAX_DATA_SIZE)%nat) (file_readings file)).
  { unfold file_readings. induction (file_lines LINE_SIZE file) as [|line l IH]; [constructor|]. cbn [omap list_omap].
    destruct (parse_line (cstr line)) as [[[type id] data]|] eqn:E; [|done].
    constructor; [|done]. apply parse_line_bounds in E. tauto. }
  induction passes as [|n IH]; [constructor|]. by apply Forall_app.
Qed.

(** C30.  The simulator speaks the protocol: for every file, however its lines are
    formed, a client sends over [passes] passes the packets of the accepted
    lines, each pass again, and the acquisition daemon's division of the
    stream gives back exactly these packets; a lost connection leaves a
    prefix and ends the thread. *)
Theorem normal_client_packets stack passes file w :
  length stack = MAX_PACKET_SIZE ->
  let ps := packets_of (concat (replicate passes (file_readings file))) in
  wp (normal_client stack passes file) w (written w (concat ps)) (fun _ => False) /\
  packets (concat ps) = ps.
Proof.
  intros Hs ps. split; [by apply normal_client_writes|]. apply packets_concat, file_readings_bounds.
Qed.

(** ** The format of the data file *)

(** The line of a reading: type and data bytes in hexadecimal, id in decimal. *)
Definition reading_line (type id : Z) (data : list Z) : list Z :=
  fmt_x type ++ str " " ++ fmt_uint 10 id ++ concat (map (fun b => str " " ++ fmt_x b) data) ++ [LF].

Lemma number_no_delim base n : 2 <= base <= 16 -> 0 <= n -> no_delim delimiters (fmt_uint base n).
Proof.
  intros Hb Hn. eapply Forall_impl; [by apply fmt_uint_printable|]. intros c Hc. cbv beta in Hc.
  unfold is_delim, delimiters. apply bool_decide_eq_false. rewrite !elem_of_cons, elem_of_nil. unfold LF. lia.
Qed.

Lemma number_nonempty base n : 2 <= base <= 16 -> 0 <= n -> fmt_uint base n <> [].
Proof. intros Hb Hn. by destruct (fmt_uint_head base n Hb Hn) as (d & s & _ & ->). Qed.

Lemma strtoul_all base n max :
  base = 10 \/ base = 16 -> 0 <= n <= max -> max <= ULONG_MAX ->
  strtoul base (fmt_uint base n) = {| sto_value := n; sto_end := []; sto_errno := false |} /\
  rejected max (strtoul base (fmt_uint base n)) = false.
Proof.
  intros Hb Hn Hm.
  assert (E : strtoul base (fmt_uint base n) = {| sto_value := n; sto_end := []; sto_errno := false |}).
  { rewrite <- (app_nil_r (fmt_uint base n)). destruct Hb as [-> | ->]; [by apply strtoul_fmt_u; try lia|].
    by apply strtoul_fmt_x; try lia. }
  split; [done|]. rewrite E. unfold rejected. cbn. destruct (Z.ltb_spec max n); [lia|done].
Qed.

Lemma delim_space : is_delim delimiters 32 = true.
Proof. done. Qed.

(** The remaining data bytes, after the delimiter in front of them was taken. *)
Fixpoint data_text (data : list Z) : list Z :=
  match data with
  | [] => []
  | [b] => fmt_x b ++ [LF]
  | b :: data => fmt_x b ++ str " " ++ data_text data
  end.

Lemma read_data_text k data acc :
  bytes_ok data -> (length data <= k)%nat -> read_data k acc (data_text data) =
    (bool_decide (length data = k), acc ++ data).
Proof.
  intros Hd. revert k acc. induction Hd as [|b data Hb Hd IH]; intros k acc Hk.
  - rewrite app_nil_r. destruct k; done.
  - destruct k as [|k]; [simpl in Hk; lia|]. unfold is_byte in Hb.
    destruct (strtoul_all 16 b UINT8_MAX) as [E1 E2]; [by right|unfold UINT8_MAX; lia|unfold UINT8_MAX, ULONG_MAX; lia|].
    assert (Hstep : forall d r, is_delim delimiters d = true ->
      read_data (S k) acc (fmt_x b ++ d :: r) = read_data k (acc ++ [b]) r).
    { intros d r Hdl. cbn [read_data].
      rewrite strtok_token by (done || apply number_nonempty || apply number_no_delim; lia).
      unfold fmt_x. rewrite E2, E1. cbn [sto_value]. by rewrite uint_id by lia. }
    destruct data as [|b' data].
    + cbn [data_text]. rewrite Hstep by done. destruct k; done.
    + change (data_text (b :: b' :: data)) with (fmt_x b ++ 32 :: data_text (b' :: data)).
      rewrite Hstep by done. rewrite IH by (simpl in *; lia). rewrite <- app_assoc. simpl. f_equal.
      apply bool_decide_ext. lia.
Qed.

Lemma reading_line_data data :
  data <> [] -> concat (map (fun b => str " " ++ fmt_x b) data) ++ [LF] = 32 :: data_text data.
Proof.
  induction data as [|b data IH]; [done|]. intros _. destruct data as [|b' data].
  - cbn [map concat data_text]. by rewrite app_nil_r.
  - cbn [map concat]. rewrite <- app_assoc.
    change ((str " " ++ fmt_x b') ++ concat (map (fun b => str " " ++ fmt_x b) data))
      with (concat (map (fun b => str " " ++ fmt_x b) (b' :: data))).
    rewrite IH by done. change (str " ") with [32]. rewrite <- app_assoc. done.
Qed.

(** A reading that fits the protocol. *)
Definition reading_ok (r : Z * Z * list Z) : Prop :=
  let '(type, id, data) := r in
  is_byte type /\ 0 <= id < 2 ^ 16 /\ (length data <= MAX_DATA_SIZE)%nat /\ bytes_ok data.

Lemma parse_reading_line type id data :
  reading_ok (type, id, data) -> parse_line (reading_line type id data) = Some (type, id, data).
Proof.
  intros (Ht & Hi & Hl & Hd). unfold is_byte in Ht. unfold parse_line, reading_line.
  destruct (strtoul_all 16 type UINT8_MAX) as [E1 E2]; [by right|unfold UINT8_MAX; lia|unfold UINT8_MAX, ULONG_MAX; lia|].
  destruct (strtoul_all 10 id UINT16_MAX) as [E3 E4]; [by left|unfold UINT16_MAX; lia|unfold UINT16_MAX, ULONG_MAX; lia|].
  change (str " " ++ ?r) with (32 :: r).
  rewrite strtok_token by (done || apply number_nonempty || apply number_no_delim; lia).
  destruct (fmt_uint_head 16 type) as (c & s & Hc & Es); [lia..|].
  assert (Hh : (nth 0 (fmt_x type) NUL =? 35) = false).
  { unfold fmt_x. rewrite Es. cbn. unfold digit_char. apply Z.eqb_neq. destruct (Z.ltb_spec c 10); lia. }
  rewrite Hh. change (fmt_uint 16 type) with (fmt_x type) in E1, E2. rewrite E2, E1. clear Es Hh c s Hc.
  assert (Hid : exists d r, concat (map (fun b => str " " ++ fmt_x b) data) ++ [LF] = d :: r /\
    is_delim delimiters d = true /\
    read_data MAX_DATA_SIZE [] r = (bool_decide (length data = MAX_DATA_SIZE), data)).
  { destruct data as [|b data].
    - exists LF, []. done.
    - exists 32. eexists. split; [by apply reading_line_data|]. split; [done|]. by rewrite read_data_text. }
  destruct Hid as (d & r & -> & Hdl & Hr).
  rewrite strtok_token by (done || apply number_nonempty || apply number_no_delim; lia).
  rewrite E4, E3, Hr. cbn [sto_value]. rewrite !uint_id by lia.
  destruct data; [done|]. simpl length. by rewrite andb_false_r.
Qed.

Lemma reading_line_shape type id data :
  reading_ok (type, id, data) -> exists l, reading_line type id data = l ++ [LF] /\
    Forall (fun c => c <> LF) l /\ (length l <= 45)%nat /\ Forall (fun c => c <> NUL) (reading_line type id data).
Proof.
  intros (Ht & Hi & Hl & Hd). unfold is_byte in Ht. unfold MAX_DATA_SIZE in Hl.
  set (l := fmt_x type ++ str " " ++ fmt_uint 10 id ++ concat (map (fun b => str " " ++ fmt_x b) data)).
  assert (El : reading_line type id data = l ++ [LF]) by (unfold reading_line, l; by rewrite <- !app_assoc).
  assert (Hdata : printable (concat (map (fun b => str " " ++ fmt_x b) data)) /\
    (length (concat (map (fun b => str " " ++ fmt_x b) data)) <= 3 * length data)%nat).
  { clear l El Hl. induction Hd as [|b data Hb _ [IHp IHl]]; [by split; [constructor|]|]. unfold is_byte in Hb.
    cbn [map concat]. split.
    - apply printable_app; [|done]. apply printable_app; [auto with printable|]. apply printable_fmt_uint; lia.
    - assert (length (fmt_x b) <= 2)%nat by (apply length_fmt_uint; simpl; lia).
      rewrite !length_app. simpl length in *. lia. }
  assert (Hp : printable l).
  { unfold l. repeat apply printable_app; auto with printable; try (apply printable_fmt_uint; lia). tauto. }
  exists l. split; [done|]. split; [eapply Forall_impl; [done|]; unfold LF; simpl; lia|]. split.
  - assert (length (fmt_x type) <= 2)%nat by (apply length_fmt_uint; simpl; lia).
    assert (length (fmt_uint 10 id) <= 5)%nat by (apply length_fmt_uint; simpl; lia).
    unfold l. rewrite !length_app. simpl length in *. lia.
  - rewrite El. apply Forall_app. split; [by apply printable_nonzero|by repeat constructor].
Qed.

Lemma file_readings_lines rs :
  Forall reading_ok rs ->
  file_readings (concat (map (fun '(type, id, data) => reading_line type id data) rs)) = rs.
Proof.
  unfold file_readings. induction 1 as [|[[type id] data] rs Hr _ IH]; [done|]. cbn [map concat].
  destruct (reading_line_shape _ _ _ Hr) as (l & El & Hlf & Hlen & Hz).
  rewrite El, <- app_assoc. change ([LF] ++ ?r) with (LF :: r).
  rewrite file_lines_LF by (done || unfold LINE_SIZE; lia). rewrite <- El. cbn [omap list_omap].
  rewrite cstr_id by done. rewrite parse_reading_line by done. by f_equal.
Qed.

(** C31.  The data file: the readings written one to a line, in the format of the
    file, are the readings the simulator sends, for every type, id and up to
    twelve data bytes (none for a heartbeat). *)
Theorem file_readings_roundtrip rs :
  Forall reading_ok rs ->
  file_readings (concat (map (fun '(type, id, data) => reading_line type id data) rs)) = rs.
Proof. apply file_readings_lines. Qed.

(** The packet of the latency client carries both fields of the time. *)
Lemma latency_packet_protocol stack now :
  length stack = MAX_PACKET_SIZE ->
  latency_packet stack now = protocol_packet LATENCY_SENSOR_TYPE LATENCY_SENSOR_ID
    (le_bytes 8 (i64 (tv_sec now)) ++ le_bytes 4 (i32 (tv_nsec now))).
Proof.
  intros Hs. unfold latency_packet.
  assert (Hl : forall a b : list Z, length a = 8%nat -> length b = 4%nat ->
    splice (splice (replicate MAX_DATA_SIZE 0) 0 a) 8 b = a ++ b).
  { intros a b Ha Hb. unfold splice. rewrite Ha, Hb. simpl take. rewrite app_nil_l.
    rewrite take_app_exact by done. rewrite drop_ge by (rewrite length_app; simpl; lia). by rewrite app_nil_r. }
  rewrite Hl by apply length_le_bytes. apply packet_bytes_protocol; [done|].
  rewrite length_app, !length_le_bytes. unfold MAX_DATA_SIZE. lia.
Qed.

Lemma latency_client_each stack clock :
  latency_client stack (map Some clock) = write_each (fun now => send_all (latency_packet stack now)) clock.
Proof. induction clock as [|now clock IH]; [done|]. cbn [map latency_client write_each]. by rewrite IH. Qed.

Lemma latency_client_writes stack clock w :
  length stack = MAX_PACKET_SIZE ->
  wp (latency_client stack (map Some clock)) w
    (written w (concat (map (latency_packet stack) clock))) (fun _ => False).
Proof.
  intros Hs. rewrite latency_client_each. apply write_each_spec, Forall_true. intros now w1. apply writes.
Qed.

(** ** Instances of the theorems *)

Definition example_readings : list (Z * Z * list Z) := [(0x4B, 4660, [1; 2; 0xFE; 0xFF]); (0x1B, 7, [])].

Lemma file_readings_roundtrip_witness :
  file_readings (concat (map (fun '(type, id, data) => reading_line type id data) example_readings)) = example_readings.
Proof.
  apply (file_readings_roundtrip example_readings).
  repeat constructor; unfold is_byte; simpl; lia.
Defined.

(** A file with a comment, a reading, a bad id and a reading whose third byte is
    no number. *)
Definition example_file : list Z :=
  str "# sensors" ++ [LF] ++ str "4b 4660 01 02 fe ff" ++ [LF] ++ str "1b 70000" ++ [LF] ++ str "1b 7 1 2 xx" ++ [LF].

Lemma normal_client_packets_witness :
  let stack := replicate MAX_PACKET_SIZE 0 in
  let w := mk_io false [] [Takes 2] [] in
  let ps := packets_of [(0x4B, 4660, [1; 2; 0xFE; 0xFF]); (0x4B, 4660, [1; 2; 0xFE; 0xFF])] in
  wp (normal_client stack 2 example_file) w (written w (concat ps)) (fun _ => False) /\ packets (concat ps) = ps.
Proof.
  assert (E : concat (replicate 2 (file_readings example_file)) =
              [(0x4B, 4660, [1; 2; 0xFE; 0xFF]); (0x4B, 4660, [1; 2; 0xFE; 0xFF])]) by (vm_compute; reflexivity).
  cbv zeta. rewrite <- E.
  apply (normal_client_packets (replicate MAX_PACKET_SIZE 0) 2 example_file (mk_io false [] [Takes 2] [])).
  reflexivity.
Defined.
