(* ===== verification/DevInterface.v ===== *)
(** src/tester/dev-interface.c: the user's side of the telemetry interface.
    Commands become requests, the response is cut into lines up to END, and a
    second thread polls the latency sensor and logs the latencies, whose
    average is shown on demand. *)
From S2P Require Import Prelude Machine Proc CText Sense Posix Interfaces SenseUtils Registry Replies UserHandler ClientSensors.
Local Open Scope Z_scope.

Definition SYNC_BYTE : Z := 0xAA.
Definition SELECTION_BYTE_GETALL : Z := 0xF6.
Definition SELECTION_BYTE_GETTYPE : Z := 0xF7.
Definition SELECTION_BYTE_GETID : Z := 0xFB.
Definition SELECTION_BYTE_GETTHROUGHPUT : Z := 0xFC.
Definition SELECTION_BYTE_GETONLINE : Z := 0xFD.
Definition SELECTION_BYTE_GETOFFLINE : Z := 0xFE.
Definition LATENCY_SENSOR_ID : Z := 65000.
Definition TELEMETRY_BUFFER_SIZE : nat := 4096.

(** ** Requests *)

(** [send_all(sockfd, buffer, length)], the copy of this file; the loop variable
    is [total_sent]. *)
Definition send_all_body (buffer : list Z) (total_sent : nat) : proc io (nat + Z) :=
  if (total_sent <? length buffer)%nat then
    let! bytes_sent := send (drop total_sent buffer) in
    match bytes_sent with
    | Err n => if n =? EINTR then ret (inl total_sent) else ret (inr (-1))
    | Ok 0%nat => ret (inr (-1))
    | Ok n => ret (inl (total_sent + n)%nat)
    end
  else ret (inr 0).

Definition send_all (buffer : list Z) : proc io Z :=
  iterate (fun total w => length (tx w) + (length buffer - total))%nat (send_all_body buffer) 0%nat.

Definition send_get_id (id : Z) : proc io Z := send_all ([SYNC_BYTE; SELECTION_BYTE_GETID] ++ le_bytes 2 id).
Definition send_get_throughput : proc io Z := send_all [SYNC_BYTE; SELECTION_BYTE_GETTHROUGHPUT].

(** A line typed by the user, as [fgets] leaves it. *)
Definition typed (s : string) : list Z := str s ++ [LF].

(** [send_user_command(sockfd, command)] *)
Definition send_user_command (command : list Z) : proc io Z :=
  if strcmp_eq command (typed "GET ALL") then send_all [SYNC_BYTE; SELECTION_BYTE_GETALL] else
  if strcmp_eq command (typed "GET ONLINE") then send_all [SYNC_BYTE; SELECTION_BYTE_GETONLINE] else
  if strcmp_eq command (typed "GET OFFLINE") then send_all [SYNC_BYTE; SELECTION_BYTE_GETOFFLINE] else
  if strncmp_eq command (str "GET ID ") then
    let value := strtoul 16 (drop 7 command) in
    if bool_decide (sto_end value = drop 7 command) || (UINT16_MAX <? sto_value value) then ret (-1) else
    let id := u16 (sto_value value) in
    send_all ([SYNC_BYTE; SELECTION_BYTE_GETID] ++ le_bytes 2 id)
  else
  let send_type type := send_all [SYNC_BYTE; SELECTION_BYTE_GETTYPE; type] in
  if strcmp_eq command (typed "GET TYPE POWCURRVOLT") then send_type 0x2B
  else if strcmp_eq command (typed "GET TYPE TOR") then send_type 0x4B
  else if strcmp_eq command (typed "GET TYPE TEMPRESS") then send_type 0x1B
  else if strcmp_eq command (typed "GET TYPE PROX") then send_type 0x8B
  else ret (-1).

(** ** Latency *)

(** [sscanf(response, "LATENCY: %ld %ld", ...)]; the result is [None] for -1. *)
Definition parse_latency_response (response : list Z) : option (Z * Z) :=
  match scan_lit (str "LATENCY:") response with
  | None => None
  | Some r =>
      match scan_ld (skip_space r) with
      | None => None
      | Some (seconds, r) =>
          match scan_ld (skip_space r) with
          | None => None
          | Some (nanoseconds, _) => Some (seconds, nanoseconds)
          end
      end
  end.

(** State of the program: the socket in use, the standard output, the contents
    of the latency file, the static variables of [log_latency], and the
    answers [clock_gettime] will give. *)
Record dev := mk_dev {
  d_io : io;
  d_out : list Z;
  d_file : list Z;
  d_prev : Z * Z;
  d_clock : list (option timespec)
}.

Definition set_d_io (w : io) (s : dev) : dev :=
  {| d_io := w; d_out := d_out s; d_file := d_file s; d_prev := d_prev s; d_clock := d_clock s |}.
Definition on_d_io {A} (c : proc io A) : proc dev A := lift d_io set_d_io c.

Definition print (text : list Z) (s : dev) : dev :=
  {| d_io := d_io s; d_out := d_out s ++ text; d_file := d_file s; d_prev := d_prev s; d_clock := d_clock s |}.

(** The computation of [latency_us]; products and sums of 64-bit integers. *)
Definition latency_us (sent_seconds sent_nanoseconds : Z) (now : timespec) : Z :=
  let sent_time_us := i64 (i64 (sent_seconds * 1000000) + Z.quot sent_nanoseconds 1000) in
  let current_time_us := i64 (i64 (tv_sec now * 1000000) + Z.quot (tv_nsec now) 1000) in
  i64 (current_time_us - sent_time_us).

(** [log_latency(file, sent_seconds, sent_nanoseconds)] *)
Definition log_latency (sent_seconds sent_nanoseconds : Z) (s : dev) : dev :=
  if (sent_seconds =? (d_prev s).1) && (sent_nanoseconds =? (d_prev s).2) then s else
  let s1 file := {| d_io := d_io s; d_out := d_out s; d_file := file;
                    d_prev := (sent_seconds, sent_nanoseconds); d_clock := tl (d_clock s) |} in
  match d_clock s with
  | Some now :: _ => s1 (d_file s ++ fmt_d (latency_us sent_seconds sent_nanoseconds now) ++ [LF])
  | _ => s1 (d_file s)
  end.

(** The array [values] after one more value: the first five fill it, then it
    is shifted. *)
Definition add_value (values : list Z) (value : Z) : list Z :=
  match values with
  | [_; v1; v2; v3; v4] => [v1; v2; v3; v4; value]
  | _ => values ++ [value]
  end.

(** The loop of [print_average_latency] over the lines of the file. *)
Fixpoint read_values (values : list Z) (lines : list (list Z)) : list Z :=
  match lines with
  | [] => values
  | line :: lines =>
      let line := cstr line in
      if strncmp_eq line (str "latency_microseconds") then read_values values lines else
      let value := strtoll 10 line in
      if sto_errno value || bool_decide (sto_end value = line) then read_values values lines
      else read_values (add_value values (sto_value value)) lines
  end.

Definition sum_values (values : list Z) : Z := fold_left (fun sum v => i64 (sum + v)) values 0.

(** [print_average_latency()]: what it prints; [file] is [None] when [fopen]
    fails. *)
Definition print_average_latency (file : option (list Z)) : list Z :=
  match file with
  | None => []
  | Some file =>
      let values := read_values [] (file_lines 256 file) in
      let count := Z.of_nat (length values) in
      if count =? 0 then str "No latency samples available" ++ [LF]
      else str "Average latency from the last " ++ fmt_d count ++ str " samples: " ++
           fmt_d (Z.quot (sum_values values) count) ++ str " microseconds" ++ [LF]
  end.

(** ** Responses *)

(** [process_line(line, print_response, latency_file)] *)
Definition process_line (line : list Z) (print_response latency_file : bool) : proc dev Z := fun s =>
  if strcmp_eq line (str "END") then Done 1 s else
  let s := if print_response then print (line ++ [LF]) s else s in
  let s := if latency_file then
             match parse_latency_response line with
             | Some (sent_seconds, sent_nanoseconds) => log_latency sent_seconds sent_nanoseconds s
             | None => s
             end
           else s in
  Done 0 s.

(** The loop over the bytes of one [recv]; [line] holds [line_length] bytes. *)
Fixpoint scan_bytes (print_response latency_file : bool) (buffer line : list Z) : proc dev (list Z + Z) :=
  match buffer with
  | [] => ret (inl line)
  | c :: buffer =>
      if c =? LF then
        let! result := process_line (cstr line) print_response latency_file in
        if result =? 1 then ret (inr 0) else scan_bytes print_response latency_file buffer []
      else if (TELEMETRY_BUFFER_SIZE - 1 <=? length line)%nat then ret (inr (-1))
      else scan_bytes print_response latency_file buffer (line ++ [c])
  end.

Definition receive_body (print_response latency_file : bool) (line : list Z) : proc dev (list Z + Z) :=
  let! r := on_d_io (recv TELEMETRY_BUFFER_SIZE) in
  match r with
  | Ok [] => ret (inr (-1))
  | Ok buffer => scan_bytes print_response latency_file buffer line
  | Err n => if n =? EINTR then ret (inl line) else ret (inr (-1))
  end.

(** [receive_until_end(sockfd, print_response, latency_file)] *)
Definition receive_until_end (print_response latency_file : bool) : proc dev Z :=
  iterate (fun _ s => rx_size (rx (d_io s))) (receive_body print_response latency_file) [].

(** The part of [main] that sends the request of a command. *)
Definition send_command (command : list Z) : proc io Z :=
  if strcmp_eq command (typed "GET THROUGHPUT") then send_get_throughput else send_user_command command.

(** One turn of the loop of [main] on the line [command]; [connected] is whether
    [connect_to_server] succeeds. *)
Definition user_turn (connected : bool) (command : list Z) : proc dev unit :=
  if strcmp_eq command (typed "GET LATENCY") then
    modify (fun s => print (print_average_latency (Some (d_file s))) s)
  else if negb connected then ret tt
  else
    let! r := on_d_io (send_command command) in
    if r =? -1 then ret tt else receive_until_end true false ;! ret tt.

(** One turn of the loop of [latency_receiver_thread]. *)
Definition latency_turn (connected : bool) : proc dev unit :=
  if negb connected then ret tt else
  let! r := on_d_io (send_get_id LATENCY_SENSOR_ID) in
  if r =? 0 then receive_until_end false true ;! ret tt else ret tt.

(** What [latency_receiver_thread] writes first. *)
Definition latency_header : list Z := typed "latency_microseconds".

(** ** Requests: facts *)

#[export] Instance send_all_writer : Writer send_all.
Proof. apply (writer_ext (write_all 0)); [apply _|reflexivity]. Qed.

(** The command a user types for a request. *)
Definition command_of (req : request) : list Z :=
  match req with
  | ReqAll => typed "GET ALL"
  | ReqType t =>
      if t =? SENSOR_TYPE_POWCURRVOLT then typed "GET TYPE POWCURRVOLT"
      else if t =? SENSOR_TYPE_TORQUE then typed "GET TYPE TOR"
      else if t =? SENSOR_TYPE_TEMPPRESS then typed "GET TYPE TEMPRESS"
      else if t =? SENSOR_TYPE_PROXIMITY then typed "GET TYPE PROX"
      else []
  | ReqId i => str "GET ID " ++ fmt_x i ++ [LF]
  | ReqOnline => typed "GET ONLINE"
  | ReqOffline => typed "GET OFFLINE"
  | ReqThroughput => typed "GET THROUGHPUT"
  | ReqUnsupported => []
  end.

(** The requests with a command. *)
Definition has_command (req : request) : Prop :=
  match req with
  | ReqType t => supported t = true
  | ReqId i => 0 <= i < 2 ^ 16
  | ReqUnsupported => False
  | _ => True
  end.

(** The bytes of a request. *)
Definition request_bytes (req : request) : list Z :=
  SYNC_BYTE ::
  match req with
  | ReqAll => [SELECTION_BYTE_GETALL]
  | ReqType t => [SELECTION_BYTE_GETTYPE; t]
  | ReqId i => SELECTION_BYTE_GETID :: le_bytes 2 i
  | ReqOnline => [SELECTION_BYTE_GETONLINE]
  | ReqOffline => [SELECTION_BYTE_GETOFFLINE]
  | ReqThroughput => [SELECTION_BYTE_GETTHROUGHPUT]
  | ReqUnsupported => []
  end.

(** The daemon reads back the request. *)
Lemma next_request_bytes req rest :
  has_command req -> next_request (request_bytes req ++ rest) = Some (req, rest).
Proof.
  destruct req; simpl has_command; intros H; try done. unfold next_request, request_bytes. cbn [app skip_to_sync].
  change (SYNC_BYTE =? UserHandler.SYNC_BYTE) with true. cbv iota. unfold selection.
  change (SELECTION_BYTE_GETID =? UserHandler.SELECTION_BYTE_GETID) with true. cbv iota. cbn [le_bytes app].
  change [call_id mod 256; (call_id / 256) mod 256] with (le_bytes 2 call_id). by rewrite le_val_u.
Qed.

Lemma send_command_id i w : 0 <= i < 2 ^ 16 -> send_command (command_of (ReqId i)) w = send_all (request_bytes (ReqId i)) w.
Proof.
  intros Hi. unfold send_command, command_of.
  assert (Hne : forall s, nth 4 (typed s) 0 <> 73 -> strcmp_eq (str "GET ID " ++ fmt_x i ++ [LF]) (typed s) = false).
  { intros s Hs. apply bool_decide_eq_false. intros E. rewrite <- E in Hs. done. }
  unfold send_user_command. rewrite !Hne by done.
  assert (Hp : strncmp_eq (str "GET ID " ++ fmt_x i ++ [LF]) (str "GET ID ") = true).
  { apply bool_decide_eq_true. by rewrite take_app_length. }
  rewrite Hp, drop_app_exact by done.
  rewrite strtoul_fmt_x by (done || unfold ULONG_MAX; lia). cbn [sto_end sto_value].
  rewrite bool_decide_eq_false_2.
  2:{ intros E. apply (f_equal length) in E. rewrite length_app in E. cbn [length] in E.
      assert (length (fmt_x i) <> 0)%nat; [|lia]. intros H%nil_length_inv.
      by apply (number_nonempty 16 i) in H; [|lia..]. }
  unfold UINT16_MAX. destruct (Z.ltb_spec 65535 i); [lia|]. cbn [orb]. rewrite uint_id by lia. done.
Qed.

Lemma send_command_request req w :
  has_command req -> send_command (command_of req) w = send_all (request_bytes req) w.
Proof.
  destruct req as [|t|i| | | |]; cbn [has_command]; intros H; try done.
  - destruct (supported_cases t H) as [-> | [-> | [-> | ->]]]; reflexivity.
  - by apply send_command_id.
Qed.

(** C34.  A command reaches the daemon as the request it names: for each command
    of the menu the bytes written are those of its request, and the daemon,
    whatever follows, reads that request from them. *)
Theorem command_roundtrip req w rest :
  has_command req ->
  wp (send_command (command_of req)) w (written w (request_bytes req)) (fun _ => False) /\
  next_request (request_bytes req ++ rest) = Some (req, rest).
Proof.
  intros H. split; [|by apply next_request_bytes].
  unfold wp. rewrite send_command_request by done. apply writes.
Qed.

(** A line that is no command sends nothing; any other is a request. *)
Lemma send_command_cases command w :
  send_command command w = Done (-1) w \/
  exists req, has_command req /\ send_command command w = send_all (request_bytes req) w.
Proof.
  unfold send_command, send_user_command. repeat case_match; try (by left); right.
  - by exists ReqThroughput.
  - by exists ReqAll.
  - by exists ReqOnline.
  - by exists ReqOffline.
  - eexists (ReqId _). split; [by apply (uint_range 16)|reflexivity].
  - by exists (ReqType SENSOR_TYPE_POWCURRVOLT).
  - by exists (ReqType SENSOR_TYPE_TORQUE).
  - by exists (ReqType SENSOR_TYPE_TEMPPRESS).
  - by exists (ReqType SENSOR_TYPE_PROXIMITY).
Qed.

(** C35.  Nothing the user types can put the connection out of step: a line either
    is refused and nothing is sent, or becomes exactly one supported
    request. *)
Theorem command_is_request command w :
  send_command command w = Done (-1) w \/
  exists req, has_command req /\ send_command command w = send_all (request_bytes req) w.
Proof. apply send_command_cases. Qed.

(** Sending always returns. *)
Lemma send_command_done command w : exists r w', send_command command w = Done r w'.
Proof.
  destruct (send_command_cases command w) as [-> | (req & _ & ->)]; [by exists (-1), w|].
  pose proof (writes (op := send_all) (request_bytes req) w) as H. unfold wp in H.
  destruct (send_all _ _) as [r w'| |]; [by exists r, w'|done..].
Qed.

(** ** Responses: facts *)

(** The lines of a response before END, and how it ends: [Some 0] at END,
    [Some (-1)] at a line too long for the buffer, [None] when the bytes
    run out; [line] is the start of the current line. *)
Fixpoint run_lines (line bs : list Z) : list (list Z) * option Z :=
  match bs with
  | [] => ([], None)
  | c :: bs =>
      if c =? LF then
        if strcmp_eq (cstr line) (str "END") then ([], Some 0)
        else let '(ls, r) := run_lines [] bs in (cstr line :: ls, r)
      else if (TELEMETRY_BUFFER_SIZE - 1 <=? length line)%nat then ([], Some (-1))
      else run_lines (line ++ [c]) bs
  end.

Section response.
Context (print_response latency_file : bool).

(** What a line other than END does. *)
Definition show_line (s : dev) (line : list Z) : dev :=
  let s := if print_response then print (line ++ [LF]) s else s in
  if latency_file then
    match parse_latency_response line with
    | Some (sent_seconds, sent_nanoseconds) => log_latency sent_seconds sent_nanoseconds s
    | None => s
    end
  else s.

Definition show_lines (ls : list (list Z)) (s : dev) : dev := fold_left show_line ls s.

Lemma show_line_io w s line : show_line (set_d_io w s) line = set_d_io w (show_line s line).
Proof.
  unfold show_line, log_latency. destruct print_response, latency_file; try done.
  all: destruct (parse_latency_response line) as [[a b]|]; [|done].
  all: cbn [d_prev set_d_io print d_clock]; by destruct (_ && _); [|destruct (d_clock s) as [|[]]].
Qed.

Lemma show_lines_io w ls s : show_lines ls (set_d_io w s) = set_d_io w (show_lines ls s).
Proof. revert s. induction ls as [|l ls IH]; intros s; [done|]. simpl. by rewrite show_line_io, IH. Qed.

Lemma show_lines_app a b s : show_lines (a ++ b) s = show_lines b (show_lines a s).
Proof. apply fold_left_app. Qed.

Lemma set_d_io_same s : set_d_io (d_io s) s = s.
Proof. by destruct s. Qed.

Lemma d_io_show_lines ls s : d_io (show_lines ls s) = d_io s.
Proof. rewrite <- (set_d_io_same s) at 1. by rewrite show_lines_io. Qed.

Lemma process_line_eq line s :
  process_line line print_response latency_file s =
  if strcmp_eq line (str "END") then Done 1 s else Done 0 (show_line s line).
Proof. unfold process_line, show_line. by destruct (strcmp_eq _ _). Qed.

(** The inner loop follows [run_lines]. *)
Lemma scan_bytes_spec buffer line s :
  exists ls r, scan_bytes print_response latency_file buffer line s = Done r (show_lines ls s) /\
    forall rest, run_lines line (buffer ++ rest) =
      match r with
      | inl line' => (ls ++ (run_lines line' rest).1, (run_lines line' rest).2)
      | inr z => (ls, Some z)
      end.
Proof.
  revert line s. induction buffer as [|c buffer IH]; intros line s; cbn [scan_bytes app run_lines].
  - exists [], (inl line). split; [done|]. intros rest. by destruct (run_lines line rest).
  - destruct (c =? LF).
    + unfold bind. rewrite process_line_eq. destruct (strcmp_eq (cstr line) (str "END")).
      * exists [], (inr 0). by split.
      * cbn [Z.eqb]. destruct (IH [] (show_line s (cstr line))) as (ls & r & -> & Hr).
        exists (cstr line :: ls), r. split; [done|]. intros rest. rewrite Hr. by destruct r.
    + destruct (_ <=? _)%nat; [exists [], (inr (-1)); by split|apply IH].
Qed.

(** What has been shown of a response [bs], and its end. *)
Definition received (bs : list Z) (s : dev) (r : option Z) (s' : dev) : Prop :=
  let '(ls, e) := run_lines [] bs in e = r /\ s' = show_lines ls (set_d_io (d_io s') s).

Definition receive_inv (s : dev) (line : list Z) (s' : dev) : Prop :=
  exists ls, s' = show_lines ls (set_d_io (d_io s') s) /\
    run_lines [] (stream (rx (d_io s))) =
      (ls ++ (run_lines line (stream (rx (d_io s')))).1, (run_lines line (stream (rx (d_io s')))).2).

(** One turn of the loop: it shows the next lines of the stream. *)
Lemma receive_step line s :
  wp (receive_body print_response latency_file line) s
    (fun r s' => exists ls, s' = show_lines ls (set_d_io (d_io s') s) /\
       match r with
       | inl line' =>
           run_lines line (stream (rx (d_io s))) =
             (ls ++ (run_lines line' (stream (rx (d_io s')))).1, (run_lines line' (stream (rx (d_io s')))).2) /\
           (rx_size (rx (d_io s')) < rx_size (rx (d_io s)))%nat
       | inr z => exists e, run_lines line (stream (rx (d_io s))) = (ls, e) /\ z = default (-1) e
       end)
    (fun s' => s' = set_d_io (d_io s') s /\ run_lines line (stream (rx (d_io s))) = ([], None)).
Proof.
  unfold receive_body. apply wp_bind, wp_lift, recv_spec; [unfold TELEMETRY_BUFFER_SIZE; lia|..].
  - intros d e evs Hd _ Hsd Hlt _. set (w := set_rx e evs (d_io s)). destruct d as [|c d]; [done|].
    destruct (scan_bytes_spec (c :: d) line (set_d_io w s)) as (ls & r & E & Hr). unfold wp. rewrite E.
    specialize (Hr (stream evs)). rewrite Hsd in Hr. exists ls. rewrite d_io_show_lines. split; [done|].
    destruct r as [line'|z]; [by split|]. by exists (Some z).
  - intros e evs Hs _ _. apply wp_ret. exists []. split; [done|]. exists None. by rewrite Hs.
  - intros e evs Hse Hlt _. apply wp_ret. exists []. split; [done|]. split; [|done].
    cbn [d_io set_d_io rx set_rx]. rewrite Hse. by destruct (run_lines _ _).
  - intros n e evs Hn Hs _. destruct (Z.eqb_spec n EINTR); [done|]. apply wp_ret. exists []. split; [done|].
    exists None. by rewrite Hs.
  - intros e Hs. by rewrite Hs.
Qed.

(** The lines [ls] are shown after those of [s]. *)
Lemma show_lines_from s s1 s2 ls ls' :
  s1 = show_lines ls (set_d_io (d_io s1) s) -> s2 = show_lines ls' (set_d_io (d_io s2) s1) ->
  s2 = show_lines (ls ++ ls') (set_d_io (d_io s2) s).
Proof. intros E1 E2. rewrite show_lines_app. rewrite E2 at 1. f_equal. rewrite E1 at 1. by rewrite <- show_lines_io. Qed.

Lemma receive_body_spec s line s' :
  receive_inv s line s' ->
  wp (receive_body print_response latency_file line) s'
    (fun r s2 => match r with
       | inl line' => receive_inv s line' s2 /\ (rx_size (rx (d_io s2)) < rx_size (rx (d_io s')))%nat
       | inr z => exists e, received (stream (rx (d_io s))) s e s2 /\ z = default (-1) e
       end)
    (fun s2 => received (stream (rx (d_io s))) s None s2).
Proof.
  intros (ls & Es & Hl). unfold received, receive_inv. rewrite Hl. eapply wp_mono; [apply receive_step|..].
  - intros [line'|z] s2 (ls' & E2 & H); assert (E := show_lines_from _ _ _ _ _ Es E2); cbn beta in H |- *.
    + destruct H as [Hr Hlt]. split; [|done]. exists (ls ++ ls'). split; [done|]. by rewrite Hr, <- app_assoc.
    + destruct H as (e & Hr & ->). exists e. rewrite Hr. by split.
  - intros s2 [E2 Hr]. rewrite Hr. split; [done|]. by apply (show_lines_from _ s').
Qed.
End response.

Lemma receive_loop print_response latency_file s :
  let bs := stream (rx (d_io s)) in
  wp (receive_until_end print_response latency_file) s
    (fun r s' => exists e, received print_response latency_file bs s e s' /\ r = default (-1) e)
    (fun s' => received print_response latency_file bs s None s').
Proof.
  intros bs. unfold receive_until_end.
  apply wp_iterate with (I := receive_inv print_response latency_file s);
    [|intros line s' HI; by apply receive_body_spec].
  exists []. split; [by rewrite set_d_io_same|]. by destruct (run_lines [] _).
Qed.

(** C36.  Reassembly of a response: whatever the sizes in which the bytes arrive,
    and also when the connection fails or ends early, the lines handled are
    exactly those of the byte stream before END, in order; the result is 0 at
    END and -1 when the stream ends first or a line is too long. *)
Theorem receive_until_end_lines print_response latency_file s :
  let bs := stream (rx (d_io s)) in
  wp (receive_until_end print_response latency_file) s
    (fun r s' => exists e, received print_response latency_file bs s e s' /\ r = default (-1) e)
    (fun s' => received print_response latency_file bs s None s').
Proof. apply receive_loop. Qed.

(** A line as the daemon sends it. *)
Definition text_line (l : list Z) : Prop :=
  Forall (fun c => c <> LF) l /\ Forall (fun c => c <> NUL) l /\ (length l < TELEMETRY_BUFFER_SIZE)%nat.

Lemma run_lines_end_line acc l bs :
  text_line (acc ++ l) ->
  run_lines acc (l ++ LF :: bs) =
    if strcmp_eq (acc ++ l) (str "END") then ([], Some 0)
    else ((acc ++ l) :: (run_lines [] bs).1, (run_lines [] bs).2).
Proof.
  revert acc. induction l as [|c l IH]; intros acc (Hlf & Hz & Hn).
  - rewrite app_nil_r in *. cbn. rewrite cstr_id by done. destruct (strcmp_eq _ _); [done|]. by destruct (run_lines [] bs).
  - cbn [app run_lines]. assert (Hc := Hlf). apply Forall_app in Hc as [_ [Hc _]%Forall_cons_1].
    destruct (Z.eqb_spec c LF); [done|].
    replace (acc ++ c :: l) with ((acc ++ [c]) ++ l) in * by (by rewrite <- app_assoc).
    destruct (Nat.leb_spec (TELEMETRY_BUFFER_SIZE - 1) (length acc)) as [H|H]; [|by apply IH].
    rewrite !length_app in Hn. simpl in Hn. unfold TELEMETRY_BUFFER_SIZE in *. lia.
Qed.

(** Lines followed by END are handled one by one. *)
Lemma run_lines_text ls rest :
  Forall (fun l => text_line l /\ l <> str "END") ls ->
  run_lines [] (concat (map (fun l => l ++ [LF]) ls) ++ RESPONSE_END_MARKER ++ rest) = (ls, Some 0).
Proof.
  induction 1 as [|l ls [Hl Hne] _ IH]; cbn [map concat].
  - done.
  - rewrite <- !app_assoc. change ([LF] ++ ?r) with (LF :: r). rewrite run_lines_end_line by done.
    cbn [app]. rewrite IH. unfold strcmp_eq. by rewrite bool_decide_eq_false_2.
Qed.

(** ** Latency: facts *)

Lemma parse_latency_text a b :
  INT64_MIN <= a <= INT64_MAX -> INT64_MIN <= b <= INT64_MAX ->
  parse_latency_response (str "LATENCY: " ++ fmt_d a ++ str " " ++ fmt_d b) = Some (a, b).
Proof.
  intros Ha Hb. unfold parse_latency_response.
  change (str "LATENCY: " ++ ?r) with (str "LATENCY:" ++ 32 :: r). rewrite scan_lit_app.
  rewrite scan_ld_skip, scan_ld_space. change (str " " ++ ?r) with (32 :: r).
  rewrite scan_ld_fmt_d by done. rewrite scan_ld_skip, scan_ld_space.
  rewrite <- (app_nil_r (fmt_d b)), scan_ld_fmt_d by done. done.
Qed.

(** Times within the next million years. *)
Definition time_ok (t : timespec) : Prop := 0 <= tv_sec t < 2 ^ 43 /\ 0 <= tv_nsec t < 10 ^ 9.

(** The microseconds of a time, rounded down. *)
Definition microseconds (t : timespec) : Z := tv_sec t * 10 ^ 6 + tv_nsec t / 1000.

Lemma latency_us_ok sent now :
  time_ok sent -> time_ok now ->
  latency_us (tv_sec sent) (tv_nsec sent) now = microseconds now - microseconds sent.
Proof.
  intros [Hs Hn] [Hs' Hn']. unfold latency_us, microseconds. rewrite !Z.quot_div_nonneg by lia.
  assert (0 <= tv_nsec sent / 1000 < 10 ^ 6) by (split; [apply Z.div_pos; lia|apply Z.div_lt_upper_bound; lia]).
  assert (0 <= tv_nsec now / 1000 < 10 ^ 6) by (split; [apply Z.div_pos; lia|apply Z.div_lt_upper_bound; lia]).
  rewrite (sint_id 64 (tv_sec sent * 1000000)), (sint_id 64 (tv_sec now * 1000000)) by lia.
  set (a := tv_nsec sent / 1000) in *. set (b := tv_nsec now / 1000) in *.
  rewrite (sint_id 64 (tv_sec sent * 1000000 + a)), (sint_id 64 (tv_sec now * 1000000 + b)) by lia.
  rewrite sint_id by lia. lia.
Qed.

(** *** The average *)

Lemma add_value_lastn l v : add_value (lastn 5 l) v = lastn 5 (l ++ [v]).
Proof.
  rewrite lastn_snoc. destruct (Nat.le_gt_cases (length l) 4) as [H|H].
  - rewrite !lastn_all by lia. do 5 (destruct l as [|? l]; [done|]). simpl in H. lia.
  - assert (Hd : exists x, lastn 5 l = x :: lastn 4 l).
    { unfold lastn. destruct (lookup_lt_is_Some_2 l (length l - 5)) as [x Hx]; [lia|].
      exists x. rewrite (drop_S l x (length l - 5)) by done. do 2 f_equal. lia. }
    destruct Hd as [x ->]. assert (H4 := length_lastn 4 l). rewrite Nat.min_l in H4 by lia.
    destruct (lastn 4 l) as [|? [|? [|? [|? [|]]]]]; simpl in H4; done || lia.
Qed.

(** The line of one latency. *)
Definition value_line (v : Z) : list Z := fmt_d v ++ [LF].

Lemma fmt_d_nonempty v : fmt_d v <> [].
Proof. unfold fmt_d. destruct (Z.ltb_spec v 0); [done|]. by apply number_nonempty. Qed.

Lemma value_line_spec v :
  i64_ok v ->
  strncmp_eq (value_line v) (str "latency_microseconds") = false /\
  strtoll 10 (value_line v) = {| sto_value := v; sto_end := [LF]; sto_errno := false |} /\
  bool_decide ([LF] = value_line v) = false.
Proof.
  intros Hv. assert (E : strtoll 10 (value_line v) = {| sto_value := v; sto_end := [LF]; sto_errno := false |}).
  { by apply strtoll_fmt_d. }
  assert (Hf := fmt_d_printable v). split; [|split; [done|]].
  - apply bool_decide_eq_false. intros H. apply (f_equal (fun s => nth 0 s 0)) in H. cbn in H. unfold value_line in H.
    destruct Hf as [|c s Hc _]; [done|]. simpl in H. lia.
  - apply bool_decide_eq_false. intros H. apply (f_equal length) in H. unfold value_line in H.
    rewrite length_app in H. cbn [length] in H. assert (length (fmt_d v) <> 0)%nat; [|lia].
    intros Hn%nil_length_inv. by apply fmt_d_nonempty in Hn.
Qed.

Lemma read_values_lines vs p :
  Forall i64_ok vs ->
  read_values (lastn 5 p) (map value_line vs) = lastn 5 (p ++ vs).
Proof.
  intros H. revert p. induction H as [|v vs Hv _ IH]; intros p; cbn [map read_values].
  - by rewrite app_nil_r.
  - assert (Hz : cstr (value_line v) = value_line v).
    { apply cstr_id. apply Forall_app. split; [apply printable_nonzero, printable_fmt_d|by repeat constructor]. }
    destruct (value_line_spec v Hv) as (E1 & E2 & E3). rewrite Hz, E1, E2. cbn [sto_errno sto_end sto_value orb].
    rewrite E3, add_value_lastn, IH. by rewrite <- app_assoc.
Qed.

Lemma file_lines_values vs :
  Forall i64_ok vs -> file_lines 256 (concat (map value_line vs)) = map value_line vs.
Proof.
  induction 1 as [|v vs Hv _ IH]; [done|]. cbn [map concat].
  change (value_line v ++ ?r) with ((fmt_d v ++ [LF]) ++ r). rewrite <- app_assoc. change ([LF] ++ ?r) with (LF :: r).
  rewrite file_lines_LF, IH; [done| |].
  - eapply Forall_impl; [apply fmt_d_printable|]. unfold LF. simpl. lia.
  - unfold i64_ok, INT64_MIN, INT64_MAX in Hv.
    assert (length (fmt_d v) <= 20)%nat by (apply (length_fmt_d _ 19); simpl; lia). lia.
Qed.

(** Removes the casts of a sum, the innermost first. *)
Ltac sum_step :=
  cbn [fold_left foldr];
  repeat match goal with
    | |- context [sint 64 ?z] =>
        lazymatch z with context [sint] => fail | _ => rewrite (sint_id 64 z) by lia end
    end; lia.

Lemma sum_values_exact vs :
  Forall (fun v => Z.abs v <= 2 ^ 60) vs -> (length vs <= 5)%nat -> sum_values vs = foldr Z.add 0 vs.
Proof.
  intros Hv Hl. unfold sum_values.
  do 6 (destruct Hv as [|? ? ? Hv]; [sum_step|]).
  simpl in Hl. lia.
Qed.

(** C37.  GET LATENCY reports the average of the last five latencies in the file,
    of all of them while there are fewer, rounded towards zero. *)
Theorem average_latency vs :
  Forall (fun v => Z.abs v <= 2 ^ 60) vs -> vs <> [] ->
  let last_five := lastn 5 vs in
  print_average_latency (Some (latency_header ++ concat (map value_line vs))) =
    str "Average latency from the last " ++ fmt_d (Z.of_nat (length last_five)) ++ str " samples: " ++
    fmt_d (Z.quot (foldr Z.add 0 last_five) (Z.of_nat (length last_five))) ++ str " microseconds" ++ [LF].
Proof.
  intros Hv Hne last_five.
  assert (Hi : Forall i64_ok vs).
  { eapply Forall_impl; [done|]. unfold i64_ok, INT64_MIN, INT64_MAX. simpl. lia. }
  assert (E : read_values [] (file_lines 256 (latency_header ++ concat (map value_line vs))) = last_five).
  { change (latency_header ++ ?r) with (str "latency_microseconds" ++ LF :: r).
    rewrite file_lines_LF by (repeat constructor || simpl; done || lia). rewrite file_lines_values by done.
    exact (read_values_lines vs [] Hi). }
  assert (Hl : (0 < length last_five <= 5)%nat).
  { unfold last_five. rewrite length_lastn. destruct vs; [done|]. cbn [length]. lia. }
  unfold print_average_latency. rewrite E. destruct (Z.eqb_spec (Z.of_nat (length last_five)) 0); [lia|].
  rewrite sum_values_exact; [done| |lia]. by apply Forall_drop.
Qed.

(** ** Instances of the theorems *)

Lemma command_roundtrip_witness :
  let w := mk_io false [] [Takes 0; TxInterrupts 10] [] in
  wp (send_command (str "GET ID fde8" ++ [LF])) w (written w [0xAA; 0xFB; 0xE8; 0xFD]) (fun _ => False) /\
  next_request [0xAA; 0xFB; 0xE8; 0xFD; 0xAA] = Some (ReqId 65000, [0xAA]).
Proof.
  apply (command_roundtrip (ReqId 65000) (mk_io false [] [Takes 0; TxInterrupts 10] []) [0xAA]).
  simpl. lia.
Defined.

Lemma average_latency_witness :
  print_average_latency (Some (latency_header ++ concat (map value_line [900; 10; 20; 30; -40; 51]))) =
    str "Average latency from the last " ++ fmt_d 5 ++ str " samples: " ++
    fmt_d (Z.quot (foldr Z.add 0 [10; 20; 30; -40; 51]) 5) ++ str " microseconds" ++ [LF].
Proof.
  apply (average_latency [900; 10; 20; 30; -40; 51]); [|discriminate].
  repeat constructor; simpl; lia.
Defined.

Example average_latency_ex :
  print_average_latency (Some (latency_header ++ concat (map value_line [900; 10; 20; 30; -40; 51]))) =
    str "Average latency from the last 5 samples: 14 microseconds" ++ [LF].
Proof. vm_compute. reflexivity. Qed.
