(* ===== verification/EndToEnd.v ===== *)
(** The programs together: a reading from the simulator's packet to the frame
    of the processing daemon and to the registry of the telemetry daemon, a response of the telemetry daemon on the user's
    screen, and the time in a latency packet from its sender to the log. *)
From S2P Require Import Prelude Machine Proc CText CFloat Sense Posix Interfaces SenseUtils.
From S2P Require Import Acquiring Processing Registry Replies TelemetryMain UserHandler ClientSensors DevInterface.
Local Open Scope Z_scope.

(** ** From the simulator to the frame *)

(** A reading the processing daemon accepts: a supported type, and no data or
    the data of its type. *)
Definition acceptable (r : Z * Z * list Z) : Prop :=
  let '(type, id, data) := r in
  supported type = true /\ 0 <= id < 2 ^ 16 /\ bytes_ok data /\
  (data = [] \/ Z.of_nat (length data) = data_size type).

Lemma acceptable_length type id data : acceptable (type, id, data) -> (length data <= MAX_DATA_SIZE)%nat.
Proof.
  intros (_ & _ & _ & [-> | H]); unfold MAX_DATA_SIZE; [simpl; lia|]. pose proof (data_size_range type). lia.
Qed.

Lemma supported_byte type : supported type = true -> is_byte type.
Proof. intros H. destruct (supported_cases type H) as [-> | [-> | [-> | ->]]]; done. Qed.

(** The fields of a packet. *)
Lemma protocol_fields type id data :
  acceptable (type, id, data) ->
  let p := protocol_packet type id data in
  buf_at p 0 = Processing.SYNC_FIELD /\ buf_at p 1 = type /\ or16 (buf_at p 2) (buf_at p 3) = id /\
  or16 (buf_at p 4) (buf_at p 5) = Z.of_nat (length data) /\
  drop Processing.PACKET_HEADER_FIELDS_SIZE p = data /\ bytes_ok p.
Proof.
  intros Ha p. assert (Hl := acceptable_length _ _ _ Ha). destruct Ha as (Ht & Hi & Hd & _).
  unfold MAX_DATA_SIZE in Hl. split; [done|]. split; [done|].
  assert (Hor : forall n, 0 <= n < 2 ^ 16 -> or16 (nth 0 (le_bytes 2 n) 0) (nth 1 (le_bytes 2 n) 0) = n).
  { intros n Hn. rewrite or16_le by (apply Z.mod_pos_bound; lia). by apply (le_val_u 2). }
  split; [by apply (Hor id)|]. split; [apply (Hor (Z.of_nat (length data))); lia|]. split; [done|].
  repeat (apply Forall_app; split); try apply le_bytes_ok; [|done].
  constructor; [done|]. constructor; [by apply supported_byte|constructor].
Qed.

Lemma protocol_valid type id data :
  acceptable (type, id, data) ->
  valid_packet (protocol_packet type id data) (length (protocol_packet type id data)).
Proof.
  intros Ha. destruct (protocol_fields _ _ _ Ha) as (H0 & H1 & _ & H3 & _). destruct Ha as (Ht & _ & _ & Hd).
  unfold valid_packet. rewrite H0, H1, H3, length_protocol_packet.
  unfold Processing.PACKET_HEADER_FIELDS_SIZE. split; [lia|]. split; [done|]. split; [done|]. split; [lia|].
  destruct Hd as [-> | Hd]; auto.
Qed.

(** The frame of a reading. *)
Definition reading_frame (now mono : timespec) (r : Z * Z * list Z) : Sensor_t :=
  let '(ty, i, d) := r in
  {| data := splice (replicate sizeof_SensorData 0) 0 d; timestamp := now; last_seen_time := mono; id := i;
     name := nameSensor (replicate SENSOR_NAME_SIZE 0) i ty; type := ty; state := SENSOR_FRAME_DEFAULT;
     frame_type := match d with [] => SENSOR_HEARTBEAT | _ => SENSOR_DATA end |}.

Lemma generateFrame_reading now mono type id data :
  acceptable (type, id, data) ->
  let p := protocol_packet type id data in
  generateFrame (Some now) (Some mono) p zero_sensor (length p) = (0, reading_frame now mono (type, id, data)).
Proof.
  intros Ha p. destruct (protocol_fields _ _ _ Ha) as (_ & H1 & H2 & _ & H4 & Hb).
  rewrite generateFrame_valid by (done || by apply protocol_valid). f_equal. unfold frame_of, reading_frame.
  fold p in H1, H2, H4. rewrite H1, H2, H4. unfold p. rewrite length_protocol_packet.
  unfold Processing.PACKET_HEADER_FIELDS_SIZE. rewrite take_ge by lia. f_equal.
  destruct data as [|b data]; [done|]. simpl length. destruct (Nat.eqb_spec (6 + S (length data)) 6); [lia|done].
Qed.

(** Clocks that always answer. *)
Definition clock_of (times : nat -> timespec * timespec) (k : nat) : option timespec * option timespec :=
  (Some (times k).1, Some (times k).2).

(** The messages of a client's packets become the frames of its readings. *)
Lemma run_packets_readings times n rs :
  Forall acceptable rs ->
  (run_packets (clock_of times) n (packets_of rs)).1 =
    imap (fun k => reading_frame (times (n + k)%nat).1 (times (n + k)%nat).2) rs.
Proof.
  intros Hr. revert n. induction Hr as [|[[type id] data] rs Ha _ IH]; intros n; [done|].
  change (packets_of ((type, id, data) :: rs)) with (protocol_packet type id data :: packets_of rs).
  assert (Hdl := acceptable_length _ _ _ Ha). unfold MAX_DATA_SIZE in Hdl.
  cbn [run_packets imap]. rewrite length_protocol_packet at 1 2.
  unfold Processing.PACKET_SIZE, Processing.PACKET_HEADER_FIELDS_SIZE, Processing.PACKET_DATA_FIELDS_SIZE.
  destruct (Nat.ltb_spec (6 + length data) 6); [lia|].
  destruct (Nat.ltb_spec (12 + 6) (6 + length data)); [lia|]. cbn [orb clock_of fst snd].
  rewrite generateFrame_reading by done.
  specialize (IH (S n)). destruct (run_packets (clock_of times) (S n) (packets_of rs)) as [fs n'].
  cbn [Z.eqb fst] in *. rewrite IH, Nat.add_0_r. f_equal. apply imap_ext. intros i x _. simpl.
  by rewrite Nat.add_succ_r.
Qed.

Lemma acceptable_bytes rs : Forall acceptable rs -> Forall bytes_ok (packets_of rs).
Proof. intros H. apply Forall_map. eapply Forall_impl; [done|]. intros [[ty i] d] Ha. by apply protocol_fields. Qed.

(** A connection of the acquisition daemon that will receive the bytes [bs],
    without failures. *)
Definition conn_for (bs : list Z) (c : conn) : Prop :=
  stream (rx (c_io c)) = bs /\ quiet (c_io c) /\ accepting c /\ forwarded c = [].

(** A processing daemon that will receive the messages [ms], without failures,
    with room for [n] frames. *)
Definition daemon_for (clock : nat -> option timespec * option timespec) (ms : list (list Z)) (n : nat)
    (p : processing) : Prop :=
  messages (rx (p_io p)) = ms /\ quiet (p_io p) /\ p_clock p = clock /\ p_frames p = 0%nat /\
  mq_ok (tx_log_mq (p_out p)) /\ mq_ok (tx_telemetry_mq (p_out p)) /\ room (p_out p) n.

(** The daemon [p] has put the frames in its output queues. *)
Definition put_out (fs : list Sensor_t) (p p' : processing) : Prop :=
  p_out p' = mk_queues (push (data_frames fs) (tx_log_mq (p_out p))) (push fs (tx_telemetry_mq (p_out p))).

(** The processing daemon on the packets of the readings. *)
Lemma readings_put_out times rs p :
  Forall acceptable rs -> clock_ok (clock_of times) -> daemon_for (clock_of times) (packets_of rs) (length rs) p ->
  let fs := imap (fun k => reading_frame (times k).1 (times k).2) rs in
  wp Processing.main_loop p (fun _ => put_out fs p) (put_out fs p).
Proof.
  intros Hr Hck (Hm & Hq & Hc & Hn & Hl & Ht & Hroom) fs.
  assert (H : forall p', loop_post p p' -> put_out fs p p').
  { intros p' (ms & rest & Hms & (_ & fs' & Hrun & _ & _ & l & t & El & Et & _ & _ & _ & Hall) & Hrest).
    rewrite (Hrest Hq), app_nil_r, Hm in Hms. subst ms.
    assert (Efs : fs' = fs).
    { apply (f_equal fst) in Hrun. cbn [fst] in Hrun. by rewrite <- Hrun, Hc, Hn, run_packets_readings. }
    destruct Hall as [-> ->]; [by unfold packets_of; rewrite length_map|].
    unfold put_out. rewrite <- Efs, <- El, <- Et. by destruct (p_out p'). }
  eapply wp_mono; [apply main_loop_spec|..]; try done; try (by rewrite Hc).
  rewrite Hm. by apply acceptable_bytes.
Qed.

(** C5.  A reading written to the simulator's data file arrives unchanged: for
    every list of readings of supported types with data of their size (or
    heartbeats), a client whose network does not fail sends bytes which the
    acquisition daemon, in whatever pieces they arrive, turns into messages
    of which the processing daemon makes one frame per reading, in order,
    with its type, id, name and data bytes and the time of its arrival: all
    of them for telemetry, those with data for the log. *)
Theorem file_to_frames stack buf rs times w :
  length stack = MAX_PACKET_SIZE -> length buf = Acquiring.PACKET_SIZE ->
  Forall acceptable rs -> clock_ok (clock_of times) ->
  let file := concat (map (fun '(type, id, data) => reading_line type id data) rs) in
  let frames := imap (fun k => reading_frame (times k).1 (times k).2) rs in
  let delivered c := forall p, daemon_for (clock_of times) (forwarded c) (length rs) p ->
    wp Processing.main_loop p (fun _ => put_out frames p) (put_out frames p) in
  wp (normal_client stack 1 file) w
    (fun r w' => (tx w = [] -> r = 0) /\
       (r = 0 -> exists bs, sent w' = sent w ++ bs /\
          forall c, conn_for bs c -> wp (socketConnectionHandler buf) c (fun _ => delivered) delivered))
    (fun _ => False).
Proof.
  intros Hs Hb Hr Hck file frames delivered.
  assert (E : file_readings file = rs).
  { apply file_readings_lines. eapply Forall_impl; [done|]. intros [[type id] data] Ha.
    assert (Hl := acceptable_length _ _ _ Ha). destruct Ha as (Ht & Hi & Hd & _).
    split; [by apply supported_byte|]. by split. }
  eapply wp_mono; [by apply normal_client_writes| |done]. intros r w' [_ [[-> Hw]|(-> & Hx & _)]]; [|by split].
  split; [done|]. intros _. eexists. split; [exact Hw|]. cbn [replicate concat]. rewrite app_nil_r, E.
  intros c (Hst & Hq & Ha & Hf).
  assert (Hd : forall c', forwarded c' = forwarded c ++ packets (stream (rx (c_io c))) -> delivered c').
  { intros c'. rewrite Hst, Hf, packets_concat.
    - intros Hf' p Hp. cbn [app] in Hf'. rewrite Hf' in Hp. by apply readings_put_out.
    - eapply Forall_impl; [done|]. intros [[type id] data]. apply acceptable_length. }
  eapply wp_mono; [by apply handler_forwards|..].
  - intros a c' [Hc _]. by apply Hd.
  - apply Hd.
Qed.

(** ** From the frame to the registry *)

Lemma frames_of_bytes fs : Forall wf_sensor fs -> frames_of (map Sensor_bytes fs) = fs.
Proof.
  induction 1 as [|f fs Hf _ IH]; [done|]. cbn [map].
  change (Sensor_bytes f :: map Sensor_bytes fs) with ([Sensor_bytes f] ++ map Sensor_bytes fs).
  by rewrite frames_of_app, frames_of_one, IH, Sensor_of_Sensor_bytes by (done || by apply length_Sensor_bytes).
Qed.

Lemma wf_reading_frame now mono r :
  acceptable r -> i64_ok (tv_sec now) /\ i64_ok (tv_nsec now) -> i64_ok (tv_sec mono) /\ i64_ok (tv_nsec mono) ->
  wf_sensor (reading_frame now mono r).
Proof.
  destruct r as [[type id] data]. intros Ha [H1 H2] [H3 H4]. assert (Hv := protocol_valid _ _ _ Ha).
  assert (E := generateFrame_reading now mono _ _ _ Ha). cbv zeta in E.
  destruct (protocol_fields _ _ _ Ha) as (_ & _ & _ & _ & _ & Hb).
  rewrite generateFrame_valid in E by done. apply (f_equal snd) in E. cbn [snd] in E. rewrite <- E. by apply wf_frame_of.
Qed.

Lemma reading_frames_wf times rs :
  Forall acceptable rs -> clock_ok (clock_of times) ->
  Forall wf_sensor (imap (fun k => reading_frame (times k).1 (times k).2) rs).
Proof.
  intros Hr Hck. apply Forall_lookup. intros i f Hf. rewrite list_lookup_imap in Hf.
  destruct (rs !! i) as [r|] eqn:Er; [|done]. injection Hf as <-. apply wf_reading_frame.
  - by eapply Forall_lookup_1.
  - apply (Hck i). by left.
  - apply (Hck i). by right.
Qed.

(** C6.  From the sensor to the registry: when the telemetry daemon takes from
    its queue the messages the processing daemon has put there for the
    readings, and these come from at most 128 sensors, it ends up waiting
    with a registry that lists the sensors in order of their first reading,
    each with the time of its last reading and the data of its last reading
    with data - the messages of the queue lose nothing of a frame. *)
Theorem readings_to_registry times rs p p' garbage s :
  Forall acceptable rs -> clock_ok (clock_of times) ->
  let fs := imap (fun k => reading_frame (times k).1 (times k).2) rs in
  mq_msgs (tx_telemetry_mq (p_out p)) = [] -> put_out fs p p' ->
  messages (rx (t_io s)) = map snd (mq_msgs (tx_telemetry_mq (p_out p'))) ->
  t_reg s = initial_registry garbage -> quiet (t_io s) -> memory s -> (length (first_keys fs) <= limit)%nat ->
  wp TelemetryMain.main_loop s (fun _ _ => False)
    (fun s' => map sensor_key (snapshot (t_reg s')) = first_keys fs /\ Forall (shows fs) (snapshot (t_reg s'))).
Proof.
  intros Hr Hck fs He Hp Hm Hg Hq Hmem Hl.
  assert (Hfs : frames_of (messages (rx (t_io s))) = fs).
  { rewrite Hm, Hp. cbn [tx_telemetry_mq]. unfold push. cbn [mq_msgs set_msgs]. rewrite He, app_nil_l, map_map.
    by apply frames_of_bytes, reading_frames_wf. }
  pose proof (main_loop_waits garbage s Hg Hq Hmem) as H. cbv zeta in H. rewrite Hfs in H. by apply H.
Qed.

(** ** From the registry to the screen *)

(** A registry entry as the processing daemon makes them. *)
Definition labelled (s : Sensor_t) : Prop :=
  length (name s) = SENSOR_NAME_SIZE /\ printable (cstr (name s)).

Lemma labelled_reading now mono type id data :
  acceptable (type, id, data) -> labelled (reading_frame now mono (type, id, data)).
Proof.
  intros (Ht & Hi & _). assert (Hz : bytes_ok (replicate SENSOR_NAME_SIZE 0)) by (by apply Forall_replicate).
  split; cbn [name reading_frame]; [by apply nameSensor_wf|].
  rewrite cstr_nameSensor by done. apply printable_sensor_name; lia.
Qed.

Section screen.
Context (tz : Z).

(** The line of a sensor without its line feed. *)
Definition sensor_body (target : Sensor_t) : list Z :=
  if id target =? LATENCY_ID then
    str "LATENCY: " ++ fmt_d (sent_seconds (data target)) ++ str " " ++ fmt_d (sent_nanoseconds (data target))
  else getTime tz target ++ str ": " ++ cstr (name target) ++ str ": " ++ getDataString target.

Lemma sensor_line_body s : sensor_line tz s = sensor_body s ++ [LF].
Proof. unfold sensor_line, sensor_body. destruct (id s =? LATENCY_ID); by rewrite <- !app_assoc. Qed.

Lemma lines_bodies l : lines tz l = concat (map (fun b => b ++ [LF]) (map sensor_body l)).
Proof. unfold lines. rewrite map_map. f_equal. apply map_ext. intros. apply sensor_line_body. Qed.

Lemma sensor_body_text s : labelled s -> text_line (sensor_body s) /\ sensor_body s <> str "END".
Proof.
  intros [Hn Hp]. destruct (sensor_line_bounds tz s Hn) as [Hl _]. rewrite sensor_line_body, length_app in Hl.
  unfold TRANSMIT_BUFFER_SIZE in Hl.
  assert (Hpr : printable (sensor_body s)).
  { unfold sensor_body. rewrite getDataString_exact. destruct (id s =? LATENCY_ID).
    - auto 10 with printable.
    - apply printable_app; [apply getTime_bounds|]. apply printable_app; [auto with printable|].
      apply printable_app; [done|]. apply printable_app; [auto with printable|]. apply reading_text_bounds. }
  split; [split; [|split]|].
  - eapply Forall_impl; [done|]. unfold LF. simpl. lia.
  - by apply printable_nonzero.
  - unfold TELEMETRY_BUFFER_SIZE. lia.
  - intros E. assert (Hin : 58 ∈ sensor_body s).
    { unfold sensor_body. destruct (id s =? LATENCY_ID); [|rewrite !elem_of_app; right; left; left].
      rewrite elem_of_app. left. apply list_elem_of_In. vm_compute. tauto. }
    rewrite E in Hin. apply list_elem_of_In in Hin. vm_compute in Hin. intuition discriminate.
Qed.

(** The text shown for the answer to a request. *)
Lemma show_lines_out ls s :
  show_lines true false ls s = print (concat (map (fun b => b ++ [LF]) ls)) s.
Proof.
  revert s. induction ls as [|l ls IH]; intros s.
  - unfold print. simpl. rewrite app_nil_r. by destruct s.
  - cbn [show_lines fold_left map concat]. change (fold_left _ ls ?x) with (show_lines true false ls x).
    rewrite IH. unfold show_line, print. cbn [d_io d_out d_file d_prev d_clock]. by rewrite <- app_assoc.
Qed.

(** The bytes of a complete list of sensors on the screen. *)
Lemma screen_list l rest s :
  Forall labelled l -> stream (rx (d_io s)) = lines tz l ++ RESPONSE_END_MARKER ++ rest ->
  wp (receive_until_end true false) s
    (fun r s' => r = 0 /\ d_out s' = d_out s ++ lines tz l /\ d_file s' = d_file s) (fun _ => False).
Proof.
  intros Hl Hs. pose proof (receive_loop true false s) as H. cbv zeta in H. rewrite Hs, lines_bodies in H.
  assert (Hr : run_lines [] (concat (map (fun b => b ++ [LF]) (map sensor_body l)) ++ RESPONSE_END_MARKER ++ rest)
               = (map sensor_body l, Some 0)).
  { apply run_lines_text. apply Forall_map. eapply Forall_impl; [done|]. by apply sensor_body_text. }
  unfold received in H. rewrite Hr in H. eapply wp_mono; [exact H| |by intros s' [? _]].
  intros r s' (e & [<- E] & ->). rewrite show_lines_out in E. rewrite E. cbn. by rewrite lines_bodies.
Qed.

(** The sensors a request with a list reply asks for. *)
Definition selected (r : registry) (req : request) : list Sensor_t :=
  match req with
  | ReqAll => snapshot r
  | ReqType t => List.filter (fun s => type s =? t) (snapshot r)
  | ReqId i => [getSensor_ID i (slots r) (sensor_count r)]
  | ReqOnline => List.filter (fun s => state s =? SENSOR_ONLINE) (snapshot r)
  | ReqOffline => List.filter (fun s => state s =? SENSOR_OFFLINE) (snapshot r)
  | _ => []
  end.

Lemma selected_labelled r req : Forall labelled (snapshot r) -> Forall labelled (selected r req).
Proof.
  intros H. assert (Hf : forall f, Forall labelled (List.filter f (snapshot r))).
  { intros f. induction H as [|s l Hs _ IH]; [constructor|]. simpl. destruct (f s); by try constructor. }
  destruct req; simpl; try constructor; try done. unfold getSensor_ID.
  assert (Hz : labelled zero_sensor) by (split; [done|constructor]).
  unfold snapshot in H. induction H as [|s l Hs _ IH]; simpl; [done|]. by destruct (id s =? call_id).
Qed.

Lemma answers_selected sv req :
  has_command req -> req <> ReqThroughput -> at_alloc sv 0 = true ->
  answers tz sv 0 (request_bytes req) = lines tz (selected (at_registry sv 0) req) ++ RESPONSE_END_MARKER.
Proof.
  intros Hc Ht Ha. rewrite answers_unfold, <- (app_nil_r (request_bytes req)), next_request_bytes by done.
  assert (E : answer tz sv 0 req = Some (lines tz (selected (at_registry sv 0) req) ++ RESPONSE_END_MARKER)).
  { destruct req; cbn [answer selected has_command] in *; try done;
      rewrite ?Hc, ?Ha, ?andb_false_r; try done.
    - do 3 f_equal. induction (snapshot _) as [|s l IH]; [done|]. simpl. by f_equal.
    - unfold lines. cbn [map concat]. by rewrite app_nil_r. }
  rewrite E, answers_unfold. cbn. by rewrite app_nil_r.
Qed.

End screen.

(** An entry keeps the name of its last frame. *)
Lemma labelled_update f old : named old -> labelled f -> labelled (updateRegistry f old).
Proof.
  intros Ho [Hn Hp]. unfold labelled, updateRegistry. cbn [name].
  rewrite take_ge by (by rewrite Hn). rewrite splice_0 by (by rewrite Hn, Ho). done.
Qed.

Lemma labelled_named l : Forall labelled l -> Forall named l.
Proof. intros H. eapply Forall_impl; [done|]. by intros s [? _]. Qed.

(** C7.  A session: for every command with a list reply, the interface sends
    the request unless the network fails; the daemon, whatever the pieces in
    which it receives it, answers; and when these bytes arrive, again in
    whatever pieces, the interface prints exactly the lines of the sensors the
    command names, in registry order, without the end marker, and reports
    success. *)
Theorem command_shows_registry tz sv req w :
  has_command req -> req <> ReqThroughput -> at_alloc sv 0 = true ->
  (forall n, Forall labelled (snapshot (at_registry sv n))) ->
  let shown d d' := forall s, sent d' = sent d ++ stream (rx (d_io s)) ->
    wp (receive_until_end true false) s
      (fun r s' => r = 0 /\ d_out s' = d_out s ++ lines tz (selected (at_registry sv 0) req))
      (fun _ => False) in
  wp (send_command (command_of req)) w
    (fun r w' => (tx w = [] -> r = 0) /\
       (r = 0 -> exists bs, sent w' = sent w ++ bs /\
          forall d, stream (rx d) = bs -> quiet d -> tx d = [] ->
            wp (userHandler tz sv) d (fun _ => shown d) (shown d)))
    (fun _ => False).
Proof.
  intros Hc Ht Ha Hl shown. unfold wp at 1. rewrite send_command_request by done.
  change (wp (DevInterface.send_all (request_bytes req)) w
    (fun r w' => (tx w = [] -> r = 0) /\
       (r = 0 -> exists bs, sent w' = sent w ++ bs /\
          forall d, stream (rx d) = bs -> quiet d -> tx d = [] ->
            wp (userHandler tz sv) d (fun _ => shown d) (shown d))) (fun _ => False)).
  eapply wp_mono; [apply writes| |done]. intros r w' [_ [[-> Hw]|(-> & Hx & _)]]; [|by split].
  split; [done|]. intros _. eexists. split; [exact Hw|]. intros d Hd Hq Htx.
  assert (H : forall d', sent d' = sent d ++ answers tz sv 0 (stream (rx d)) -> shown d d').
  { intros d' Hs s Hs'. rewrite Hs' in Hs. apply app_inv_head in Hs. rewrite Hd in Hs.
    eapply wp_mono.
    - apply (screen_list tz (selected (at_registry sv 0) req) []); [by apply selected_labelled|].
      by rewrite app_nil_r, Hs, answers_selected.
    - by intros r s' (H1 & H2 & _).
    - done. }
  eapply wp_mono; [apply userHandler_sends; [|done|done]|..].
  - intros n. by apply labelled_named.
  - intros a d'. apply H.
  - apply H.
Qed.

(** ** The latency of a packet *)

Section latency.
Context (tz : Z).

(** A sample that is not a repetition of the last one. *)
Definition new_sample (sent : timespec) (s : dev) : Prop := d_prev s <> (tv_sec sent, tv_nsec sent).

(** The data of a latency packet. *)
Definition latency_data (sent : timespec) : list Z := le_bytes 8 (tv_sec sent) ++ le_bytes 4 (tv_nsec sent).

Lemma latency_acceptable sent :
  acceptable (ClientSensors.LATENCY_SENSOR_TYPE, ClientSensors.LATENCY_SENSOR_ID, latency_data sent).
Proof.
  split; [done|]. split; [done|]. split; [apply Forall_app; split; apply le_bytes_ok|]. right. done.
Qed.

(** The line of the latency sensor names the time. *)
Lemma latency_body s sent :
  id s = LATENCY_ID -> data s = latency_data sent -> time_ok sent ->
  sensor_body tz s = str "LATENCY: " ++ fmt_d (tv_sec sent) ++ str " " ++ fmt_d (tv_nsec sent).
Proof.
  intros Hi Hd [Hsec Hns]. unfold sensor_body, sent_seconds, sent_nanoseconds. rewrite Hi, Hd, Z.eqb_refl.
  unfold latency_data. rewrite take_app_exact, drop_app_exact, take_ge by (by rewrite length_le_bytes).
  rewrite i64_le_bytes by (unfold i64_ok, INT64_MIN, INT64_MAX; lia).
  by rewrite le_val_u, sint_id by lia.
Qed.

(** Showing that line logs the latency. *)
Lemma show_latency sent received_at clock s :
  time_ok sent -> time_ok received_at -> new_sample sent s -> d_clock s = Some received_at :: clock ->
  let s' := show_line false true s (str "LATENCY: " ++ fmt_d (tv_sec sent) ++ str " " ++ fmt_d (tv_nsec sent)) in
  d_out s' = d_out s /\ d_file s' = d_file s ++ value_line (microseconds received_at - microseconds sent).
Proof.
  intros Ht Hr Hn Hc. assert (Ht' := Ht). destruct Ht' as [Hsec Hns]. unfold show_line.
  rewrite parse_latency_text by (unfold INT64_MIN, INT64_MAX; lia).
  unfold log_latency. unfold new_sample in Hn. destruct (d_prev s) as [p1 p2]. cbn [fst snd].
  destruct (Z.eqb_spec (tv_sec sent) p1) as [E3|]; [destruct (Z.eqb_spec (tv_nsec sent) p2) as [E4|]|].
  { by rewrite E3, E4 in Hn. }
  all: cbn [andb]; rewrite Hc; cbn [d_file d_out]; by rewrite latency_us_ok.
Qed.

(** C16.  The latency measured end to end: the time in a latency packet goes
    unchanged through the acquisition stream, the frame and the registry;
    when the line of the sensor arrives, in whatever pieces, the interface
    appends the exact number of microseconds between that time and its own
    clock to the log, and prints nothing. *)
Theorem latency_end_to_end stack sent now mono rest received_at old :
  length stack = MAX_PACKET_SIZE -> time_ok sent -> time_ok received_at -> named old ->
  let p := latency_packet stack sent in
  packets (p ++ rest) = p :: packets rest /\
  exists f, generateFrame (Some now) (Some mono) p zero_sensor (length p) = (0, f) /\
    forall s clock, new_sample sent s -> d_clock s = Some received_at :: clock ->
      stream (rx (d_io s)) = sensor_line tz (updateRegistry f old) ++ RESPONSE_END_MARKER ->
      wp (receive_until_end false true) s
        (fun r s' => r = 0 /\ d_out s' = d_out s /\
           d_file s' = d_file s ++ value_line (microseconds received_at - microseconds sent)) (fun _ => False).
Proof.
  intros Hs Ht Hr Ho p. unfold p. rewrite latency_packet_protocol by done.
  rewrite (sint_id 64 (tv_sec sent)), (sint_id 32 (tv_nsec sent)) by (destruct Ht; lia).
  change (le_bytes 8 (tv_sec sent) ++ le_bytes 4 (tv_nsec sent)) with (latency_data sent).
  assert (Ha := latency_acceptable sent). split.
  - rewrite packets_unfold, packet_length_protocol by (by eapply acceptable_length).
    by rewrite take_app_exact, drop_app_exact by (by rewrite length_protocol_packet).
  - eexists. split; [by apply generateFrame_reading|]. intros s clock Hn Hc Hst.
    set (e := updateRegistry _ old) in *.
    assert (He : labelled e) by (apply labelled_update; [done|by apply labelled_reading]).
    assert (Hb : sensor_body tz e = str "LATENCY: " ++ fmt_d (tv_sec sent) ++ str " " ++ fmt_d (tv_nsec sent)).
    { apply latency_body; [done| |done]. apply splice_0. done. }
    pose proof (receive_loop false true s) as H. cbv zeta in H. rewrite Hst in H.
    assert (Hrun : run_lines [] (sensor_line tz e ++ RESPONSE_END_MARKER) = ([sensor_body tz e], Some 0)).
    { rewrite sensor_line_body, <- (app_nil_r RESPONSE_END_MARKER), <- (app_nil_r (sensor_body tz e ++ [LF])).
      apply (run_lines_text [sensor_body tz e] []). constructor; [by apply sensor_body_text|constructor]. }
    unfold received in H. rewrite Hrun in H. eapply wp_mono; [exact H| |by intros s' [? _]].
    intros r s' (x & [<- E] & ->). split; [done|].
    pose proof (show_latency sent received_at clock (set_d_io (d_io s') s) Ht Hr Hn Hc) as Hlog.
    rewrite <- Hb in Hlog. unfold show_lines in E. cbn [fold_left] in E. by rewrite <- E in Hlog.
Qed.
End latency.

(** ** Instances of the theorems *)

Definition example_times (k : nat) : timespec * timespec :=
  ({| tv_sec := 1700000000 + Z.of_nat k mod 60; tv_nsec := 0 |}, {| tv_sec := Z.of_nat k mod 60; tv_nsec := 0 |}).

Lemma example_acceptable : Forall acceptable example_readings.
Proof.
  constructor; [|constructor; [|constructor]].
  - split; [reflexivity|]. split; [lia|]. split; [repeat constructor; lia|]. right. reflexivity.
  - split; [reflexivity|]. split; [lia|]. split; [constructor|]. left. reflexivity.
Qed.

Lemma example_clock_ok : clock_ok (clock_of example_times).
Proof. intros n t. cbn. intros [E|E]; injection E as <-; split; unfold i64_ok, INT64_MIN, INT64_MAX; cbn; zdiv. Qed.

Lemma file_to_frames_witness :
  let file := concat (map (fun '(type, id, data) => reading_line type id data) example_readings) in
  let frames := imap (fun k => reading_frame (example_times k).1 (example_times k).2) example_readings in
  let delivered c := forall p, daemon_for (clock_of example_times) (forwarded c) 2 p ->
    wp Processing.main_loop p (fun _ => put_out frames p) (put_out frames p) in
  wp (normal_client (replicate MAX_PACKET_SIZE 0) 1 file) (mk_io false [] [Takes 4] [])
    (fun r w' => ([Takes 4] = [] -> r = 0) /\
       (r = 0 -> exists bs, sent w' = [] ++ bs /\
          forall c, conn_for bs c ->
            wp (socketConnectionHandler (replicate Acquiring.PACKET_SIZE 0)) c (fun _ => delivered) delivered))
    (fun _ => False).
Proof.
  apply (file_to_frames (replicate MAX_PACKET_SIZE 0) (replicate Acquiring.PACKET_SIZE 0) example_readings
           example_times (mk_io false [] [Takes 4] [])).
  - reflexivity.
  - reflexivity.
  - apply example_acceptable.
  - apply example_clock_ok.
Defined.

(** The processing daemon after the readings, and the telemetry daemon that
    takes their frames from its queue. *)
Definition example_frames : list Sensor_t :=
  imap (fun k => reading_frame (example_times k).1 (example_times k).2) example_readings.
Definition example_emitter (fs : list Sensor_t) : processing :=
  mk_processing (mk_io false [] [] []) (clock_of example_times) 0
    (mk_queues (push (data_frames fs) example_queue) (push fs example_queue)).
Definition example_receiver : telemetry :=
  mk_telemetry (mk_io false (map (fun m => Arrives m.2) (mq_msgs (push example_frames example_queue))) [] [])
    (initial_registry (fun _ => zero_sensor)) (fun _ => Some (fun _ => zero_sensor)) [].

Lemma readings_to_registry_witness :
  wp TelemetryMain.main_loop example_receiver (fun _ _ => False)
    (fun s' => map sensor_key (snapshot (t_reg s')) = first_keys example_frames /\
               Forall (shows example_frames) (snapshot (t_reg s'))).
Proof.
  apply (readings_to_registry example_times example_readings (example_emitter []) (example_emitter example_frames)
           (fun _ => zero_sensor) example_receiver).
  - apply example_acceptable.
  - apply example_clock_ok.
  - reflexivity.
  - reflexivity.
  - reflexivity.
  - reflexivity.
  - split; [reflexivity|repeat constructor; discriminate].
  - intros n. exists (fun _ => zero_sensor). reflexivity.
  - apply Nat.leb_le. vm_compute. reflexivity.
Defined.

(** A registry with one reading, and its user. *)
Definition example_entry : Sensor_t :=
  updateRegistry (reading_frame (example_times 0).1 (example_times 0).2 (0x4B, 4660, [1; 2; 0xFE; 0xFF])) zero_sensor.
Definition example_view : service :=
  mk_service (fun _ => mk_registry (example_entry :: replicate 15 zero_sensor) 1 1 1)
    (fun _ => true) (fun _ => (None, None)) (fun _ => (0, 0)).
Lemma example_entry_labelled : labelled example_entry.
Proof.
  apply (labelled_reading (example_times 0).1 (example_times 0).2 0x4B 4660 [1; 2; 0xFE; 0xFF]).
  split; [reflexivity|]. split; [lia|]. split; [repeat constructor; lia|]. right. reflexivity.
Qed.

Lemma command_shows_registry_witness :
  let shown d d' := forall s, sent d' = sent d ++ stream (rx (d_io s)) ->
    wp (receive_until_end true false) s
      (fun r s' => r = 0 /\ d_out s' = d_out s ++ lines 0 [example_entry]) (fun _ => False) in
  wp (send_command (typed "GET ID 1234")) (mk_io false [] [] [])
    (fun r w' => (@nil tx_event = [] -> r = 0) /\
       (r = 0 -> exists bs, sent w' = [] ++ bs /\
          forall d, stream (rx d) = bs -> quiet d -> tx d = [] ->
            wp (userHandler 0 example_view) d (fun _ => shown d) (shown d)))
    (fun _ => False).
Proof.
  apply (command_shows_registry 0 example_view (ReqId 4660) (mk_io false [] [] [])).
  - simpl. lia.
  - discriminate.
  - reflexivity.
  - intros n. constructor; [apply example_entry_labelled|constructor].
Defined.

Example screen_ex :
  sensor_line 0 example_entry = str "2023-11-14 22:13:20: TORQS_0X1234: -13055.900000Nm" ++ [LF].
Proof. vm_compute. reflexivity. Qed.

Lemma latency_end_to_end_witness :
  let sent := {| tv_sec := 1700000000; tv_nsec := 999999999 |} in
  let p := latency_packet (replicate MAX_PACKET_SIZE 0) sent in
  packets (p ++ [1]) = p :: packets [1] /\
  exists f, generateFrame (Some sent) (Some sent) p zero_sensor (length p) = (0, f) /\
    forall s clock, new_sample sent s -> d_clock s = Some {| tv_sec := 1700000001; tv_nsec := 1000 |} :: clock ->
      stream (rx (d_io s)) = sensor_line 0 (updateRegistry f zero_sensor) ++ RESPONSE_END_MARKER ->
      wp (receive_until_end false true) s
        (fun r s' => r = 0 /\ d_out s' = d_out s /\ d_file s' = d_file s ++ value_line 2) (fun _ => False).
Proof.
  apply (latency_end_to_end 0 (replicate MAX_PACKET_SIZE 0) {| tv_sec := 1700000000; tv_nsec := 999999999 |}
           {| tv_sec := 1700000000; tv_nsec := 999999999 |} {| tv_sec := 1700000000; tv_nsec := 999999999 |} [1]
           {| tv_sec := 1700000001; tv_nsec := 1000 |} zero_sensor).
  - reflexivity.
  - split; simpl; lia.
  - split; simpl; lia.
  - reflexivity.
Defined.
