(* ===== verification/Listener.v ===== *)
(** The accept loops: [main] of src/acquiring_d.c and [socketConnectionHandler]
    of src/telemetry_d.c, which hand each connection to a thread of its
    own. *)
From S2P Require Import Prelude Proc ProcessInit Posix.
Local Open Scope Z_scope.

Definition CLIENT_ACCEPT_FAILURE_LIMIT_MAX : nat := 16.

(** How the next [accept] ends; [AcceptSignal] is a signal handled outside of
    the call. *)
Inductive accept_event :=
| Accepts (fd : Z)
| AcceptInterrupts (signo : Z)
| AcceptFails (errno : Z)
| AcceptSignal (signo : Z).

(** State of the thread that accepts: the flag, what [accept], [malloc] and
    [pthread_create] will answer (past the end the last two succeed), the
    descriptors handed to threads and those closed, in order, and the number
    of [client_fd] cells of the heap the thread owns. *)
Record listener := mk_listener {
  k_exit : bool;
  k_accept : list accept_event;
  k_malloc : list bool;
  k_create : list bool;
  k_threads : list Z;
  k_closed : list Z;
  k_cells : nat
}.

(** ** The operations *)

Fixpoint accept_pending (e : bool) (evs : list accept_event) : bool * list accept_event :=
  match evs with
  | AcceptSignal s :: evs => accept_pending (signalHandler s e) evs
  | _ => (e, evs)
  end.

Definition read_exit : proc listener bool := fun s =>
  let '(e, evs) := accept_pending (k_exit s) (k_accept s) in
  Done e {| k_exit := e; k_accept := evs; k_malloc := k_malloc s; k_create := k_create s;
            k_threads := k_threads s; k_closed := k_closed s; k_cells := k_cells s |}.

(** [malloc(sizeof(int))] *)
Definition malloc_cell : proc listener bool := fun s =>
  let ok := hd true (k_malloc s) in
  Done ok {| k_exit := k_exit s; k_accept := k_accept s; k_malloc := tl (k_malloc s); k_create := k_create s;
             k_threads := k_threads s; k_closed := k_closed s;
             k_cells := if ok then S (k_cells s) else k_cells s |}.

Definition free_cell : proc listener unit := modify (fun s =>
  {| k_exit := k_exit s; k_accept := k_accept s; k_malloc := k_malloc s; k_create := k_create s;
     k_threads := k_threads s; k_closed := k_closed s; k_cells := pred (k_cells s) |}).

Definition close_fd (fd : Z) : proc listener unit := modify (fun s =>
  {| k_exit := k_exit s; k_accept := k_accept s; k_malloc := k_malloc s; k_create := k_create s;
     k_threads := k_threads s; k_closed := k_closed s ++ [fd]; k_cells := k_cells s |}).

(** [accept(server_fd, ...)] *)
Fixpoint accept_script (e : bool) (evs : list accept_event) : option (result Z) * bool * list accept_event :=
  match evs with
  | [] => (None, e, [])
  | Accepts fd :: evs => (Some (Ok fd), e, evs)
  | AcceptInterrupts s :: evs => (Some (Err EINTR), signalHandler s e, evs)
  | AcceptFails n :: evs => (Some (Err n), e, evs)
  | AcceptSignal s :: evs => accept_script (signalHandler s e) evs
  end.

Definition accept : proc listener (result Z) := fun s =>
  let s' e evs := {| k_exit := e; k_accept := evs; k_malloc := k_malloc s; k_create := k_create s;
                     k_threads := k_threads s; k_closed := k_closed s; k_cells := k_cells s |} in
  match accept_script (k_exit s) (k_accept s) with
  | (Some r, e, evs) => Done r (s' e evs)
  | (None, e, evs) => Waits (s' e evs)
  end.

(** [pthread_create(&threadConnection, NULL, handler, client_fd)]: a new thread
    owns the descriptor and the cell. *)
Definition create_thread (fd : Z) : proc listener bool := fun s =>
  let ok := hd true (k_create s) in
  Done ok {| k_exit := k_exit s; k_accept := k_accept s; k_malloc := k_malloc s; k_create := tl (k_create s);
             k_threads := if ok then k_threads s ++ [fd] else k_threads s; k_closed := k_closed s;
             k_cells := if ok then pred (k_cells s) else k_cells s |}.

(** Why the loop ended. *)
Inductive stopped := StopExit | StopNoMemory | StopFailures.

Section accept_loop.
(** What the loop does when [malloc] fails, before it ends. *)
Context (no_memory : proc listener unit).

(** One turn of the loop; the loop variable is [client_accept_failure_count]. *)
Definition accept_body (client_accept_failure_count : nat) : proc listener (nat + stopped) :=
  let! e := read_exit in
  if e then ret (inr StopExit) else
  let! client_fd := malloc_cell in
  if negb client_fd then no_memory ;! ret (inr StopNoMemory) else
  let! r := accept in
  match r with
  | Err n =>
      free_cell ;!
      if n =? EINTR then
        let! e := read_exit in
        if e then ret (inr StopExit) else ret (inl client_accept_failure_count)
      else
        let client_accept_failure_count := S client_accept_failure_count in
        if (CLIENT_ACCEPT_FAILURE_LIMIT_MAX <=? client_accept_failure_count)%nat
        then ret (inr StopFailures) else ret (inl client_accept_failure_count)
  | Ok fd =>
      let client_accept_failure_count := 0%nat in
      let! created := create_thread fd in
      if created then ret (inl client_accept_failure_count)
      else close_fd fd ;! free_cell ;! ret (inl client_accept_failure_count)
  end.

Definition accept_loop : proc listener stopped :=
  iterate (fun _ s => length (k_accept s)) accept_body 0%nat.
End accept_loop.

(** The loop of [main] of acquiring_d and its end, where [transfer_mq] is closed
    too. *)
Definition acquiring_listen (server_fd : Z) : proc listener stopped :=
  let! why := accept_loop (ret tt) in
  close_fd server_fd ;! ret why.

(** [socketConnectionHandler] of telemetry_d: it closes [server_fd] also when
    [malloc] fails. *)
Definition telemetry_listen (server_fd : Z) : proc listener stopped :=
  let! why := accept_loop (close_fd server_fd) in
  close_fd server_fd ;! ret why.

(** ** Facts *)

(** The descriptors accepted, and the failures since the last success (an
    interruption neither counts nor starts the count anew). *)
Fixpoint accepted (evs : list accept_event) : list Z :=
  match evs with
  | [] => []
  | Accepts fd :: evs => fd :: accepted evs
  | _ :: evs => accepted evs
  end.

Definition count_failure (n : nat) (ev : accept_event) : nat :=
  match ev with
  | Accepts _ => 0
  | AcceptFails e => if e =? EINTR then n else S n
  | _ => n
  end.

Definition failures (evs : list accept_event) : nat := fold_left count_failure evs 0%nat.

Lemma accepted_app a b : accepted (a ++ b) = accepted a ++ accepted b.
Proof. induction a as [|[] a IH]; simpl; [done|by rewrite IH|done..]. Qed.

Lemma failures_app a b : failures (a ++ b) = fold_left count_failure b (failures a).
Proof. apply fold_left_app. Qed.

(** A run of signals. *)
Definition signals_only (evs : list accept_event) : Prop :=
  Forall (fun ev => match ev with AcceptSignal _ => True | _ => False end) evs.

Lemma signals_nothing a evs :
  signals_only a -> accepted (evs ++ a) = accepted evs /\ failures (evs ++ a) = failures evs.
Proof.
  intros H. rewrite accepted_app, failures_app. generalize (failures evs) as n.
  induction H as [|[] a Hev _ IH]; intros n; try done; [by rewrite app_nil_r|]. simpl. apply IH.
Qed.

Lemma accept_pending_spec e evs e' evs' :
  accept_pending e evs = (e', evs') -> exists a, evs = a ++ evs' /\ signals_only a.
Proof.
  revert e. induction evs as [|[] evs IH]; intros e E; simpl in E; try (exists []; split; [simplify_eq/=; done|constructor]).
  apply IH in E as (a & -> & Ha). exists (AcceptSignal signo :: a). split; [done|by constructor].
Qed.

Lemma accept_script_spec e evs r e' evs' :
  accept_script e evs = (r, e', evs') ->
  exists a, signals_only a /\ match r with
    | None => evs = a /\ evs' = []
    | Some r => exists ev, evs = a ++ ev :: evs' /\ match r with
        | Ok fd => ev = Accepts fd
        | Err n => accepted [ev] = [] /\ forall k, count_failure k ev = if n =? EINTR then k else S k
        end
    end.
Proof.
  revert e. induction evs as [|ev evs IH]; intros e E.
  { exists []. simpl in E. simplify_eq. split; [constructor|done]. }
  destruct ev as [fd|s|n|s]; simpl in E.
  - simplify_eq. exists []. split; [constructor|]. by exists (Accepts fd).
  - simplify_eq. exists []. split; [constructor|]. by exists (AcceptInterrupts s).
  - simplify_eq. exists []. split; [constructor|]. by exists (AcceptFails n).
  - apply IH in E as (a & Ha & Hr). exists (AcceptSignal s :: a). split; [by constructor|].
    destruct r as [r|]; [|by destruct Hr as [-> ->]]. destruct Hr as (ev & -> & H). by exists ev.
Qed.

(** What the thread has done with the events [used]: [ts] are the connections
    handed to threads, [cs] those closed for want of a thread, and [held] the
    cells it holds beyond those of the start. *)
Record served (s : listener) (used : list accept_event) (ts cs : list Z) (held : nat) (s' : listener) : Prop := {
  sv_used : k_accept s = used ++ k_accept s';
  sv_threads : k_threads s' = k_threads s ++ ts;
  sv_closed : k_closed s' = k_closed s ++ cs;
  sv_order : ts `sublist_of` accepted used;
  sv_all : Permutation (accepted used) (ts ++ cs);
  sv_cells : k_cells s' = (held + k_cells s)%nat;
  sv_malloc : exists ms, k_malloc s = ms ++ k_malloc s'
}.

Lemma served_refl s : served s [] [] [] 0 s.
Proof. split; rewrite ?app_nil_r; try done. by exists []. Qed.

(** The state with other events left and another flag. *)
Definition set_accept (e : bool) (evs : list accept_event) (s : listener) : listener :=
  {| k_exit := e; k_accept := evs; k_malloc := k_malloc s; k_create := k_create s;
     k_threads := k_threads s; k_closed := k_closed s; k_cells := k_cells s |}.

Lemma served_signals s used ts cs h s' a e evs :
  served s used ts cs h s' -> k_accept s' = a ++ evs -> accepted a = [] ->
  served s (used ++ a) ts cs h (set_accept e evs s').
Proof.
  intros [Hu Ht Hc Ho Ha Hk Hm] E Hna. split; try done; rewrite ?accepted_app, ?Hna, ?app_nil_r; try done.
  simpl. by rewrite Hu, E, app_assoc.
Qed.

Lemma read_exit_spec s (Q : bool -> listener -> Prop) W :
  (forall e a evs, k_accept s = a ++ evs -> signals_only a -> Q e (set_accept e evs s)) -> wp read_exit s Q W.
Proof.
  intros H. unfold wp, read_exit. destruct (accept_pending _ _) as [e evs] eqn:E.
  apply accept_pending_spec in E as (a & Ea & Ha). by apply (H e a evs).
Qed.

(** A connection accepted, and handed to a thread or closed. *)
Lemma served_connection s used ts cs s1 a fd e evs (b : bool) mal cr :
  served s used ts cs 1 s1 -> k_accept s1 = a ++ Accepts fd :: evs -> accepted a = [] -> k_malloc s1 = mal ->
  served s (used ++ a ++ [Accepts fd]) (if b then ts ++ [fd] else ts) (if b then cs else cs ++ [fd]) 0
    {| k_exit := e; k_accept := evs; k_malloc := mal; k_create := cr;
       k_threads := if b then k_threads s1 ++ [fd] else k_threads s1;
       k_closed := if b then k_closed s1 else k_closed s1 ++ [fd]; k_cells := pred (k_cells s1) |}.
Proof.
  intros [Hus Ht Hc Ho Hal Hk Hm] Hu Hna <-. rewrite cons_middle, app_assoc in Hu.
  assert (Hac : accepted (used ++ a ++ [Accepts fd]) = accepted used ++ [fd]) by (by rewrite !accepted_app, Hna).
  split; cbn [k_accept k_threads k_closed k_cells k_malloc]; rewrite ?Hac; try done.
  - by rewrite Hus, Hu, <- !app_assoc.
  - destruct b; [|done]. by rewrite Ht, app_assoc.
  - destruct b; [done|]. by rewrite Hc, app_assoc.
  - destruct b; [by apply sublist_app|by apply sublist_inserts_r].
  - rewrite Hal. destruct b; [|by rewrite app_assoc].
    rewrite <- !app_assoc. apply Permutation_app_head, Permutation_app_comm.
  - by rewrite Hk.
Qed.

(** [accept] has failed, and the cell is freed. *)
Lemma served_failure s used ts cs s1 a ev e evs :
  served s used ts cs 1 s1 -> k_accept s1 = a ++ ev :: evs -> accepted (a ++ [ev]) = [] ->
  served s (used ++ a ++ [ev]) ts cs 0
    {| k_exit := e; k_accept := evs; k_malloc := k_malloc s1; k_create := k_create s1;
       k_threads := k_threads s1; k_closed := k_closed s1; k_cells := pred (k_cells s1) |}.
Proof.
  intros [Hus Ht Hc Ho Hal Hk Hm] Hu Hna. rewrite cons_middle, app_assoc in Hu.
  split; cbn [k_accept k_threads k_closed k_cells k_malloc]; rewrite ?accepted_app, ?Hna, ?app_nil_r; try done.
  - by rewrite Hus, Hu, <- !app_assoc.
  - rewrite accepted_app in Hna. by rewrite Hna, app_nil_r.
  - rewrite accepted_app in Hna. by rewrite Hna, app_nil_r.
  - by rewrite Hk.
Qed.

Definition loop_inv (s : listener) (n : nat) (s' : listener) : Prop :=
  exists used ts cs, served s used ts cs 0 s' /\ failures used = n /\ (n < CLIENT_ACCEPT_FAILURE_LIMIT_MAX)%nat.

(** The state in which the loop ends; [extra] is what it closes when there is
    no memory. *)
Definition loop_post (extra : list Z) (s : listener) (why : stopped) (s' : listener) : Prop :=
  exists used ts cs s1, served s used ts cs 0 s1 /\
    match why with
    | StopExit => s' = s1 /\ k_exit s' = true
    | StopNoMemory => In false (k_malloc s) /\ k_threads s' = k_threads s1 /\ k_closed s' = k_closed s1 ++ extra /\
        k_cells s' = k_cells s1
    | StopFailures => s' = s1 /\ failures used = CLIENT_ACCEPT_FAILURE_LIMIT_MAX
    end.

(** The state in which the thread waits for a connection. *)
Definition loop_waits (s s' : listener) : Prop :=
  exists ts cs, served s (k_accept s) ts cs 1 s' /\ (failures (k_accept s) < CLIENT_ACCEPT_FAILURE_LIMIT_MAX)%nat.

Section spec.
Context (no_memory : proc listener unit) (extra : list Z).
Context (Hno_memory : forall s (Q : unit -> listener -> Prop) W,
  (forall s', k_threads s' = k_threads s -> k_closed s' = k_closed s ++ extra -> k_cells s' = k_cells s -> Q tt s') ->
  wp no_memory s Q W).

(** The turn after [malloc] has given a cell. *)
Lemma accept_turn_spec s n used ts cs s1 size :
  served s used ts cs 1 s1 -> failures used = n -> (n < CLIENT_ACCEPT_FAILURE_LIMIT_MAX)%nat ->
  (length (k_accept s1) <= size)%nat ->
  wp (let! r := accept in
      match r with
      | Err e =>
          free_cell ;!
          if e =? EINTR then
            let! e := read_exit in
            if e then ret (inr StopExit) else ret (inl n)
          else if (CLIENT_ACCEPT_FAILURE_LIMIT_MAX <=? S n)%nat
               then ret (inr StopFailures) else ret (inl (S n))
      | Ok fd =>
          let! created := create_thread fd in
          if created then ret (inl 0%nat) else close_fd fd ;! free_cell ;! ret (inl 0%nat)
      end) s1
    (fun r s2 => match r with
       | inl n' => loop_inv s n' s2 /\ (length (k_accept s2) < size)%nat
       | inr why => loop_post extra s why s2
       end) (loop_waits s).
Proof.
  intros Hs Hf Hn Hsz. apply wp_bind. unfold wp, accept.
  destruct (accept_script (k_exit s1) (k_accept s1)) as [[r e] evs] eqn:E.
  apply accept_script_spec in E as (a & Ha & Hr). destruct (signals_nothing a used Ha) as [Ea Fa].
  assert (Hna : accepted a = []) by (destruct (signals_nothing a [] Ha); done).
  destruct r as [r|].
  2:{ destruct Hr as [Hu ->]. exists ts, cs.
      assert (E : k_accept s = used ++ a) by (rewrite (sv_used _ _ _ _ _ _ Hs); by rewrite Hu).
      rewrite E, Fa, Hf. split; [|done]. apply (served_signals _ _ _ _ _ _ _ _ [] Hs); [by rewrite app_nil_r|done]. }
  destruct Hr as (ev & Hu & Hr). fold (set_accept e evs s1).
  assert (Hlt : (length evs < size)%nat) by (rewrite Hu, length_app in Hsz; simpl in Hsz; lia).
  destruct r as [fd|err].
  - subst ev. unfold create_thread, bind. cbn [k_create set_accept].
    pose proof (served_connection s used ts cs s1 a fd e evs (hd true (k_create s1)) (k_malloc s1) (tl (k_create s1))
      Hs Hu Hna eq_refl) as Hs2.
    assert (Hfl : failures (used ++ a ++ [Accepts fd]) = 0%nat) by (by rewrite app_assoc, failures_app).
    destruct (hd true (k_create s1)); (split; [|exact Hlt]).
    all: do 3 eexists; split; [exact Hs2|split; [done|unfold CLIENT_ACCEPT_FAILURE_LIMIT_MAX; lia]].
  - destruct Hr as [Hae Hcount].
    assert (Hfl : failures (used ++ a ++ [ev]) = if err =? EINTR then n else S n).
    { rewrite app_assoc, failures_app, Fa, Hf. apply Hcount. }
    assert (Hs2 := served_failure s used ts cs s1 a ev e evs Hs Hu ltac:(by rewrite accepted_app, Hna)).
    unfold bind at 1, free_cell, modify. cbn [set_accept k_exit k_accept k_malloc k_create k_threads k_closed k_cells].
    set (s2 := {| k_exit := e |}) in *.
    destruct (err =? EINTR).
    + unfold bind. destruct (accept_pending (k_exit s2) (k_accept s2)) as [e' evs'] eqn:Ep.
      assert (Er : read_exit s2 = Done e' (set_accept e' evs' s2)) by (unfold read_exit; by rewrite Ep).
      rewrite Er. apply accept_pending_spec in Ep as (b & Eb & Hb).
      destruct (signals_nothing b (used ++ a ++ [ev]) Hb) as [_ Fb].
      assert (Hnb : accepted b = []) by (destruct (signals_nothing b [] Hb); done).
      assert (Hs3 := served_signals _ _ _ _ _ _ b e' evs' Hs2 Eb Hnb).
      destruct e'.
      * exists ((used ++ a ++ [ev]) ++ b), ts, cs. eexists. split; [exact Hs3|]. by split.
      * split; [by exists ((used ++ a ++ [ev]) ++ b), ts, cs; rewrite Fb|].
        assert (Hl := f_equal length Eb). rewrite length_app in Hl. simpl in *. lia.
    + destruct (Nat.leb_spec CLIENT_ACCEPT_FAILURE_LIMIT_MAX (S n)).
      * exists (used ++ a ++ [ev]), ts, cs, s2. split; [done|]. split; [done|]. lia.
      * split; [|exact Hlt]. exists (used ++ a ++ [ev]), ts, cs. split; [done|]. by split.
Qed.

Lemma accept_body_spec s n s' :
  loop_inv s n s' ->
  wp (accept_body no_memory n) s'
    (fun r s2 => match r with
       | inl n' => loop_inv s n' s2 /\ (length (k_accept s2) < length (k_accept s'))%nat
       | inr why => loop_post extra s why s2
       end) (loop_waits s).
Proof.
  intros (used & ts & cs & Hs & Hf & Hn). unfold accept_body. apply wp_bind, read_exit_spec.
  intros e a evs Ea Ha. destruct (signals_nothing a used Ha) as [_ Fa].
  assert (Hna : accepted a = []) by (destruct (signals_nothing a [] Ha); done).
  assert (Hs1 := served_signals _ _ _ _ _ _ a e evs Hs Ea Hna).
  destruct e.
  { apply wp_ret. exists (used ++ a), ts, cs. eexists. split; [exact Hs1|]. by split. }
  apply wp_bind. unfold wp, malloc_cell. cbn [k_malloc set_accept].
  destruct Hs1 as [Hu Ht Hc Ho Hal Hk [ms Hm]].
  destruct (k_malloc s') as [|b mal] eqn:Em; [|destruct b]; cbn [hd tl negb].
  3:{ apply wp_bind, Hno_memory. intros s2 H1 H2 H3. apply wp_ret. exists (used ++ a), ts, cs, (set_accept false evs s').
      split; [by split; try done; exists ms; rewrite Hm; simpl; rewrite Em|]. split; [|done].
      rewrite Hm. simpl. rewrite Em. apply in_or_app. right. by left. }
  all: apply (accept_turn_spec s n (used ++ a) ts cs); [|by rewrite Fa|done|rewrite Ea, length_app; simpl; lia].
  all: split; try done; simpl; [simpl in Hk; by rewrite Hk|].
  - exists ms. rewrite Hm. simpl. by rewrite Em.
  - exists (ms ++ [true]). rewrite Hm. simpl. by rewrite Em, <- app_assoc.
Qed.

Lemma accept_loop_spec s : wp (accept_loop no_memory) s (loop_post extra s) (loop_waits s).
Proof.
  unfold accept_loop. apply wp_iterate with (I := loop_inv s); [|intros n s' HI; by apply accept_body_spec].
  exists [], [], []. split; [apply served_refl|]. split; [done|]. unfold CLIENT_ACCEPT_FAILURE_LIMIT_MAX. lia.
Qed.
End spec.

(** The end of an accept loop: every accepted connection was handed to one
    thread or closed, no cell was lost, [last] was closed at the end, and the
    loop had its reason to stop. *)
Definition listened (s : listener) (last : list Z) (why : stopped) (s' : listener) : Prop :=
  exists used rest ts cs, k_accept s = used ++ rest /\
    k_threads s' = k_threads s ++ ts /\ k_closed s' = k_closed s ++ cs ++ last /\
    ts `sublist_of` accepted used /\ Permutation (accepted used) (ts ++ cs) /\ k_cells s' = k_cells s /\
    match why with
    | StopExit => k_exit s' = true
    | StopNoMemory => In false (k_malloc s)
    | StopFailures => failures used = CLIENT_ACCEPT_FAILURE_LIMIT_MAX
    end.

Lemma loop_post_listened extra fd s why s1 s2 :
  loop_post extra s why s1 ->
  k_threads s2 = k_threads s1 -> k_closed s2 = k_closed s1 ++ [fd] -> k_cells s2 = k_cells s1 -> k_exit s2 = k_exit s1 ->
  listened s (match why with StopNoMemory => extra ++ [fd] | _ => [fd] end) why s2.
Proof.
  intros (used & ts & cs & s0 & Hs & Hw) Ht Hc Hk He. exists used, (k_accept s0), ts, cs.
  destruct Hs as [Hu Hts Hcs Ho Ha Hcl _]. split; [done|].
  destruct why.
  - destruct Hw as [-> Hw]. rewrite Ht, Hc, Hk, He, Hcs, <- app_assoc. by repeat split.
  - destruct Hw as (Hin & H1 & H2 & H3). rewrite Ht, Hc, Hk, H1, H2, H3, Hcs, <- !app_assoc. by repeat split.
  - destruct Hw as [-> Hw]. rewrite Ht, Hc, Hk, Hcs, <- app_assoc. by repeat split.
Qed.

(** The accept loop of the acquisition daemon. *)
Lemma acquiring_listen_spec server_fd s :
  wp (acquiring_listen server_fd) s (listened s [server_fd]) (loop_waits s).
Proof.
  apply wp_bind. eapply wp_mono; [apply (accept_loop_spec (ret tt) [])| |done].
  - intros s0 Q W H. apply wp_ret, H; [done|by rewrite app_nil_r|done].
  - intros why s1 Hp. cbv beta. apply wp_bind, wp_modify, wp_ret.
    assert (H := fun s2 => loop_post_listened [] server_fd s why s1 s2 Hp).
    by destruct why; apply H.
Qed.

(** The accept loop of the telemetry daemon. *)
Lemma telemetry_listen_spec server_fd s :
  wp (telemetry_listen server_fd) s
    (fun why => listened s (match why with StopNoMemory => [server_fd; server_fd] | _ => [server_fd] end) why)
    (loop_waits s).
Proof.
  apply wp_bind. eapply wp_mono; [apply (accept_loop_spec (close_fd server_fd) [server_fd])| |done].
  - intros s0 Q W H. apply wp_modify, H; done.
  - intros why s1 Hp. cbv beta. apply wp_bind, wp_modify, wp_ret. by eapply (loop_post_listened [server_fd]).
Qed.

(** C21.  The accept loops: whatever [accept], [malloc], [pthread_create] and the
    signals do, each accepted connection is given to exactly one thread, in
    order, or closed, no memory is lost, the listening socket is closed once,
    and the loop ends only on a request to exit, for want of memory, or after
    sixteen failures of [accept] with no success in between; in the telemetry
    daemon the listening socket is closed twice when [malloc] fails. *)
Theorem accept_loops server_fd s :
  wp (acquiring_listen server_fd) s (listened s [server_fd]) (loop_waits s) /\
  wp (telemetry_listen server_fd) s
    (fun why => listened s (match why with StopNoMemory => [server_fd; server_fd] | _ => [server_fd] end) why)
    (loop_waits s).
Proof. split; [apply acquiring_listen_spec|apply telemetry_listen_spec]. Qed.

Example telemetry_double_close :
  telemetry_listen 5 (mk_listener false [] [false] [] [] [] 0) =
    Done StopNoMemory (mk_listener false [] [] [] [] [5; 5] 0).
Proof. vm_compute. reflexivity. Qed.
