(* ===== verification/Startup.v ===== *)
(** The start-up of the daemons: [daemon_init] and [signals_init] of
    src/src/process_init.c, the [ipc_init], [socket_init],
    [sensorWatchdog_init] and [userInterface_init] of the four daemons, and
    the part of their [main] before the loop.  The theorems say which
    descriptors, allocations, threads and handlers are left on every path. *)
From stdpp Require Import gmap.
From S2P Require Import Prelude Proc Resources ProcessInit Acquiring Sense.
Local Open Scope Z_scope.

(** The threads of telemetryd. *)
Inductive thread := Watchdog | Interface.

#[export] Instance thread_eq_dec : EqDecision thread.
Proof. solve_decision. Defined.
Section startup.
Context {K : Kernel}.

(** ** process_init.c *)

Definition signals_init : proc (sys thread) Z :=
  let! ok := sigaction SIGINT in
  if negb ok then ret (-1) else
  let! ok := sigaction SIGTERM in
  if negb ok then ret (-1) else ret 0.

(** [daemon_init]; the parent exits ([None]), the child goes on.  [umask] cannot
    fail and has no bearing on descriptors. *)
Definition daemon_init : proc (sys thread) (option Z) :=
  let! pid := gets y_pid in
  if pid <? 0 then ret (Some (-1)) else
  if 0 <? pid then ret None else
  let! ok := call in (* setsid *)
  if negb ok then ret (Some (-1)) else
  let! ok := call in (* chdir *)
  if negb ok then ret (Some (-1)) else
  let! devnull := open_fd DevNull in
  match devnull with
  | None => ret (Some (-1))
  | Some devnull =>
      dup2 devnull 0 ;! dup2 devnull 1 ;! dup2 devnull 2 ;!
      if (2 <? devnull)%nat then close devnull ;! ret (Some 0) else ret (Some 0)
  end.

(** How the part of [main] before the loop ends: the parent has exited,
    [main] returns -1, or the loop begins. *)
Inductive begun (A : Type) := Parent | Gave_up | Started (a : A).
#[global] Arguments Parent {A}.
#[global] Arguments Gave_up {A}.
#[global] Arguments Started {A} a.

(** The common beginning of the four [main]s; [rest] is what follows
    [signals_init]. *)
Definition begin {A} (rest : proc (sys thread) (option A)) : proc (sys thread) (begun A) :=
  let! r := daemon_init in
  match r with
  | None => ret Parent
  | Some r =>
      if r =? -1 then ret Gave_up else
      let! r := signals_init in
      if r =? -1 then ret Gave_up else
      let! a := rest in
      ret match a with None => Gave_up | Some a => Started a end
  end.

(** ** acquiring_d.c *)

Definition acquiring_ipc_init : proc (sys thread) (option nat) := open_fd (Queue "/mq-acquire-process").

(** [socket_init(server_fd)] *)
Definition acquiring_socket_init : proc (sys thread) (option nat) :=
  let! status := getaddrinfo in
  if negb status then ret None else
  let! server_fd := open_fd Socket in
  match server_fd with
  | None => freeaddrinfo ;! ret None
  | Some server_fd =>
      let! opt := call in (* setsockopt *)
      if negb opt then close server_fd ;! freeaddrinfo ;! ret None else
      let! bound := call in (* bind *)
      if negb bound then close server_fd ;! freeaddrinfo ;! ret None else
      freeaddrinfo ;! ret (Some server_fd)
  end.

(** [main] from [ipc_init] to the accept loop: the queue and the socket. *)
Definition acquiring_setup : proc (sys thread) (option (nat * nat)) :=
  let! transfer_mq := acquiring_ipc_init in
  match transfer_mq with
  | None => ret None
  | Some transfer_mq =>
      let! server_fd := acquiring_socket_init in
      match server_fd with
      | None => close transfer_mq ;! ret None
      | Some server_fd =>
          let! listening := call in (* listen *)
          if negb listening then close transfer_mq ;! close server_fd ;! ret None
          else ret (Some (transfer_mq, server_fd))
      end
  end.

Definition acquiring_main_start : proc (sys thread) (begun (nat * nat)) := begin acquiring_setup.

(** ** processing_d.c *)

(** [ipc_init]: the three queues. *)
Definition processing_ipc_init : proc (sys thread) (option (nat * nat * nat)) :=
  let! rx_acquire_mq := open_fd (Queue "/mq-acquire-process") in
  match rx_acquire_mq with
  | None => ret None
  | Some rx_acquire_mq =>
      let! attr := call in (* mq_getattr *)
      if negb attr then close rx_acquire_mq ;! ret None else
      let! msgsize := gets y_msgsize in
      if msgsize <? Z.of_nat PACKET_SIZE then close rx_acquire_mq ;! ret None else
      let! tx_log_mq := open_fd (Queue "/mq-process-log") in
      match tx_log_mq with
      | None => close rx_acquire_mq ;! ret None
      | Some tx_log_mq =>
          let! tx_telemetry_mq := open_fd (Queue "/mq-process-telemetry") in
          match tx_telemetry_mq with
          | None => close rx_acquire_mq ;! close tx_log_mq ;! ret None
          | Some tx_telemetry_mq => ret (Some (rx_acquire_mq, tx_log_mq, tx_telemetry_mq))
          end
      end
  end.

Definition processing_main_start : proc (sys thread) (begun (nat * nat * nat)) := begin processing_ipc_init.

(** ** logging_d.c and telemetry_d.c *)

Definition logging_ipc_init : proc (sys thread) (option nat) :=
  let! rx_process_mq := open_fd (Queue "/mq-process-log") in
  match rx_process_mq with
  | None => ret None
  | Some rx_process_mq =>
      let! attr := call in (* mq_getattr *)
      if negb attr then ret None else
      let! msgsize := gets y_msgsize in
      if (msgsize <? 0) || (msgsize <? Z.of_nat sizeof_Sensor_t) then close rx_process_mq ;! ret None
      else ret (Some rx_process_mq)
  end.

Definition logging_main_start : proc (sys thread) (begun nat) := begin logging_ipc_init.

Definition telemetry_ipc_init : proc (sys thread) (option nat) :=
  let! rx_process_mq := open_fd (Queue "/mq-process-telemetry") in
  match rx_process_mq with
  | None => ret None
  | Some rx_process_mq =>
      let! attr := call in (* mq_getattr *)
      if negb attr then close rx_process_mq ;! ret None else
      let! msgsize := gets y_msgsize in
      if (msgsize <? 0) || (msgsize <? Z.of_nat sizeof_Sensor_t) then close rx_process_mq ;! ret None
      else ret (Some rx_process_mq)
  end.

(** [socket_init(server_fd)], the copy of telemetry_d. *)
Definition telemetry_socket_init : proc (sys thread) (option nat) :=
  let! status := getaddrinfo in
  if negb status then ret None else
  let! server_fd := open_fd Socket in
  match server_fd with
  | None => freeaddrinfo ;! ret None
  | Some server_fd =>
      let! opt := call in (* setsockopt *)
      if negb opt then close server_fd ;! freeaddrinfo ;! ret None else
      let! bound := call in (* bind *)
      if negb bound then close server_fd ;! freeaddrinfo ;! ret None else
      freeaddrinfo ;! ret (Some server_fd)
  end.

(** [userInterface_init]: the new thread owns the cell and the descriptor. *)
Definition userInterface_init : proc (sys thread) (option nat) :=
  let! server_fd := malloc_cell in
  if negb server_fd then ret None else
  let! fd := telemetry_socket_init in
  match fd with
  | None => free_cell ;! ret None
  | Some fd =>
      let! listening := call in (* listen *)
      if negb listening then close fd ;! free_cell ;! ret None else
      let! created := create_thread Interface in
      if negb created then close fd ;! free_cell ;! ret None else ret (Some fd)
  end.

(** [sensorWatchdog_init] *)
Definition sensorWatchdog_init : proc (sys thread) Z :=
  let! created := create_thread Watchdog in
  if negb created then ret (-1) else ret 0.

(** [main] from [ipc_init] to its loop: the queue and the listening socket. *)
Definition telemetry_setup : proc (sys thread) (option (nat * nat)) :=
  let! rx_process_mq := telemetry_ipc_init in
  match rx_process_mq with
  | None => ret None
  | Some rx_process_mq =>
      let! sensor_registry := malloc_cell in
      if negb sensor_registry then close rx_process_mq ;! ret None else
      let! watchdog := sensorWatchdog_init in
      if watchdog =? -1 then free_cell ;! close rx_process_mq ;! ret None else
      let! server_fd := userInterface_init in
      match server_fd with
      | None => free_cell ;! close rx_process_mq ;! ret None
      | Some server_fd => ret (Some (rx_process_mq, server_fd))
      end
  end.

Definition telemetry_main_start : proc (sys thread) (begun (nat * nat)) := begin telemetry_setup.

(** ** The contract of a start-up *)

(** What the part of [main] before the loop owes: on success the descriptors
    it has opened, its cells and threads, and the message sizes it accepts; on
    failure nothing, or the descriptors [c_leak] or the threads [c_left]. *)
Record contract (A : Type) := mk_contract {
  c_opened : A -> list (nat * file);
  c_cells : nat;
  c_threads : list thread;
  c_fits : Z -> Prop;
  c_leak : list file;
  c_left : list thread
}.
#[global] Arguments mk_contract {A} _ _ _ _ _ _.
#[global] Arguments c_opened {A} _ _.
#[global] Arguments c_cells {A} _.
#[global] Arguments c_threads {A} _.
#[global] Arguments c_fits {A} _ _.
#[global] Arguments c_leak {A} _.
#[global] Arguments c_left {A} _.

Definition acquiring_contract : contract (nat * nat) :=
  mk_contract (fun '(q, fd) => [(q, Queue "/mq-acquire-process"); (fd, Socket)]) 0 [] (fun _ => True) [] [].

Definition processing_contract : contract (nat * nat * nat) :=
  mk_contract (fun '(rx, log, tel) => [(rx, Queue "/mq-acquire-process"); (log, Queue "/mq-process-log");
                                       (tel, Queue "/mq-process-telemetry")])
    0 [] (fun msgsize => Z.of_nat PACKET_SIZE <= msgsize) [] [].

(** A failing [mq_getattr] leaves the queue of the logging daemon open. *)
Definition logging_contract : contract nat :=
  mk_contract (fun q => [(q, Queue "/mq-process-log")]) 0 []
    (fun msgsize => Z.of_nat sizeof_Sensor_t <= msgsize) [Queue "/mq-process-log"] [].

(** The cells are the registry and the descriptor handed to the interface
    thread; a failing [userInterface_init] leaves the watchdog running. *)
Definition telemetry_contract : contract (nat * nat) :=
  mk_contract (fun '(q, fd) => [(q, Queue "/mq-process-telemetry"); (fd, Socket)]) 2 [Watchdog; Interface]
    (fun msgsize => Z.of_nat sizeof_Sensor_t <= msgsize) [] [Watchdog].

Definition sets_up {A} (c : contract A) (s : sys thread) (r : option A) (s' : sys thread) : Prop :=
  match r with
  | Some a => leaves (c_opened c a) (c_cells c) (c_threads c) s s' /\ c_fits c (y_msgsize s)
  | None => exists l ts, leaves l 0 ts s s' /\ (l = [] \/ l.*2 = c_leak c) /\ (ts = [] \/ ts = c_left c) /\
            ~ (willing s /\ c_fits c (y_msgsize s))
  end.

Ltac boot_end := solve
  [ boot_done | exists [], []; boot_done | exists [], [Watchdog]; boot_done
  | eexists [(_, Queue _)], []; boot_done ].

Lemma acquiring_setup_spec s : wp acquiring_setup s (sets_up acquiring_contract s) (fun _ => False).
Proof. unfold acquiring_setup, acquiring_ipc_init, acquiring_socket_init. repeat boot_step. all: boot_end. Qed.

Lemma processing_ipc_init_spec s : wp processing_ipc_init s (sets_up processing_contract s) (fun _ => False).
Proof. repeat boot_step. all: boot_end. Qed.

Lemma logging_ipc_init_spec s : wp logging_ipc_init s (sets_up logging_contract s) (fun _ => False).
Proof. repeat boot_step. all: boot_end. Qed.

Lemma telemetry_setup_spec s : wp telemetry_setup s (sets_up telemetry_contract s) (fun _ => False).
Proof.
  unfold telemetry_setup, telemetry_ipc_init, userInterface_init, telemetry_socket_init, sensorWatchdog_init.
  repeat boot_step. all: boot_end.
Qed.

(** ** The common beginning *)

(** The descriptors after [daemon_init]. *)
Definition detached (m : gmap nat file) : gmap nat file :=
  <[2%nat := DevNull]> (<[1%nat := DevNull]> (<[0%nat := DevNull]> m)).

Lemma dup2_devnull s fd n (Q : unit -> sys thread -> Prop) W :
  y_fds s !! fd = Some DevNull ->
  ((<[n := DevNull]> (y_fds s)) !! fd = Some DevNull -> Q tt (set_fds (<[n := DevNull]> (y_fds s)) s)) ->
  wp (dup2 fd n) s Q W.
Proof.
  intros E HQ. unfold dup2. apply wp_modify. rewrite E. apply HQ.
  destruct (decide (n = fd)) as [->|]; [by rewrite lookup_insert_eq|by rewrite lookup_insert_ne].
Qed.

Lemma detached_close m fd :
  m !! fd = None -> (2 < fd)%nat -> delete fd (detached (<[fd := DevNull]> m)) = detached m.
Proof.
  intros Hfd Hlt. unfold detached. rewrite !delete_insert_ne by lia. by rewrite delete_insert_id.
Qed.

Lemma detached_low m fd : (fd <= 2)%nat -> detached (<[fd := DevNull]> m) = detached m.
Proof.
  intros Hle. apply map_eq. intros i. unfold detached.
  assert (fd = 0 \/ fd = 1 \/ fd = 2)%nat as [-> | [-> | ->]] by lia;
    destruct i as [|[|[|i]]]; by simplify_map_eq.
Qed.

Lemma daemon_init_spec s :
  wp daemon_init s (fun r s' =>
    match r with
    | None => 0 < y_pid s /\ s' = s
    | Some r => if r =? -1 then leaves [] 0 [] s s' /\ ~ (willing s /\ y_pid s = 0)
                else y_pid s = 0 /\ leaves [] 0 [] (set_fds (detached (y_fds s)) s) s'
    end) (fun _ => False).
Proof.
  do 3 boot_step; [apply wp_ret; cbn; split; [apply leaves_refl|lia]|].
  boot_step; [by apply wp_ret|]. assert (y_pid s = 0) by lia.
  apply wp_bind, wp_call. intros [] ok1 Hok1; cbv beta; [|repeat boot_step; boot_done].
  boot_step. apply wp_bind, wp_call. intros [] ok2 Hok2; cbv beta; [|repeat boot_step; boot_done].
  boot_step. apply wp_bind, wp_open_fd; [|intros ok3 Hok3; cbv beta; repeat boot_step; boot_done].
  intros fd ok3 Hfd Hok3. cbv beta iota.
  apply wp_bind, dup2_devnull; [by apply lookup_insert_eq|intros E0].
  apply wp_bind, dup2_devnull; [done|intros E1].
  apply wp_bind, dup2_devnull; [done|intros E2].
  destruct (Nat.ltb_spec 2 fd).
  - apply wp_bind, wp_modify, wp_ret. cbn. split; [done|]. split; cbn; rewrite ?app_nil_r; try done.
    + by apply detached_close.
    + intros ?. by apply Hok3, Hok2, Hok1.
  - apply wp_ret. cbn. split; [done|]. split; cbn; rewrite ?app_nil_r; try done.
    + by apply detached_low.
    + intros ?. by apply Hok3, Hok2, Hok1.
Qed.

Lemma signals_init_spec s :
  wp signals_init s (fun r s' =>
    if r =? -1 then (exists hs, leaves [] 0 [] (set_handled hs s) s') /\ ~ willing s
    else leaves [] 0 [] (set_handled (y_handled s ++ [SIGINT; SIGTERM]) s) s') (fun _ => False).
Proof.
  repeat boot_step.
  - boot_done.
  - split; [exists (y_handled s ++ [SIGINT])|]; boot_done.
  - split; [exists (y_handled s)|]; boot_done.
Qed.

(** ** The four start-ups *)

(** The process as [daemon_init] and [signals_init] leave it. *)
Definition daemonized (s : sys thread) : sys thread :=
  set_handled (y_handled s ++ [SIGINT; SIGTERM]) (set_fds (detached (y_fds s)) s).

Definition boots {A} (c : contract A) (s : sys thread) (r : begun A) (s' : sys thread) : Prop :=
  match r with
  | Parent => 0 < y_pid s /\ s' = s
  | Started a =>
      y_pid s = 0 /\ leaves (c_opened c a) (c_cells c) (c_threads c) (daemonized s) s' /\ c_fits c (y_msgsize s)
  | Gave_up => exists m hs l ts,
      (m = y_fds s \/ m = detached (y_fds s)) /\ leaves l 0 ts (set_handled hs (set_fds m s)) s' /\
      (l = [] \/ l.*2 = c_leak c) /\ (ts = [] \/ ts = c_left c) /\
      ~ (willing s /\ y_pid s = 0 /\ c_fits c (y_msgsize s))
  end.

Lemma begin_spec {A} (c : contract A) (rest : proc (sys thread) (option A)) s :
  (forall s1, wp rest s1 (sets_up c s1) (fun _ => False)) ->
  wp (begin rest) s (boots c s) (fun _ => False).
Proof.
  intros Hrest. apply wp_bind. eapply wp_mono; [apply daemon_init_spec| |done].
  intros [r|] s1 H1; [|by apply wp_ret].
  destruct (r =? -1).
  { destruct H1 as [H1 Hw]. apply wp_ret. exists (y_fds s), (y_handled s), [], [].
    split; [by left|]. split; [by eapply leaves_from; [exact H1|..]|].
    split; [by left|]. split; [by left|]. intros (? & ? & ?). by apply Hw. }
  destruct H1 as [Hpid H1]. apply wp_bind. eapply wp_mono; [apply signals_init_spec| |done].
  intros r' s2 H2. cbv beta in *. destruct (r' =? -1).
  { destruct H2 as [[hs H2] Hw]. apply wp_ret. exists (detached (y_fds s)), hs, [], [].
    split; [by right|]. split; [exact (leaves_rebase hs _ _ _ _ _ _ H1 H2)|].
    split; [by left|]. split; [by left|]. intros (? & ? & ?). by apply Hw, H1. }
  pose proof (leaves_rebase _ _ _ _ _ _ _ H1 H2) as H12. rewrite (lv_handled _ _ _ _ _ H1) in H12.
  apply wp_bind. eapply wp_mono; [apply Hrest| |done]. intros r3 s3 H3. apply wp_ret.
  assert (Hsize : y_msgsize s2 = y_msgsize s) by apply H12. destruct r3 as [a|].
  - destruct H3 as [H3 Hfit]. split; [done|]. split; [exact (leaves_trans _ _ _ _ _ _ _ _ _ H12 H3)|congruence].
  - destruct H3 as (l & ts & H3 & Hl & Hts & Hw). exists (detached (y_fds s)), (y_handled s ++ [SIGINT; SIGTERM]), l, ts.
    split; [by right|]. split; [exact (leaves_trans _ _ _ _ _ _ _ _ _ H12 H3)|].
    split; [done|]. split; [done|]. intros (? & ? & ?). apply Hw. split; [by apply H12|congruence].
Qed.


End startup.

(** ** Instances of the theorems *)

(** A child process started from a terminal, whose calls answer [oks]. *)
Definition example_sys (oks : list bool) : sys thread :=
  mk_sys oks (list_to_map [(0%nat, Other); (1%nat, Other); (2%nat, Other)]) 0 0 128 [] [] 0.


(** The two exceptions do happen: after [setsid], [chdir], [open] and the two
    [sigaction]s, [mq_open] succeeds and [mq_getattr] fails; and
    [pthread_create] fails for the interface thread. *)
Example logging_leaks_queue :
  match logging_main_start (example_sys [true; true; true; true; true; true; false]) with
  | Done Gave_up s => bool_decide (y_fds s !! 3%nat = Some (Queue "/mq-process-log"))
  | _ => false
  end = true.
Proof. vm_compute. reflexivity. Qed.

Example telemetry_leaves_watchdog :
  match telemetry_main_start
    (example_sys (replicate 8 true ++ [true; true; true; true; true; true; true; false])) with
  | Done Gave_up s => bool_decide (y_threads s = [Watchdog] /\ y_cells s = 0%nat)
  | _ => false
  end = true.
Proof. vm_compute. reflexivity. Qed.
