(* ===== verification/Logging.v ===== *)
(** src/logging_d.c: data frames from the processing daemon are appended to
    one text file per sensor, which starts with a title line. *)
From stdpp Require Import gmap.
From S2P Require Import Prelude Machine Proc CText Sense ProcessInit Posix Interfaces SenseUtils.
Local Open Scope Z_scope.

Definition FILENAME_SIZE : nat := 64.
Definition filepath : list Z := str "/var/sensorlog/".
Definition filename_extension : list Z := str ".csv".

(** How the next [open] ends; past the end of the script it succeeds. *)
Inductive open_event := Opens | OpenInterrupts (signo : Z) | OpenFails (errno : Z).

(** State of the daemon: the queue of frames with the signals and the results
    of [write], the results of [open] and [lseek] ([false] for a failure), and
    the files. *)
Record logging := mk_logging {
  l_io : io;
  l_open : list open_event;
  l_seek : list bool;
  l_files : gmap (list Z) (list Z)
}.

Definition set_l_io (w : io) (s : logging) : logging :=
  {| l_io := w; l_open := l_open s; l_seek := l_seek s; l_files := l_files s |}.
Definition on_l_io {A} (c : proc io A) : proc logging A := lift l_io set_l_io c.

(** ** The operations *)

(** [receiveFrame(frame)]: the value returned and the message; the loop is the
    [goto mq_receive_retry]. *)
Definition receiveFrame_body (_ : unit) : proc io (unit + Z * list Z) :=
  let! r := mq_receive in
  match r with
  | Err n =>
      if n =? EINTR then
        let! e := read_exitRQ in
        if e then ret (inr (-1, [])) else ret (inl tt)
      else ret (inr (-1, []))
  | Ok m => ret (inr (Z.of_nat (length m), m))
  end.

Definition receiveFrame : proc io (Z * list Z) :=
  iterate (fun _ w => rx_size (rx w)) receiveFrame_body tt.

(** [open(filename, O_WRONLY | O_APPEND | O_CREAT, 0644)]: the result, the file
    being created when there is none. *)
Definition open_append (filename : list Z) : proc logging (result unit) := fun s =>
  let s' evs e files := {| l_io := set_rx e (rx (l_io s)) (l_io s); l_open := evs; l_seek := l_seek s; l_files := files |} in
  let e := exitRQ (l_io s) in
  let created := match l_files s !! filename with Some _ => l_files s | None => <[filename := []]> (l_files s) end in
  match l_open s with
  | OpenFails n :: evs => Done (Err n) (s' evs e (l_files s))
  | OpenInterrupts signo :: evs => Done (Err EINTR) (s' evs (signalHandler signo e) (l_files s))
  | Opens :: evs => Done (Ok tt) (s' evs e created)
  | [] => Done (Ok tt) (s' [] e created)
  end.

(** [lseek(file_descriptor, 0, SEEK_END)] *)
Definition seek_end (filename : list Z) : proc logging Z := fun s =>
  let size := Z.of_nat (length (default [] (l_files s !! filename))) in
  let s' := {| l_io := l_io s; l_open := l_open s; l_seek := tl (l_seek s); l_files := l_files s |} in
  match l_seek s with false :: _ => Done (-1) s' | _ => Done size s' end.

(** The part of [openLogFile] from [retry_open] on; the result is [None] for -1,
    else the value of [*flag]. *)
Definition open_body (filename : list Z) (_ : unit) : proc logging (unit + option Z) :=
  let! r := open_append filename in
  match r with
  | Err n =>
      if n =? EINTR then
        let! e := on_l_io read_exitRQ in
        if e then ret (inr None) else ret (inl tt)
      else ret (inr None)
  | Ok _ =>
      let! size := seek_end filename in
      if size =? -1 then ret (inr None) else
      ret (inr (Some (if size =? 0 then 1 else 0)))
  end.

(** [openLogFile(frame, flag)]: the name of the file opened and the flag. *)
Definition openLogFile (frame : Sensor_t) : proc logging (option (list Z * Z)) :=
  let '(filename, result) := snprintf FILENAME_SIZE (filepath ++ cstr (name frame) ++ filename_extension) in
  if Z.of_nat FILENAME_SIZE <=? result then ret None else
  let! r := iterate (fun _ s => length (l_open s)) (open_body filename) tt in
  match r with None => ret None | Some flag => ret (Some (filename, flag)) end.

(** What is written to the descriptor goes to the end of the file. *)
Definition on_file {A} (filename : list Z) (c : proc io A) : proc logging A :=
  lift (fun s => {| exitRQ := exitRQ (l_io s); rx := rx (l_io s); tx := tx (l_io s); sent := [] |})
       (fun w s => {| l_io := {| exitRQ := exitRQ w; rx := rx w; tx := tx w; sent := sent (l_io s) |};
                      l_open := l_open s; l_seek := l_seek s;
                      l_files := <[filename := default [] (l_files s !! filename) ++ sent w]> (l_files s) |}) c.

Section logging.
(** The time zone of the device. *)
Context (tz : Z).

(** The loop of [main]; the value returned is that of [main]. *)
Definition main_body (_ : unit) : proc logging (unit + Z) :=
  let! e := on_l_io read_exitRQ in
  if e then ret (inr 0) else
  let! (len, m) := on_l_io receiveFrame in
  if len =? -1 then ret (inr (-1)) else
  if negb (len =? Z.of_nat sizeof_Sensor_t) then ret (inl tt) else
  let data_frame := Sensor_of_bytes m in
  let! fd := openLogFile data_frame in
  match fd with
  | None => ret (inr (-1))
  | Some (filename, newfile_flag) =>
      let! r := on_file filename
        (writeFrameData tz (data data_frame) (type data_frame) (timestamp data_frame) newfile_flag 3) in
      if r =? -1 then ret (inr (-1)) else ret (inl tt)
  end.

Definition main_loop : proc logging Z := iterate (fun _ s => rx_size (rx (l_io s))) main_body tt.

(** ** The files the frames should lead to *)

Definition log_name (f : Sensor_t) : list Z := filepath ++ cstr (name f) ++ filename_extension.

(** The record of a frame. *)
Definition frame_record (f : Sensor_t) : list Z :=
  match localtime_r tz (tv_sec (timestamp f)) with
  | Some t => record_text (data f) (type f) t
  | None => []
  end.

(** What one frame appends to its file. *)
Definition appended (files : gmap (list Z) (list Z)) (f : Sensor_t) : list Z :=
  match default [] (files !! log_name f) with [] => log_title (type f) | _ => [] end ++ frame_record f.

Definition log_frame (files : gmap (list Z) (list Z)) (f : Sensor_t) : gmap (list Z) (list Z) :=
  <[log_name f := default [] (files !! log_name f) ++ appended files f]> files.

(** A frame the daemon can log: of a supported type, with a time that has a
    calendar date, and with a name. *)
Definition loggable (f : Sensor_t) : Prop :=
  supported (type f) = true /\ is_Some (localtime_r tz (tv_sec (timestamp f))) /\ length (name f) = SENSOR_NAME_SIZE.

End logging.

(** ** Facts *)

#[export] Instance logging_receiver : FrameReceiver receiveFrame.
Proof.
  intros w Q W H1 H2 H3. unfold receiveFrame.
  apply wp_iterate with (I := fun _ w' => drawn w [] w'); [apply drawn_refl|].
  intros [] w1 (e & evs & -> & Hm & Hs & Hq). simpl in Hm.
  unfold receiveFrame_body. apply wp_bind, mq_receive_spec; cbn [rx set_rx].
  - intros m e' evs' Hm' Hs' Hq'. apply wp_ret, H1; [|simpl; lia].
    exists e', evs'. split; [done|]. split; [by rewrite Hm|]. split; [lia|auto].
  - intros n e' evs' Hm' Hs' Hq'. destruct (Z.eqb_spec n EINTR).
    + apply wp_bind, wp_read_exitRQ_mq. cbn [rx set_rx]. intros e2 evs2 Hm2 Hs2 Hq2.
      assert (Hdr : drawn w [] (set_rx e2 evs2 (set_rx e' evs' (set_rx e evs w)))).
      { exists e2, evs2. split; [done|]. split; [simpl; congruence|]. split; [lia|]. intros Hqw. by apply Hq2, Hq', Hq. }
      destruct e2; apply wp_ret; [|split; [done|simpl; lia]].
      apply H2; [|done]. intros Hqw. by destruct (Hq2 (proj2 (Hq' (Hq Hqw)))).
    + apply wp_ret. apply H2; [intros Hqw; by destruct (Hq' (Hq Hqw))|]. exists e', evs'.
      split; [done|]. split; [simpl; congruence|]. split; [lia|]. intros Hqw. by apply Hq', Hq.
  - intros e' Hm'. apply H3; [congruence|done].
Qed.

(** An environment in which nothing fails. *)
Definition calm_env (s : logging) : Prop :=
  quiet (l_io s) /\ tx (l_io s) = [] /\ Forall (fun ev => ev = Opens) (l_open s) /\ Forall (fun b => b = true) (l_seek s).

(** What [openLogFile] leaves: the files, apart from an empty one it may have
    created, and the queue. *)
Definition opened (filename : list Z) (s s' : logging) : Prop :=
  messages (rx (l_io s')) = messages (rx (l_io s)) /\ (rx_size (rx (l_io s')) <= rx_size (rx (l_io s)))%nat /\
  (calm_env s -> calm_env s') /\
  (l_files s' = l_files s \/ l_files s !! filename = None /\ l_files s' = <[filename := []]> (l_files s)).

Lemma opened_refl filename s : opened filename s s.
Proof. split; [done|]. split; [done|]. split; [done|]. by left. Qed.

Lemma opened_files filename s s' :
  opened filename s s' -> default [] (l_files s' !! filename) = default [] (l_files s !! filename).
Proof. intros (_ & _ & _ & [-> | [E ->]]); [done|]. by rewrite lookup_insert_eq, E. Qed.

Lemma opened_trans filename s s1 s2 : opened filename s s1 -> opened filename s1 s2 -> opened filename s s2.
Proof.
  intros (Hm & Hs & Hc & Hf) (Hm' & Hs' & Hc' & Hf'). split; [congruence|]. split; [lia|]. split; [auto|].
  destruct Hf as [Hf | [En Hf]], Hf' as [Hf' | [En' Hf']].
  - left. congruence.
  - right. rewrite Hf' , <- Hf. by split.
  - right. rewrite Hf'. by split.
  - by rewrite Hf, lookup_insert_eq in En'.
Qed.

Lemma open_append_spec filename s (Q : result unit -> logging -> Prop) W :
  (forall s', opened filename s s' -> (length (l_open s') <= length (l_open s))%nat -> Q (Ok tt) s') ->
  (forall n s', opened filename s s' -> (length (l_open s') < length (l_open s))%nat -> ~ calm_env s -> Q (Err n) s') ->
  wp (open_append filename) s Q W.
Proof.
  intros H1 H2. unfold wp, open_append.
  assert (Hf : let created := match l_files s !! filename with Some _ => l_files s | None => <[filename := []]> (l_files s) end in
    created = l_files s \/ l_files s !! filename = None /\ created = <[filename := []]> (l_files s)).
  { cbv zeta. destruct (l_files s !! filename); auto. }
  assert (Hn : forall ev evs, l_open s = ev :: evs -> ev <> Opens -> ~ calm_env s).
  { intros ev evs E Hev (_ & _ & Ho & _). rewrite E in Ho. by apply Forall_cons_1 in Ho as [-> _]. }
  destruct (l_open s) as [|[|signo|n] evs] eqn:E.
  3,4: apply H2; [|simpl; lia|by eapply Hn]; split; [done|]; split; [done|]; split;
    [intros Hc; exfalso; by eapply (Hn _ _ eq_refl)|by left].
  all: apply H1; [|simpl; lia]; split; [done|]; split; [done|]; split; [|exact Hf].
  all: intros (Hq & Ht & Ho & Hs); rewrite E in Ho; unfold calm_env; cbn [l_io l_open l_seek].
  - by destruct (l_io s).
  - apply Forall_cons_1 in Ho as [_ Ho]. by destruct (l_io s).
Qed.

Lemma seek_end_spec filename s (Q : Z -> logging -> Prop) W :
  (forall s', opened filename s s' -> l_open s' = l_open s ->
     Q (Z.of_nat (length (default [] (l_files s !! filename)))) s') ->
  (forall s', opened filename s s' -> l_open s' = l_open s -> ~ calm_env s -> Q (-1) s') ->
  wp (seek_end filename) s Q W.
Proof.
  intros H1 H2. unfold wp, seek_end.
  assert (Ho : opened filename s
    {| l_io := l_io s; l_open := l_open s; l_seek := tl (l_seek s); l_files := l_files s |}).
  { split; [done|]. split; [done|]. split; [|by left]. intros (Hq & Ht & Ho & Hs). split; [done|].
    split; [done|]. split; [done|]. cbn [l_seek]. destruct Hs; by try constructor. }
  destruct (l_seek s) as [|[] sk] eqn:E; [by apply H1|by apply H1|]. apply H2; [done|done|].
  intros (_ & _ & _ & Hs). rewrite E in Hs. by apply Forall_cons_1 in Hs as [? _].
Qed.

(** The flag [openLogFile] gives for the file. *)
Definition title_flag (files : gmap (list Z) (list Z)) (filename : list Z) : Z :=
  match default [] (files !! filename) with [] => 1 | _ => 0 end.

Definition open_post (filename : list Z) (s : logging) (r : option Z) (s' : logging) : Prop :=
  opened filename s s' /\ match r with Some flag => flag = title_flag (l_files s) filename | None => ~ calm_env s end.

(** One turn of the retry loop. *)
Lemma open_body_spec filename s s' :
  opened filename s s' ->
  wp (open_body filename tt) s'
    (fun r s2 => match r with
       | inl _ => opened filename s s2 /\ (length (l_open s2) < length (l_open s'))%nat
       | inr r => open_post filename s r s2
       end)
    (fun _ => False).
Proof.
  intros Ho. assert (Hno : ~ calm_env s' -> ~ calm_env s) by (destruct Ho as (_ & _ & Hc & _); auto).
  unfold open_body. apply wp_bind, open_append_spec.
  - intros s1 Ho1 _. assert (Ho2 := opened_trans _ _ _ _ Ho Ho1). apply wp_bind, seek_end_spec.
    + intros s2 Ho3 _. assert (Ho4 := opened_trans _ _ _ _ Ho2 Ho3). rewrite (opened_files _ _ _ Ho2).
      destruct (Z.eqb_spec (Z.of_nat (length (default [] (l_files s !! filename)))) (-1)); [lia|].
      apply wp_ret. split; [done|]. unfold title_flag. by destruct (default [] _).
    + intros s2 Ho3 _ Hn. apply wp_ret. split; [by eapply opened_trans|]. intros Hc. apply Hn, Ho2, Hc.
  - intros n s1 Ho1 Hlt Hn. assert (Ho2 := opened_trans _ _ _ _ Ho Ho1).
    destruct (n =? EINTR); [|apply wp_ret; split; auto].
    apply wp_bind, wp_lift, wp_read_exitRQ_mq. intros e evs Hm Hsz Hq.
    assert (Ho3 : opened filename s (set_l_io (set_rx e evs (l_io s1)) s1)).
    { apply (opened_trans _ _ _ _ Ho2). split; [done|]. split; [done|]. split; [|by left].
      intros (H1 & H2 & H3 & H4). by split; [apply Hq|]. }
    destruct e; apply wp_ret; [split; auto|by split].
Qed.

Lemma openLogFile_spec f s (Q : option (list Z * Z) -> logging -> Prop) W :
  length (name f) = SENSOR_NAME_SIZE ->
  (forall s', opened (log_name f) s s' -> Q (Some (log_name f, title_flag (l_files s) (log_name f))) s') ->
  (forall s', opened (log_name f) s s' -> ~ calm_env s -> Q None s') ->
  wp (openLogFile f) s Q W.
Proof.
  intros Hn H1 H2. unfold openLogFile.
  assert (Hl : (length (log_name f) < FILENAME_SIZE)%nat).
  { unfold log_name, FILENAME_SIZE. rewrite !length_app. pose proof (length_cstr (name f)).
    unfold SENSOR_NAME_SIZE in Hn. simpl length. lia. }
  fold (log_name f). rewrite snprintf_fits by done.
  destruct (Z.leb_spec (Z.of_nat FILENAME_SIZE) (Z.of_nat (length (log_name f)))); [lia|].
  apply wp_bind. apply wp_mono with (Q := open_post (log_name f) s) (W := fun _ => False); [|clear Hl H|done].
  - apply wp_iterate with (I := fun _ => opened (log_name f) s); [apply opened_refl|].
    intros [] s' Ho. by apply open_body_spec.
  - intros [flag|] s' [Ho Hr]; apply wp_ret; [subst flag|]; auto.
Qed.

(** *** The main loop *)

Section main.
Context (tz : Z).

Definition log_all (fs : list Sensor_t) (files : gmap (list Z) (list Z)) : gmap (list Z) (list Z) :=
  fold_left (log_frame tz) fs files.

(** A record cut short by an error: the first [k] bytes of what the frame of
    [m] should append. *)
Definition cut_short (files : gmap (list Z) (list Z)) (m : list Z) (files' : gmap (list Z) (list Z)) : Prop :=
  let f := Sensor_of_bytes m in
  length m = sizeof_Sensor_t /\ exists k, (k <= length (appended tz files f))%nat /\
  files' = <[log_name f := default [] (files !! log_name f) ++ take k (appended tz files f)]> files.

(** What the daemon has done with the messages of its queue: the records of the
    frames among the messages [ms] it has handled, and perhaps the start of
    the next record; in a calm environment it has handled all of them. *)
Definition log_post (s s' : logging) : Prop :=
  exists ms rest, messages (rx (l_io s)) = ms ++ rest /\ (calm_env s -> rest = []) /\
    let files := log_all (frames_of ms) (l_files s) in
    l_files s' = files \/ exists m rest', rest = m :: rest' /\ cut_short files m (l_files s').

Definition log_inv (s : logging) (_ : unit) (s' : logging) : Prop :=
  exists ms, messages (rx (l_io s)) = ms ++ messages (rx (l_io s')) /\
    l_files s' = log_all (frames_of ms) (l_files s) /\ (calm_env s -> calm_env s').

Lemma log_stop s s' w :
  log_inv s tt s' -> (calm_env s' -> messages (rx (l_io s')) = []) -> log_post s (set_l_io w s').
Proof.
  intros (ms & Hm & Hf & Hc) Hn. exists ms, (messages (rx (l_io s'))). split; [done|]. split; [auto|]. by left.
Qed.

(** The record of a frame is written to the file just opened. *)
Lemma write_record_spec f files s (Q : Z -> logging -> Prop) W :
  loggable tz f -> default [] (l_files s !! log_name f) = default [] (files !! log_name f) ->
  (forall r w k, (r = 0 /\ k = length (appended tz files f) \/ r = -1 /\ tx (l_io s) <> []) ->
     (k <= length (appended tz files f))%nat ->
     kept (l_io s) w ->
     Q r {| l_io := w; l_open := l_open s; l_seek := l_seek s;
            l_files := <[log_name f := default [] (files !! log_name f) ++ take k (appended tz files f)]> (l_files s) |}) ->
  wp (on_file (log_name f) (writeFrameData tz (data f) (type f) (timestamp f) (title_flag files (log_name f)) 3)) s Q W.
Proof.
  intros (Hs & [t Ht] & _) Hd HQ. unfold on_file. apply wp_lift.
  eapply wp_mono; [by apply writeFrameData_writes| |done].
  assert (E : (if title_flag files (log_name f) =? 1 then log_title (type f) else []) ++ record_text (data f) (type f) t
              = appended tz files f).
  { unfold appended, frame_record, title_flag. rewrite Ht. by destruct (default [] (files !! log_name f)). }
  rewrite E. intros r w [[Hk1 Hk2] Hw]. rewrite Hd. simpl in Hk1, Hk2.
  assert (Hk : kept (l_io s) {| exitRQ := exitRQ w; rx := rx w; tx := tx w; sent := sent (l_io s) |}) by done.
  destruct Hw as [[-> Hw]|(-> & Hx & k & Hlt & Hw)]; simpl in Hw; rewrite Hw.
  - pose proof (HQ 0 _ (length (appended tz files f)) (or_introl (conj eq_refl eq_refl)) (le_n _) Hk) as H.
    rewrite take_ge in H by done. exact H.
  - apply HQ; auto. lia.
Qed.

(** The steps after a complete frame [m] has been received in [s1]. *)
Lemma log_frame_spec s s' s1 ms m :
  let f := Sensor_of_bytes m in
  messages (rx (l_io s)) = (ms ++ [m]) ++ messages (rx (l_io s1)) ->
  l_files s1 = log_all (frames_of ms) (l_files s) -> (calm_env s -> calm_env s1) ->
  (rx_size (rx (l_io s1)) < rx_size (rx (l_io s')))%nat ->
  length m = sizeof_Sensor_t -> loggable tz f ->
  wp (let! fd := openLogFile f in
      match fd with
      | None => ret (inr (-1))
      | Some (filename, newfile_flag) =>
          let! r := on_file filename (writeFrameData tz (data f) (type f) (timestamp f) newfile_flag 3) in
          if r =? -1 then ret (inr (-1)) else ret (inl tt)
      end) s1
    (fun r s2 => match r with
       | inl u => log_inv s u s2 /\ (rx_size (rx (l_io s2)) < rx_size (rx (l_io s')))%nat
       | inr _ => log_post s s2
       end) (log_post s).
Proof.
  intros f Hm Hf Hc Hsz Hl Hlog. set (files := log_all (frames_of ms) (l_files s)) in *.
  assert (Hcut : forall s2 k, ~ calm_env s -> (k <= length (appended tz files f))%nat ->
    l_files s2 = <[log_name f := default [] (files !! log_name f) ++ take k (appended tz files f)]> files -> log_post s s2).
  { intros s2 k Hnc Hk E. exists ms, (m :: messages (rx (l_io s1))). split; [by rewrite Hm, <- app_assoc|].
    split; [tauto|]. right. exists m. eexists. split; [done|]. split; [done|]. by exists k. }
  apply wp_bind, openLogFile_spec; [apply Hlog|..].
  - intros s2 Ho. assert (Hd := opened_files _ _ _ Ho). destruct Ho as (Hm2 & Hs2 & Hc2 & Hf2). rewrite Hf.
    apply wp_bind, write_record_spec; [done|by rewrite Hd, Hf|]. intros r w k Hr Hk [Hk1 Hk2].
    assert (E : <[log_name f := default [] (files !! log_name f) ++ take k (appended tz files f)]> (l_files s2) =
                <[log_name f := default [] (files !! log_name f) ++ take k (appended tz files f)]> files).
    { rewrite Hf in Hf2. destruct Hf2 as [-> | [_ ->]]; [done|]. by rewrite insert_insert_eq. }
    rewrite E. destruct Hr as [[-> ->]|[-> Hx]]; cbn [Z.eqb]; apply wp_ret.
    + split; [|cbn [l_io]; rewrite Hk1; lia]. exists (ms ++ [m]). split; [cbn [l_io]; by rewrite Hk1, Hm2|].
      split.
      * cbn [l_files]. rewrite take_ge by done. rewrite frames_of_snoc by done. unfold log_all. rewrite fold_left_app. done.
      * intros Hcs. destruct (Hc2 (Hc Hcs)) as ([He Hq] & Ht & Hop & Hsk). destruct (Hk2 Ht) as [Ht' He'].
        split; [split; [cbn [l_io]; congruence|cbn [l_io]; by rewrite Hk1]|]. by split.
    + eapply Hcut; [|done|reflexivity]. intros Hcs. by destruct (Hc2 (Hc Hcs)) as (_ & Ht & _).
  - intros s2 (_ & _ & _ & Hf2) Hnc. apply wp_ret. rewrite Hf in Hf2.
    assert (Hns : ~ calm_env s) by auto. destruct Hf2 as [E | [En E]].
    + exists ms, (m :: messages (rx (l_io s1))). split; [by rewrite Hm, <- app_assoc|]. split; [tauto|]. by left.
    + apply (Hcut s2 0%nat); [done|lia|]. by rewrite E, En.
Qed.

Lemma log_body_spec s s' :
  Forall (loggable tz) (frames_of (messages (rx (l_io s)))) -> log_inv s tt s' ->
  wp (main_body tz tt) s'
    (fun r s2 => match r with
       | inl u => log_inv s u s2 /\ (rx_size (rx (l_io s2)) < rx_size (rx (l_io s')))%nat
       | inr _ => log_post s s2
       end) (log_post s).
Proof.
  intros Hlog HI. unfold main_body. apply wp_bind, wp_lift, wp_read_exitRQ_mq. intros e evs Hme Hse Hqe. destruct e.
  { apply wp_ret. eapply log_stop; [done|]. intros [Hq _]. by destruct (Hqe Hq). }
  apply wp_bind, wp_lift. cbn [l_io set_l_io]. apply receives; cbn [rx set_rx].
  - intros m w (e' & evs' & -> & Hm & Hsz' & Hq') Hlt. cbn [rx set_rx] in *.
    destruct (Z.eqb_spec (Z.of_nat (length m)) (-1)); [lia|].
    destruct HI as (ms & Hms & Hf & Hc). rewrite <- Hme, Hm in Hms. change ([m] ++ ?r) with (m :: r) in Hms.
    rewrite cons_middle, app_assoc in Hms.
    assert (Hc' : calm_env s -> calm_env (set_l_io (set_rx e' evs' (set_rx false evs (l_io s'))) (set_l_io (set_rx false evs (l_io s')) s'))).
    { intros Hcs. destruct (Hc Hcs) as (Hq & H2). split; [apply Hq', Hqe, Hq|done]. }
    destruct (Z.eqb_spec (Z.of_nat (length m)) (Z.of_nat sizeof_Sensor_t)) as [El|El]; cbn [negb].
    + apply (log_frame_spec s s' _ ms m); [done|done|done|simpl; lia|lia|].
      rewrite Hms, !frames_of_app in Hlog. apply Forall_app in Hlog as [[_ Hlog]%Forall_app _].
      rewrite frames_of_one in Hlog by lia. by apply Forall_cons_1 in Hlog as [? _].
    + apply wp_ret. split; [|simpl; lia]. exists (ms ++ [m]). split; [done|]. split; [|done].
      cbn [l_files set_l_io]. by rewrite frames_of_skip by lia.
  - intros w Hnq Hd. cbn [Z.eqb]. apply wp_ret. change (log_post s (set_l_io w s')).
    eapply log_stop; [done|]. intros [Hq _]. destruct Hnq. by apply Hqe.
  - intros w Hm _. change (log_post s (set_l_io w s')). eapply log_stop; [done|]. intros _. congruence.
Qed.
End main.

(** C12.  The logging daemon: the records of the frames received are appended in
    order, each file starting with the title of its sensor, whatever the
    environment does; an error ends the daemon and leaves at most the start
    of one more record; in a calm environment all frames of the queue are
    logged.  The loop comes to an end or waits for a frame. *)
Theorem logging_main tz s :
  Forall (loggable tz) (frames_of (messages (rx (l_io s)))) ->
  wp (main_loop tz) s (fun _ => log_post tz s) (log_post tz s).
Proof.
  intros Hl. apply wp_iterate with (I := log_inv tz s); [|intros [] s' HI; by apply log_body_spec].
  exists []. split; [done|]. split; done.
Qed.

(** ** The contents of the files *)

Section contents.
Context (tz : Z).

(** A frame as the processing daemon names it. *)
Definition named_frame (f : Sensor_t) : Prop :=
  loggable tz f /\ 0 <= id f < 2 ^ 16 /\ cstr (name f) = sensor_name (id f) (type f).

(** The log of one sensor. *)
Definition sensor_log (fs : list Sensor_t) : option (list Z) :=
  match fs with
  | [] => None
  | f :: _ => Some (log_title (type f) ++ concat (map (frame_record tz) fs))
  end.

(** Different sensors have different files. *)
Lemma log_name_inj f g : named_frame f -> named_frame g -> log_name f = log_name g <-> sensor_key f = sensor_key g.
Proof.
  intros ((Hs & _) & Hi & Hn) ((Hs' & _) & Hi' & Hn'). unfold log_name, sensor_key. split.
  - intros E. apply (inj (app filepath)), (inj (fun l => app l filename_extension)) in E.
    rewrite Hn, Hn' in E. apply sensor_name_inj in E as [-> ->]; done.
  - intros [= E1 E2]. by rewrite Hn, Hn', E1, E2.
Qed.

Lemma frame_record_nonempty f : loggable tz f -> frame_record tz f <> [].
Proof.
  intros (_ & [t Ht] & _) E. unfold frame_record in E. rewrite Ht in E. unfold record_text in E.
  apply (f_equal length) in E. rewrite !length_app in E. simpl in E. lia.
Qed.

Lemma sensor_log_snoc fs f :
  loggable tz f -> Forall (loggable tz) fs -> Forall (fun g => type g = type f) fs ->
  sensor_log (fs ++ [f]) =
    Some (default [] (sensor_log fs) ++
          match default [] (sensor_log fs) with [] => log_title (type f) | _ => [] end ++ frame_record tz f).
Proof.
  intros Hf Hl Ht. destruct fs as [|g fs]; simpl; [by rewrite app_nil_r|]. apply Forall_cons_1 in Ht as [Ht _].
  destruct (log_title (type g) ++ frame_record tz g ++ concat (map (frame_record tz) fs)) eqn:E.
  - apply app_eq_nil in E as [_ [E _]%app_eq_nil]. apply Forall_cons_1 in Hl as [Hg _]. by apply frame_record_nonempty in E.
  - rewrite <- E, map_app, concat_app. simpl. by rewrite app_nil_r, <- !app_assoc.
Qed.

Lemma sensor_log_of_key fs files f0 :
  Forall named_frame fs -> named_frame f0 -> files !! log_name f0 = None ->
  log_all tz fs files !! log_name f0 = sensor_log (filter (fun f => sensor_key f = sensor_key f0) fs).
Proof.
  intros Hfs Hf0 Hn. induction fs as [|f fs IH] using rev_ind; [done|].
  apply Forall_app in Hfs as [Hfs [Hf _]%Forall_cons_1]. specialize (IH Hfs).
  unfold log_all in *. rewrite fold_left_app. cbn [fold_left]. rewrite filter_app. unfold log_frame at 1, appended.
  cbn [filter list_filter]. destruct (decide (sensor_key f = sensor_key f0)) as [E|E].
  - assert (En : log_name f = log_name f0) by (by apply log_name_inj). rewrite En, lookup_insert_eq, IH.
    rewrite sensor_log_snoc; [done|apply Hf|..].
    + apply Forall_forall. intros g [_ Hg]%list_elem_of_filter. eapply Forall_forall in Hfs; [apply Hfs|done].
    + apply Forall_forall. intros g [Hg _]%list_elem_of_filter. unfold sensor_key in *. congruence.
  - rewrite lookup_insert_ne, app_nil_r; [done|]. intros En. by apply E, log_name_inj.
Qed.
End contents.


(** ** Instances of the theorems *)

Definition example_frame : Sensor_t :=
  {| data := example_reading; timestamp := {| tv_sec := 86400; tv_nsec := 5 |}; last_seen_time := zero_timespec;
     id := 4660; name := nameSensor (replicate SENSOR_NAME_SIZE 0) 4660 SENSOR_TYPE_TORQUE;
     type := SENSOR_TYPE_TORQUE; state := SENSOR_FRAME_DEFAULT; frame_type := SENSOR_DATA |}.

Lemma example_named : named_frame 0 example_frame.
Proof.
  split; [|split; [cbn; lia|vm_compute; reflexivity]].
  split; [reflexivity|]. split; [|vm_compute; reflexivity]. exists example_tm. vm_compute. reflexivity.
Qed.

(** A frame, an incomplete message and the frame again; the first [write] takes
    three bytes and the first [open] is interrupted. *)
Definition example_daemon : logging :=
  mk_logging (mk_io false [Arrives (Sensor_bytes example_frame); Arrives [1; 2]; Arrives (Sensor_bytes example_frame)]
                [Takes 2] [])
    [OpenInterrupts 10] [] ∅.

Lemma example_frames : frames_of (messages (rx (l_io example_daemon))) = [example_frame; example_frame].
Proof. vm_compute. reflexivity. Qed.

Lemma logging_main_witness :
  wp (main_loop 0) example_daemon (fun _ => log_post 0 example_daemon) (log_post 0 example_daemon).
Proof.
  apply (logging_main 0 example_daemon). rewrite example_frames.
  repeat constructor; apply example_named.
Defined.

