(* ===== verification/Gateway.v ===== *)
(** The four daemons with their queues as one transition system.  A step is a
    queue operation of one daemon with the work that goes with it, as the
    component's own file defines it; the daemons' steps interleave freely,
    with those of the watchdog. *)
From stdpp Require Import gmap.
From S2P Require Import Prelude Machine Sense Posix Interfaces SenseUtils Acquiring Processing Registry TelemetryMain Logging.
Local Open Scope Z_scope.

(** ** The system *)

(** The queue between acquiringd and processingd, the frame processingd has
    still to send to telemetryd (when it is between the two [mq_send] of
    [forwardFrame]), its two output queues, the registry of telemetryd with
    the place of its main loop, and the log files. *)
Record gateway := mk_gateway {
  g_acquire : mqueue;
  g_pending : option Sensor_t;
  g_queues : queues;
  g_registry : tstate;
  g_files : gmap (list Z) (list Z)
}.

(** What the daemons do; [lost] is whether a frame found a queue full. *)
Inductive act :=
| Send (packet : list Z)
| Process (now mono : option timespec) (lost : bool)
| Forward (lost : bool)
| Enter (frame : Sensor_t)
| Watch (a : action)
| Log (frame : Sensor_t).

(** The frame processingd makes of a message. *)
Definition made (now mono : option timespec) (m : list Z) : option Sensor_t :=
  if bad_size m then None else
  let '(r, f) := generateFrame now mono m zero_sensor (length m) in if r =? -1 then None else Some f.

(** The two halves of [forwardFrame]. *)
Definition to_log (frame : Sensor_t) (q : queues) : Z * queues :=
  if frame_type frame =? SENSOR_DATA then
    match mq_send_nb (tx_log_mq q) (Sensor_bytes frame) MQ_PRIORITY with
    | Err _ => (-1, q)
    | Ok m => (0, mk_queues m (tx_telemetry_mq q))
    end
  else (0, q).

Definition to_telemetry (frame : Sensor_t) (q : queues) : Z * queues :=
  match mq_send_nb (tx_telemetry_mq q) (Sensor_bytes frame) MQ_PRIORITY with
  | Err _ => (-1, q)
  | Ok m => (0, mk_queues (tx_log_mq q) m)
  end.

Lemma forwardFrame_halves f q :
  forwardFrame f q = let '(r, q') := to_log f q in if r =? -1 then (-1, q') else to_telemetry f q'.
Proof.
  unfold forwardFrame, to_log, to_telemetry. destruct (frame_type f =? SENSOR_DATA); [|done].
  by destruct (mq_send_nb (tx_log_mq q) _ _).
Qed.

(** The turn of processingd up to the first [mq_send]: what it returns, the
    queues and the frame left to send. *)
Definition handle (now mono : option timespec) (m : list Z) (q : queues) : Z * queues * option Sensor_t :=
  match made now mono m with
  | None => (0, q, None)
  | Some f => let '(r, q') := to_log f q in (r, q', if r =? -1 then None else Some f)
  end.

(** The clocks answer with objects of type [struct timespec]. *)
Definition clocks_ok (now mono : option timespec) : Prop :=
  forall t, now = Some t \/ mono = Some t -> i64_ok (tv_sec t) /\ i64_ok (tv_nsec t).

Section gateway.
Context (tz : Z).

(** [mq_send] of acquiringd waits while its queue is full, so its step is there
    only when it is not; a receiver's step only when there is a message. *)
Inductive gstep : gateway -> act -> gateway -> Prop :=
| g_send acq pend out reg files p acq' :
    bytes_ok p -> mq_send_nb acq p MESSAGE_QUEUE_PRIORITY = Ok acq' ->
    gstep (mk_gateway acq pend out reg files) (Send p) (mk_gateway acq' pend out reg files)
| g_process acq out reg files now mono m prio acq' r out' pend' :
    clocks_ok now mono -> mq_recv acq Processing.PACKET_SIZE = Some (Ok (m, prio, acq')) ->
    handle now mono m out = (r, out', pend') ->
    gstep (mk_gateway acq None out reg files) (Process now mono (r =? -1)) (mk_gateway acq' pend' out' reg files)
| g_forward acq f out reg files r out' :
    to_telemetry f out = (r, out') ->
    gstep (mk_gateway acq (Some f) out reg files) (Forward (r =? -1)) (mk_gateway acq None out' reg files)
| g_enter acq pend log tel reg files m prio tel' reg' :
    mq_recv tel sizeof_Sensor_t = Some (Ok (m, prio, tel')) -> length m = sizeof_Sensor_t ->
    step reg (AEnter (Sensor_of_bytes m)) reg' ->
    gstep (mk_gateway acq pend (mk_queues log tel) reg files) (Enter (Sensor_of_bytes m))
      (mk_gateway acq pend (mk_queues log tel') reg' files)
| g_watch acq pend out reg files a reg' :
    entered [a] = [] -> step reg a reg' ->
    gstep (mk_gateway acq pend out reg files) (Watch a) (mk_gateway acq pend out reg' files)
| g_log acq pend log tel reg files m prio log' :
    mq_recv log sizeof_Sensor_t = Some (Ok (m, prio, log')) -> length m = sizeof_Sensor_t ->
    gstep (mk_gateway acq pend (mk_queues log tel) reg files) (Log (Sensor_of_bytes m))
      (mk_gateway acq pend (mk_queues log' tel) reg (log_frame tz files (Sensor_of_bytes m))).

Inductive runs (g : gateway) : list act -> gateway -> Prop :=
| runs_nil : runs g [] g
| runs_snoc tr g1 a g2 : runs g tr g1 -> gstep g1 a g2 -> runs g (tr ++ [a]) g2.

(** The queues as the [ipc_init]s create them, the registry as [main] does. *)
Definition acquire_queue : mqueue := mk_mq 10 Processing.PACKET_SIZE [].
Definition output_queue : mqueue := mk_mq 10 sizeof_Sensor_t [].
Definition initial_gateway (garbage : nat -> Sensor_t) (files : gmap (list Z) (list Z)) : gateway :=
  mk_gateway acquire_queue None (mk_queues output_queue output_queue) (initial_state garbage) files.

(** ** What a run has done *)

Definition packet_of (a : act) : list (list Z) := match a with Send p => [p] | _ => [] end.
Definition clocks_of (a : act) : list (option timespec * option timespec) :=
  match a with Process now mono _ => [(now, mono)] | _ => [] end.
Definition shown_of (a : act) : list Sensor_t := match a with Enter f => [f] | _ => [] end.
Definition logged_of (a : act) : list Sensor_t := match a with Log f => [f] | _ => [] end.

Definition packets_sent (tr : list act) : list (list Z) := concat (map packet_of tr).
Definition clocks_read (tr : list act) : list (option timespec * option timespec) := concat (map clocks_of tr).
Definition frames_shown (tr : list act) : list Sensor_t := concat (map shown_of tr).
Definition frames_logged (tr : list act) : list Sensor_t := concat (map logged_of tr).

(** The [k]-th message processed is the [k]-th packet sent. *)
Definition made_of (x : list Z * (option timespec * option timespec)) : option Sensor_t :=
  made x.2.1 x.2.2 x.1.
Definition frames_made (tr : list act) : list Sensor_t := omap made_of (zip (packets_sent tr) (clocks_read tr)).

(** No frame found a queue full. *)
Definition no_loss (tr : list act) : Prop :=
  Forall (fun a => match a with Process _ _ lost | Forward lost => lost = false | _ => True end) tr.
End gateway.
(** ** Facts *)

Lemma omap_zip_snoc (ps : list (list Z)) cs p c :
  length ps = length cs -> omap made_of (zip (ps ++ [p]) (cs ++ [c])) = omap made_of (zip ps cs) ++ omap made_of [(p, c)].
Proof. intros E. by rewrite zip_with_app, omap_app. Qed.

Lemma zip_longer {A B} (l1 k : list A) (l2 : list B) : (length l2 <= length l1)%nat -> zip (l1 ++ k) l2 = zip l1 l2.
Proof.
  revert l2. induction l1 as [|x l1 IH]; intros [|y l2] H; simpl in *; [by rewrite zip_with_nil_r|lia|done|].
  f_equal. apply IH. lia.
Qed.

(** Traces grow at their end. *)
Lemma packets_sent_snoc tr a : packets_sent (tr ++ [a]) = packets_sent tr ++ packet_of a.
Proof. unfold packets_sent. rewrite map_app, concat_app. cbn [map concat]. by rewrite app_nil_r. Qed.
Lemma clocks_read_snoc tr a : clocks_read (tr ++ [a]) = clocks_read tr ++ clocks_of a.
Proof. unfold clocks_read. rewrite map_app, concat_app. cbn [map concat]. by rewrite app_nil_r. Qed.
Lemma frames_shown_snoc tr a : frames_shown (tr ++ [a]) = frames_shown tr ++ shown_of a.
Proof. unfold frames_shown. rewrite map_app, concat_app. cbn [map concat]. by rewrite app_nil_r. Qed.
Lemma frames_logged_snoc tr a : frames_logged (tr ++ [a]) = frames_logged tr ++ logged_of a.
Proof. unfold frames_logged. rewrite map_app, concat_app. cbn [map concat]. by rewrite app_nil_r. Qed.

(** *** Queues *)

(** The queue of frames holds [fs], the one of packets [ps]. *)
Definition holds_frames (q : mqueue) (fs : list Sensor_t) : Prop :=
  mq_ok q /\ mq_msgsize q = sizeof_Sensor_t /\ mq_msgs q = map frame_msg fs /\ Forall wf_sensor fs.
Definition holds_packets (q : mqueue) (ps : list (list Z)) : Prop :=
  mq_msgsize q = Processing.PACKET_SIZE /\ (length ps <= mq_maxmsg q)%nat /\
  mq_msgs q = map (pair MESSAGE_QUEUE_PRIORITY) ps /\ Forall bytes_ok ps.

Lemma holds_push q fs f :
  holds_frames q fs -> wf_sensor f -> mq_full q = false -> holds_frames (push [f] q) (fs ++ [f]).
Proof.
  intros (Hq & Hs & Hm & Hf) Hw Hl. split; [by apply mq_ok_push|]. split; [done|].
  split; [unfold push; cbn [mq_msgs set_msgs]; by rewrite Hm, map_app|]. apply Forall_app. by split; [|constructor].
Qed.

Lemma holds_recv q fs m prio q' :
  holds_frames q fs -> mq_recv q sizeof_Sensor_t = Some (Ok (m, prio, q')) ->
  exists fs', fs = Sensor_of_bytes m :: fs' /\ holds_frames q' fs'.
Proof.
  intros ([Hs Hb Hp] & Hsz & Hm & Hf) E. unfold mq_recv in E. rewrite Hsz, Nat.ltb_irrefl in E.
  destruct fs as [|f fs]; rewrite Hm in *; cbn [map frame_msg] in *; [done|]. injection E as <- <- <-.
  apply Forall_cons_1 in Hf as [Hf Hfs]. exists fs. rewrite Sensor_of_Sensor_bytes by done. split; [done|].
  split; [|by repeat split]. split; cbn [mq_msgs set_msgs mq_msgsize mq_maxmsg]; [done| |].
  - simpl in Hb. lia.
  - by apply Forall_cons_1 in Hp as [_ Hp].
Qed.

Lemma holds_send q ps p q' :
  holds_packets q ps -> bytes_ok p -> mq_send_nb q p MESSAGE_QUEUE_PRIORITY = Ok q' -> holds_packets q' (ps ++ [p]).
Proof.
  intros (Hs & Hl & Hm & Hb) Hp E. unfold mq_send_nb in E. destruct (_ <? _)%nat; [done|].
  destruct (mq_full q) eqn:Hf; [done|]. injection E as <-. unfold mq_full in Hf. apply Nat.leb_gt in Hf.
  rewrite Hm, length_map in Hf. split; [done|]. split; [rewrite length_app; simpl; lia|].
  split; [|apply Forall_app; by split; [|constructor]]. cbn [mq_msgs set_msgs]. rewrite mq_insert_fifo.
  - by rewrite Hm, map_app.
  - rewrite Hm. apply Forall_map, Forall_true. intros x. simpl. lia.
Qed.

Lemma holds_take q ps m prio q' :
  holds_packets q ps -> mq_recv q Processing.PACKET_SIZE = Some (Ok (m, prio, q')) ->
  exists ps', ps = m :: ps' /\ bytes_ok m /\ holds_packets q' ps'.
Proof.
  intros (Hs & Hl & Hm & Hb) E. unfold mq_recv in E. rewrite Hs, Nat.ltb_irrefl in E.
  destruct ps as [|p ps]; rewrite Hm in *; cbn [map] in *; [done|]. injection E as <- <- <-.
  apply Forall_cons_1 in Hb as [Hp Hb]. exists ps. split; [done|]. split; [done|].
  split; [done|]. cbn [length mq_maxmsg set_msgs] in *. split; [lia|done].
Qed.

(** *** The turn of processingd *)

Lemma made_wf now mono m f : clocks_ok now mono -> bytes_ok m -> made now mono m = Some f -> wf_sensor f.
Proof.
  intros Hc Hm E. unfold made in E. destruct (bad_size m); [done|].
  destruct (generateFrame now mono m zero_sensor (length m)) as [r g] eqn:Eg.
  pose proof (generateFrame_ret now mono m zero_sensor (length m)) as Hr. rewrite Eg in Hr. cbn [fst] in Hr.
  destruct (Z.eqb_spec r (-1)); [done|]. injection E as <-. destruct Hr as [->|]; [|done].
  apply (generateFrame_wf (fun _ => (now, mono)) 0 m g); [intros _ t; apply Hc|done|done].
Qed.

Lemma handle_spec now mono m log tel lq r out' pend' :
  clocks_ok now mono -> bytes_ok m -> holds_frames log lq ->
  handle now mono m (mk_queues log tel) = (r, out', pend') ->
  let fs := option_list (made now mono m) in
  exists l, tx_telemetry_mq out' = tel /\ holds_frames (tx_log_mq out') (lq ++ l) /\ Forall wf_sensor (option_list pend') /\
    l `sublist_of` data_frames fs /\ option_list pend' `sublist_of` fs /\
    (r <> -1 -> l = data_frames fs /\ option_list pend' = fs).
Proof.
  intros Hc Hm Hl E fs. unfold handle in E. unfold fs. destruct (made now mono m) as [f|] eqn:Em.
  2:{ injection E as <- <- <-. exists []. rewrite app_nil_r. split; [done|]. split; [done|]. by repeat (split; [constructor|]). }
  assert (Hf : wf_sensor f) by (by eapply made_wf). change (option_list (Some f)) with [f]. unfold to_log in E.
  cbn [tx_log_mq tx_telemetry_mq] in E. rewrite mq_send_frame in E by (done || apply Hl).
  assert (Ed : data_frames [f] = if frame_type f =? SENSOR_DATA then [f] else []) by done. rewrite Ed.
  destruct (frame_type f =? SENSOR_DATA); [destruct (mq_full log) eqn:Ef|]; injection E as <- <- <-; cbn [Z.eqb].
  - exists []. rewrite app_nil_r. split; [done|]. split; [done|]. split; [constructor|].
    split; [apply sublist_nil_l|]. by split; [apply sublist_nil_l|].
  - exists [f]. split; [done|]. split; [by apply holds_push|]. split; [by constructor|]. by repeat split.
  - exists []. rewrite app_nil_r. split; [done|]. split; [done|]. split; [by constructor|]. by repeat split.
Qed.

Lemma to_telemetry_spec f log tel tq r out' :
  wf_sensor f -> holds_frames tel tq -> to_telemetry f (mk_queues log tel) = (r, out') ->
  exists t, tx_log_mq out' = log /\ holds_frames (tx_telemetry_mq out') (tq ++ t) /\ t `sublist_of` [f] /\ (r <> -1 -> t = [f]).
Proof.
  intros Hf Ht E. unfold to_telemetry in E. cbn [tx_telemetry_mq tx_log_mq] in E. rewrite mq_send_frame in E by (done || apply Ht).
  destruct (mq_full tel) eqn:Ef; injection E as <- <-.
  - exists []. rewrite app_nil_r. split; [done|]. split; [done|]. split; [apply sublist_nil_l|done].
  - exists [f]. split; [done|]. split; [by apply holds_push|]. by split.
Qed.

(** ** The invariant of every run *)

Section invariant.
Context (tz : Z) (garbage : nat -> Sensor_t) (files0 : gmap (list Z) (list Z)).

(** The part of the run [tr] a receiver of frames has to do with: [received]
    by it, [waiting] in its queue and [pending] at processingd are, in order,
    among the frames [fs] for it, all of them when no frame found a queue
    full. *)
Definition delivered (tr : list act) (received fs : list Sensor_t) (q : mqueue) (pending : list Sensor_t) : Prop :=
  exists waiting, holds_frames q waiting /\ Forall wf_sensor pending /\ (received ++ waiting ++ pending) `sublist_of` fs /\
    (no_loss tr -> received ++ waiting ++ pending = fs).

Record gateway_inv (tr : list act) (g : gateway) : Prop := {
  gi_packets : exists taken queued, packets_sent tr = taken ++ queued /\ length taken = length (clocks_read tr) /\
    holds_packets (g_acquire g) queued;
  gi_telemetry : delivered tr (frames_shown tr) (frames_made tr) (tx_telemetry_mq (g_queues g)) (option_list (g_pending g));
  gi_logging : delivered tr (frames_logged tr) (data_frames (frames_made tr)) (tx_log_mq (g_queues g)) [];
  gi_registry : exists rtr, steps (initial_state garbage) rtr (g_registry g) /\ entered rtr = frames_shown tr;
  gi_files : g_files g = log_all tz (frames_logged tr) files0
}.

Lemma no_loss_snoc tr a : no_loss (tr ++ [a]) -> no_loss tr.
Proof. intros H. by apply Forall_app in H as [H _]. Qed.

Lemma delivered_same tr a received fs q pend : delivered tr received fs q pend -> delivered (tr ++ [a]) received fs q pend.
Proof. intros (w & Hh & Hp & Hs & Hn). exists w. split; [done|]. split; [done|]. split; [done|]. intros H%no_loss_snoc. auto. Qed.

(** The receiver takes a message. *)
Lemma delivered_recv tr a received fs q pend m prio q' :
  delivered tr received fs q pend -> mq_recv q sizeof_Sensor_t = Some (Ok (m, prio, q')) ->
  delivered (tr ++ [a]) (received ++ [Sensor_of_bytes m]) fs q' pend.
Proof.
  intros (w & Hh & Hp & Hs & Hn) E. destruct (holds_recv _ _ _ _ _ Hh E) as (w' & -> & Hh').
  exists w'. rewrite <- app_assoc. split; [done|]. split; [done|]. split; [done|]. intros H%no_loss_snoc. auto.
Qed.

(** The sender has made the frames [new]: it has put [l] of them in the queue, or
    keeps [pend] of them to send. *)
Lemma delivered_make tr a received fs new q q' waiting l pend :
  holds_frames q waiting -> received ++ waiting `sublist_of` fs -> (no_loss tr -> received ++ waiting = fs) ->
  holds_frames q' (waiting ++ l) -> Forall wf_sensor pend -> l ++ pend `sublist_of` new -> (no_loss [a] -> l ++ pend = new) ->
  delivered (tr ++ [a]) received (fs ++ new) q' pend.
Proof.
  intros Hh Hs Hn Hh' Hp Hl Ha. exists (waiting ++ l). split; [done|]. split; [done|].
  rewrite <- (app_assoc waiting), (app_assoc received). split; [by apply sublist_app|].
  intros [H1 H2]%Forall_app. by rewrite Hn, Ha.
Qed.

(** It sends [t], all or nothing of what it kept. *)
Lemma delivered_forward tr a received fs q q' pend waiting t :
  holds_frames q waiting -> received ++ waiting ++ pend `sublist_of` fs -> (no_loss tr -> received ++ waiting ++ pend = fs) ->
  holds_frames q' (waiting ++ t) -> t `sublist_of` pend -> (no_loss [a] -> t = pend) ->
  delivered (tr ++ [a]) received fs q' [].
Proof.
  intros Hh Hs Hn Hh' Ht Ha. exists (waiting ++ t). rewrite app_nil_r. split; [done|]. split; [done|]. split.
  - etransitivity; [|exact Hs]. by apply sublist_app, sublist_app.
  - intros [H1 H2]%Forall_app. by rewrite Ha, Hn.
Qed.

(** *** Frames made *)

(** A step other than of processingd makes no frame. *)
Lemma frames_made_same tr a :
  clocks_of a = [] -> (length (clocks_read tr) <= length (packets_sent tr))%nat -> frames_made (tr ++ [a]) = frames_made tr.
Proof.
  intros Ha Hl. unfold frames_made. rewrite clocks_read_snoc, packets_sent_snoc, Ha, app_nil_r. by rewrite zip_longer.
Qed.

(** A turn of processingd. *)
Lemma frames_made_process tr now mono lost taken m queued :
  packets_sent tr = taken ++ m :: queued -> length taken = length (clocks_read tr) ->
  frames_made (tr ++ [Process now mono lost]) = frames_made tr ++ option_list (made now mono m).
Proof.
  intros Hp Hl. unfold frames_made. rewrite clocks_read_snoc, packets_sent_snoc, Hp. cbn [clocks_of packet_of].
  rewrite app_nil_r, (zip_longer taken (m :: queued) (clocks_read tr)) by lia.
  rewrite cons_middle, app_assoc, zip_longer by (rewrite !length_app; simpl; lia).
  rewrite omap_zip_snoc by done. by f_equal.
Qed.

Lemma data_frames_app a b : data_frames (a ++ b) = data_frames a ++ data_frames b.
Proof. apply List.filter_app. Qed.

(** *** Preservation *)

Lemma gateway_initial : gateway_inv [] (initial_gateway garbage files0).
Proof.
  assert (Hq : holds_frames output_queue []).
  { split; [|by repeat split]. split; cbn; [done|lia|constructor]. }
  split; cbn [initial_gateway g_acquire g_queues g_registry g_files tx_log_mq tx_telemetry_mq].
  - exists [], []. split; [done|]. split; [done|]. split; [done|]. split; [simpl; lia|]. by split.
  - exists []. by split; [|split].
  - exists []. by split; [|split].
  - exists []. split; [constructor|done].
  - done.
Qed.

(** The two steps of processingd. *)
Lemma gateway_process tr acq out reg files now mono m prio acq' r out' pend' :
  gateway_inv tr (mk_gateway acq None out reg files) ->
  clocks_ok now mono -> mq_recv acq Processing.PACKET_SIZE = Some (Ok (m, prio, acq')) ->
  handle now mono m out = (r, out', pend') ->
  gateway_inv (tr ++ [Process now mono (r =? -1)]) (mk_gateway acq' pend' out' reg files).
Proof.
  intros [(taken & queued & Hp & Hc & Hq) (tq & Ht & _ & Hts & Htn) (lq & Hl & _ & Hls & Hln) Hr Hf] Hck Hs Hh.
  cbn [g_acquire g_pending g_queues g_registry g_files option_list] in *. destruct out as [log tel].
  destruct (holds_take _ _ _ _ _ Hq Hs) as (queued' & -> & Hm & Hq').
  destruct (handle_spec _ _ _ _ _ _ _ _ _ Hck Hm Hl Hh) as (l & Et & Hl' & Hw & Hsl & Hst & Hall).
  assert (Hno : no_loss [Process now mono (r =? -1)] -> r <> -1).
  { intros H. apply Forall_cons_1 in H as [H _]. by apply Z.eqb_neq. }
  rewrite app_nil_r in Hts, Htn, Hls, Hln.
  split; cbn [g_acquire g_pending g_queues g_registry g_files];
    rewrite ?frames_shown_snoc, ?frames_logged_snoc, ?app_nil_r, ?(frames_made_process _ _ _ _ taken m queued') by done;
    try done.
  - exists (taken ++ [m]), queued'. rewrite packets_sent_snoc, clocks_read_snoc, Hp. cbn [packet_of clocks_of].
    rewrite app_nil_r. split; [by rewrite <- app_assoc|]. split; [rewrite !length_app; simpl; lia|done].
  - apply (delivered_make _ _ _ _ _ tel _ tq []); try done; [by rewrite Et, app_nil_r|]. intros H. by apply Hall, Hno.
  - rewrite data_frames_app. apply (delivered_make _ _ _ _ _ log _ lq l); rewrite ?app_nil_r; try done.
    intros H. by apply Hall, Hno.
Qed.

Lemma gateway_forward tr acq f out reg files r out' :
  gateway_inv tr (mk_gateway acq (Some f) out reg files) -> to_telemetry f out = (r, out') ->
  gateway_inv (tr ++ [Forward (r =? -1)]) (mk_gateway acq None out' reg files).
Proof.
  intros [(taken & queued & Hp & Hc & Hq) (tq & Ht & Hw & Hts & Htn) Hl Hr Hf] E.
  cbn [g_acquire g_pending g_queues g_registry g_files option_list] in *. destruct out as [log tel].
  apply Forall_cons_1 in Hw as [Hw _]. destruct (to_telemetry_spec _ _ _ _ _ _ Hw Ht E) as (t & El & Ht' & Hst & Hall).
  assert (Hle : (length (clocks_read tr) <= length (packets_sent tr))%nat) by (rewrite Hp, length_app; lia).
  split; cbn [g_acquire g_pending g_queues g_registry g_files];
    rewrite ?frames_made_same, ?frames_shown_snoc, ?frames_logged_snoc, ?app_nil_r by done; try done.
  - exists taken, queued. rewrite packets_sent_snoc, clocks_read_snoc. by rewrite !app_nil_r.
  - apply (delivered_forward _ _ _ _ tel _ [f] tq t); try done. intros H. apply Hall.
    apply Forall_cons_1 in H as [H _]. by apply Z.eqb_neq.
  - rewrite El. by apply delivered_same.
Qed.

Lemma gateway_step tr g a g' : gateway_inv tr g -> gstep tz g a g' -> gateway_inv (tr ++ [a]) g'.
Proof.
  intros HI Hst. assert (HI' := HI). destruct HI' as [(taken & queued & Hp & Hc & Hq) Ht Hl (rtr & Hr & He) Hf].
  assert (Hle : (length (clocks_read tr) <= length (packets_sent tr))%nat) by (rewrite Hp, length_app; lia).
  destruct Hst as [acq pend out reg files p acq' Hpb Hs|acq out reg files now mono m prio acq' r out' pend' Hck Hs Hh
    |acq f out reg files r out' Hs
    |acq pend log tel reg files m prio tel' reg' Hs Hm Hreg|acq pend out reg files a reg' Ha Hreg
    |acq pend log tel reg files m prio log' Hs Hm]; [|by eapply gateway_process|by apply (gateway_forward _ _ f out)|..].
  all: cbn [g_acquire g_pending g_queues g_registry g_files tx_log_mq tx_telemetry_mq] in *.
  all: split; cbn [g_acquire g_pending g_queues g_registry g_files tx_log_mq tx_telemetry_mq].
  all: rewrite ?frames_made_same, ?packets_sent_snoc, ?clocks_read_snoc, ?frames_shown_snoc, ?frames_logged_snoc by done.
  all: cbn [packet_of clocks_of shown_of logged_of]; rewrite ?app_nil_r.
  all: eauto using delivered_same, delivered_recv.
  - exists taken, (queued ++ [p]). rewrite Hp, app_assoc. split; [done|]. split; [done|]. by eapply holds_send.
  - exists (rtr ++ [AEnter (Sensor_of_bytes m)]). split; [by eapply steps_snoc|]. by rewrite entered_app, He.
  - exists (rtr ++ [a]). split; [by eapply steps_snoc|]. by rewrite entered_app, Ha, app_nil_r, He.
  - rewrite Hf. unfold log_all. by rewrite fold_left_app.
Qed.

Lemma gateway_runs tr g : runs tz (initial_gateway garbage files0) tr g -> gateway_inv tr g.
Proof. induction 1 as [|tr g1 a g2 _ IH Hst]; [apply gateway_initial|by eapply gateway_step]. Qed.
End invariant.

(** ** Properties *)

(** C8.  The daemons together, however their steps interleave: the frames that
    telemetryd has shown, those waiting for it and the one processingd has
    sent to loggingd but not yet to telemetryd are, in order and without
    repetition, among the frames made of the packets acquiringd has sent, and
    so are those of loggingd among the data frames; none is missing unless it
    found a queue full.  The packets not yet processed are in the acquisition
    queue, the registry shows exactly the frames taken so far and satisfies
    its invariant, and the files hold exactly the records of the frames
    taken so far. *)
Theorem gateway_conserves tz garbage files0 tr g :
  runs tz (initial_gateway garbage files0) tr g ->
  (exists taken queued, packets_sent tr = taken ++ queued /\ length taken = length (clocks_read tr) /\
     holds_packets (g_acquire g) queued) /\
  (exists waiting, holds_frames (tx_telemetry_mq (g_queues g)) waiting /\
     (frames_shown tr ++ waiting ++ option_list (g_pending g)) `sublist_of` frames_made tr /\
     (no_loss tr -> frames_shown tr ++ waiting ++ option_list (g_pending g) = frames_made tr)) /\
  (exists waiting, holds_frames (tx_log_mq (g_queues g)) waiting /\
     (frames_logged tr ++ waiting) `sublist_of` data_frames (frames_made tr) /\
     (no_loss tr -> frames_logged tr ++ waiting = data_frames (frames_made tr))) /\
  reg_ok (reg (g_registry g)) /\ history (frames_shown tr) (reg (g_registry g)) /\
  g_files g = log_all tz (frames_logged tr) files0.
Proof.
  intros [Hp Ht Hl (rtr & Hr & He) Hf]%gateway_runs. 
  destruct Ht as (tq & Ht & _ & Hts & Htn), Hl as (lq & Hl & _ & Hls & Hln). rewrite app_nil_r in Hls, Hln.
  split; [done|]. split; [by exists tq|]. split; [by exists lq|]. rewrite <- He.
  split; [by apply steps_ok in Hr as [? _]|]. split; [by apply steps_history in Hr|done].
Qed.

(** C9.  At rest: when the queues are empty, processingd is between two turns
    and no frame found a queue full, every packet sent has been processed, the
    registry shows the frames of all of them, and the log files hold the
    records of all data frames. *)
Theorem gateway_at_rest tz garbage files0 tr g :
  runs tz (initial_gateway garbage files0) tr g -> no_loss tr -> g_pending g = None ->
  mq_msgs (g_acquire g) = [] -> mq_msgs (tx_telemetry_mq (g_queues g)) = [] ->
  mq_msgs (tx_log_mq (g_queues g)) = [] ->
  length (clocks_read tr) = length (packets_sent tr) /\
  history (frames_made tr) (reg (g_registry g)) /\
  g_files g = log_all tz (data_frames (frames_made tr)) files0.
Proof.
  intros Hr Hn Hpe Ha Ht Hl. apply gateway_runs in Hr as [(taken & queued & Hp & Hc & _ & _ & Hq & _) (w & Hw & _ & _ & Hwn)
    (v & Hv & _ & _ & Hvn) (rtr & Hr & He) Hf]. rewrite Hpe in Hwn. cbn [option_list] in Hwn.
  assert (queued = []) as -> by (rewrite Ha in Hq; by destruct queued).
  assert (w = []) as -> by (destruct Hw as (_ & _ & Hw & _); rewrite Ht in Hw; by destruct w).
  assert (v = []) as -> by (destruct Hv as (_ & _ & Hv & _); rewrite Hl in Hv; by destruct v).
  rewrite app_nil_r in *. specialize (Hwn Hn). specialize (Hvn Hn). split; [by rewrite Hp|].
  split; [|by rewrite Hf, Hvn]. apply steps_history in Hr. by rewrite He, Hwn in Hr.
Qed.

Lemma mq_send_room q ps p :
  holds_packets q ps -> (length p <= Processing.PACKET_SIZE)%nat -> mq_full q = false ->
  mq_send_nb q p MESSAGE_QUEUE_PRIORITY = Ok (set_msgs (mq_insert MESSAGE_QUEUE_PRIORITY p (mq_msgs q)) q).
Proof.
  intros (Hs & _) Hp Hf. unfold mq_send_nb. rewrite Hf, Hs.
  by destruct (Nat.ltb_spec Processing.PACKET_SIZE (length p)); [lia|].
Qed.

(** Where telemetryd receives, a frame has a place unless its sensor is one too
    many. *)
Lemma enter_room rtr garbage r f :
  steps (initial_state garbage) rtr (mk_tstate true r) -> ~ TelemetryMain.rejected (entered rtr) f ->
  exists r', enter_frame f (count_frame r) = Continue r'.
Proof.
  intros Hs Hrej. destruct (steps_ok _ _ _ Hs) as [Hok Hslot]. apply steps_history in Hs as [Hk _].
  cbn [reg ready] in *. destruct (enter_result f (count_frame r)) as [(i & s & _ & _ & _ & E & _)|[(Hn & Hlim & _)|(_ & _ & s & r' & _ & E & _)]];
    [by apply count_frame_ok|by apply Hslot|by eexists| |by eexists].
  destruct Hrej. split.
  - rewrite <- Hk, length_map. unfold snapshot. rewrite length_take. cbn [count_frame sensor_count] in Hlim. destruct Hok. lia.
  - by rewrite <- Hk.
Qed.

(** C10.  No daemon waits for ever on another: in every reachable state the
    acquisition queue takes a packet unless it is full, processingd has a
    turn whenever that queue is not empty and always finishes the turn it
    has begun (it never waits for room),
    loggingd whenever its queue is not empty, and telemetryd - which leaves
    its critical section when memory is granted - whenever its queue is not
    empty, unless the next frame is that of a 129th sensor. *)
Theorem gateway_progress tz garbage files0 tr g :
  runs tz (initial_gateway garbage files0) tr g ->
  (forall p, bytes_ok p -> (length p <= Processing.PACKET_SIZE)%nat -> mq_full (g_acquire g) = false ->
     exists g', gstep tz g (Send p) g') /\
  (forall now mono, clocks_ok now mono -> g_pending g = None -> mq_msgs (g_acquire g) <> [] ->
     exists lost g', gstep tz g (Process now mono lost) g') /\
  (g_pending g <> None -> exists lost g', gstep tz g (Forward lost) g' /\ g_pending g' = None) /\
  (mq_msgs (tx_log_mq (g_queues g)) <> [] -> exists f g', gstep tz g (Log f) g') /\
  (forall fresh_memory, ready (g_registry g) = false ->
     exists g', gstep tz g (Watch (AGrow (Some fresh_memory))) g' /\ ready (g_registry g') = true) /\
  (ready (g_registry g) = true -> forall f waiting,
     map snd (mq_msgs (tx_telemetry_mq (g_queues g))) = Sensor_bytes f :: waiting -> wf_sensor f ->
     ~ TelemetryMain.rejected (frames_shown tr) f -> exists g', gstep tz g (Enter f) g').
Proof.
  intros Hr. pose proof (gateway_runs _ _ _ _ _ Hr) as [(taken & queued & _ & _ & Hq) (tq & Ht & _) (lq & Hl & _) (rtr & Hs & He) _].
  destruct g as [acq pend [log tel] [b r] files].
  cbn [g_acquire g_pending g_queues g_registry tx_log_mq tx_telemetry_mq ready reg] in *.
  split; [|split; [|split; [|split; [|split]]]].
  - intros p Hp Hlen Hf. eexists. apply g_send; [done|]. by apply (mq_send_room _ queued).
  - intros now mono Hck -> Hne. destruct Hq as (Hsz & _ & Hm & _). destruct queued as [|m queued]; [by rewrite Hm in Hne|].
    destruct (handle now mono m (mk_queues log tel)) as [[z out'] pend'] eqn:Eh. exists (z =? -1). eexists.
    eapply g_process; [done| |done]. unfold mq_recv. by rewrite Hsz, Nat.ltb_irrefl, Hm.
  - intros Hne. destruct pend as [f|]; [|done]. destruct (to_telemetry f (mk_queues log tel)) as [z out'] eqn:Ef.
    exists (z =? -1). eexists. split; [by apply g_forward|done].
  - intros Hne. destruct Hl as (_ & Hsz & Hm & Hwf). destruct lq as [|f lq]; [by rewrite Hm in Hne|].
    do 2 eexists. eapply g_log; [unfold mq_recv; by rewrite Hsz, Nat.ltb_irrefl, Hm|].
    apply length_Sensor_bytes. by apply Forall_cons_1 in Hwf as [? _].
  - intros fm ->. destruct (grow_never_faults (Some fm) r) as [[r' Eg]|[_ ?]]; [|done].
    eexists. split; [apply g_watch; [done|by apply step_grow]|done].
  - intros -> f waiting Hm Hf Hrej. destruct Ht as (_ & Hsz & Hq' & _).
    destruct (enter_room rtr garbage r f Hs) as [r' Er]; [by rewrite He|].
    destruct (mq_msgs tel) as [|[prio m] rest] eqn:Em; [done|]. injection Hm as -> _.
    exists (mk_gateway acq pend (mk_queues log (set_msgs rest tel)) (mk_tstate false r') files).
    pose proof (g_enter tz acq pend log tel (mk_tstate true r) files (Sensor_bytes f) prio (set_msgs rest tel) (mk_tstate false r')) as H.
    rewrite Sensor_of_Sensor_bytes in H by done. apply H; [|by apply length_Sensor_bytes|by apply step_enter].
    unfold mq_recv. by rewrite Hsz, Nat.ltb_irrefl, Em.
Qed.

(** ** Instances of the theorems *)

(** One packet goes all the way. *)
Definition example_trace : list act :=
  let m := Sensor_bytes (frame_of example_time example_time example_packet 10) in
  [Send example_packet; Watch (AGrow None); Process (Some example_time) (Some example_time) false;
   Log (Sensor_of_bytes m); Forward false; Enter (Sensor_of_bytes m); Watch (ASweep example_time)].

(** Runs from their beginning. *)
Lemma runs_cons tz g a g1 tr g2 : gstep tz g a g1 -> runs tz g1 tr g2 -> runs tz g (a :: tr) g2.
Proof.
  intros Hs H. induction H as [|tr g2 b g3 _ IH Hb].
  - by apply (runs_snoc tz g [] g); [constructor|].
  - change (a :: tr ++ [b]) with ((a :: tr) ++ [b]). by eapply runs_snoc.
Qed.

Lemma example_run : exists g,
  runs 0 (initial_gateway (fun _ => zero_sensor) ∅) example_trace g /\ g_pending g = None /\ mq_msgs (g_acquire g) = [] /\
  mq_msgs (tx_telemetry_mq (g_queues g)) = [] /\ mq_msgs (tx_log_mq (g_queues g)) = [].
Proof.
  set (m := Sensor_bytes (frame_of example_time example_time example_packet 10)).
  assert (Hc : clocks_ok (Some example_time) (Some example_time)).
  { intros t [E|E]; injection E as <-; split; unfold i64_ok, INT64_MIN, INT64_MAX; cbn; lia. }
  eexists. split.
  - eapply runs_cons; [apply g_send; [repeat constructor; unfold is_byte; lia|reflexivity]|].
    eapply runs_cons; [apply g_watch; [reflexivity|apply step_grow; reflexivity]|].
    eapply runs_cons; [eapply (g_process _ _ _ _ _ _ _ _ _ _ 0); [exact Hc|reflexivity|vm_compute; reflexivity]|].
    eapply runs_cons; [eapply (g_log _ _ _ _ _ _ _ m); [vm_compute; reflexivity|reflexivity]|].
    eapply runs_cons; [eapply (g_forward _ _ _ _ _ _ 0); vm_compute; reflexivity|].
    eapply runs_cons; [eapply (g_enter _ _ _ _ _ _ _ m); [vm_compute; reflexivity|reflexivity|]|].
    { apply step_enter. vm_compute. reflexivity. }
    eapply runs_cons; [apply g_watch; [reflexivity|apply step_sweep]|]. constructor.
  - by repeat split.
Qed.

Lemma gateway_conserves_witness : exists g,
  (exists waiting, holds_frames (tx_telemetry_mq (g_queues g)) waiting /\
     (frames_shown example_trace ++ waiting ++ option_list (g_pending g)) `sublist_of` frames_made example_trace /\
     (no_loss example_trace -> frames_shown example_trace ++ waiting ++ option_list (g_pending g) = frames_made example_trace)) /\
  reg_ok (reg (g_registry g)) /\ history (frames_shown example_trace) (reg (g_registry g)) /\
  g_files g = log_all 0 (frames_logged example_trace) ∅.
Proof.
  destruct example_run as (g & Hr & _). exists g.
  destruct (gateway_conserves 0 (fun _ => zero_sensor) ∅ example_trace g Hr) as (_ & H1 & _ & H2 & H3 & H4).
  split; [exact H1|]. split; [exact H2|]. split; [exact H3|exact H4].
Defined.

Lemma gateway_at_rest_witness : exists g,
  length (clocks_read example_trace) = 1%nat /\ history (frames_made example_trace) (reg (g_registry g)) /\
  g_files g = log_all 0 (data_frames (frames_made example_trace)) ∅.
Proof.
  destruct example_run as (g & Hr & H0 & H1 & H2 & H3). exists g.
  apply (gateway_at_rest 0 (fun _ => zero_sensor) ∅ example_trace g Hr).
  - repeat constructor.
  - exact H0.
  - exact H1.
  - exact H2.
  - exact H3.
Defined.

Lemma gateway_progress_witness : exists g,
  runs 0 (initial_gateway (fun _ => zero_sensor) ∅) example_trace g /\
  (mq_full (g_acquire g) = false -> exists g', gstep 0 g (Send example_packet) g').
Proof.
  destruct example_run as (g & Hr & _). exists g. split; [exact Hr|]. intros Hf.
  destruct (gateway_progress 0 (fun _ => zero_sensor) ∅ example_trace g Hr) as (H & _).
  apply H; [repeat constructor; unfold is_byte; lia|unfold Processing.PACKET_SIZE; simpl; lia|exact Hf].
Defined.
