(* ===== verification/ClientMain.v ===== *)
(** src/sensor-sims/client-sensors.c, continued: [connect_to_server], the two
    thread functions from their connection to their end, and [main], which
    checks the arguments, creates the threads and waits for them. *)
From stdpp Require Import gmap.
From S2P Require Import Prelude Machine Proc CText Sense Posix Interfaces Resources ClientSensors.
Local Open Scope Z_scope.

Definition EXIT_SUCCESS : Z := 0.
Definition EXIT_FAILURE : Z := 1.

(** [thread_args_t] *)
Record thread_args_t := mk_args {
  server_ip : list Z;
  server_port : Z;
  data_file : list Z;
  thread_id : Z;
  is_latency_thread : Z
}.

(** [atoi], as [(int)strtol(s, NULL, 10)]. *)
Definition atoi (s : list Z) : Z := i32 (sto_value (strtoll 10 s)).

(** How a thread function ends; [Running] after the turns it has been given. *)
Inductive thread_end := NotConnected | NoFile | Lost | Running.

(** State of a thread: the resources of the process and its connection. *)
Record conn := mk_conn { k_sys : sys thread_args_t; k_io : io }.
Definition set_k_sys (y : sys thread_args_t) (s : conn) : conn := mk_conn y (k_io s).
Definition set_k_io (w : io) (s : conn) : conn := mk_conn (k_sys s) w.
Definition on_k_sys {A} (c : proc (sys thread_args_t) A) : proc conn A := lift k_sys set_k_sys c.
Definition on_k_io {A} (c : proc io A) : proc conn A := lift k_io set_k_io c.

Section simulator.
Context {K : Kernel}.

(** ** The threads *)

(** [connect_to_server(ip, port)]: [None] for -1. *)
Definition connect_to_server : proc (sys thread_args_t) (option nat) :=
  let! sockfd := open_fd Socket in
  match sockfd with
  | None => ret None
  | Some sockfd =>
      let! pton := call in (* inet_pton *)
      if negb pton then close sockfd ;! ret None else
      let! connected := call in (* connect *)
      if negb connected then close sockfd ;! ret None else ret (Some sockfd)
  end.

(** [normal_client_thread(arg)], for [passes] passes over the file, whose
    contents are [file]; [stack] is the uninitialised packet buffer. *)
Definition normal_client_thread (stack : list Z) (passes : nat) (file : list Z) : proc conn thread_end :=
  let! sockfd := on_k_sys connect_to_server in
  match sockfd with
  | None => ret NotConnected
  | Some sockfd =>
      let! f := on_k_sys (open_fd Other) in (* fopen *)
      match f with
      | None => on_k_sys (close sockfd) ;! ret NoFile
      | Some f =>
          let! r := on_k_io (normal_client stack passes file) in
          if r =? -1 then on_k_sys (close f) ;! on_k_sys (close sockfd) ;! ret Lost else ret Running
      end
  end.

(** [latency_client_thread(arg)], for as many turns as the clock is asked. *)
Definition latency_client_thread (stack : list Z) (clock : list (option timespec)) : proc conn thread_end :=
  let! sockfd := on_k_sys connect_to_server in
  match sockfd with
  | None => ret NotConnected
  | Some sockfd =>
      let! r := on_k_io (latency_client stack clock) in
      if r =? -1 then on_k_sys (close sockfd) ;! ret Lost else ret Running
  end.

(** ** The program *)

(** How [main] ends: with a status, or with an operation whose behaviour is
    undefined. *)
Inductive exit := Exit (status : Z) | Undefined.

(** The arguments of thread [i] as [main] stores them in [args[i]]. *)
Definition args_of (ip : list Z) (port : Z) (file : list Z) (i : nat) : thread_args_t :=
  mk_args ip port file (Z.of_nat i) (if (i =? 0)%nat then 1 else 0).

(** The loop that creates the normal clients, from [i] on; the handles are
    what it leaves in [threads[i]], ...: [None] for the zero that [calloc]
    put there. *)
Fixpoint create_clients (ip : list Z) (port : Z) (file : list Z) (i n : nat) : proc (sys thread_args_t) (list (option thread_args_t)) :=
  match n with
  | O => ret []
  | S n =>
      let a := args_of ip port file i in
      let! created := create_thread a in
      let! handles := create_clients ip port file (S i) n in
      ret ((if created then Some a else None) :: handles)
  end.

(** [pthread_join] of an existing thread returns when the thread has ended;
    until then the caller waits. *)
Definition pthread_join : proc (sys thread_args_t) unit := fun s =>
  match call s with
  | Done true s => Done tt s
  | Done false s | Waits s => Waits s
  | NoFuel => NoFuel
  end.

(** The loop that joins the threads; a handle that no [pthread_create] has
    written must not be used. *)
Fixpoint join_clients (handles : list (option thread_args_t)) : proc (sys thread_args_t) bool :=
  match handles with
  | [] => ret true
  | None :: _ => ret false
  | Some _ :: handles => pthread_join ;! join_clients handles
  end.

(** [main(argc, argv)] *)
Definition main (argv : list (list Z)) : proc (sys thread_args_t) exit :=
  if negb (length argv =? 6)%nat then ret (Exit EXIT_FAILURE) else
  let server_ip := nth 1 argv [] in
  let server_port := atoi (nth 2 argv []) in
  let data_file := nth 3 argv [] in
  let number_of_clients := atoi (nth 4 argv []) in
  if (server_port <? 1) || (65535 <? server_port) then ret (Exit EXIT_FAILURE) else
  if number_of_clients <? 1 then ret (Exit EXIT_FAILURE) else
  let! threads := malloc_cell in
  let! args := malloc_cell in
  if negb threads || negb args then
    (if threads then free_cell else ret tt) ;! (if args then free_cell else ret tt) ;! ret (Exit EXIT_FAILURE)
  else
  let first := args_of server_ip server_port data_file 0 in
  let! created := create_thread first in
  if negb created then free_cell ;! free_cell ;! ret (Exit EXIT_FAILURE) else
  let! handles := create_clients server_ip server_port data_file 1 (Z.to_nat (number_of_clients - 1)) in
  let! joined := join_clients (Some first :: handles) in
  if negb joined then ret Undefined else
  free_cell ;! free_cell ;! ret (Exit EXIT_SUCCESS).

(** ** The threads: facts *)

Lemma connect_spec s :
  wp connect_to_server s (fun r s' =>
    match r with
    | None => leaves [] 0 [] s s' /\ ~ willing s
    | Some fd => leaves [(fd, Socket)] 0 [] s s'
    end) (fun _ => False).
Proof. repeat boot_step. all: boot_done. Qed.

(** The same for a thread. *)
Lemma thread_connect_spec s (Q : option nat -> conn -> Prop) W :
  (forall y, leaves [] 0 [] (k_sys s) y -> ~ willing (k_sys s) -> Q None (set_k_sys y s)) ->
  (forall fd y, leaves [(fd, Socket)] 0 [] (k_sys s) y -> Q (Some fd) (set_k_sys y s)) ->
  wp (on_k_sys connect_to_server) s Q W.
Proof.
  intros H1 H2. apply wp_lift. eapply wp_mono; [apply connect_spec| |done].
  intros [fd|] y; [intros H; by apply H2|]. intros [H Hw]. by apply H1.
Qed.

(** What a thread leaves: while it runs the descriptors [fds] and all of [text]
    sent; when it has ended, no descriptor and a proper part of [text], or all
    of it when its clock has failed ([stops]). *)
Definition thread_post (fds : list file) (text : list Z) (stops : Prop) (s : conn) (r : thread_end) (s' : conn) : Prop :=
  match r with
  | NotConnected | NoFile => leaves [] 0 [] (k_sys s) (k_sys s') /\ k_io s' = k_io s /\ ~ willing (k_sys s)
  | Lost => leaves [] 0 [] (k_sys s) (k_sys s') /\
      (written (k_io s) text (-1) (k_io s') \/ stops /\ written (k_io s) text 0 (k_io s'))
  | Running => ~ stops /\ exists l, l.*2 = fds /\ leaves l 0 [] (k_sys s) (k_sys s') /\ written (k_io s) text 0 (k_io s')
  end.

Lemma normal_thread_spec stack passes file s :
  length stack = MAX_PACKET_SIZE ->
  wp (normal_client_thread stack passes file) s
    (thread_post [Socket; Other] (concat (packets_of (concat (replicate passes (file_readings file))))) False s) (fun _ => False).
Proof.
  intros Hs. apply wp_bind, thread_connect_spec; [intros y Hy Hw; by apply wp_ret|]. intros fd y Hy.
  apply wp_bind, wp_lift. cbn [k_sys set_k_sys]. own_step.
  2:{ intros y' Hy' Hw. apply wp_bind, wp_lift, (wp_close_leaves [] 0 [] (k_sys s) _ fd Socket); [done|].
      intros y2 Hy2. by apply wp_ret. }
  intros f y' Hy'. apply wp_bind, wp_lift. eapply wp_mono; [by apply normal_client_writes| |done].
  intros r w Hr. cbv beta in *. destruct (written_ret _ _ _ _ Hr) as [-> | ->]; cbn [Z.eqb].
  - apply wp_ret. split; [tauto|]. exists [(fd, Socket); (f, Other)]. by split; [|split].
  - apply wp_bind, wp_lift, (wp_close_leaves [(fd, Socket)] 0 [] (k_sys s) _ f Other); [done|]. intros y2 Hy2.
    apply wp_bind, wp_lift, (wp_close_leaves [] 0 [] (k_sys s) _ fd Socket); [done|]. intros y3 Hy3.
    apply wp_ret. split; [done|by left].
Qed.

(** The times a thread reads before its clock fails. *)
Fixpoint ticks (clock : list (option timespec)) : list timespec :=
  match clock with Some now :: clock => now :: ticks clock | _ => [] end.

Lemma latency_client_ticks stack clock w :
  wp (latency_client stack clock) w (fun r w' =>
    let text := concat (map (latency_packet stack) (ticks clock)) in
    r = 0 /\ None ∉ clock /\ written w text 0 w' \/
    r = -1 /\ (written w text (-1) w' \/ None ∈ clock /\ written w text 0 w')) (fun _ => False).
Proof.
  revert w. induction clock as [|[now|] clock IH]; intros w; cbn [latency_client ticks map concat].
  - apply wp_ret. left. split; [done|]. split; [apply not_elem_of_nil|apply written_nil].
  - apply wp_bind. eapply wp_mono; [apply (writes (latency_packet stack now))| |done]. intros r w1 H1. cbv beta in *.
    destruct (written_ret _ _ _ _ H1) as [-> | ->]; cbn [Z.eqb].
    + eapply wp_mono; [apply IH| |done]. intros r w2 [(-> & Hn & H2)|(-> & [H2|[Hn H2]])].
      * left. split; [done|]. split; [by apply not_elem_of_cons|by eapply written_app].
      * right. split; [done|left]. by eapply written_app.
      * right. split; [done|right]. split; [by right|by eapply written_app].
    + apply wp_ret. right. split; [done|left]. by apply written_app_err.
  - apply wp_ret. right. split; [done|right]. split; [left|apply written_nil].
Qed.

Lemma latency_thread_spec stack clock s :
  wp (latency_client_thread stack clock) s
    (thread_post [Socket] (concat (map (latency_packet stack) (ticks clock))) (None ∈ clock) s) (fun _ => False).
Proof.
  apply wp_bind, thread_connect_spec; [intros y Hy Hw; by apply wp_ret|]. intros fd y Hy.
  apply wp_bind, wp_lift. eapply wp_mono; [apply latency_client_ticks| |done].
  intros r w [(-> & Hn & Hr)|(-> & Hr)]; cbn [Z.eqb].
  - apply wp_ret. split; [done|]. exists [(fd, Socket)]. by split; [|split].
  - apply wp_bind, wp_lift, (wp_close_leaves [] 0 [] (k_sys s) _ fd Socket); [done|]. intros y3 Hy3. by apply wp_ret.
Qed.

(** C32.  A thread of the simulator gives back what it took: when it cannot
    connect or open its file, loses its connection or has no clock, it has
    closed every descriptor it opened and has sent nothing, or a part of its
    packets (those before the clock failed); while it runs it owns its
    connection (and its file) and has sent all packets of its turns. *)
Theorem client_threads_release stack passes file clock s :
  length stack = MAX_PACKET_SIZE ->
  wp (normal_client_thread stack passes file) s
    (thread_post [Socket; Other] (concat (packets_of (concat (replicate passes (file_readings file))))) False s) (fun _ => False) /\
  wp (latency_client_thread stack clock) s
    (thread_post [Socket] (concat (map (latency_packet stack) (ticks clock))) (None ∈ clock) s) (fun _ => False).
Proof. intros Hs. split; [by apply normal_thread_spec|by apply latency_thread_spec]. Qed.

(** ** The program: facts *)

(** The threads [main] means to create. *)
Definition fleet (ip : list Z) (port : Z) (file : list Z) (i n : nat) : list thread_args_t :=
  map (args_of ip port file) (seq i n).

(** The handles of the threads of [fleet] that were created. *)
Definition handles_of (ts : list thread_args_t) (handles : list (option thread_args_t)) : Prop :=
  Forall2 (fun h t => h = None \/ h = Some t) handles ts.

Definition created (handles : list (option thread_args_t)) : list thread_args_t := omap (fun h => h) handles.

Lemma handles_created ts handles : handles_of ts handles -> sublist (created handles) ts.
Proof. induction 1 as [|h t hs ts [-> | ->] _ IH]; cbn; by constructor. Qed.

Lemma create_clients_spec ip port file n i l k ts s y (Q : list (option thread_args_t) -> sys thread_args_t -> Prop) W :
  leaves l k ts s y ->
  (forall hs y', handles_of (fleet ip port file i n) hs -> leaves l k (ts ++ created hs) s y' ->
     (willing s -> None ∉ hs) -> Q hs y') ->
  wp (create_clients ip port file i n) y Q W.
Proof.
  revert i ts y Q. induction n as [|n IH]; intros i ts y Q Hl HQ; cbn [create_clients].
  - apply wp_ret, HQ; [constructor|by rewrite app_nil_r|intros _; apply not_elem_of_nil].
  - apply wp_bind. own_step. intros b y1 H1 Hb. apply wp_bind. eapply IH; [exact H1|]. intros hs y2 Hh H2 Hw.
    apply wp_ret, HQ.
    + constructor; [|done]. destruct b; auto.
    + destruct b; [|done]. cbn. by rewrite <- app_assoc in H2.
    + intros Hs. rewrite (Hb Hs). apply not_elem_of_cons. split; [done|auto].
Qed.

(** Joining: all threads have ended, or a handle was never written. *)
Lemma join_clients_spec handles l k ts s y (Q : bool -> sys thread_args_t -> Prop) (W : sys thread_args_t -> Prop) :
  leaves l k ts s y ->
  (forall (b : bool) y', leaves l k ts s y' -> (if b then None ∉ handles else None ∈ handles) -> Q b y') ->
  (forall y', leaves l k ts s y' -> ~ willing s -> W y') ->
  wp (join_clients handles) y Q W.
Proof.
  revert y Q. induction handles as [|[t|] handles IH]; intros y Q Hl HQ HW; cbn [join_clients].
  - apply wp_ret, HQ; [done|apply not_elem_of_nil].
  - assert (Hc : wp call y (fun b y' => leaves l k ts s y' /\ (willing s -> b = true)) W).
    { own_step. auto. }
    apply wp_bind. unfold wp, pthread_join in *. destruct (call y) as [[] y'| |]; [|by apply HW; [apply Hc|]; intros ?%Hc|done..].
    apply IH; [apply Hc| |done]. intros b y2 H2 Hb. apply HQ; [done|].
    destruct b; [apply not_elem_of_cons; by split|by right].
  - apply wp_ret, HQ; [done|left].
Qed.

(** The arguments [main] accepts: the address, the port, the file and the number
    of clients. *)
Definition accepted (argv : list (list Z)) : option (list Z * Z * list Z * nat) :=
  match argv with
  | [_; ip; port; file; clients; _] =>
      if (1 <=? atoi port) && (atoi port <=? 65535) && (1 <=? atoi clients)
      then Some (ip, atoi port, file, Z.to_nat (atoi clients)) else None
  | _ => None
  end.

(** The ways [main] ends. *)
Definition main_post (argv : list (list Z)) (s : sys thread_args_t) (r : exit) (s' : sys thread_args_t) : Prop :=
  match accepted argv, r with
  | None, _ => r = Exit EXIT_FAILURE /\ s' = s
  | Some (ip, port, file, n), Exit status =>
      status = EXIT_SUCCESS /\ leaves [] 0 (fleet ip port file 0 n) s s' \/
      status = EXIT_FAILURE /\ leaves [] 0 [] s s' /\ ~ willing s
  | Some (ip, port, file, n), Undefined =>
      exists ts, sublist ts (fleet ip port file 0 n) /\ ts <> fleet ip port file 0 n /\ leaves [] 2 ts s s' /\ ~ willing s
  end.

(** While [main] waits for its threads it owns the two arrays. *)
Definition main_waits (argv : list (list Z)) (s s' : sys thread_args_t) : Prop :=
  exists ip port file n ts, accepted argv = Some (ip, port, file, n) /\
    sublist ts (fleet ip port file 0 n) /\ leaves [] 2 ts s s' /\ ~ willing s.

Lemma handles_all ts handles : handles_of ts handles -> None ∉ handles -> created handles = ts.
Proof.
  induction 1 as [|h t hs ts [-> | ->] _ IH]; [done| |]; intros [Hn Hs]%not_elem_of_cons; [done|].
  change (created (Some t :: hs)) with (t :: created hs). by rewrite IH.
Qed.

Lemma handles_missing ts handles : handles_of ts handles -> None ∈ handles -> created handles <> ts.
Proof.
  intros H Hin E. assert (Hl : (length (created handles) < length handles)%nat).
  { clear E. revert Hin. clear H. induction handles as [|[t|] hs IH]; cbn; intros Hin.
    - by apply elem_of_nil in Hin.
    - apply elem_of_cons in Hin as [?|Hin]; [done|]. specialize (IH Hin). unfold created in *. lia.
    - enough (length (created hs) <= length hs)%nat by (unfold created in *; lia). clear. induction hs as [|[t|] hs IH]; cbn; unfold created in *; lia. }
  rewrite E in Hl. apply Forall2_length in H. lia.
Qed.

(** The arguments in the terms of [main]'s checks. *)
Lemma accepted_checks argv :
  match accepted argv with
  | Some (ip, port, file, n) =>
      (length argv =? 6)%nat = true /\ ip = nth 1 argv [] /\ port = atoi (nth 2 argv []) /\ file = nth 3 argv [] /\
      (port <? 1) || (65535 <? port) = false /\ (atoi (nth 4 argv []) <? 1) = false /\
      n = S (Z.to_nat (atoi (nth 4 argv []) - 1))
  | None =>
      (length argv =? 6)%nat = false \/
      (atoi (nth 2 argv []) <? 1) || (65535 <? atoi (nth 2 argv [])) = true \/ (atoi (nth 4 argv []) <? 1) = true
  end.
Proof.
  destruct argv as [|a0 [|a1 [|a2 [|a3 [|a4 [|a5 [|a6 argv]]]]]]]; cbn [accepted length Nat.eqb nth]; auto.
  repeat case_cmp; cbn; repeat split; auto; lia.
Qed.

Lemma main_spec argv s : wp (main argv) s (main_post argv s) (main_waits argv s).
Proof.
  pose proof (accepted_checks argv) as Hc. unfold main_post, main. destruct (accepted argv) as [[[[ip port] file] n]|] eqn:Ea.
  2:{ destruct (length argv =? 6)%nat; [|by apply wp_ret]. destruct Hc as [?|[-> | ->]]; [done|by apply wp_ret|].
      destruct (_ || _); by apply wp_ret. }
  destruct Hc as (-> & <- & <- & <- & -> & -> & ->). cbn [negb]. cbv iota zeta.
  set (k := Z.to_nat (atoi (nth 4 argv []) - 1)) in *. assert (Hl := leaves_refl s).
  apply wp_bind. own_step. intros b1 y1 H1 Hb1. apply wp_bind. own_step. intros b2 y2 H2 Hb2.
  destruct (negb b1 || negb b2) eqn:Eb.
  { assert (Hw : ~ willing s) by (intros Hs; by rewrite (Hb1 Hs), (Hb2 Hs) in Eb).
    destruct b1, b2; try done; repeat (own_step; intros); right; by split. }
  destruct b1, b2; try done. apply wp_bind. own_step. intros b3 y3 H3 Hb3. destruct b3; cbn [negb]; cbv iota.
  2:{ assert (Hw : ~ willing s) by (by intros ?%Hb3). repeat (own_step; intros). right; by split. }
  apply wp_bind. eapply create_clients_spec; [exact H3|]. intros hs y4 Hh H4 Hw4.
  set (first := args_of ip port file 0) in *.
  assert (Hall : handles_of (fleet ip port file 0 (S k)) (Some first :: hs)) by (constructor; auto).
  change ([] ++ [first]) with [first] in H4. change ([first] ++ created hs) with (created (Some first :: hs)) in H4.
  apply wp_bind. eapply join_clients_spec; [exact H4|..].
  - intros [] y5 H5 Hn; cbn [negb]; cbv iota.
    + rewrite (handles_all _ _ Hall Hn) in H5. repeat (own_step; intros). left; by split.
    + apply wp_ret. exists (created (Some first :: hs)). split; [by apply handles_created|].
      split; [by eapply handles_missing|]. split; [done|]. intros Hs. apply elem_of_cons in Hn as [?|Hn]; [done|].
      by apply Hw4.
  - intros y5 H5 Hw. exists ip, port, file, (S k), (created (Some first :: hs)). split; [done|].
    split; [by apply handles_created|by split].
Qed.

(** C22.  The simulator's [main], every path.  With the wrong number of arguments, a
    port outside 1..65535 or fewer than one client it fails at once and
    has done nothing; when an allocation or the first [pthread_create] fails
    it fails with everything released and no thread; otherwise it has
    created thread 0 for the latency and threads 1 to n-1 for the data file,
    returns success after all of them have ended, with both arrays freed,
    and while it waits for them it owns the arrays - except that when
    a later [pthread_create] fails it does not give up, and passes a handle
    that was never written to [pthread_join].  None of this happens when
    the calls succeed. *)
Theorem simulator_main argv s : wp (main argv) s (main_post argv s) (main_waits argv s).
Proof. apply main_spec. Qed.
End simulator.

(** ** Instances of the theorems *)

Definition example_argv : list (list Z) :=
  [str "./client-sensors"; str "10.0.2.15"; str "9000"; str "sensors.txt"; str "3"; str "1000"].

Definition example_process (oks : list bool) : sys thread_args_t :=
  mk_sys oks (list_to_map [(0%nat, Other); (1%nat, Other); (2%nat, Other)]) 0 0 128 [] [] 0.

Example main_runs :
  accepted example_argv = Some (str "10.0.2.15", 9000, str "sensors.txt", 3%nat) /\
  match main example_argv (example_process []) with
  | Done (Exit 0) s => bool_decide (map thread_id (y_threads s) = [0; 1; 2] /\ y_cells s = 0%nat)
  | _ => false
  end = true.
Proof. split; vm_compute; reflexivity. Qed.

(** The second normal client cannot be created. *)
Example main_joins_nothing :
  match main example_argv (example_process [true; true; true; true; false]) with
  | Done Undefined s => bool_decide (map thread_id (y_threads s) = [0; 1] /\ y_cells s = 2%nat)
  | _ => false
  end = true.
Proof. vm_compute. reflexivity. Qed.

Example main_rejects :
  map (fun argv => main argv (example_process []))
    [[str "x"]; [str "x"; str "ip"; str "70000"; str "f"; str "1"; str "0"]; [str "x"; str "ip"; str "80"; str "f"; str "-2"; str "0"]] =
  replicate 3 (Done (Exit EXIT_FAILURE) (example_process [])).
Proof. vm_compute. reflexivity. Qed.

Lemma client_threads_release_witness :
  let stack := replicate MAX_PACKET_SIZE 0 in
  let s := mk_conn (example_process []) (mk_io false [] [Takes 2; TxFails 32] []) in
  let file := str "4b 7 01 02" ++ [LF] in
  let clock := [Some {| tv_sec := 7; tv_nsec := 8 |}; None] in
  wp (normal_client_thread stack 1 file) s
    (thread_post [Socket; Other] (concat (packets_of (concat (replicate 1 (file_readings file))))) False s) (fun _ => False) /\
  wp (latency_client_thread stack clock) s
    (thread_post [Socket] (concat (map (latency_packet stack) (ticks clock))) (None ∈ clock) s) (fun _ => False).
Proof.
  apply (client_threads_release (replicate MAX_PACKET_SIZE 0) 1 (str "4b 7 01 02" ++ [LF])
    [Some {| tv_sec := 7; tv_nsec := 8 |}; None] (mk_conn (example_process []) (mk_io false [] [Takes 2; TxFails 32] []))).
  reflexivity.
Defined.
