(* ===== verification/ClientRace.v ===== *)
(** src/sensor-sims/client-sensors.c, continued: [strtok] keeps its position in
    a variable that all threads of the process share.  Here the body of the
    loop of [normal_client_thread] runs on that variable, with what the other
    threads do to it between two calls; [ClientSensors.parse_line] is what it
    computes when they do nothing. *)
From S2P Require Import Prelude Machine Proc CText ClientSensors.
Local Open Scope Z_scope.

(** The position [strtok] has saved (the text from there on), and what the
    other threads leave in it before each of the calls of this thread to come
    ([None]: they have not called [strtok]). *)
Record strtok_state := mk_strtok { saved : list Z; others : list (option (list Z)) }.

(** [strtok(str, delim)]; [None] stands for NULL, as argument and as result. *)
Definition strtok_shared (arg : option (list Z)) : proc strtok_state (option (list Z)) := fun s =>
  let position := default (saved s) (hd None (others s)) in
  let '(token, rest) := strtok delimiters (default position arg) in
  Done token (mk_strtok rest (tl (others s))).

(** The loop over the data bytes, as [ClientSensors.read_data]. *)
Fixpoint read_data_shared (k : nat) (data : list Z) : proc strtok_state (bool * list Z) :=
  match k with
  | O => ret (true, data)
  | S k =>
      let! token := strtok_shared None in
      match token with
      | None => ret (false, data)
      | Some token =>
          let byte_value := strtoul 16 token in
          if rejected UINT8_MAX byte_value then ret (true, [])
          else read_data_shared k (data ++ [u8 (sto_value byte_value)])
      end
  end.

(** The body of the loop up to [build_packet], as [ClientSensors.parse_line]. *)
Definition parse_line_shared (line : list Z) : proc strtok_state (option (Z * Z * list Z)) :=
  let! token := strtok_shared (Some line) in
  match token with
  | None => ret None
  | Some token =>
      if nth 0 token NUL =? 35 then ret None else
      let type_value := strtoul 16 token in
      if rejected UINT8_MAX type_value then ret None else
      let! token := strtok_shared None in
      match token with
      | None => ret None
      | Some token =>
          let id_value := strtoul 10 token in
          if rejected UINT16_MAX id_value then ret None else
          let! (token_left, data) := read_data_shared MAX_DATA_SIZE [] in
          if token_left && (length data =? 0)%nat then ret None
          else ret (Some (u8 (sto_value type_value), u16 (sto_value id_value), data))
      end
  end.

(** ** A thread alone *)

(** No other thread calls [strtok]. *)
Definition alone (s : strtok_state) : Prop := Forall (eq None) (others s).

Lemma strtok_shared_alone arg s :
  alone s ->
  let '(token, rest) := strtok delimiters (default (saved s) arg) in
  exists s', strtok_shared arg s = Done token s' /\ saved s' = rest /\ alone s'.
Proof.
  unfold strtok_shared. intros Ha.
  assert (E : default (saved s) (hd None (others s)) = saved s).
  { unfold alone in Ha. destruct (others s) as [|o os]; [done|]. inversion Ha; by subst. }
  rewrite E. destruct (strtok _ _) as [token rest]. eexists. split; [done|]. split; [done|].
  unfold alone in *. cbn. by destruct Ha.
Qed.

Lemma read_data_shared_alone k data s :
  alone s -> exists s', read_data_shared k data s = Done (read_data k data (saved s)) s' /\ alone s'.
Proof.
  revert data s. induction k as [|k IH]; intros data s Ha; cbn [read_data_shared read_data]; [by exists s|].
  pose proof (strtok_shared_alone None s Ha) as Hs. cbn [default from_option] in Hs. unfold bind.
  destruct (strtok delimiters (saved s)) as [[token|] rest]; destruct Hs as (s1 & -> & <- & Ha1); [|by exists s1].
  destruct (rejected _ _); [by exists s1|by apply IH].
Qed.

Lemma parse_line_shared_alone line s :
  alone s -> exists s', parse_line_shared line s = Done (parse_line line) s' /\ alone s'.
Proof.
  intros Ha. unfold parse_line_shared, parse_line, bind.
  pose proof (strtok_shared_alone (Some line) s Ha) as Hs.
  change (default (saved s) (Some line)) with line in Hs.
  destruct (strtok delimiters line) as [[token|] rest]; destruct Hs as (s1 & -> & <- & Ha1); [|by exists s1].
  destruct (_ =? 35); [by exists s1|]. destruct (rejected UINT8_MAX _); [by exists s1|].
  pose proof (strtok_shared_alone None s1 Ha1) as Hs. cbn [default from_option] in Hs.
  destruct (strtok delimiters (saved s1)) as [[token'|] rest']; destruct Hs as (s2 & -> & <- & Ha2); [|by exists s2].
  destruct (rejected UINT16_MAX _); [by exists s2|].
  destruct (read_data_shared_alone MAX_DATA_SIZE [] s2 Ha2) as (s3 & -> & Ha3).
  destruct (read_data _ _ _) as [left data]. exists s3. by destruct (left && _).
Qed.

Definition example_line : list Z := str "4b 4660 01 02 fe ff" ++ [LF].
Definition example_other_line : list Z := str "1b 7 aa bb" ++ [LF].

(** Two normal clients: after this thread has read the type on its line, the
    other one starts its own line; this thread then reads the other's id and
    data. *)
Lemma mixed_reading :
  exists s', parse_line_shared example_line (mk_strtok [] [None; Some (strtok delimiters example_other_line).2]) =
    Done (Some (0x4B, 7, [0xAA; 0xBB])) s'.
Proof. eexists. vm_compute. reflexivity. Qed.

(** C33.  The body of the loop of a normal client, which keeps its place in the line
    in the variable of [strtok], computes the same as the definition by which
    the properties of the simulator are stated, for every line, as long as no
    other thread calls [strtok] before the line is done.  With another client
    it need not: when the other thread begins a line of its own after this
    one has read the type, a reading can come out that is on neither line. *)
Theorem parse_line_alone :
  (forall line s, alone s -> exists s', parse_line_shared line s = Done (parse_line line) s' /\ alone s') /\
  (exists line other reading s',
    parse_line_shared line (mk_strtok [] [None; Some (strtok delimiters other).2]) = Done (Some reading) s' /\
    parse_line line <> Some reading /\ parse_line other <> Some reading).
Proof.
  split; [apply parse_line_shared_alone|]. destruct mixed_reading as [s' E].
  exists example_line, example_other_line. do 2 eexists. split; [exact E|]. split; vm_compute; discriminate.
Qed.

(** ** Instances of the theorems *)

Lemma parse_line_alone_witness :
  exists s', parse_line_shared example_line (mk_strtok (str "x") [None; None]) = Done (parse_line example_line) s' /\ alone s'.
Proof. apply (proj1 parse_line_alone example_line (mk_strtok (str "x") [None; None])). repeat constructor. Defined.

(** The other thread then finds no id on its line. *)
Example clients_mix_readings :
  parse_line example_line = Some (0x4B, 4660, [1; 2; 0xFE; 0xFF]) /\
  parse_line example_other_line = Some (0x1B, 7, [0xAA; 0xBB]) /\
  match parse_line_shared example_line (mk_strtok [] [None; Some (strtok delimiters example_other_line).2]) with
  | Done (Some r) s => bool_decide (r = (0x4B, 7, [0xAA; 0xBB]) /\ (strtok delimiters (saved s)).1 = None)
  | _ => false
  end = true.
Proof. repeat split; vm_compute; reflexivity. Qed.
