(* ===== verification/DevSession.v ===== *)
(** src/tester/dev-interface.c, continued: [connect_to_server], the set-up of
    [main], and its two threads - the user's and the one that polls the
    latency sensor - as a transition system over the mutex, the standard
    output and the latency file they share. *)
From stdpp Require Import gmap.
From S2P Require Import Prelude Machine Proc CText Sense Posix Interfaces Resources ClientSensors DevInterface.
Local Open Scope Z_scope.

(** The threads. *)
Inductive tid := User | Poller.
#[export] Instance tid_eq_dec : EqDecision tid.
Proof. solve_decision. Defined.

(** ** Connecting and starting *)

Section start.
Context {K : Kernel}.

(** The loop of [connect_to_server] over the [n] addresses still to try. *)
Fixpoint try_addresses (n : nat) : proc (sys tid) (option nat) :=
  match n with
  | O => ret None
  | S n =>
      let! sockfd := open_fd Socket in
      match sockfd with
      | None => try_addresses n
      | Some sockfd =>
          let! connected := call in (* connect *)
          if connected then ret (Some sockfd) else close sockfd ;! try_addresses n
      end
  end.

(** [connect_to_server(ip, port)], when [getaddrinfo] finds [n] addresses;
    [None] for -1. *)
Definition connect_to_server (n : nat) : proc (sys tid) (option nat) :=
  let! status := getaddrinfo in
  if negb status then ret None else
  let! sockfd := try_addresses n in
  freeaddrinfo ;! ret sockfd.

(** [main(argc, argv)] up to its loop: [None] when it goes on, otherwise the
    exit status. *)
Definition main_start (argv : list (list Z)) : proc (sys tid) (option Z) :=
  if negb (length argv =? 4)%nat then ret (Some 1) else
  let! mutex := call in (* pthread_mutex_init *)
  if negb mutex then ret (Some 1) else
  let! created := create_thread Poller in
  if negb created then ret (Some 1) else ret None.

Lemma try_addresses_spec n s y :
  leaves [] 0 [] s y ->
  wp (try_addresses n) y (fun r y' =>
    match r with
    | None => leaves [] 0 [] s y' /\ (n = 0%nat \/ ~ willing s)
    | Some fd => leaves [(fd, Socket)] 0 [] s y'
    end) (fun _ => False).
Proof.
  revert y. induction n as [|n IH]; intros y Hy; cbn [try_addresses].
  - apply wp_ret. auto.
  - assert (Hnext : forall y', leaves [] 0 [] s y' -> ~ willing s -> wp (try_addresses n) y' (fun r y' =>
      match r with
      | None => leaves [] 0 [] s y' /\ (S n = 0%nat \/ ~ willing s)
      | Some fd => leaves [(fd, Socket)] 0 [] s y'
      end) (fun _ => False)).
    { intros y' Hy' Hw. eapply wp_mono; [by apply IH| |done]. intros [fd|] y2; [done|]. intros [? _]. auto. }
    apply wp_bind. own_step; [|exact Hnext]. intros fd y1 H1. apply wp_bind. own_step. intros [] y2 H2 Hw2.
    + by apply wp_ret.
    + apply wp_bind, (wp_close_leaves [] 0 [] s _ fd Socket); [done|]. intros y3 H3. apply Hnext; [done|]. by intros ?%Hw2.
Qed.

(** Connecting leaves one descriptor, the connection, or nothing; in any case
    the addresses are released. *)
Lemma connect_to_server_spec n s :
  wp (connect_to_server n) s (fun r y =>
    match r with
    | None => leaves [] 0 [] s y /\ (n = 0%nat \/ ~ willing s)
    | Some fd => leaves [(fd, Socket)] 0 [] s y
    end) (fun _ => False).
Proof.
  apply wp_bind, wp_getaddrinfo_leaves; [intros y Hy Hw; apply wp_ret; auto|]. intros y Hy. cbn [negb]. cbv iota.
  apply wp_bind. eapply wp_mono; [by apply try_addresses_spec| |done]. intros r y' H. apply wp_bind. cbv beta in H.
  destruct r as [fd|].
  - eapply wp_freeaddrinfo_leaves; [exact H|]. intros y2 H2. by apply wp_ret.
  - destruct H as [H Hw]. eapply wp_freeaddrinfo_leaves; [exact H|]. intros y2 H2. apply wp_ret. split; [done|].
    destruct Hw as [?|Hw]; [by left|right]. intros Hs. by apply Hw.
Qed.

Lemma main_start_spec argv s :
  wp (main_start argv) s (fun r y =>
    match r with
    | None => length argv = 4%nat /\ leaves [] 0 [Poller] s y
    | Some status => status = 1 /\ leaves [] 0 [] s y /\ (length argv <> 4%nat \/ ~ willing s)
    end) (fun _ => False).
Proof.
  unfold main_start. destruct (Nat.eqb_spec (length argv) 4) as [Hl|Hl]; cbn [negb]; cbv iota.
  2:{ apply wp_ret. split; [done|]. split; [apply leaves_refl|by left]. }
  assert (H0 := leaves_refl s). apply wp_bind. own_step. intros [] y1 H1 Hw1; cbn [negb]; cbv iota.
  2:{ apply wp_ret. split; [done|]. split; [done|]. right. by intros ?%Hw1. }
  apply wp_bind. own_step. intros [] y2 H2 Hw2; cbn [negb]; cbv iota; apply wp_ret; [done|].
  split; [done|]. split; [done|]. right. by intros ?%Hw2.
Qed.
End start.

(** ** The two threads *)

(** Where the user's thread is in the loop of [main]: before the prompt,
    waiting for a line, before [pthread_mutex_lock], connecting, connected and
    about to send, receiving (with the start of a line), about to close, about
    to unlock, after the end of the input, after [pthread_join]. *)
Inductive user_pc :=
| UTop | UPrompt | ULock (command : list Z) | UConnect (command : list Z) | USend (command : list Z) (w : io)
| UReply (w : io) (line : list Z) | UClose (w : io) | UUnlock | UJoin | UDone.

(** Where [latency_receiver_thread] is. *)
Inductive poll_pc :=
| PFopen | PHeader | PLock | PConnect | PSend (w : io) | PReply (w : io) (line : list Z) | PClose (w : io)
| PUnlock | PSleep | PDone.

(** What both threads see: the standard output, the latency file (its contents,
    and whether it exists), the static variables of [log_latency] and the
    answers [clock_gettime] will give. *)
Record shared := mk_shared {
  o_out : list Z;
  o_exists : bool;
  o_file : list Z;
  o_prev : Z * Z;
  o_clock : list (option timespec)
}.

Record session := mk_session { g_user : user_pc; g_poll : poll_pc; g_mutex : option tid; g_obs : shared }.

(** The state of [DevInterface] for a thread that uses the connection [w]. *)
Definition dev_of (w : io) (o : shared) : dev :=
  {| d_io := w; d_out := o_out o; d_file := o_file o; d_prev := o_prev o; d_clock := o_clock o |}.
Definition obs_of (o : shared) (d : dev) : shared :=
  mk_shared (d_out d) (o_exists o) (d_file d) (d_prev d) (d_clock d).

Definition write_out (text : list Z) (o : shared) : shared :=
  mk_shared (o_out o ++ text) (o_exists o) (o_file o) (o_prev o) (o_clock o).
Definition write_file (b : bool) (file : list Z) (o : shared) : shared :=
  mk_shared (o_out o) b file (o_prev o) (o_clock o).

(** What [fopen] for reading finds. *)
Definition readable (o : shared) : option (list Z) := if o_exists o then Some (o_file o) else None.

(** The events of a run that matter to what is shown: a prompt, a request on a
    connection, the average of what was in the file, the creation of the
    file and its first line, a poll on a connection, the cancellation of the
    polling thread. *)
Inductive event :=
| Prompted | Asked (command : list Z) (w : io) | Averaged (file : option (list Z))
| Created | Headed | Polled (w : io) | Cancelled.

Definition COMMAND_SIZE : nat := 256.

(** One operation of the user's thread; [typed] is the line it gets when it
    reads one ([None] at the end of the input), [conn] the connection it gets
    when it connects.  [None] when it has to wait. *)
Definition user_step (typed : option (list Z)) (conn : option io) (g : session) : option (list event * session) :=
  let go u o := mk_session u (g_poll g) (g_mutex g) o in
  let o := g_obs g in
  match g_user g with
  | UTop => Some ([Prompted], go UPrompt (write_out (str "> ") o))
  | UPrompt =>
      match typed with
      | None => Some ([], go UJoin o)
      | Some command =>
          if strcmp_eq command (DevInterface.typed "GET LATENCY")
          then Some ([Averaged (readable o)], go UTop (write_out (print_average_latency (readable o)) o))
          else Some ([], go (ULock command) o)
      end
  | ULock command =>
      match g_mutex g with
      | None => Some ([], mk_session (UConnect command) (g_poll g) (Some User) o)
      | Some _ => None
      end
  | UConnect command =>
      match conn with
      | None => Some ([], go UUnlock o)
      | Some w => Some ([Asked command w], go (USend command w) o)
      end
  | USend command w =>
      match send_command command w with
      | Done r w => Some ([], go (if r =? -1 then UClose w else UReply w []) o)
      | _ => None
      end
  | UReply w line =>
      match receive_body true false line (dev_of w o) with
      | Done (inl line) d => Some ([], go (UReply (d_io d) line) (obs_of o d))
      | Done (inr _) d => Some ([], go (UClose (d_io d)) (obs_of o d))
      | _ => None
      end
  | UClose _ => Some ([], go UUnlock o)
  | UUnlock => Some ([], mk_session UTop (g_poll g) None o)
  | UJoin => match g_poll g with PDone => Some ([], go UDone o) | _ => None end
  | UDone => None
  end.

(** One operation of the polling thread; [opened] is whether [fopen] succeeds. *)
Definition poll_step (opened : bool) (conn : option io) (g : session) : option (list event * session) :=
  let go p o := mk_session (g_user g) p (g_mutex g) o in
  let o := g_obs g in
  match g_poll g with
  | PFopen => if opened then Some ([Created], go PHeader (write_file true [] o)) else Some ([], go PDone o)
  | PHeader => Some ([Headed], go PLock (write_file (o_exists o) (o_file o ++ latency_header) o))
  | PLock =>
      match g_mutex g with
      | None => Some ([], mk_session (g_user g) PConnect (Some Poller) o)
      | Some _ => None
      end
  | PConnect =>
      match conn with
      | None => Some ([], go PUnlock o)
      | Some w => Some ([Polled w], go (PSend w) o)
      end
  | PSend w =>
      match send_get_id LATENCY_SENSOR_ID w with
      | Done r w => Some ([], go (if r =? 0 then PReply w [] else PClose w) o)
      | _ => None
      end
  | PReply w line =>
      match receive_body false true line (dev_of w o) with
      | Done (inl line) d => Some ([], go (PReply (d_io d) line) (obs_of o d))
      | Done (inr _) d => Some ([], go (PClose (d_io d)) (obs_of o d))
      | _ => None
      end
  | PClose _ => Some ([], go PUnlock o)
  | PUnlock => Some ([], mk_session (g_user g) PSleep None o)
  | PSleep => Some ([], go PLock o)
  | PDone => None
  end.

(** [pthread_cancel], which takes effect at a cancellation point. *)
Definition cancel_step (g : session) : option (list event * session) :=
  match g_user g, g_poll g with
  | UJoin, (PFopen | PHeader | PConnect | PSend _ | PReply _ _ | PClose _ | PSleep) =>
      Some ([Cancelled], mk_session UJoin PDone (g_mutex g) (g_obs g))
  | _, _ => None
  end.

(** Who moves next, and what the environment answers. *)
Inductive move :=
| UserMoves (typed : option (list Z)) (conn : option io)
| PollMoves (opened : bool) (conn : option io)
| CancelMoves.

Definition session_step (m : move) (g : session) : option (list event * session) :=
  match m with
  | UserMoves typed conn => user_step typed conn g
  | PollMoves opened conn => poll_step opened conn g
  | CancelMoves => cancel_step g
  end.

(** The session when the polling thread has been created. *)
Definition session_start (o : shared) : session := mk_session UTop PFopen None o.

(** The runs of the program from the shared state [o], with their events. *)
Inductive session_runs (o : shared) : list event -> session -> Prop :=
| runs_start : session_runs o [] (session_start o)
| runs_step tr g m evs g' :
    session_runs o tr g -> session_step m g = Some (evs, g') -> session_runs o (tr ++ evs) g'.

(** Executing a schedule. *)
Fixpoint session_exec (ms : list move) (tr : list event) (g : session) : option (list event * session) :=
  match ms with
  | [] => Some (tr, g)
  | m :: ms => match session_step m g with Some (evs, g') => session_exec ms (tr ++ evs) g' | None => None end
  end.

Lemma session_exec_runs o ms tr g tr' g' :
  session_runs o tr g -> session_exec ms tr g = Some (tr', g') -> session_runs o tr' g'.
Proof.
  revert tr g. induction ms as [|m ms IH]; intros tr g H E; cbn [session_exec] in E; [by simplify_eq|].
  destruct (session_step m g) as [[evs g1]|] eqn:Es; [|done]. eapply IH; [|exact E]. by eapply runs_step.
Qed.

(** ** Mutual exclusion *)

Definition user_inside (u : user_pc) : bool :=
  match u with UConnect _ | USend _ _ | UReply _ _ | UClose _ | UUnlock => true | _ => false end.
Definition poll_inside (p : poll_pc) : bool :=
  match p with PConnect | PSend _ | PReply _ _ | PClose _ | PUnlock => true | _ => false end.

(** The connection a thread has open. *)
Definition user_conn (u : user_pc) : option io :=
  match u with USend _ w | UReply w _ | UClose w => Some w | _ => None end.
Definition poll_conn (p : poll_pc) : option io :=
  match p with PSend w | PReply w _ | PClose w => Some w | _ => None end.

(** The lock protects the two sections; a cancelled thread may keep it. *)
Record locked (g : session) : Prop := {
  lk_user : user_inside (g_user g) = true <-> g_mutex g = Some User;
  lk_poll : poll_inside (g_poll g) = true -> g_mutex g = Some Poller;
  lk_held : g_mutex g = Some Poller -> poll_inside (g_poll g) = true \/ g_poll g = PDone /\ (g_user g = UJoin \/ g_user g = UDone);
  lk_command : match g_user g with ULock c | UConnect c => strcmp_eq c (typed "GET LATENCY") = false | _ => True end
}.

Ltac session_cases E :=
  repeat match type of E with
  | context [match ?x with _ => _ end] => destruct x eqn:?
  end; simplify_eq E; repeat intros <-.

Lemma locked_step m g evs g' : session_step m g = Some (evs, g') -> locked g -> locked g'.
Proof.
  intros E [H1 H2 H3 H4]. destruct g as [u p mu o]. cbn [g_user g_poll g_mutex g_obs] in *.
  destruct m; cbn [session_step] in E; unfold user_step, poll_step, cancel_step in E; cbn [g_user g_poll g_mutex g_obs] in E.
  - destruct u; session_cases E; cbn in *; split; cbn; naive_solver.
  - destruct p; session_cases E; cbn in *; split; cbn; naive_solver.
  - session_cases E; cbn in *; split; cbn; naive_solver.
Qed.

(** ** What the two loops do to the shared state *)

Lemma write_out_nil o : write_out [] o = o.
Proof. unfold write_out. rewrite app_nil_r. by destruct o. Qed.

Lemma write_out_app a b o : write_out b (write_out a o) = write_out (a ++ b) o.
Proof. unfold write_out. cbn. by rewrite app_assoc. Qed.

(** The user's loop only prints. *)
Definition shown_text (ls : list (list Z)) : list Z := concat (map (fun l => l ++ [LF]) ls).

Lemma show_lines_user ls d : show_lines true false ls d = print (shown_text ls) d.
Proof.
  revert d. induction ls as [|l ls IH]; intros d; cbn [show_lines fold_left shown_text map concat].
  - unfold print. rewrite app_nil_r. by destruct d.
  - unfold show_lines in IH. rewrite IH. unfold show_line, print. cbn. by rewrite <- !app_assoc.
Qed.

(** The polling loop appends whole lines to the file and prints nothing. *)
Lemma show_line_poll l d :
  exists vs prev clock, Forall i64_ok vs /\
    show_line false true d l =
      {| d_io := d_io d; d_out := d_out d; d_file := d_file d ++ concat (map value_line vs); d_prev := prev; d_clock := clock |}.
Proof.
  assert (Hs : exists vs prev clock, Forall i64_ok vs /\ d =
    {| d_io := d_io d; d_out := d_out d; d_file := d_file d ++ concat (map value_line vs); d_prev := prev; d_clock := clock |}).
  { exists [], (d_prev d), (d_clock d). split; [constructor|]. cbn. rewrite app_nil_r. by destruct d. }
  unfold show_line. destruct (parse_latency_response l) as [[a b]|]; [|done]. unfold log_latency.
  destruct ((a =? (d_prev d).1) && (b =? (d_prev d).2)); [done|]. destruct (d_clock d) as [|[now|] clock].
  1,3: eexists [], _, _; (split; [constructor|]); cbn; by rewrite app_nil_r.
  eexists [latency_us a b now], _, _. split; [|cbn; by rewrite app_nil_r]. repeat constructor.
  - apply (sint_range 64). lia.
  - pose proof (sint_range 64 (i64 (i64 (tv_sec now * 1000000) + Z.quot (tv_nsec now) 1000) - i64 (i64 (a * 1000000) + Z.quot b 1000))).
    unfold latency_us, INT64_MAX. lia.
Qed.

Lemma show_lines_poll ls d :
  exists vs prev clock, Forall i64_ok vs /\
    show_lines false true ls d =
      {| d_io := d_io d; d_out := d_out d; d_file := d_file d ++ concat (map value_line vs); d_prev := prev; d_clock := clock |}.
Proof.
  revert d. induction ls as [|l ls IH]; intros d; cbn [show_lines fold_left].
  - exists [], (d_prev d), (d_clock d). split; [constructor|]. cbn. rewrite app_nil_r. by destruct d.
  - destruct (show_line_poll l d) as (vs & prev & clock & Hv & E). unfold show_lines in IH.
    destruct (IH (show_line false true d l)) as (vs' & prev' & clock' & Hv' & ->). rewrite E. cbn.
    exists (vs ++ vs'), prev', clock'. split; [by apply Forall_app|]. by rewrite map_app, concat_app, app_assoc.
Qed.

Lemma show_lines_poll_print text ls d :
  show_lines false true ls (print text d) = print text (show_lines false true ls d).
Proof.
  revert d. induction ls as [|l ls IH]; intros d; [done|]. unfold show_lines in *. cbn [fold_left].
  rewrite <- IH. f_equal. unfold show_line. destruct (parse_latency_response l) as [[a b]|]; [|done].
  unfold log_latency. cbn [d_prev d_clock print]. destruct (_ && _); [done|]. by destruct (d_clock d) as [|[]].
Qed.

(** ** The run as a sequence of turns *)

(** What the rest of a response will make the user see. *)
Definition shown (w : io) (line : list Z) : list Z := shown_text (run_lines line (stream (rx w))).1.

Definition user_text (u : user_pc) : list Z :=
  match u with
  | USend command w => match send_command command w with Done r w => if r =? -1 then [] else shown w [] | _ => [] end
  | UReply w line => shown w line
  | _ => []
  end.

(** What the rest of a response will add to the file. *)
Definition logged (w : io) (line : list Z) (o : shared) : shared :=
  obs_of o (show_lines false true (run_lines line (stream (rx w))).1 (dev_of w o)).

Definition poll_log (p : poll_pc) (o : shared) : shared :=
  match p with
  | PSend w => match send_get_id LATENCY_SENSOR_ID w with Done r w => if r =? 0 then logged w [] o else o | _ => o end
  | PReply w line => logged w line o
  | _ => o
  end.

(** The shared state once the requests that have begun are answered. *)
Definition finish (g : session) : shared := write_out (user_text (g_user g)) (poll_log (g_poll g) (g_obs g)).

(** A turn of [DevInterface] on the connection [w], alone. *)
Definition alone (turn : proc dev unit) (w : io) (o : shared) : shared :=
  match turn (dev_of w o) with Done _ d | Waits d => obs_of o d | NoFuel => o end.

(** The effect of the events one after the other, each turn as a whole. *)
Definition replay (o : shared) (e : event) : shared :=
  match e with
  | Prompted => write_out (str "> ") o
  | Asked command w => alone (user_turn true command) w o
  | Averaged file => write_out (print_average_latency file) o
  | Created => write_file true [] o
  | Headed => write_file (o_exists o) (o_file o ++ latency_header) o
  | Polled w => alone (latency_turn true) w o
  | Cancelled => o
  end.

Lemma logged_out text w line o : logged w line (write_out text o) = write_out text (logged w line o).
Proof.
  unfold logged. change (dev_of w (write_out text o)) with (print text (dev_of w o)).
  rewrite show_lines_poll_print. done.
Qed.

Lemma poll_log_out text p o : poll_log p (write_out text o) = write_out text (poll_log p o).
Proof.
  destruct p; try done; cbn [poll_log]; [|apply logged_out].
  destruct (send_get_id _ _) as [r w'| |]; [|done..]. destruct (r =? 0); [apply logged_out|done].
Qed.

Lemma obs_dev o w d : dev_of w (obs_of o d) = set_d_io w d.
Proof. by destruct d. Qed.

(** A whole response, received alone. *)
Lemma alone_receive pr lf w o :
  match receive_until_end pr lf (dev_of w o) with Done _ d | Waits d => obs_of o d | NoFuel => o end =
  obs_of o (show_lines pr lf (run_lines [] (stream (rx w))).1 (dev_of w o)).
Proof.
  pose proof (receive_loop pr lf (dev_of w o)) as H. cbv zeta in H. unfold wp, received in H. cbn [d_io dev_of] in H.
  destruct (run_lines [] (stream (rx w))) as [ls e].
  destruct (receive_until_end pr lf (dev_of w o)) as [r d|d|]; [destruct H as (? & [_ ->] & _)|destruct H as [_ ->]|done];
    rewrite show_lines_io; done.
Qed.

Lemma alone_ask command w o :
  strcmp_eq command (typed "GET LATENCY") = false ->
  alone (user_turn true command) w o = write_out (user_text (USend command w)) o.
Proof.
  intros E. unfold alone, user_turn. rewrite E. cbn [negb user_text]. cbv iota. unfold bind, on_d_io, lift. cbn [d_io dev_of].
  destruct (send_command command w) as [r w'|w'|]; [|by rewrite write_out_nil; destruct o..].
  destruct (r =? -1); [rewrite write_out_nil; by destruct o|].
  pose proof (alone_receive true false w' o) as H. change (set_d_io w' (dev_of w o)) with (dev_of w' o).
  rewrite show_lines_user in H. destruct (receive_until_end true false (dev_of w' o)); exact H.
Qed.

Lemma alone_poll w o : alone (latency_turn true) w o = poll_log (PSend w) o.
Proof.
  unfold alone, latency_turn. cbn [negb poll_log]. cbv iota. unfold bind, on_d_io, lift. cbn [d_io dev_of].
  destruct (send_get_id LATENCY_SENSOR_ID w) as [r w'|w'|]; [|by destruct o..].
  destruct (r =? 0); [|by destruct o].
  pose proof (alone_receive false true w' o) as H. change (set_d_io w' (dev_of w o)) with (dev_of w' o).
  destruct (receive_until_end false true (dev_of w' o)); exact H.
Qed.

(** One [recv] of a response in either loop. *)
Lemma user_reply_step w line o :
  match receive_body true false line (dev_of w o) with
  | Done r d => exists t, obs_of o d = write_out t o /\
      shown w line = t ++ match r with inl line' => shown (d_io d) line' | inr _ => [] end
  | _ => True
  end.
Proof.
  pose proof (receive_step true false line (dev_of w o)) as H. unfold wp in H. cbn [d_io dev_of] in H.
  destruct (receive_body true false line (dev_of w o)) as [r d|d|]; [|done..]. destruct H as (ls & E & H).
  rewrite show_lines_user in E. exists (shown_text ls). split; [by rewrite E|]. unfold shown, shown_text.
  destruct r as [line'|z]; [destruct H as [-> _]; cbn [fst]; by rewrite map_app, concat_app|].
  destruct H as (e & -> & _). by rewrite app_nil_r.
Qed.

Lemma poll_reply_step w line o :
  match receive_body false true line (dev_of w o) with
  | Done (inl line') d => logged (d_io d) line' (obs_of o d) = logged w line o
  | Done (inr _) d => obs_of o d = logged w line o
  | _ => True
  end.
Proof.
  pose proof (receive_step false true line (dev_of w o)) as H. unfold wp in H. cbn [d_io dev_of] in H.
  destruct (receive_body false true line (dev_of w o)) as [r d|d|]; [|done..]. destruct H as (ls & E & H).
  unfold logged. destruct r as [line'|z].
  - destruct H as [-> _]. cbn [fst]. rewrite show_lines_app, obs_dev, set_d_io_same.
    set (rest := (run_lines line' (stream (rx (d_io d)))).1).
    assert (Ed : show_lines false true rest d = set_d_io (d_io d) (show_lines false true rest (show_lines false true ls (dev_of w o)))).
    { rewrite E at 1. by rewrite !show_lines_io. }
    by rewrite Ed.
  - destruct H as (e & -> & _). rewrite E at 1. by rewrite show_lines_io.
Qed.

Lemma user_step_replay typed conn g evs g' :
  user_step typed conn g = Some (evs, g') -> locked g -> finish g' = fold_left replay evs (finish g).
Proof.
  intros E Hl. pose proof (lk_command _ Hl) as Hc. destruct g as [u p mu o]. unfold finish, user_step in *. cbn [g_user g_poll g_mutex g_obs] in *.
  destruct u as [| |c|c|c w|w line|w| | |].
  - simplify_eq E. intros <- <-. cbn. by rewrite poll_log_out, !write_out_nil.
  - destruct typed as [c|]; [|by simplify_eq E; intros <- <-].
    destruct (strcmp_eq c _); simplify_eq E; intros <- <-; [|done]. cbn. by rewrite poll_log_out, !write_out_nil.
  - destruct mu; [done|]. by simplify_eq E; intros <- <-.
  - destruct conn as [w|]; simplify_eq E; intros <- <-; [|done]. cbn [fold_left replay g_user g_poll g_obs].
    by rewrite alone_ask, write_out_nil by done.
  - cbn [user_text]. destruct (send_command c w) as [r w'| |]; [|done..]. simplify_eq E; intros <- <-. cbn. by destruct (r =? -1).
  - pose proof (user_reply_step w line o) as H. destruct (receive_body true false line (dev_of w o)) as [r d| |]; [|done|by destruct H].
    destruct H as (t & Ho & Ht). cbn [user_text]. rewrite Ht.
    destruct r as [line'|z]; simplify_eq E; intros <- <-; cbn; by rewrite Ho, poll_log_out, write_out_app.
  - by simplify_eq E; intros <- <-.
  - by simplify_eq E; intros <- <-.
  - destruct p; try done. by simplify_eq E; intros <- <-.
  - done.
Qed.

Lemma poll_step_replay opened conn g evs g' :
  poll_step opened conn g = Some (evs, g') -> finish g' = fold_left replay evs (finish g).
Proof.
  intros E. destruct g as [u p mu o]. unfold finish, poll_step in *. cbn [g_user g_poll g_mutex g_obs] in *.
  destruct p as [| | | |w|w line|w| | |].
  - by destruct opened; simplify_eq E; intros <- <-.
  - by simplify_eq E; intros <- <-.
  - destruct mu; [done|]. by simplify_eq E; intros <- <-.
  - destruct conn as [w|]; simplify_eq E; intros <- <-; [|done]. cbn [fold_left replay g_user g_poll g_obs].
    by rewrite alone_poll, poll_log_out.
  - cbn [poll_log]. destruct (send_get_id _ w) as [r w'| |]; [|done..]. simplify_eq E; intros <- <-. cbn. by destruct (r =? 0).
  - pose proof (poll_reply_step w line o) as H. destruct (receive_body false true line (dev_of w o)) as [[line'|z] d| |]; [..|done|done];
      simplify_eq E; intros <- <-; cbn; by rewrite H.
  - by simplify_eq E; intros <- <-.
  - by simplify_eq E; intros <- <-.
  - by simplify_eq E; intros <- <-.
  - done.
Qed.

Lemma runs_locked o tr g : session_runs o tr g -> locked g.
Proof.
  induction 1 as [|tr g m evs g' _ IH Hs]; [|by eapply locked_step].
  split; cbn; try done; by split.
Qed.

Lemma step_replay m g evs g' :
  session_step m g = Some (evs, g') -> locked g -> Cancelled ∉ evs -> finish g' = fold_left replay evs (finish g).
Proof.
  destruct m as [typed conn|opened conn|]; cbn [session_step]; intros E Hl Hc.
  - by eapply user_step_replay.
  - by eapply poll_step_replay.
  - unfold cancel_step in E. destruct (g_user g); try done. destruct (g_poll g); simplify_eq E; intros <- <-;
      by destruct Hc; left.
Qed.

Lemma finish_unlocked g : locked g -> g_mutex g = None -> finish g = g_obs g.
Proof.
  intros [H1 H2 _ _] Hm. rewrite Hm in *. unfold finish.
  assert (Hu : user_inside (g_user g) <> true) by (by intros ?%H1).
  assert (Hp : poll_inside (g_poll g) <> true) by (by intros ?%H2).
  destruct (g_user g); try (by destruct Hu); (destruct (g_poll g); try (by destruct Hp)); apply write_out_nil.
Qed.

(** ** The latency file *)

(** The header and whole lines. *)
Definition whole_lines (file : list Z) : Prop :=
  exists vs, Forall i64_ok vs /\ file = latency_header ++ concat (map value_line vs).

(** What [GET LATENCY] can find: the file of an earlier run, or none; an empty
    file; the header and whole lines. *)
Definition log_file (o : shared) (file : option (list Z)) : Prop :=
  file = readable o \/ file = Some [] \/ exists f, file = Some f /\ whole_lines f.

Definition file_inv (o : shared) (g : session) : Prop :=
  let file := readable (g_obs g) in
  match g_poll g with
  | PFopen => file = readable o
  | PHeader => file = Some []
  | PDone => log_file o file
  | _ => exists f, file = Some f /\ whole_lines f
  end.

Lemma file_inv_log o g : file_inv o g -> log_file o (readable (g_obs g)).
Proof. unfold file_inv, log_file. destruct (g_poll g); auto. Qed.

Lemma user_step_file typed conn g evs g' :
  user_step typed conn g = Some (evs, g') -> g_poll g' = g_poll g /\ readable (g_obs g') = readable (g_obs g).
Proof.
  intros E. destruct g as [u p mu o]. unfold user_step in E. cbn [g_user g_poll g_mutex g_obs] in *.
  destruct u as [| |c|c|c w|w line|w| | |]; try by (session_cases E).
  pose proof (user_reply_step w line o) as H. destruct (receive_body true false line (dev_of w o)) as [r d| |]; [|done..].
  destruct H as (t & Ho & _). by destruct r; simplify_eq E; intros <- <-; cbn; rewrite Ho.
Qed.

Lemma poll_reply_file w line o r d :
  receive_body false true line (dev_of w o) = Done r d -> o_exists o = true -> whole_lines (o_file o) ->
  readable (obs_of o d) = Some (d_file d) /\ whole_lines (d_file d).
Proof.
  intros E He (vs & Hv & Hf). unfold readable. cbn [o_exists o_file obs_of]. rewrite He. split; [done|].
  pose proof (receive_step false true line (dev_of w o)) as H. unfold wp in H. rewrite E in H. destruct H as (ls & Ed & _).
  destruct (show_lines_poll ls (set_d_io (d_io d) (dev_of w o))) as (vs' & prev & clock & Hv' & Es). rewrite Es in Ed.
  rewrite Ed. cbn. exists (vs ++ vs'). split; [by apply Forall_app|]. by rewrite Hf, map_app, concat_app, app_assoc.
Qed.

Lemma poll_step_file opened conn o g evs g' :
  poll_step opened conn g = Some (evs, g') -> file_inv o g -> file_inv o g'.
Proof.
  intros E. destruct g as [u p mu o']. unfold poll_step, file_inv in *. cbn [g_user g_poll g_mutex g_obs] in *.
  destruct p as [| | | |w|w line|w| | |].
  - destruct opened; simplify_eq E; intros <- <-; cbn; [done|]. intros ->. by left.
  - simplify_eq E; intros <- <-. cbn. unfold readable. cbn [o_exists o_file write_file].
    destruct (o_exists o'); [|done]. intros [= ->]. eexists. split; [done|]. exists []. by rewrite app_nil_r.
  - destruct mu; [done|]. by simplify_eq E; intros <- <-.
  - by destruct conn; simplify_eq E; intros <- <-.
  - destruct (send_get_id _ w) as [r w'| |]; [|done..]. simplify_eq E; intros <- <-. by destruct (r =? 0).
  - intros (f & Hf & Hw). unfold readable in Hf. destruct (o_exists o') eqn:He; [|done]. injection Hf as <-.
    destruct (receive_body false true line (dev_of w o')) as [r d| |] eqn:Er; [|done..].
    destruct (poll_reply_file _ _ _ _ _ Er He Hw) as [H1 H2].
    destruct r as [line'|z]; simplify_eq E; intros <- <-; cbn [g_poll g_obs]; by exists (d_file d).
  - by simplify_eq E; intros <- <-.
  - by simplify_eq E; intros <- <-.
  - by simplify_eq E; intros <- <-.
  - done.
Qed.

Lemma runs_file o tr g : session_runs o tr g -> file_inv o g.
Proof.
  induction 1 as [|tr g m evs g' _ IH Hs]; [done|]. destruct m as [typed conn|opened conn|]; cbn [session_step] in Hs.
  - apply user_step_file in Hs as [Hp Hr]. unfold file_inv in *. by rewrite Hp, Hr.
  - by eapply poll_step_file.
  - apply file_inv_log in IH. unfold cancel_step in Hs. destruct (g_user g); try done.
    destruct (g_poll g); simplify_eq Hs; by intros <- <-.
Qed.

(** ** Progress *)

(** A thread holds the lock and waits for bytes of the server. *)
Definition waits_for_server (g : session) : Prop :=
  (exists w line d, g_user g = UReply w line /\ receive_body true false line (dev_of w (g_obs g)) = Waits d) \/
  (exists w line d, g_poll g = PReply w line /\ receive_body false true line (dev_of w (g_obs g)) = Waits d).

Definition can_move (g : session) : Prop := exists m evs g', session_step m g = Some (evs, g').

Lemma reply_moves pr lf w line o :
  (exists r d, receive_body pr lf line (dev_of w o) = Done r d) \/ (exists d, receive_body pr lf line (dev_of w o) = Waits d).
Proof.
  pose proof (receive_step pr lf line (dev_of w o)) as H. unfold wp in H.
  destruct (receive_body _ _ _ _) as [r d|d|]; [left; by exists r, d|right; by exists d|done].
Qed.

Lemma send_get_id_done i w : exists r w', send_get_id i w = Done r w'.
Proof.
  pose proof (writes (op := send_all) ([SYNC_BYTE; SELECTION_BYTE_GETID] ++ le_bytes 2 i) w) as H. unfold wp in H.
  unfold send_get_id. destruct (send_all _ _) as [r w'| |]; [by exists r, w'|done..].
Qed.

(** A thread inside its section moves, unless it waits for the server. *)
Lemma poll_inside_moves g : poll_inside (g_poll g) = true -> can_move g \/ waits_for_server g.
Proof.
  intros Hp. destruct g as [u p mu o]. cbn in Hp. assert (Hm : forall e g', poll_step true None (mk_session u p mu o) = Some (e, g') ->
    can_move (mk_session u p mu o)) by (intros e g' E; by exists (PollMoves true None), e, g').
  unfold poll_step in Hm. cbn [g_user g_poll g_mutex g_obs] in Hm.
  destruct p as [| | | |w|w line|w| | |]; try done; try (left; by eapply Hm).
  - destruct (send_get_id_done LATENCY_SENSOR_ID w) as (r & w' & E). rewrite E in Hm. left. by eapply Hm.
  - destruct (reply_moves false true w line o) as [(r & d & E)|(d & E)].
    + rewrite E in Hm. left. destruct r; by eapply Hm.
    + right. right. by exists w, line, d.
Qed.

Lemma user_inside_moves g : user_inside (g_user g) = true -> can_move g \/ waits_for_server g.
Proof.
  intros Hu. destruct g as [u p mu o]. cbn in Hu. assert (Hm : forall e g', user_step None None (mk_session u p mu o) = Some (e, g') ->
    can_move (mk_session u p mu o)) by (intros e g' E; by exists (UserMoves None None), e, g').
  unfold user_step in Hm. cbn [g_user g_poll g_mutex g_obs] in Hm.
  destruct u as [| |c|c|c w|w line|w| | |]; try done; try (left; by eapply Hm).
  - destruct (send_command_done c w) as (r & w' & E). rewrite E in Hm. left. by eapply Hm.
  - destruct (reply_moves true false w line o) as [(r & d & E)|(d & E)].
    + rewrite E in Hm. left. destruct r; by eapply Hm.
    + right. left. by exists w, line, d.
Qed.

Lemma session_moves g : locked g -> g_user g <> UDone -> can_move g \/ waits_for_server g.
Proof.
  intros [H1 H2 H3 _] Hd. destruct (user_inside (g_user g)) eqn:Hu; [by apply user_inside_moves|].
  destruct (poll_inside (g_poll g)) eqn:Hp; [by apply poll_inside_moves|].
  assert (Hm : g_mutex g = None \/ g_poll g = PDone /\ (g_user g = UJoin \/ g_user g = UDone)).
  { destruct (g_mutex g) as [[]|]; [|destruct (H3 eq_refl); [done|by right]|by left].
    discriminate (proj2 H1 eq_refl). }
  left. destruct g as [u p mu o]. cbn in *.
  destruct u; try done; try (by eexists (UserMoves None None), _, _).
  - destruct Hm as [-> | [_ [?|?]]]; [|done..]. by eexists (UserMoves None None), _, _.
  - destruct p; try done; try (by eexists CancelMoves, _, _).
    + destruct Hm as [-> | [? _]]; [|done]. by eexists (PollMoves true None), _, _.
    + by eexists (UserMoves None None), _, _.
Qed.

(** ** Properties *)


(** C17.  Every run of the two threads, until the polling thread is cancelled, has
    the effect of the requests one after the other: whatever the
    interleaving, once the requests that have begun are answered, the output,
    the latency file and what [log_latency] remembers are those of the turns
    executed each as a whole, in the order in which they got their
    connections, with the prompts and averages between them; and they are so
    already whenever the mutex is free. *)
Theorem session_serial o tr g :
  session_runs o tr g -> Cancelled ∉ tr ->
  finish g = fold_left replay tr o /\ (g_mutex g = None -> g_obs g = fold_left replay tr o).
Proof.
  intros H Hc. assert (E : finish g = fold_left replay tr o).
  { induction H as [|tr g m evs g' H IH Hs]; [apply write_out_nil|].
    rewrite elem_of_app in Hc. rewrite fold_left_app, <- IH by tauto.
    eapply step_replay; [done|by eapply runs_locked|tauto]. }
  split; [done|]. intros Hm. rewrite <- finish_unlocked; [done|by eapply runs_locked|done].
Qed.

(** ** Instances of the theorems *)

Definition example_shared : shared :=
  mk_shared (str "Commands:" ++ [LF]) false [] (-1, -1) [Some {| tv_sec := 100; tv_nsec := 5000000 |}].

(** The polling thread gets its answer in two pieces; between them the user
    types GET LATENCY and then waits for the lock with GET ALL. *)
Definition example_polled : io := mk_io false [Arrives (str "LATENCY: 99 999" ++ str "000000" ++ [LF]); Arrives (str "END" ++ [LF])] [] [].
Definition example_asked : io := mk_io false [Arrives (str "a" ++ [LF] ++ str "EN"); Arrives (str "D" ++ [LF])] [] [].
Definition example_schedule : list move :=
  let p := PollMoves true (Some example_polled) in
  let u c := UserMoves (Some (typed c)) (Some example_asked) in
  [p; p; u "GET LATENCY"; p; p; p; p; u "GET LATENCY"; u "GET ALL"; u "GET ALL"; p; p; p] ++
  replicate 7 (u "GET ALL").

Definition example_events : list event :=
  [Created; Headed; Prompted; Polled example_polled;
   Averaged (Some (latency_header ++ str "6000" ++ [LF])); Prompted; Asked (typed "GET ALL") example_asked].

Definition example_run (n : nat) : list event * session :=
  default ([], session_start example_shared) (session_exec (take n example_schedule) [] (session_start example_shared)).

Lemma session_serial_witness :
  let g := (example_run 20).2 in
  Cancelled ∉ example_events /\ g_mutex g = None /\
  finish g = fold_left replay example_events example_shared /\
  (g_mutex g = None -> g_obs g = fold_left replay example_events example_shared).
Proof.
  assert (H : session_runs example_shared example_events (example_run 20).2).
  { eapply session_exec_runs with (ms := example_schedule); [apply runs_start|]. vm_compute. reflexivity. }
  assert (Hc : Cancelled ∉ example_events).
  { unfold example_events. rewrite !not_elem_of_cons. repeat split; try discriminate. apply not_elem_of_nil. }
  split; [exact Hc|]. split; [vm_compute; reflexivity|].
  apply (session_serial example_shared example_events (example_run 20).2 H Hc).
Defined.

(** What the user sees, and the file. *)
Example session_shows :
  let o := g_obs (example_run 20).2 in
  o_out o = str "Commands:" ++ [LF] ++ str "> Average latency from the last 1 samples: 6000 microseconds" ++ [LF] ++
            str "> a" ++ [LF] /\
  readable o = Some (latency_header ++ str "6000" ++ [LF]).
Proof. split; vm_compute; reflexivity. Qed.


(** At the end of the input the polling thread can be cancelled while it has the
    mutex, which [main] then destroys. *)
Example mutex_destroyed_locked :
  match session_exec (take 7 example_schedule ++ [UserMoves None None; CancelMoves; UserMoves None None]) []
    (session_start example_shared) with
  | Some (_, g) => match g_user g with UDone => bool_decide (g_mutex g = Some Poller) | _ => false end
  | None => false
  end = true.
Proof. vm_compute. reflexivity. Qed.
